(* ===== verification/_CoqProject ===== *)
-Q . S2P
Prelude.v
Cmem.v
Pmm.v
Paging.v
Alloc.v
Heap.v
Block.v
Disk.v
Ext2.v
Elf.v
MemInit.v
Vga.v
Keyboard.v
Serial.v
Traps.v
Dir.v
Files.v
Syscall.v
Lines.v
UserShell.v
KShell.v
Boot.v
