(* ===== verification/Prelude.v ===== *)
(** * A verification development for the i386 hobby kernel

    The repository is a small 32-bit kernel with an ELF loader, a read-only
    ext2, a text console and two shells.  This library translates its C code
    into executable Gallina, one file per part, and proves what makes each part
    correct, and where the code does not do what it means to, what it does
    instead.  This file is the root and the prelude: scopes, tactics, and the
    lemmas on integers, lists and bytes that all parts share.

    ** The parts, the files, and the code they model

    - Cmem.v: byte-addressed memory, little-endian loads and stores, and
      memset, memcpy, memmove, memcmp (arch/memory.c 517-570).
    - Pmm.v: the frame bitmap: pmm_alloc_frame, pmm_free_frame and the range
      operations (arch/memory.c).
    - Paging.v: identity_map_range, paging_mark_user_range, page_map,
      page_get_phys on tables that lie in memory (arch/memory.c).
    - Heap.v: heap_init, kmalloc, kfree, kcalloc, krealloc on block headers in
      memory (arch/memory.c).  MemInit.v: memory_init and the walks over the
      multiboot memory map (arch/memory.c 240-400).
    - Disk.v: ata_init (arch/ata.c) and disk_read (arch/disk.c) on ports.
      Ext2.v: partition probe, fs_init, read_fs_block (fs/disk_io.c),
      read_inode (fs/inode.c), load_file_to_memory (arch/load.c), and the
      mounting part of kmain.
    - Dir.v: the two lookups (arch/ext2_lookup.c, arch/path.c), resolve_path
      (arch/path.c), ext2_ls (arch/ext2_ls.c).  Files.v: ext2_cat and ext2_cd.
    - Elf.v: load_elf_program_from_vfs and its checks (arch/elf.c).
    - Vga.v: the console (arch/vga.c).  Serial.v: the serial line
      (arch/serial.c), print_hex, include/debug.h, panic (arch/panic.c).
      Keyboard.v: key maps, ring and interrupt handler (arch/keyboard.c).
    - Traps.v: GDT and TSS (src/kernel/main.c), IDT and interrupt controllers
      (arch/idt.c), the exception and page fault handlers.
    - Syscall.v: c_syscall_handler (src/kernel/main.c).
    - Lines.v: the array loops that both line editors run.  UserShell.v: the
      program user/shell.c.  KShell.v: run_shell, shell_loop, handle_command,
      run_user_program_from_file, parse_init_cmdline (src/kernel/main.c).
    - Boot.v: kmain (src/kernel/main.c), which composes the other parts.

    Each Module holds the state as Records with the source's fields, one
    definition per C function under the source's name, the specification,
    lemmas, properties and witnesses, in this order.

    ** How the code is represented

    Unsigned integers are Z in their range, wrapped by [u8], [u16] and [u32]
    where C wraps; [char] is signed.  A struct in memory is read through
    accessors at its offsets ([ld32 m (p + 8)]).  A call that does not return
    ([while (1)], a division by zero, a wait that is never served) is [None];
    errors of the code are values.  One memory is threaded through everything
    that dereferences pointers, so that aliasing (a page table in the heap, a
    segment over the kernel) can be stated; frame conditions are
    [same_outside P m m'].  The console, the keyboard ring and the frame
    bitmap have state of their own.  The pointers that a program passes to a
    system call are not checked by the kernel and may lead there: Syscall.v
    has an outcome of its own for an access to the kernel image or the screen
    ([Kernel_address]), where the model ends.  A write behind an array (the
    line of the kernel shell, [Left_buffer]) is an outcome as well, or a write
    to the byte of memory behind it (the path of cd).

    ** Interfaces

    - [Allocator]/[AllocatorLaws] (Alloc.v): kmalloc and kfree as clients see
      them.  Heap.v discharges it; Elf.v, Dir.v, Files.v and KShell.v are
      proved against it.
    - [BlockDevice]/[BlockDeviceLaws] (Block.v): a read that returns and
      delivers the disk.  Disk.v discharges it from [AtaPort]/[AtaDrive], which
      say what the ATA standard promises of a drive; Ext2.v gives a disk image
      in memory as a second instance, for witnesses.
    - [Vfs]/[VfsLaws] (Elf.v): vfs_read and the node, of fs/vfs.c, which the
      repository does not hold.  [KString]/[KStringLaws] (Dir.v): strcmp,
      strncmp, strlen of the missing string.c, as the C standard says.

    ** What is proved

    - Memory: regions handed out are disjoint and stay so in every run of a
      client, nothing leaks, kmalloc refines first fit with splitting and kfree
      coalescing on a list of blocks; frames are accounted exactly; page_map
      and page_get_phys are inverse; memory_init opens exactly the user pages.
      Frames handed out after memory_init are pages of available memory that
      the kernel does not use.
    - Files: loading stores the bytes of the file, holes as zeros; directories
      are listed and searched in the order of the disk, to the end of the
      single indirect block when the heap has room for it and to the twelfth
      block when it has not ([reach]), and the search returns the first match;
      a path leads where the lookups of its names lead, for every path; cat
      prints a file without holes that fits the indirect block whole, and of
      others what lies in allocated blocks up to there.  Mounting is described
      for disks of the geometry that the buffers are made for ([supported]),
      with a valid, a missing and a misplaced inode table, and for disks
      without the magic number or with the inode size 0.
    - Loading: a file of a size that kmalloc can take ([max_request]) is accepted
      exactly when it is well formed, which [elf_ok] says in terms of the ELF
      format; the user region then holds what its segments say, and no such
      file can make the loader write elsewhere.
    - Console, keyboard, serial: printing refines an unbounded transcript of
      which the screen shows the last 25 rows; under every interleaving of
      interrupt and reader the ring is a queue; typing on a US keyboard, given
      by its rows of keys and make codes, puts the text into it; the line sends
      what is printed exactly when the transmitter gets ready again and again.
    - Protection: descriptors and gates decode to the intended rights; the only
      open interrupt has a handler; a fault in ring 3 goes back to the shell,
      with its address, instruction and error code on the serial line.
    - Shells: both line editors refine a text with a cursor; typing "cat" and a
      name shows what cat shows of the file; only accepted programs are started.
    - Boot: kmain reaches user mode with all of this set up at once.
    - Defects (the findings): overflow of a request near 4 GiB, inverted ATA
      timeouts, arguments that the user shell loses, its output that the
      kernel refuses, buffers that the history and cd overrun, files near 4 GiB
      that are accepted with nothing loaded, and others.

    ** Fuel

    Loops over data take their bound from it: [heap_fuel] is the number of
    16-byte units of the heap (every block is larger), [mmap_fuel] the length
    of the memory map, [phdr_fuel] 65536 program headers (e_phnum has 16 bits),
    [scan_block] the size of a block, [path] fuels the length of the text;
    theorems say that the result is reached.  The polls of ata.c and disk.c
    have the counts of the source.  Waits on hardware ([serial_wait],
    [wait_idle], [hlt]) take a bound of the environment's choice, and there are
    theorems for both answers: enough gives the result, and when the hardware
    never answers no fuel does.

    ** Not modelled

    Assembly (boot.s, io.s, idt.s, gdt_flush.s, int 0x80 of include/syscall.h):
    its effects are the arguments of the C functions.  Code that the repository
    refers to but does not hold (string.c, task.c, fs/vfs.c,
    load_elf_program_from_inode, auto_enter_user_mode) is a parameter or an
    interface.  Debug output on the serial line is left out of the functions
    whose result is not this output, and so are delay loops.  The unused
    shell_backspace, shell_reset, and strncmp and strncpy of user/shell.c;
    preprocessor output, backups and logs.  Timing, caches and the processor's
    own checks are not modelled; Traps.v and Paging.v decode descriptors and
    tables as the manuals say. *)

From Stdlib Require Export ZArith Lia.
From Stdlib Require Import String Ascii.
From stdpp Require Export base tactics list numbers gmap fin_maps option.
#[global] Set Warnings "-notation-overridden".
Local Open Scope Z_scope.

(** ** Scopes, hint databases and small tactics *)

Declare Scope kernel_scope.
Delimit Scope kernel_scope with kernel.

Create HintDb kernel.
Create Rewrite HintDb kernel_rw.

(** [mlia] decides linear goals that also contain [/] and [mod] by
    constants. *)
Ltac mlia := Z.div_mod_to_equations; lia.

(** [bool_to_prop] turns the boolean comparisons of the executable
    definitions into propositions, in the whole context. *)
Ltac bool_to_prop :=
  repeat match goal with
  | H : (_ <? _) = true |- _ => apply Z.ltb_lt in H
  | H : (_ <? _) = false |- _ => apply Z.ltb_ge in H
  | H : (_ <=? _) = true |- _ => apply Z.leb_le in H
  | H : (_ <=? _) = false |- _ => apply Z.leb_gt in H
  | H : (_ =? _) = true |- _ => apply Z.eqb_eq in H
  | H : (_ =? _) = false |- _ => apply Z.eqb_neq in H
  | H : _ && _ = true |- _ => apply andb_true_iff in H as [? ?]
  | H : _ || _ = false |- _ => apply orb_false_iff in H as [? ?]
  | H : negb _ = true |- _ => apply negb_true_iff in H
  | H : negb _ = false |- _ => apply negb_false_iff in H
  end.

(** [case_cond] splits on the first boolean test of the goal and records the
    outcome as a proposition. *)
Ltac case_cond :=
  match goal with
  | |- context [if ?b then _ else _] =>
      let E := fresh "E" in destruct b eqn:E; bool_to_prop
  end.

(** [z_cases] splits on every integer comparison left in the goal. *)
Ltac z_cases :=
  repeat match goal with
  | |- context [?a <? ?b] => destruct (Z.ltb_spec a b)
  | |- context [?a <=? ?b] => destruct (Z.leb_spec a b)
  | |- context [?a =? ?b] => destruct (Z.eqb_spec a b)
  end; simpl.

(** ** Machine integers

    A C integer of width [w] is a [Z]; the wrap-around of unsigned
    arithmetic is written out with [u8], [u16] and [u32]. *)

Definition u8 (z : Z) : Z := z mod 2 ^ 8.
Definition u16 (z : Z) : Z := z mod 2 ^ 16.
Definition u32 (z : Z) : Z := z mod 2 ^ 32.

#[global] Arguments u8 : simpl never.
#[global] Arguments u16 : simpl never.
#[global] Arguments u32 : simpl never.

(** The value of a [char] (signed on i386) held in the byte [b]. *)
Definition char_val (b : Z) : Z := if b <? 128 then b else b - 256.

Definition is_u8 (z : Z) : Prop := 0 <= z < 2 ^ 8.
Definition is_u32 (z : Z) : Prop := 0 <= z < 2 ^ 32.

Lemma u32_range z : 0 <= u32 z < 2 ^ 32.
Proof. apply Z.mod_pos_bound. lia. Qed.

Lemma u32_is_u32 z : is_u32 (u32 z).
Proof. apply u32_range. Qed.

Lemma u16_range z : 0 <= u16 z < 2 ^ 16.
Proof. apply Z.mod_pos_bound. lia. Qed.

Lemma u8_range z : 0 <= u8 z < 2 ^ 8.
Proof. apply Z.mod_pos_bound. lia. Qed.

Lemma u8_is_u8 z : is_u8 (u8 z).
Proof. apply u8_range. Qed.

Lemma u32_small z : 0 <= z < 2 ^ 32 -> u32 z = z.
Proof. apply Z.mod_small. Qed.

Lemma u16_small z : 0 <= z < 2 ^ 16 -> u16 z = z.
Proof. apply Z.mod_small. Qed.

Lemma u8_small z : 0 <= z < 2 ^ 8 -> u8 z = z.
Proof. apply Z.mod_small. Qed.

Lemma u32_u32 z : u32 (u32 z) = u32 z.
Proof. apply u32_small, u32_range. Qed.

#[export] Hint Resolve u32_is_u32 u8_is_u8 u32_range u8_range u16_range : kernel.
#[export] Hint Rewrite u32_u32 : kernel_rw.

(** [u32_nowrap] removes every [u32] whose argument [lia] can bound. *)
Ltac u32_nowrap :=
  repeat match goal with
  | |- context [u32 ?e] => rewrite (u32_small e) by mlia
  end.

(** ** Bits *)

(** [x & ~(2^k - 1)], the masking of [align_up] and of page addresses. *)
Definition mask_low (k x : Z) : Z := Z.land x (u32 (Z.lnot (2 ^ k - 1))).

Lemma testbit_high x w i : 0 <= x < 2 ^ w -> w <= i -> Z.testbit x i = false.
Proof.
  intros Hx Hi. destruct (decide (0 <= w)) as [Hw|Hw].
  - rewrite <- (Z.mod_small x (2 ^ w)) by done. apply Z.mod_pow2_bits_high. lia.
  - rewrite Z.pow_neg_r in Hx by lia. lia.
Qed.

Lemma u32_testbit x i : 0 <= i < 32 -> Z.testbit (u32 x) i = Z.testbit x i.
Proof. intros. unfold u32. apply Z.mod_pow2_bits_low. lia. Qed.

Lemma bits_bound x w :
  0 <= w -> 0 <= x -> (forall i, w <= i -> Z.testbit x i = false) -> x < 2 ^ w.
Proof.
  intros Hw Hx H. assert (Hm : x = x mod 2 ^ w); [|rewrite Hm; apply Z.mod_pos_bound; lia].
  apply Z.bits_inj'. intros i Hi. destruct (decide (i < w)).
  - by rewrite Z.mod_pow2_bits_low by lia.
  - rewrite H, Z.mod_pow2_bits_high by lia. done.
Qed.

Lemma lor_u32 a b : is_u32 a -> is_u32 b -> is_u32 (Z.lor a b).
Proof.
  intros Ha Hb. unfold is_u32 in *. split; [apply Z.lor_nonneg; lia|].
  apply bits_bound; [lia|apply Z.lor_nonneg; lia|]. intros i Hi.
  by rewrite Z.lor_spec, !(testbit_high _ 32) by lia.
Qed.

Lemma land_u32 a b : is_u32 a -> is_u32 (Z.land a b).
Proof.
  intros Ha. unfold is_u32 in *. split; [apply Z.land_nonneg; lia|].
  apply bits_bound; [lia|apply Z.land_nonneg; lia|]. intros i Hi.
  by rewrite Z.land_spec, (testbit_high _ 32) by lia.
Qed.

#[export] Hint Resolve lor_u32 land_u32 : kernel.

Lemma mask_low_div k x :
  0 <= k -> 0 <= x < 2 ^ 32 -> mask_low k x = x / 2 ^ k * 2 ^ k.
Proof.
  intros Hk Hx. unfold mask_low.
  transitivity (Z.ldiff x (Z.ones k)).
  - apply Z.bits_inj'. intros i Hi.
    rewrite Z.land_spec, Z.ldiff_spec.
    destruct (decide (i < 32)) as [Hi32|Hi32].
    + rewrite u32_testbit, Z.lnot_spec by lia.
      by rewrite Z.ones_equiv, Z.sub_1_r.
    + rewrite (testbit_high x 32) by lia. done.
  - rewrite Z.ldiff_ones_r, Z.shiftl_mul_pow2, Z.shiftr_div_pow2 by lia. done.
Qed.

Lemma land_ones_mod x k : 0 <= k -> Z.land x (2 ^ k - 1) = x mod 2 ^ k.
Proof.
  intros. rewrite <- Z.land_ones by done. f_equal. rewrite Z.ones_equiv. lia.
Qed.

(** A number that is a multiple of [2^k] and one below [2^k] have no bit in
    common, so [|] adds them. *)
Lemma lor_disjoint_add hi lo k :
  0 <= k -> 0 <= lo < 2 ^ k -> hi mod 2 ^ k = 0 -> Z.lor hi lo = hi + lo.
Proof.
  intros Hk Hlo Hhi. symmetry.
  assert (Hl : Z.land hi lo = 0).
  { apply Z.bits_inj'. intros i Hi. rewrite Z.land_spec, Z.bits_0.
    destruct (decide (i < k)) as [Hik|Hik].
    - assert (Hb : Z.testbit hi i = false); [|by rewrite Hb].
      rewrite <- (Z.mod_pow2_bits_low hi k i), Hhi by lia. apply Z.bits_0.
    - rewrite (testbit_high lo k) by lia. apply andb_false_r. }
  rewrite <- Z.lxor_lor by done. by apply Z.add_nocarry_lxor.
Qed.

(** ** Rounding

    [align_up_u32] and [align_up] of arch/memory.c: both are
    [(value + align - 1u) & ~(align - 1u)] on 32-bit unsigned values. *)
Definition align_up_u32 (value align : Z) : Z :=
  Z.land (u32 (u32 (value + align) - 1)) (u32 (Z.lnot (u32 (align - 1)))).

Lemma align_up_u32_pow2 k v :
  0 <= k < 32 ->
  align_up_u32 v (2 ^ k) = u32 (v + 2 ^ k - 1) / 2 ^ k * 2 ^ k.
Proof.
  intros Hk. unfold align_up_u32.
  assert (0 < 2 ^ k < 2 ^ 32) by (split; [lia | apply Z.pow_lt_mono_r; lia]).
  rewrite (u32_small (2 ^ k - 1)) by lia.
  fold (mask_low k (u32 (u32 (v + 2 ^ k) - 1))).
  rewrite mask_low_div by (lia || apply u32_range).
  unfold u32. by rewrite Zminus_mod_idemp_l.
Qed.

(** ** Lists indexed by machine integers *)

(** [l[i]] for an index known to be in range; [0] stands for nothing. *)
Definition getZ (l : list Z) (i : Z) : Z := default 0 (l !! Z.to_nat i).
Definition setZ (l : list Z) (i v : Z) : list Z := <[Z.to_nat i := v]> l.

Definition inrange {A} (l : list A) (i : Z) : Prop := 0 <= i < Z.of_nat (length l).

Lemma getZ_setZ_eq l i v : inrange l i -> getZ (setZ l i v) i = v.
Proof.
  intros [? ?]. unfold getZ, setZ. rewrite list_lookup_insert_eq by lia. done.
Qed.

Lemma getZ_setZ_ne l i j v : 0 <= i -> 0 <= j -> i <> j -> getZ (setZ l i v) j = getZ l j.
Proof. intros. unfold getZ, setZ. rewrite list_lookup_insert_ne by lia. done. Qed.

Lemma length_setZ l i v : length (setZ l i v) = length l.
Proof. apply length_insert. Qed.

#[export] Hint Rewrite length_setZ : kernel_rw.

Lemma getZ_Forall (P : Z -> Prop) l i : Forall P l -> P 0 -> P (getZ l i).
Proof.
  intros Hl H0. unfold getZ. destruct (l !! Z.to_nat i) eqn:E; [|done].
  by eapply Forall_lookup_1.
Qed.

Lemma setZ_Forall (P : Z -> Prop) l i v : Forall P l -> P v -> Forall P (setZ l i v).
Proof. intros. by apply Forall_insert. Qed.

(** A decidable fact about every integer of a small range, by evaluation. *)
Lemma check_range (f : Z -> bool) lo n x :
  forallb f (seqZ lo n) = true -> lo <= x < lo + n -> f x = true.
Proof.
  intros Hf Hx. rewrite forallb_forall in Hf. apply Hf, list_elem_of_In, elem_of_seqZ. lia.
Qed.

Lemma find_ext_in {A} (f g : A -> bool) (l : list A) :
  (forall x, In x l -> f x = g x) -> List.find f l = List.find g l.
Proof.
  induction l as [|x l IH]; intros H; cbn [List.find]; [done|].
  rewrite (H x) by (by left). destruct (g x); [done|]. apply IH. intros y Hy. apply H. by right.
Qed.

(** ** Strings

    The characters of a C string literal, without the NUL. *)
Definition chars (s : string) : list Z := List.map (fun a => Z.of_nat (nat_of_ascii a)) (list_ascii_of_string s).

(** ** Loops

    [u32_for fuel a hi step body s] is
    [for (uint32_t x = a; x < hi; x += step) body], with the counter wrapping
    at 32 bits; [None] says that the fuel ran out. *)
Fixpoint u32_for {S} (fuel : nat) (a hi step : Z) (body : Z -> S -> S) (s : S) : option S :=
  if a <? hi then
    match fuel with
    | O => None
    | Datatypes.S fuel' => u32_for fuel' (u32 (a + step)) hi step body (body a s)
    end
  else Some s.

(** The iterations such a loop makes when the counter does not wrap. *)
Definition for_fuel (a hi step : Z) : nat := Z.to_nat ((hi - a + step - 1) / step).

(** [body] run on [a], [a + step], ..., [n] times. *)
Fixpoint iter_from {S} (n : nat) (a step : Z) (body : Z -> S -> S) (s : S) : S :=
  match n with
  | O => s
  | Datatypes.S n' => iter_from n' (a + step) step body (body a s)
  end.

(** With enough fuel and a bound that the counter reaches without wrapping,
    the loop terminates and is [iter_from]. *)
Lemma u32_for_iter {S} (body : Z -> S -> S) step :
  0 < step ->
  forall n fuel a hi s,
  0 <= a -> (n <= fuel)%nat -> a + step * Z.of_nat n < 2 ^ 32 ->
  hi <= a + step * Z.of_nat n -> (n = O \/ a + step * (Z.of_nat n - 1) < hi) ->
  u32_for fuel a hi step body s = Some (iter_from n a step body s).
Proof.
  intros Hstep n. induction n as [|n IH]; intros fuel a hi s Ha Hf Hw Hhi Hlo.
  - destruct fuel; simpl; by rewrite (proj2 (Z.ltb_ge a hi)) by lia.
  - destruct fuel as [|fuel]; [lia|]. simpl.
    assert (Hlt : a + step * Z.of_nat n < hi) by (destruct Hlo; [lia|]; nia).
    rewrite (proj2 (Z.ltb_lt a hi)) by nia.
    rewrite u32_small by nia.
    apply IH; nia.
Qed.

Lemma u32_for_pages {S} (body : Z -> S -> S) step a hi s :
  0 < step -> 0 <= a -> hi + step <= 2 ^ 32 ->
  u32_for (for_fuel a hi step) a hi step body s
  = Some (iter_from (for_fuel a hi step) a step body s).
Proof.
  intros Hs Ha Hhi. unfold for_fuel.
  destruct (decide (hi <= a)) as [Hle|Hgt].
  - assert ((hi - a + step - 1) / step <= 0).
    { apply Z.lt_succ_r, Z.div_lt_upper_bound; lia. }
    rewrite Z2Nat.nonpos by lia. simpl. by rewrite (proj2 (Z.ltb_ge a hi)).
  - set (q := (hi - a + step - 1) / step).
    assert (Hq : step * q <= hi - a + step - 1 < step * q + step).
    { pose proof (Z.div_mod (hi - a + step - 1) step). pose proof (Z.mod_pos_bound (hi - a + step - 1) step). subst q. lia. }
    assert (0 < q) by nia.
    apply u32_for_iter; rewrite ?Z2Nat.id by lia; try nia.
Qed.

Lemma iter_from_inv {S} (body : Z -> S -> S) (P : S -> Prop) step n a s :
  P s -> (forall i s', 0 <= i < Z.of_nat n -> P s' -> P (body (a + step * i) s')) ->
  P (iter_from n a step body s).
Proof.
  revert a s. induction n as [|n IH]; intros a s Hs Hb; simpl; [done|].
  apply IH.
  - replace a with (a + step * 0) by lia. apply Hb; [lia|done].
  - intros i s' Hi Hs'. replace (a + step + step * i) with (a + step * (i + 1)) by lia.
    apply Hb; [lia|done].
Qed.

Lemma u32_for_inv {S} (body : Z -> S -> S) (P : S -> Prop) step hi fuel a s s' :
  is_u32 a -> u32_for fuel a hi step body s = Some s' -> P s ->
  (forall i t, is_u32 i -> i < hi -> P t -> P (body i t)) -> P s'.
Proof.
  revert a s. induction fuel as [|fuel IH]; intros a s Ha; simpl;
    destruct (Z.ltb_spec a hi); intros Hrun Hs Hb; simplify_eq; try done.
  apply (IH (u32 (a + step)) (body a s)); auto with kernel.
Qed.

(** A step of the error monad whose outcome is known; rewriting with it keeps
    the kernel from evaluating the steps. *)
Lemma bind_some {A B} (f : A -> option B) (x : option A) (a : A) : x = Some a -> (x ≫= f) = f a.
Proof. by intros ->. Qed.
