(* ===== verification/Cmem.v ===== *)
(** * Byte-addressed memory and the mem* functions of arch/memory.c

    Memory is a finite map from addresses to bytes (unwritten bytes read as
    zero, like the kernel's .bss); [ld32] / [st32] are the little-endian
    accesses of the i386.  The library functions at the end of arch/memory.c
    are the loops of the source, one byte at a time and in its order, so that
    overlapping buffers behave as they do there. *)

From S2P Require Import Prelude.
Local Open Scope Z_scope.

Abbreviation mem := (gmap Z Z).

Definition ld8 (m : mem) (a : Z) : Z := default 0 (m !! a).
Definition st8 (m : mem) (a v : Z) : mem := <[a := u8 v]> m.

Definition ld16 (m : mem) (a : Z) : Z := ld8 m a + 256 * ld8 m (a + 1).
Definition ld32 (m : mem) (a : Z) : Z :=
  ld8 m a + 256 * (ld8 m (a + 1) + 256 * (ld8 m (a + 2) + 256 * ld8 m (a + 3))).
Definition st32 (m : mem) (a v : Z) : mem :=
  st8 (st8 (st8 (st8 m a v) (a + 1) (v / 256)) (a + 2) (v / 65536)) (a + 3) (v / 16777216).

Definition st16 (m : mem) (a v : Z) : mem := st8 (st8 m a v) (a + 1) (v / 256).

#[global] Arguments ld8 : simpl never.
#[global] Arguments st8 : simpl never.
#[global] Arguments ld16 : simpl never.
#[global] Arguments ld32 : simpl never.
#[global] Arguments st32 : simpl never.
#[global] Arguments st16 : simpl never.

(** Every stored byte is a byte. *)
Definition mem_wf (m : mem) : Prop := forall a, is_u8 (ld8 m a).

(** [same_outside P m m']: the two memories agree on every address that does
    not satisfy [P]. *)
Definition same_outside (P : Z -> Prop) (m m' : mem) : Prop :=
  forall a, ~ P a -> ld8 m' a = ld8 m a.

Lemma ld8_st8 m a b v : ld8 (st8 m a v) b = if a =? b then u8 v else ld8 m b.
Proof.
  unfold ld8, st8. destruct (Z.eqb_spec a b) as [->|].
  - by rewrite lookup_insert_eq.
  - by rewrite lookup_insert_ne.
Qed.

Lemma ld8_st8_eq m a v : ld8 (st8 m a v) a = u8 v.
Proof. by rewrite ld8_st8, Z.eqb_refl. Qed.

Lemma ld8_st8_ne m a b v : a <> b -> ld8 (st8 m a v) b = ld8 m b.
Proof. intros. by rewrite ld8_st8, (proj2 (Z.eqb_neq a b)). Qed.

Lemma st8_wf m a v : mem_wf m -> mem_wf (st8 m a v).
Proof. intros H b. rewrite ld8_st8. destruct (a =? b); auto with kernel. Qed.

Lemma st32_wf m a v : mem_wf m -> mem_wf (st32 m a v).
Proof. intros. unfold st32. auto using st8_wf. Qed.

#[export] Hint Resolve st8_wf st32_wf : kernel.

Lemma ld8_st32_ne m a b v : b < a \/ a + 4 <= b -> ld8 (st32 m a v) b = ld8 m b.
Proof. intros. unfold st32. by rewrite !ld8_st8_ne by lia. Qed.

Lemma ld32_st32_eq m a v : is_u32 v -> ld32 (st32 m a v) a = v.
Proof.
  intros Hv. unfold ld32, st32. rewrite !ld8_st8. z_cases; try lia.
  unfold is_u32, u8 in *. change (2 ^ 8) with 256. change (2 ^ 32) with 4294967296 in *. mlia.
Qed.

Lemma ld32_st32_ne m a b v : b + 4 <= a \/ a + 4 <= b -> ld32 (st32 m a v) b = ld32 m b.
Proof. intros. unfold ld32. by rewrite !ld8_st32_ne by lia. Qed.

Lemma ld32_st8_ne m a b v : a < b \/ b + 4 <= a -> ld32 (st8 m a v) b = ld32 m b.
Proof. intros. unfold ld32. by rewrite !ld8_st8_ne by lia. Qed.

Lemma ld16_st16_eq m a v : 0 <= v < 2 ^ 16 -> ld16 (st16 m a v) a = v.
Proof.
  intros Hv. unfold ld16, st16. rewrite !ld8_st8. z_cases; try lia.
  unfold u8 in *. change (2 ^ 8) with 256. change (2 ^ 16) with 65536 in *. mlia.
Qed.

Lemma st16_wf m a v : mem_wf m -> mem_wf (st16 m a v).
Proof. intros. unfold st16. auto using st8_wf. Qed.

Lemma ld8_st16_ne m a b v : b < a \/ a + 2 <= b -> ld8 (st16 m a v) b = ld8 m b.
Proof. intros. unfold st16. by rewrite !ld8_st8_ne by lia. Qed.

Lemma ld32_u32 m a : mem_wf m -> is_u32 (ld32 m a).
Proof.
  intros H. unfold ld32, is_u32.
  pose proof (H a). pose proof (H (a + 1)). pose proof (H (a + 2)). pose proof (H (a + 3)).
  unfold is_u8 in *. lia.
Qed.

#[export] Hint Resolve ld32_u32 : kernel.

Lemma ld32_same m m' a : (forall i, a <= i < a + 4 -> ld8 m' i = ld8 m i) -> ld32 m' a = ld32 m a.
Proof. intros H. unfold ld32. by rewrite !H by lia. Qed.

Lemma same_outside_ld32 P m m' a :
  same_outside P m m' -> (forall i, a <= i < a + 4 -> ~ P i) -> ld32 m' a = ld32 m a.
Proof. intros H Hp. apply ld32_same. intros. by apply H, Hp. Qed.

(** [same_outside] is an equivalence that grows with its set, so that frame
    conditions compose by transitivity. *)
#[export] Instance same_outside_equiv P : Equivalence (same_outside P).
Proof.
  split.
  - by intros m a.
  - intros m m' H a Ha. symmetry. by apply H.
  - intros m1 m2 m3 H1 H2 a Ha. rewrite H2 by done. by apply H1.
Qed.

Lemma same_outside_mono (P Q : Z -> Prop) m m' :
  (forall a, P a -> Q a) -> same_outside P m m' -> same_outside Q m m'.
Proof. intros HPQ H a Ha. apply H. auto. Qed.

Lemma same_outside_st8 (P : Z -> Prop) m a v : P a -> same_outside P m (st8 m a v).
Proof. intros Hp b Hb. apply ld8_st8_ne. by intros ->. Qed.

Lemma same_outside_st32 (P : Z -> Prop) m a v :
  (forall i, a <= i < a + 4 -> P i) -> same_outside P m (st32 m a v).
Proof.
  intros Hp b Hb. apply ld8_st32_ne.
  destruct (decide (b < a)); [by left|right]. destruct (decide (a + 4 <= b)); [done|].
  exfalso. apply Hb, Hp. lia.
Qed.

(** ** memset, memcpy, memmove, memcmp

    [n--] counts a [size_t] down to zero, so the loops are structural in the
    number of bytes. *)

Fixpoint memset_loop (n : nat) (p c : Z) (m : mem) : mem :=
  match n with
  | O => m
  | S n' => memset_loop n' (p + 1) c (st8 m p c)
  end.

Definition memset (dst c n : Z) (m : mem) : mem := memset_loop (Z.to_nat n) dst c m.

(** [*d++ = *s++]: also the forward half of memmove. *)
Fixpoint copy_up (n : nat) (d s : Z) (m : mem) : mem :=
  match n with
  | O => m
  | S n' => copy_up n' (d + 1) (s + 1) (st8 m d (ld8 m s))
  end.

(** [*--d = *--s] *)
Fixpoint copy_down (n : nat) (d s : Z) (m : mem) : mem :=
  match n with
  | O => m
  | S n' => copy_down n' (d - 1) (s - 1) (st8 m (d - 1) (ld8 m (s - 1)))
  end.

Definition memcpy (dst src n : Z) (m : mem) : mem := copy_up (Z.to_nat n) dst src m.

Definition memmove (dst src n : Z) (m : mem) : mem :=
  if (dst =? src) || (n =? 0) then m
  else if dst <? src then copy_up (Z.to_nat n) dst src m
  else copy_down (Z.to_nat n) (dst + n) (src + n) m.

Fixpoint memcmp_loop (n : nat) (a b : Z) (m : mem) : Z :=
  match n with
  | O => 0
  | S n' => if negb (ld8 m a =? ld8 m b) then ld8 m a - ld8 m b
            else memcmp_loop n' (a + 1) (b + 1) m
  end.

Definition memcmp (a b n : Z) (m : mem) : Z := memcmp_loop (Z.to_nat n) a b m.

Lemma memset_loop_ld8 n p c m a :
  ld8 (memset_loop n p c m) a = if (p <=? a) && (a <? p + Z.of_nat n) then u8 c else ld8 m a.
Proof.
  revert p m. induction n as [|n IH]; intros p m; cbn [memset_loop].
  - z_cases; done || lia.
  - rewrite IH, ld8_st8. z_cases; done || lia.
Qed.

Lemma memset_wf dst c n m : mem_wf m -> mem_wf (memset dst c n m).
Proof. intros H a. unfold memset. rewrite memset_loop_ld8. case_cond; auto with kernel. Qed.

Lemma memset_ld8 dst c n m a :
  0 <= n -> ld8 (memset dst c n m) a = if (dst <=? a) && (a <? dst + n) then u8 c else ld8 m a.
Proof. intros. unfold memset. by rewrite memset_loop_ld8, Z2Nat.id. Qed.

Lemma memset_ld8_in dst c n m a :
  dst <= a -> a < dst + n -> ld8 (memset dst c n m) a = u8 c.
Proof.
  intros. rewrite memset_ld8 by lia.
  by rewrite (proj2 (Z.leb_le dst a)), (proj2 (Z.ltb_lt a (dst + n))) by lia.
Qed.

Lemma memset_ld8_out dst c n m a :
  0 <= n -> a < dst \/ dst + n <= a -> ld8 (memset dst c n m) a = ld8 m a.
Proof. intros. rewrite memset_ld8 by lia. z_cases; done || lia. Qed.

Lemma ld32_memset_zero dst n m a :
  dst <= a -> a + 4 <= dst + n -> ld32 (memset dst 0 n m) a = 0.
Proof. intros. unfold ld32. by rewrite !memset_ld8_in by lia. Qed.

Lemma ld32_memset_out dst c n m a :
  0 <= n -> a + 4 <= dst \/ dst + n <= a -> ld32 (memset dst c n m) a = ld32 m a.
Proof. intros. unfold ld32. by rewrite !memset_ld8_out by lia. Qed.

(** The forward loop copies correctly when it never reads a byte that it has
    already written: the destination starts at or below the source, or the
    source ends below the destination. *)
Lemma copy_up_ld8 n d s m a :
  mem_wf m -> d <= s \/ s + Z.of_nat n <= d ->
  ld8 (copy_up n d s m) a
  = if (d <=? a) && (a <? d + Z.of_nat n) then ld8 m (s + (a - d)) else ld8 m a.
Proof.
  revert d s m. induction n as [|n IH]; intros d s m Hm Hds; cbn [copy_up].
  - z_cases; done || lia.
  - rewrite IH by (auto with kernel; lia). rewrite !ld8_st8.
    assert (u8 (ld8 m s) = ld8 m s) by apply u8_small, Hm.
    z_cases; try lia; try done; try (rewrite ?H; f_equal; lia).
Qed.

Lemma copy_down_ld8 n d s m a :
  mem_wf m -> s <= d ->
  ld8 (copy_down n d s m) a
  = if (d - Z.of_nat n <=? a) && (a <? d) then ld8 m (s - (d - a)) else ld8 m a.
Proof.
  revert d s m. induction n as [|n IH]; intros d s m Hm Hds; cbn [copy_down].
  - z_cases; done || lia.
  - rewrite IH by (auto with kernel; lia). rewrite !ld8_st8.
    assert (u8 (ld8 m (s - 1)) = ld8 m (s - 1)) by apply u8_small, Hm.
    z_cases; try lia; try done; try (rewrite ?H; f_equal; lia).
Qed.

Lemma copy_up_wf n d s m : mem_wf m -> mem_wf (copy_up n d s m).
Proof. revert d s m. induction n; simpl; auto with kernel. Qed.

Lemma memcpy_wf d s n m : mem_wf m -> mem_wf (memcpy d s n m).
Proof. apply copy_up_wf. Qed.

#[export] Hint Resolve memset_wf memcpy_wf : kernel.

Lemma memcpy_ld8 d s n m a :
  mem_wf m -> 0 <= n -> d <= s \/ s + n <= d ->
  ld8 (memcpy d s n m) a = if (d <=? a) && (a <? d + n) then ld8 m (s + (a - d)) else ld8 m a.
Proof. intros. unfold memcpy. rewrite copy_up_ld8; rewrite ?Z2Nat.id; done. Qed.

Lemma memcmp_loop_spec n a b m :
  (memcmp_loop n a b m = 0 /\ forall i, 0 <= i < Z.of_nat n -> ld8 m (a + i) = ld8 m (b + i))
  \/ exists i, 0 <= i < Z.of_nat n /\ ld8 m (a + i) <> ld8 m (b + i) /\
       (forall j, 0 <= j < i -> ld8 m (a + j) = ld8 m (b + j)) /\
       memcmp_loop n a b m = ld8 m (a + i) - ld8 m (b + i).
Proof.
  revert a b. induction n as [|n IH]; intros a b; cbn [memcmp_loop]; [left; split; [done|lia]|].
  destruct (Z.eqb_spec (ld8 m a) (ld8 m b)) as [E|E]; cbn [negb].
  - assert (Hshift : forall i, 0 <= i -> (forall j, 0 <= j < i -> ld8 m (a + 1 + j) = ld8 m (b + 1 + j)) ->
              forall j, 0 <= j < i + 1 -> ld8 m (a + j) = ld8 m (b + j)).
    { intros i Hi H j Hj. destruct (decide (j = 0)) as [->|]; [by rewrite !Z.add_0_r|].
      specialize (H (j - 1) ltac:(lia)).
      by replace (a + 1 + (j - 1)) with (a + j) in H by lia;
        replace (b + 1 + (j - 1)) with (b + j) in H by lia. }
    destruct (IH (a + 1) (b + 1)) as [[-> H]|(i & Hi & Hne & Hb & ->)].
    + left. split; [done|]. intros i Hi. apply (Hshift (Z.of_nat n)); [lia|done|lia].
    + right. exists (i + 1).
      replace (a + (i + 1)) with (a + 1 + i) by lia. replace (b + (i + 1)) with (b + 1 + i) by lia.
      split_and!; try done; try lia. apply Hshift; [lia|done].
  - right. exists 0. rewrite !Z.add_0_r. split_and!; try done; lia.
Qed.

(** ** Bytes from outside

    The bytes [l] stored from address [a] on, by a device or a loader. *)

Fixpoint poke (a : Z) (l : list Z) (m : mem) : mem :=
  match l with [] => m | b :: l' => poke (a + 1) l' (st8 m a b) end.

Lemma poke_ld8 a l m x :
  ld8 (poke a l m) x = if (a <=? x) && (x <? a + Z.of_nat (length l))
                       then u8 (getZ l (x - a)) else ld8 m x.
Proof.
  revert a m. induction l as [|b l IH]; intros a m; cbn [poke length].
  - z_cases; done || lia.
  - rewrite IH, ld8_st8. destruct (Z.eqb_spec a x) as [->|Hne].
    + rewrite Z.sub_diag. z_cases; done || lia.
    + z_cases; try lia; try done. unfold getZ.
      replace (Z.to_nat (x - a)) with (S (Z.to_nat (x - (a + 1)))) by lia. done.
Qed.

Lemma poke_wf a l m : mem_wf m -> mem_wf (poke a l m).
Proof. revert a m. induction l; simpl; auto with kernel. Qed.

Lemma poke_app a l1 l2 m : poke a (l1 ++ l2) m = poke (a + Z.of_nat (length l1)) l2 (poke a l1 m).
Proof.
  revert a m. induction l1 as [|b l1 IH]; intros a m; cbn [app poke length].
  - by rewrite Z.add_0_r.
  - rewrite IH. f_equal. lia.
Qed.

#[export] Hint Resolve poke_wf : kernel.

(** ** Properties *)

(** [memmove] has the semantics of a copy through a temporary buffer,
    whatever the overlap of the two ranges: every destination byte is the
    byte the source held before the call, and nothing else changes. *)
Theorem memmove_any_overlap (m : mem) (dst src n a : Z) :
  mem_wf m -> 0 <= n ->
  ld8 (memmove dst src n m) a
  = if (dst <=? a) && (a <? dst + n) then ld8 m (src + (a - dst)) else ld8 m a.
Proof.
  intros Hm Hn. unfold memmove.
  destruct (Z.eqb_spec dst src) as [->|]; [|destruct (Z.eqb_spec n 0) as [->|]]; cbn [orb].
  - z_cases; try done. f_equal. lia.
  - z_cases; done || lia.
  - destruct (Z.ltb_spec dst src).
    + rewrite copy_up_ld8, Z2Nat.id by (done || lia). done.
    + rewrite copy_down_ld8, Z2Nat.id by (done || lia).
      replace (dst + n - n) with dst by lia.
      replace (src + n - (dst + n - a)) with (src + (a - dst)) by lia. done.
Qed.

(** The bytes 10, 11, 12, 13 at addresses 100..103. *)
Definition four_bytes : mem := st8 (st8 (st8 (st8 ∅ 100 10) 101 11) 102 12) 103 13.

Lemma mem_wf_empty : mem_wf ∅.
Proof. intros a. unfold ld8. rewrite lookup_empty. done. Qed.
#[export] Hint Resolve mem_wf_empty : kernel.

Lemma memmove_any_overlap_witness :
  ld8 (memmove 101 100 3 four_bytes) 103 = 12.
Proof.
  rewrite (memmove_any_overlap four_bytes 101 100 3 103);
    [reflexivity|unfold four_bytes; auto with kernel|lia].
Defined.

(** [memcmp] returns zero exactly when the two ranges agree, and
    otherwise the difference of the first pair of bytes that differ. *)
Theorem memcmp_first_difference (m : mem) (a b n : Z) :
  0 <= n ->
  (memcmp a b n m = 0 <-> forall i, 0 <= i < n -> ld8 m (a + i) = ld8 m (b + i)) /\
  (memcmp a b n m <> 0 ->
   exists i, 0 <= i < n /\ (forall j, 0 <= j < i -> ld8 m (a + j) = ld8 m (b + j)) /\
     memcmp a b n m = ld8 m (a + i) - ld8 m (b + i)).
Proof.
  intros Hn. unfold memcmp.
  destruct (memcmp_loop_spec (Z.to_nat n) a b m) as [[-> H]|(i & Hi & Hne & Hb & ->)];
    rewrite Z2Nat.id in * by done.
  - split; [split; done|done].
  - split; [|intros _; exists i; auto]. split; [lia|]. intros H. by specialize (H i Hi).
Qed.

Lemma memcmp_first_difference_witness : memcmp 100 102 2 four_bytes <> 0.
Proof.
  destruct (memcmp_first_difference four_bytes 100 102 2 ltac:(lia)) as [[H _] _].
  intros E. specialize (H E 0 ltac:(lia)). vm_compute in H. discriminate.
Defined.

(** The byte loops run thousands of iterations: clients reason about them
    through the lemmas above and never unfold them. *)
#[global] Opaque memset memcpy memmove memcmp.
