(* ===== verification/Pmm.v ===== *)
(** * The physical frame allocator of arch/memory.c

    The bitmap [g_frame_bitmap] (one bit per 4 KiB frame, set = in use), the
    range operations [reserve_range] and [free_range] used while the memory
    map is read, and [pmm_alloc_frame] / [pmm_free_frame]. *)

From S2P Require Import Prelude.
Local Open Scope Z_scope.

Module Pmm.

Definition PAGE_SIZE : Z := 4096.
Definition MAX_PHYS_MEM_BYTES : Z := 512 * 1024 * 1024.
Definition MAX_FRAMES : Z := MAX_PHYS_MEM_BYTES / PAGE_SIZE.
Definition FRAME_BITMAP_BYTES : Z := MAX_FRAMES / 8.

(** The three globals of the allocator. *)
Record pmm := mkPmm {
  g_total_memory_bytes : Z;
  g_total_frames : Z;
  g_frame_bitmap : list Z
}.

Definition set_bitmap (s : pmm) (bm : list Z) : pmm :=
  mkPmm (g_total_memory_bytes s) (g_total_frames s) bm.

Definition frame_index (phys_addr : Z) : Z := phys_addr / PAGE_SIZE.

Definition set_frame (frame : Z) (s : pmm) : pmm :=
  let bm := g_frame_bitmap s in
  set_bitmap s
    (setZ bm (frame / 32)
       (Z.lor (getZ bm (frame / 32)) (u32 (Z.shiftl 1 (frame mod 32))))).

Definition clear_frame (frame : Z) (s : pmm) : pmm :=
  let bm := g_frame_bitmap s in
  set_bitmap s
    (setZ bm (frame / 32)
       (Z.land (getZ bm (frame / 32))
          (u32 (Z.lnot (u32 (Z.shiftl 1 (frame mod 32))))))).

Definition test_frame (s : pmm) (frame : Z) : bool :=
  negb (Z.land (Z.shiftr (getZ (g_frame_bitmap s) (frame / 32)) (frame mod 32)) 1 =? 0).

(** [end] of the two range functions: rounded up, then cut at the end of
    memory. *)
Definition range_end (s : pmm) (start_phys size : Z) : Z :=
  let e := align_up_u32 (u32 (start_phys + size)) PAGE_SIZE in
  if g_total_memory_bytes s <? e then g_total_memory_bytes s else e.

Definition reserve_range (start_phys size : Z) (s : pmm) : option pmm :=
  if size =? 0 then Some s else
  let start := Z.land start_phys 0xFFFFF000 in
  let e := range_end s start_phys size in
  u32_for (for_fuel start e PAGE_SIZE) start e PAGE_SIZE
    (fun addr s =>
       let frame := frame_index addr in
       if frame <? g_total_frames s then set_frame frame s else s) s.

Definition free_range (start_phys size : Z) (s : pmm) : option pmm :=
  if size =? 0 then Some s else
  let start := Z.land start_phys 0xFFFFF000 in
  let e := range_end s start_phys size in
  u32_for (for_fuel start e PAGE_SIZE) start e PAGE_SIZE
    (fun addr s =>
       let frame := frame_index addr in
       if frame <? g_total_frames s then clear_frame frame s else s) s.

(** The search of [pmm_alloc_frame]; [n] is the number of frames left to
    look at, so that the recursion ends exactly when [frame] reaches
    [g_total_frames]. *)
Fixpoint alloc_loop (n : nat) (frame : Z) (s : pmm) : Z * pmm :=
  match n with
  | O => (0, s)
  | S n' =>
      if negb (test_frame s frame)
      then (u32 (frame * PAGE_SIZE), set_frame frame s)
      else alloc_loop n' (u32 (frame + 1)) s
  end.

Definition pmm_alloc_frame (s : pmm) : Z * pmm :=
  alloc_loop (Z.to_nat (g_total_frames s)) 0 s.

Definition pmm_free_frame (phys_addr : Z) (s : pmm) : pmm :=
  let frame := frame_index phys_addr in
  if frame <? g_total_frames s then clear_frame frame s else s.

Definition pmm_alloc_page (s : pmm) : Z * pmm := pmm_alloc_frame s.

(** ** Invariant *)

Record wf (s : pmm) : Prop := {
  wf_len : Z.of_nat (length (g_frame_bitmap s)) = FRAME_BITMAP_BYTES / 4;
  wf_words : Forall is_u32 (g_frame_bitmap s);
  wf_frames : 0 <= g_total_frames s <= MAX_FRAMES;
  wf_bytes : g_total_memory_bytes s = g_total_frames s * PAGE_SIZE
}.

(** The frames that the bitmap can describe. *)
Definition valid_frame (f : Z) : Prop := 0 <= f < MAX_FRAMES.

(** A caller and the allocator together: [owned] are the addresses handed out
    and not yet given back. *)
Inductive step : pmm * list Z -> pmm * list Z -> Prop :=
| step_alloc s s' r owned :
    pmm_alloc_frame s = (r, s') -> r <> 0 -> step (s, owned) (s', r :: owned)
| step_fail s s' owned :
    pmm_alloc_frame s = (0, s') -> step (s, owned) (s', owned)
| step_free s l1 r l2 :
    step (s, l1 ++ r :: l2) (pmm_free_frame r s, l1 ++ l2).

(** ** Lemmas *)

Ltac consts := unfold PAGE_SIZE, MAX_FRAMES, MAX_PHYS_MEM_BYTES, FRAME_BITMAP_BYTES, PAGE_SIZE, MAX_PHYS_MEM_BYTES in *.

Lemma MAX_FRAMES_val : MAX_FRAMES = 131072.
Proof. reflexivity. Qed.

Lemma test_frame_testbit s f :
  test_frame s f = Z.testbit (getZ (g_frame_bitmap s) (f / 32)) (f mod 32).
Proof.
  unfold test_frame. change 1 with (2 ^ 1 - 1).
  rewrite land_ones_mod, Z.shiftr_div_pow2 by mlia.
  rewrite Z.pow_1_r, <- Z.testbit_spec' by mlia. by destruct (Z.testbit _ _).
Qed.

Lemma frame_bit f : 0 <= f mod 32 < 32 /\ u32 (Z.shiftl 1 (f mod 32)) = 2 ^ (f mod 32).
Proof.
  assert (0 <= f mod 32 < 32) by mlia. split; [done|].
  rewrite Z.shiftl_mul_pow2, Z.mul_1_l by lia. apply u32_small.
  split; [lia|apply Z.pow_lt_mono_r; lia].
Qed.

Lemma wf_inrange s f : wf s -> valid_frame f -> inrange (g_frame_bitmap s) (f / 32).
Proof.
  intros [Hl _ _ _] Hf. unfold inrange, valid_frame in *. rewrite Hl.
  rewrite MAX_FRAMES_val in Hf. change (FRAME_BITMAP_BYTES / 4) with 4096. mlia.
Qed.

(** Two frames share a bit exactly when they are the same frame. *)
Lemma frame_split f g : f = g <-> f / 32 = g / 32 /\ f mod 32 = g mod 32.
Proof. split; [by intros ->|]. intros [? ?]. mlia. Qed.

(** What [set_frame] and [clear_frame] have in common: the new word of frame
    [f] differs from the old one in the bit of [f] only. *)
Lemma update_bit s f g w b :
  wf s -> valid_frame f -> 0 <= g ->
  (forall j, 0 <= j < 32 ->
     Z.testbit w j = if j =? f mod 32 then b
                     else Z.testbit (getZ (g_frame_bitmap s) (f / 32)) j) ->
  test_frame (set_bitmap s (setZ (g_frame_bitmap s) (f / 32) w)) g
  = if f =? g then b else test_frame s g.
Proof.
  intros Hwf Hf Hg Hw. rewrite !test_frame_testbit. simpl.
  destruct (decide (f / 32 = g / 32)) as [He|Hne].
  - rewrite He, getZ_setZ_eq by (rewrite <- He; by apply wf_inrange).
    rewrite Hw, He by mlia.
    destruct (Z.eqb_spec f g) as [->|Hfg]; [by rewrite Z.eqb_refl|].
    rewrite (proj2 (Z.eqb_neq _ _)); [done|]. intros ?. apply Hfg, frame_split. auto.
  - rewrite getZ_setZ_ne; [|destruct Hf; mlia|mlia|done].
    rewrite (proj2 (Z.eqb_neq f g)); [done|]. by intros ->.
Qed.

Lemma test_set_frame s f g :
  wf s -> valid_frame f -> 0 <= g ->
  test_frame (set_frame f s) g = if f =? g then true else test_frame s g.
Proof.
  intros Hwf Hf Hg. destruct (frame_bit f) as [Hb Hs]. unfold set_frame. rewrite Hs.
  apply update_bit; try done. intros j Hj.
  rewrite Z.lor_spec, Z.pow2_bits_eqb by lia.
  rewrite (Z.eqb_sym j). destruct (_ =? j); [apply orb_true_r|apply orb_false_r].
Qed.

Lemma test_clear_frame s f g :
  wf s -> valid_frame f -> 0 <= g ->
  test_frame (clear_frame f s) g = if f =? g then false else test_frame s g.
Proof.
  intros Hwf Hf Hg. destruct (frame_bit f) as [Hb Hs]. unfold clear_frame. rewrite Hs.
  apply update_bit; try done. intros j Hj.
  rewrite Z.land_spec, u32_testbit, Z.lnot_spec, Z.pow2_bits_eqb by lia.
  rewrite (Z.eqb_sym j). destruct (_ =? j); [apply andb_false_r|apply andb_true_r].
Qed.

Lemma wf_set_bitmap s i w : wf s -> is_u32 w -> wf (set_bitmap s (setZ (g_frame_bitmap s) i w)).
Proof.
  intros [Hl Hw Hf Hb] Hv. split; simpl; try done.
  - by rewrite length_setZ.
  - by apply setZ_Forall.
Qed.

Lemma wf_word s i : wf s -> is_u32 (getZ (g_frame_bitmap s) i).
Proof. intros H. apply getZ_Forall; [apply H|]. unfold is_u32. lia. Qed.

Lemma wf_set_frame s f : wf s -> wf (set_frame f s).
Proof.
  intros H. apply wf_set_bitmap; [done|]. apply lor_u32; [by apply wf_word|].
  apply u32_is_u32.
Qed.

Lemma wf_clear_frame s f : wf s -> wf (clear_frame f s).
Proof.
  intros H. apply wf_set_bitmap; [done|]. apply land_u32; by apply wf_word.
Qed.

#[export] Hint Resolve wf_set_frame wf_clear_frame : kernel.

(** The totals never change once memory_init has set them. *)
Lemma frames_set_frame s f : g_total_frames (set_frame f s) = g_total_frames s.
Proof. done. Qed.
Lemma frames_clear_frame s f : g_total_frames (clear_frame f s) = g_total_frames s.
Proof. done. Qed.
#[export] Hint Rewrite frames_set_frame frames_clear_frame : kernel_rw.

Section RangeLoop.
(** [reserve_range] and [free_range] run the same loop with [set_frame]
    ([v = true]) and [clear_frame] ([v = false]). *)
Variable op : Z -> pmm -> pmm.
Variable v : bool.
Hypothesis op_wf : forall s f, wf s -> wf (op f s).
Hypothesis op_bytes : forall s f, g_total_memory_bytes (op f s) = g_total_memory_bytes s.
Hypothesis op_frames : forall s f, g_total_frames (op f s) = g_total_frames s.
Hypothesis op_test : forall s f g, wf s -> valid_frame f -> 0 <= g ->
  test_frame (op f s) g = if f =? g then v else test_frame s g.

Definition mark (addr : Z) (s : pmm) : pmm :=
  let frame := frame_index addr in
  if frame <? g_total_frames s then op frame s else s.

Lemma mark_loop n f0 s :
  wf s -> 0 <= f0 ->
  let s' := iter_from n (f0 * PAGE_SIZE) PAGE_SIZE mark s in
  wf s' /\ g_total_memory_bytes s' = g_total_memory_bytes s /\
  g_total_frames s' = g_total_frames s /\
  forall g, 0 <= g ->
    test_frame s' g =
      if (f0 <=? g) && (g <? f0 + Z.of_nat n) && (g <? g_total_frames s)
      then v else test_frame s g.
Proof.
  revert f0 s. induction n as [|n IH]; intros f0 s Hwf Hf0; simpl.
  - split_and!; try done. intros g Hg.
    z_cases; done || lia.
  - replace (f0 * PAGE_SIZE + PAGE_SIZE) with ((f0 + 1) * PAGE_SIZE) by lia.
    assert (Hi : frame_index (f0 * PAGE_SIZE) = f0) by (apply Z.div_mul; done).
    assert (Hm : wf (mark (f0 * PAGE_SIZE) s) /\
      g_total_memory_bytes (mark (f0 * PAGE_SIZE) s) = g_total_memory_bytes s /\
      g_total_frames (mark (f0 * PAGE_SIZE) s) = g_total_frames s).
    { unfold mark. case_cond; auto. }
    destruct Hm as (Hw & Hb & Hf).
    destruct (IH (f0 + 1) _ Hw ltac:(lia)) as (IHw & IHb & IHf & IHt).
    rewrite Hb in IHb. rewrite Hf in IHf. split_and!; try done.
    intros g Hg. rewrite IHt, Hf by done. unfold mark. rewrite Hi.
    pose proof (wf_frames _ Hwf).
    destruct (f0 <? g_total_frames s) eqn:E; bool_to_prop;
      [rewrite op_test by (unfold valid_frame; auto with lia); destruct (Z.eqb_spec f0 g)|];
      z_cases; try done; lia.
Qed.

Definition range_op (start_phys size : Z) (s : pmm) : option pmm :=
  if size =? 0 then Some s else
  let start := Z.land start_phys 0xFFFFF000 in
  let e := range_end s start_phys size in
  u32_for (for_fuel start e PAGE_SIZE) start e PAGE_SIZE mark s.

(** The frames a range operation touches: those that meet
    [[start_phys, end)], the end being the one computed by the code. *)
Definition covers (s : pmm) (start_phys size g : Z) : bool :=
  negb (size =? 0) && (start_phys / PAGE_SIZE <=? g)
  && (g * PAGE_SIZE <? range_end s start_phys size).

Lemma range_end_le s a n : range_end s a n <= g_total_memory_bytes s.
Proof. unfold range_end. case_cond; lia. Qed.

Lemma range_op_spec start_phys size s :
  wf s -> is_u32 start_phys ->
  exists s', range_op start_phys size s = Some s' /\ wf s' /\
    g_total_memory_bytes s' = g_total_memory_bytes s /\
    g_total_frames s' = g_total_frames s /\
    forall g, 0 <= g ->
      test_frame s' g = if covers s start_phys size g then v else test_frame s g.
Proof.
  intros Hwf Ha. unfold range_op, covers. destruct (Z.eqb_spec size 0) as [->|Hn].
  { exists s. auto. }
  set (e := range_end s start_phys size).
  pose proof (range_end_le s start_phys size) as He. fold e in He.
  pose proof (wf_bytes _ Hwf). pose proof (wf_frames _ Hwf) as Hfr. rewrite MAX_FRAMES_val in Hfr.
  replace (Z.land start_phys 0xFFFFF000) with (start_phys / PAGE_SIZE * PAGE_SIZE)
    by (symmetry; apply (mask_low_div 12 start_phys); [lia|apply Ha]).
  unfold is_u32, PAGE_SIZE in *.
  rewrite u32_for_pages by mlia.
  destruct (mark_loop (for_fuel (start_phys / 4096 * 4096) e 4096) (start_phys / 4096) s)
    as (Hw & Hb & Hf & Ht); [done|mlia|].
  eexists. split; [done|]. split_and!; try done.
  intros g Hg. rewrite Ht by done. unfold for_fuel.
  set (n := (e - start_phys / 4096 * 4096 + 4096 - 1) / 4096).
  assert (n * 4096 <= e - start_phys / 4096 * 4096 + 4095 < n * 4096 + 4096) by (subst n; mlia).
  clearbody n e. z_cases; done || lia.
Qed.
End RangeLoop.

Lemma reserve_range_spec start_phys size s :
  wf s -> is_u32 start_phys ->
  exists s', reserve_range start_phys size s = Some s' /\ wf s' /\
    g_total_memory_bytes s' = g_total_memory_bytes s /\
    g_total_frames s' = g_total_frames s /\
    forall g, 0 <= g ->
      test_frame s' g = if covers s start_phys size g then true else test_frame s g.
Proof. apply (range_op_spec set_frame true); auto using test_set_frame with kernel. Qed.

Lemma free_range_spec start_phys size s :
  wf s -> is_u32 start_phys ->
  exists s', free_range start_phys size s = Some s' /\ wf s' /\
    g_total_memory_bytes s' = g_total_memory_bytes s /\
    g_total_frames s' = g_total_frames s /\
    forall g, 0 <= g ->
      test_frame s' g = if covers s start_phys size g then false else test_frame s g.
Proof. apply (range_op_spec clear_frame false); auto using test_clear_frame with kernel. Qed.

(** ** Allocation *)

Lemma alloc_loop_spec n frame s :
  0 <= frame -> frame + Z.of_nat n < 2 ^ 32 ->
  (exists f, frame <= f < frame + Z.of_nat n /\ test_frame s f = false /\
     (forall g, frame <= g < f -> test_frame s g = true) /\
     alloc_loop n frame s = (u32 (f * PAGE_SIZE), set_frame f s))
  \/ (forall g, frame <= g < frame + Z.of_nat n -> test_frame s g = true) /\
     alloc_loop n frame s = (0, s).
Proof.
  revert frame. induction n as [|n IH]; intros frame Hf Hn; simpl.
  - right. split; [lia|done].
  - destruct (test_frame s frame) eqn:E; simpl.
    + rewrite u32_small by lia.
      destruct (IH (frame + 1)) as [(f & Hfr & Ht & Hb & ->)|[Hall ->]]; try lia.
      * left. exists f. split_and!; try done; try lia. intros g Hg.
        destruct (decide (g = frame)) as [->|]; [done|apply Hb; lia].
      * right. split; [|done]. intros g Hg.
        destruct (decide (g = frame)) as [->|]; [done|apply Hall; lia].
    + left. exists frame. split_and!; try done; lia.
Qed.

Lemma alloc_cases s r s' :
  wf s -> pmm_alloc_frame s = (r, s') ->
  (exists f, 0 <= f < g_total_frames s /\ test_frame s f = false /\
     (forall g, 0 <= g < f -> test_frame s g = true) /\
     r = f * PAGE_SIZE /\ s' = set_frame f s)
  \/ (forall g, 0 <= g < g_total_frames s -> test_frame s g = true) /\ r = 0 /\ s' = s.
Proof.
  intros Hwf Ha. pose proof (wf_frames _ Hwf) as Hfr. rewrite MAX_FRAMES_val in Hfr.
  unfold pmm_alloc_frame in Ha.
  destruct (alloc_loop_spec (Z.to_nat (g_total_frames s)) 0 s)
    as [(f & Hf & Ht & Hb & He)|[Hall He]]; try lia;
    rewrite Z2Nat.id in * by lia; rewrite He in Ha; simplify_eq.
  - left. exists f. split_and!; try done; try lia. unfold PAGE_SIZE. rewrite u32_small; lia.
  - right. done.
Qed.

Lemma alloc_wf s r s' : wf s -> pmm_alloc_frame s = (r, s') -> wf s'.
Proof.
  intros Hwf Ha. destruct (alloc_cases s r s' Hwf Ha) as [(f & ? & ? & ? & -> & ->)|(? & ? & ->)];
    auto with kernel.
Qed.

Lemma free_frame_test s f g :
  wf s -> 0 <= f < g_total_frames s -> 0 <= g ->
  test_frame (pmm_free_frame (f * PAGE_SIZE) s) g = if f =? g then false else test_frame s g.
Proof.
  intros Hwf Hf Hg. pose proof (wf_frames _ Hwf). unfold pmm_free_frame, frame_index.
  rewrite Z.div_mul by done. rewrite (proj2 (Z.ltb_lt f _)) by lia.
  apply test_clear_frame; [done|unfold valid_frame; lia|done].
Qed.

Lemma free_frame_wf s a : wf s -> wf (pmm_free_frame a s) /\
  g_total_frames (pmm_free_frame a s) = g_total_frames s.
Proof. intros. unfold pmm_free_frame. case_cond; auto with kernel. Qed.

(** The invariant of a run from [s0]: a frame is in use exactly when it was
    reserved in [s0] or is owned, and no address is owned twice. *)
Definition accounted (s0 : pmm) (c : pmm * list Z) : Prop :=
  let '(s, owned) := c in
  wf s /\ g_total_frames s = g_total_frames s0 /\ NoDup owned /\
  Forall (fun r => exists f, r = f * PAGE_SIZE /\ 0 < f < g_total_frames s0 /\
                             test_frame s0 f = false) owned /\
  forall f, 0 <= f < g_total_frames s0 ->
    (test_frame s f = true <-> test_frame s0 f = true \/ f * PAGE_SIZE ∈ owned).

Lemma page_inj f g : f * PAGE_SIZE = g * PAGE_SIZE -> f = g.
Proof. unfold PAGE_SIZE. lia. Qed.

Lemma accounted_alloc s0 s s' r owned :
  (0 < g_total_frames s0 -> test_frame s0 0 = true) -> accounted s0 (s, owned) ->
  pmm_alloc_frame s = (r, s') -> r <> 0 -> accounted s0 (s', r :: owned).
Proof.
  intros H0 (Hwf & Hfr & Hnd & Hall & Hacc) Ha Hr.
  destruct (alloc_cases s r s' Hwf Ha) as [(f & Hf & Ht & _ & -> & ->)|(_ & ? & _)]; [|done].
  pose proof (wf_frames _ Hwf). rewrite Hfr in *.
  assert (Hno : test_frame s0 f = false /\ f * PAGE_SIZE ∉ owned).
  { pose proof (Hacc f Hf) as Hi. rewrite Ht in Hi.
    destruct (test_frame s0 f); split; intuition congruence. }
  destruct Hno as [Hn0 Hno]. split_and!; auto with kernel.
  - by constructor.
  - constructor; [|done]. exists f. split_and!; try done; try lia.
    destruct (decide (f = 0)) as [->|]; [rewrite H0 in Hn0 by lia; done|lia].
  - intros g Hg. rewrite test_set_frame by (done || unfold valid_frame; lia).
    rewrite elem_of_cons. destruct (Z.eqb_spec f g) as [->|Hne]; [tauto|].
    rewrite Hacc by done. split; [tauto|]. intros [?|[E%page_inj|?]]; [tauto|congruence|tauto].
Qed.

Lemma accounted_free s0 s l1 r l2 :
  accounted s0 (s, l1 ++ r :: l2) -> accounted s0 (pmm_free_frame r s, l1 ++ l2).
Proof.
  intros (Hwf & Hfr & Hnd & Hall & Hacc).
  assert (Hr : exists f, r = f * PAGE_SIZE /\ 0 < f < g_total_frames s0 /\ test_frame s0 f = false).
  { by apply Forall_app in Hall as [_ ?%Forall_cons_1%proj1]. }
  destruct Hr as (f & -> & Hf & Ht0). destruct (free_frame_wf s (f * PAGE_SIZE) Hwf) as [Hw Hf'].
  rewrite <- Permutation_middle in Hnd, Hall.
  apply list.NoDup_cons in Hnd as [Hni Hnd]. apply Forall_cons_1 in Hall as [_ Hall].
  split_and!; try done; try congruence. intros g Hg.
  rewrite free_frame_test by (done || lia).
  specialize (Hacc g Hg). rewrite elem_of_app, elem_of_cons in Hacc.
  rewrite elem_of_app in Hni |- *.
  destruct (Z.eqb_spec f g) as [->|Hne]; [intuition congruence|].
  rewrite Hacc. split; [|tauto]. intros [?|[?|[E%page_inj|?]]]; [tauto|tauto|congruence|tauto].
Qed.

Lemma accounted_step s0 c c' :
  (0 < g_total_frames s0 -> test_frame s0 0 = true) -> step c c' -> accounted s0 c -> accounted s0 c'.
Proof.
  intros H0 Hs Hc. destruct Hs as [s s' r owned Ha Hr|s s' owned Ha|s l1 r l2].
  - by apply (accounted_alloc s0 s).
  - pose proof Hc as (Hw & Hfr & _ & _ & Hacc).
    destruct (alloc_cases s 0 s' Hw Ha) as [(f & Hf & Ht & _ & Hz & _)|(_ & _ & ->)]; [|done].
    unfold PAGE_SIZE in Hz. assert (f = 0) as -> by lia.
    rewrite Hfr in Hf. specialize (Hacc 0 Hf). specialize (H0 ltac:(lia)). intuition congruence.
  - by apply accounted_free.
Qed.

Lemma accounted_rtc s0 c c' :
  (0 < g_total_frames s0 -> test_frame s0 0 = true) -> rtc step c c' -> accounted s0 c -> accounted s0 c'.
Proof. induction 2; eauto using accounted_step. Qed.

(** A run from a well-formed allocator whose frame 0 is not free. *)
Lemma accounted_start s0 s owned :
  wf s0 -> (0 < g_total_frames s0 -> test_frame s0 0 = true) -> rtc step (s0, []) (s, owned) -> accounted s0 (s, owned).
Proof.
  intros Hwf H0 Hrun.
  assert (Hinit : accounted s0 (s0, [])).
  { split_and!; try done; [constructor|]. intros f Hf. rewrite elem_of_nil. tauto. }
  by apply (accounted_rtc s0 _ _ H0 Hrun).
Qed.

(** ** Properties *)

(** C23: every run of [pmm_alloc_frame] and [pmm_free_frame] (frees only of
    owned addresses) from a well-formed allocator whose frame 0 is reserved
    keeps exact accounts: no address is handed out twice, and a frame is
    marked in use exactly when it was reserved at the start or is owned. *)
Theorem pmm_run_accounted (s0 s : pmm) (owned : list Z) :
  wf s0 -> test_frame s0 0 = true ->
  rtc step (s0, []) (s, owned) ->
  accounted s0 (s, owned).
Proof. intros Hwf H0 Hrun. by apply accounted_start. Qed.

(** A 16-frame machine whose first frame is reserved. *)
Definition small_pmm : pmm := set_frame 0 (mkPmm (16 * 4096) 16 (replicate 4096 0)).

Lemma small_pmm_wf : wf small_pmm.
Proof.
  apply wf_set_frame. split.
  - vm_compute. reflexivity.
  - apply Forall_replicate. unfold is_u32. lia.
  - rewrite MAX_FRAMES_val. simpl. lia.
  - reflexivity.
Qed.

Lemma pmm_run_accounted_witness :
  exists s, rtc step (small_pmm, []) (s, [4096]) /\ accounted small_pmm (s, [4096]).
Proof.
  exists (set_frame 1 small_pmm).
  assert (Hs : rtc step (small_pmm, []) (set_frame 1 small_pmm, [4096])).
  { apply rtc_once, step_alloc; vm_compute; [reflexivity|discriminate]. }
  split; [exact Hs|]. apply (pmm_run_accounted small_pmm); [apply small_pmm_wf|reflexivity|exact Hs].
Defined.

(** [pmm_alloc_frame] is first-fit: a non-zero result is the address of
    the lowest free frame and only that frame's bit changes; a zero result
    (with frame 0 reserved) means that every frame is in use, and leaves the
    allocator as it was. *)
Theorem pmm_alloc_first_fit (s : pmm) (r : Z) (s' : pmm) :
  wf s -> test_frame s 0 = true -> pmm_alloc_frame s = (r, s') ->
  (r = 0 /\ s' = s /\ forall f, 0 <= f < g_total_frames s -> test_frame s f = true)
  \/ (exists f, 0 < f < g_total_frames s /\ r = f * PAGE_SIZE /\ r < g_total_memory_bytes s /\
      test_frame s f = false /\ (forall g, 0 <= g < f -> test_frame s g = true) /\
      forall g, 0 <= g -> test_frame s' g = if f =? g then true else test_frame s g).
Proof.
  intros Hwf H0 Ha. pose proof (wf_frames _ Hwf). pose proof (wf_bytes _ Hwf).
  destruct (alloc_cases s r s' Hwf Ha) as [(f & Hf & Ht & Hb & -> & ->)|(Hall & -> & ->)]; [|auto].
  right. exists f. split_and!; try done.
  - destruct (decide (f = 0)) as [->|]; [congruence|lia].
  - lia.
  - unfold PAGE_SIZE in *. lia.
  - intros g Hg. apply test_set_frame; unfold valid_frame; done || lia.
Qed.

Lemma pmm_alloc_first_fit_witness :
  exists f, 0 < f /\ test_frame small_pmm f = false.
Proof.
  destruct (pmm_alloc_first_fit small_pmm 4096 (set_frame 1 small_pmm)) as [(E & _)|(f & Hf & _ & _ & Ht & _)];
    [apply small_pmm_wf|reflexivity|vm_compute; reflexivity|discriminate|].
  exists f. split; [apply Hf|exact Ht].
Defined.

(** Giving back the frame that [pmm_alloc_frame] returned restores the
    state of every frame. *)
Theorem pmm_free_undoes_alloc (s : pmm) (r : Z) (s' : pmm) :
  wf s -> pmm_alloc_frame s = (r, s') -> r <> 0 ->
  forall g, 0 <= g -> test_frame (pmm_free_frame r s') g = test_frame s g.
Proof.
  intros Hwf Ha Hr g Hg. pose proof (wf_frames _ Hwf).
  destruct (alloc_cases s r s' Hwf Ha) as [(f & Hf & Ht & Hb & -> & ->)|(_ & ? & _)]; [|done].
  rewrite free_frame_test by (auto with kernel).
  rewrite test_set_frame by (done || unfold valid_frame; lia).
  destruct (Z.eqb_spec f g) as [->|]; done.
Qed.

Lemma pmm_free_undoes_alloc_witness :
  test_frame (pmm_free_frame 4096 (set_frame 1 small_pmm)) 1 = test_frame small_pmm 1.
Proof.
  apply (pmm_free_undoes_alloc small_pmm 4096 (set_frame 1 small_pmm));
    [apply small_pmm_wf|vm_compute; reflexivity|discriminate|lia].
Defined.

(** The range operations of the boot code: after [free_range] of one
    range and [reserve_range] of another, a frame is in use exactly when the
    second range touches it or it was in use before and the first range does
    not touch it; neither loop runs out of fuel. *)
Theorem free_then_reserve (s : pmm) (a n b m : Z) :
  wf s -> is_u32 a -> is_u32 b ->
  exists s1 s2, free_range a n s = Some s1 /\ reserve_range b m s1 = Some s2 /\ wf s2 /\
    forall g, 0 <= g ->
      test_frame s2 g = covers s1 b m g || (test_frame s g && negb (covers s a n g)).
Proof.
  intros Hwf Ha Hb.
  destruct (free_range_spec a n s Hwf Ha) as (s1 & H1 & Hw1 & _ & _ & Ht1).
  destruct (reserve_range_spec b m s1 Hw1 Hb) as (s2 & H2 & Hw2 & _ & _ & Ht2).
  exists s1, s2. split_and!; try done. intros g Hg. rewrite Ht2, Ht1 by done.
  destruct (covers s1 b m g), (covers s a n g), (test_frame s g); done.
Qed.

Lemma free_then_reserve_witness :
  exists s1 s2, free_range 4096 8192 small_pmm = Some s1 /\ reserve_range 8192 1 s1 = Some s2.
Proof.
  destruct (free_then_reserve small_pmm 4096 8192 8192 1) as (s1 & s2 & H1 & H2 & _);
    [apply small_pmm_wf|unfold is_u32; lia|unfold is_u32; lia|].
  exists s1, s2. split; [exact H1|exact H2].
Defined.

End Pmm.
