(* ===== verification/Paging.v ===== *)
(** * Page tables of arch/memory.c

    The boot-time identity map ([identity_map_page], [identity_map_range],
    [paging_mark_user_range]) and the general [page_map] / [page_get_phys].
    The page directory and the page tables live in memory, as they do in the
    kernel: [g_page_directory] and [g_page_tables] are the addresses that the
    linker gives to the two arrays. *)

From S2P Require Import Prelude Cmem Pmm.
Local Open Scope Z_scope.

Module Paging.
Import Pmm.

Definition PAGE_PRESENT : Z := 0x001.
Definition PAGE_WRITE : Z := 0x002.
Definition PAGE_USER : Z := 0x004.
Definition IDENTITY_MAP_BYTES : Z := 128 * 1024 * 1024.
Definition IDENTITY_TABLES : Z := IDENTITY_MAP_BYTES / (4 * 1024 * 1024).

(** [page_get_phys(pd, vaddr)] *)
Definition page_get_phys (m : mem) (pd vaddr : Z) : Z :=
  let pde := Z.shiftr vaddr 22 in
  let pte := Z.land (Z.shiftr vaddr 12) 0x3FF in
  let pd_pde := ld32 m (pd + 4 * pde) in
  if Z.land pd_pde PAGE_PRESENT =? 0 then 0 else
  let pt := Z.land pd_pde 0xFFFFF000 in
  let pt_pte := ld32 m (pt + 4 * pte) in
  if Z.land pt_pte PAGE_PRESENT =? 0 then 0 else
  Z.lor (Z.land pt_pte 0xFFFFF000) (Z.land vaddr 0xFFF).

(** [page_map(pd, vaddr, paddr, flags)]; it returns early, without a
    mapping, when no frame is left for the page table. *)
Definition page_map (pd vaddr paddr flags : Z) (st : mem * pmm) : mem * pmm :=
  let '(m, s) := st in
  let pde := Z.shiftr vaddr 22 in
  let pte := Z.land (Z.shiftr vaddr 12) 0x3FF in
  let store_pte (m : mem) :=
    let pt := Z.land (ld32 m (pd + 4 * pde)) 0xFFFFF000 in
    st32 m (pt + 4 * pte) (Z.lor (Z.lor (Z.land paddr 0xFFFFF000) flags) PAGE_PRESENT) in
  if Z.land (ld32 m (pd + 4 * pde)) PAGE_PRESENT =? 0 then
    let '(pt_phys, s1) := pmm_alloc_frame s in
    if pt_phys =? 0 then (m, s1) else
    let m1 := memset pt_phys 0 4096 m in
    let m2 := st32 m1 (pd + 4 * pde) (Z.lor (Z.lor pt_phys flags) PAGE_PRESENT) in
    (store_pte m2, s1)
  else (store_pte m, s).

(** Whether the MMU lets ring 3 reach [vaddr]: both levels present and
    both with the user bit. *)
Definition user_accessible (m : mem) (pd vaddr : Z) : bool :=
  let pd_pde := ld32 m (pd + 4 * Z.shiftr vaddr 22) in
  let pt_pte := ld32 m (Z.land pd_pde 0xFFFFF000 + 4 * Z.land (Z.shiftr vaddr 12) 0x3FF) in
  (Z.land pd_pde 5 =? 5) && (Z.land pt_pte 5 =? 5).

Section IdentityMap.
Variable g_page_directory : Z.
Variable g_page_tables : Z.

Definition identity_map_page (phys_addr flags : Z) (m : mem) : mem :=
  if IDENTITY_MAP_BYTES <=? phys_addr then m else
  let pde := Z.shiftr phys_addr 22 in
  let pte := Z.land (Z.shiftr phys_addr 12) 0x3FF in
  let table_phys := g_page_tables + 4096 * pde in
  let m1 := st32 m (g_page_directory + 4 * pde)
    (Z.lor (ld32 m (g_page_directory + 4 * pde))
       (Z.lor (Z.lor (Z.lor table_phys PAGE_PRESENT) PAGE_WRITE) (Z.land flags PAGE_USER))) in
  st32 m1 (table_phys + 4 * pte)
    (Z.lor (Z.lor (Z.land phys_addr 0xFFFFF000) PAGE_PRESENT)
       (Z.land flags (Z.lor PAGE_WRITE PAGE_USER))).

Definition identity_map_range (start_phys size flags : Z) (m : mem) : option mem :=
  if size =? 0 then Some m else
  let start := Z.land start_phys 0xFFFFF000 in
  let e := align_up_u32 (u32 (start_phys + size)) PAGE_SIZE in
  let e := if IDENTITY_MAP_BYTES <? e then IDENTITY_MAP_BYTES else e in
  u32_for (for_fuel start e PAGE_SIZE) start e PAGE_SIZE
    (fun addr m => identity_map_page addr flags m) m.

Definition paging_mark_user_range (phys_addr size : Z) (m : mem) : option mem :=
  if size =? 0 then Some m else
  let start := Z.land phys_addr 0xFFFFF000 in
  let e := align_up_u32 (u32 (phys_addr + size)) PAGE_SIZE in
  u32_for (for_fuel start e PAGE_SIZE) start e PAGE_SIZE
    (fun addr m => identity_map_page addr (Z.lor PAGE_WRITE PAGE_USER) m) m.

(** Where the linker may put the two arrays: both are page-aligned
    ([__attribute__((aligned(PAGE_SIZE)))]), in the 32-bit space, and do not
    overlap. *)
Record layout : Prop := {
  lay_pd : g_page_directory mod 4096 = 0;
  lay_pt : g_page_tables mod 4096 = 0;
  lay_pd0 : 0 <= g_page_directory;
  lay_pt0 : 0 <= g_page_tables;
  lay_pt1 : g_page_tables + 4096 * IDENTITY_TABLES <= 2 ^ 32;
  lay_pd1 : g_page_directory + 4096 <= 2 ^ 32;
  lay_disj : g_page_directory + 4096 <= g_page_tables
             \/ g_page_tables + 4096 * IDENTITY_TABLES <= g_page_directory
}.

(** The entry that [identity_map_page] writes for page [p]. *)
Definition pte_of (p flags : Z) : Z := p * 4096 + 1 + Z.land flags 6.

(** The well-formedness of the boot page tables: a directory slot is empty or
    points to its own table, with the user bit at least where a page of that
    table has it; the slots above the identity map are empty. *)
Record tables_wf (m : mem) : Prop := {
  tw_pde : forall i, 0 <= i < 32 ->
    ld32 m (g_page_directory + 4 * i) = 0 \/
    ld32 m (g_page_directory + 4 * i) = g_page_tables + 4096 * i + 3 \/
    ld32 m (g_page_directory + 4 * i) = g_page_tables + 4096 * i + 7;
  tw_high : forall i, 32 <= i < 1024 -> ld32 m (g_page_directory + 4 * i) = 0;
  tw_pte : forall p, 0 <= p < 32768 ->
    ld32 m (g_page_tables + 4 * p) = 0 \/
    (exists f, ld32 m (g_page_tables + 4 * p) = pte_of p f /\
       (ld32 m (g_page_directory + 4 * (p / 1024)) = g_page_tables + 4096 * (p / 1024) + 7 \/
        Z.land f 4 = 0 /\
        ld32 m (g_page_directory + 4 * (p / 1024)) = g_page_tables + 4096 * (p / 1024) + 3))
}.

End IdentityMap.

(** ** Address arithmetic *)

Lemma page_mask a : 0 <= a < 2 ^ 32 -> Z.land a 0xFFFFF000 = a / 4096 * 4096.
Proof. intros. apply (mask_low_div 12 a); lia. Qed.

Lemma offset_mask a : Z.land a 0xFFF = a mod 4096.
Proof. apply (land_ones_mod a 12). lia. Qed.

Lemma pde_index a : Z.shiftr a 22 = a / 4096 / 1024.
Proof. rewrite Z.shiftr_div_pow2, Z.div_div by lia. done. Qed.

Lemma pte_index a : Z.land (Z.shiftr a 12) 0x3FF = a / 4096 mod 1024.
Proof. rewrite (land_ones_mod _ 10), Z.shiftr_div_pow2 by lia. done. Qed.

Lemma present_bit e : Z.land e PAGE_PRESENT = e mod 2.
Proof. apply (land_ones_mod e 1). lia. Qed.

(** The three flag bits: [a & k] depends on [a mod 8] only. *)
Lemma land_mod8 a k : 0 <= k < 8 -> Z.land a k = Z.land (a mod 8) k.
Proof.
  intros Hk. apply Z.bits_inj'. intros i Hi. rewrite !Z.land_spec.
  destruct (decide (i < 3)).
  - change 8 with (2 ^ 3). by rewrite (Z.mod_pow2_bits_low a 3 i) by lia.
  - by rewrite (testbit_high k 3 i), !andb_false_r by lia.
Qed.

(** [flag_cases a] replaces the flag masks of [a] by the eight values that
    the low bits can have, and computes. *)
Ltac flag_cases a :=
  rewrite ?(land_mod8 a 1), ?(land_mod8 a 4), ?(land_mod8 a 5), ?(land_mod8 a 6) by lia;
  let H := fresh in
  assert (H : 0 <= a mod 8 < 8) by (apply Z.mod_pos_bound; lia);
  revert H; generalize (a mod 8);
  let b := fresh "b" in intros b H;
  assert (b = 0 \/ b = 1 \/ b = 2 \/ b = 3 \/ b = 4 \/ b = 5 \/ b = 6 \/ b = 7) as
    [->|[->|[->|[->|[->|[->|[->| ->]]]]]]] by lia; clear H.

Lemma low_flags a : 0 <= Z.land a 6 <= 6 /\ Z.land a 6 mod 2 = 0.
Proof. flag_cases a; vm_compute; intuition congruence. Qed.

Lemma land4 a : Z.land a 4 = 0 \/ Z.land a 4 = 4.
Proof. flag_cases a; vm_compute; auto. Qed.

Lemma lor_small x y k : 0 <= k -> 0 <= x < 2 ^ k -> 0 <= y < 2 ^ k -> 0 <= Z.lor x y < 2 ^ k.
Proof.
  intros Hk Hx Hy. assert (0 <= Z.lor x y) by (apply Z.lor_nonneg; lia). split; [done|].
  apply bits_bound; try done. intros i Hi. by rewrite Z.lor_spec, !(testbit_high _ k) by lia.
Qed.

(** [|] on page-aligned addresses with flags in the low twelve bits. *)
Lemma base_lor_l t x y :
  t mod 4096 = 0 -> 0 <= x < 4096 -> 0 <= y < 4096 -> Z.lor (t + x) y = t + Z.lor x y.
Proof.
  intros Ht Hx Hy. rewrite <- !(lor_disjoint_add t _ 12) by (done || apply lor_small; lia).
  by rewrite Z.lor_assoc.
Qed.

Lemma base_lor t x y :
  t mod 4096 = 0 -> 0 <= x < 4096 -> 0 <= y < 4096 -> Z.lor (t + x) (t + y) = t + Z.lor x y.
Proof.
  intros Ht Hx Hy. rewrite <- !(lor_disjoint_add t _ 12) by (done || apply lor_small; lia).
  rewrite (Z.lor_comm t y), Z.lor_assoc, <- (Z.lor_assoc t x y).
  rewrite (Z.lor_comm t (Z.lor x y)), <- Z.lor_assoc, Z.lor_diag. done.
Qed.

Lemma base_mask t x : t mod 4096 = 0 -> 0 <= x < 4096 -> 0 <= t + x < 2 ^ 32 ->
  Z.land (t + x) 0xFFFFF000 = t.
Proof. intros. rewrite page_mask by done. mlia. Qed.

Lemma base_flags t x k : t mod 4096 = 0 -> 0 <= k < 8 -> Z.land (t + x) k = Z.land x k.
Proof.
  intros. rewrite (land_mod8 (t + x)), (land_mod8 x) by done. f_equal. mlia.
Qed.

(** ** The identity map *)

Section IdentityMapLemmas.
Context (g_page_directory g_page_tables : Z) (L : layout g_page_directory g_page_tables).
Abbreviation pde m i := (ld32 m (g_page_directory + 4 * i)).
Abbreviation pte m p := (ld32 m (g_page_tables + 4 * p)).
Abbreviation wf := (tables_wf g_page_directory g_page_tables).
Abbreviation map_page := (identity_map_page g_page_directory g_page_tables).

(** The directory entry that [identity_map_page] computes. *)
Lemma pde_value i e flags :
  0 <= i < 32 ->
  (e = 0 \/ e = g_page_tables + 4096 * i + 3 \/ e = g_page_tables + 4096 * i + 7) ->
  Z.lor e (Z.lor (Z.lor (Z.lor (g_page_tables + 4096 * i) 1) 2) (Z.land flags 4))
  = g_page_tables + 4096 * i +
    (if (e =? g_page_tables + 4096 * i + 7) || (Z.land flags 4 =? 4) then 7 else 3).
Proof.
  intros Hi He. set (t := g_page_tables + 4096 * i) in *.
  assert (Ht : t mod 4096 = 0 /\ 0 <= t).
  { destruct L as [_ Ht _ Ht0 _ _ _]. subst t. split; [mlia|lia]. }
  destruct Ht as [Ht Ht0]. clearbody t.
  assert (Hl : forall y, 0 <= y < 4096 -> Z.lor t y = t + y)
    by (intros; apply (lor_disjoint_add t y 12); [lia|lia|exact Ht]).
  assert (Hf : Z.lor (Z.lor (Z.lor t 1) 2) (Z.land flags 4) = t + Z.lor 3 (Z.land flags 4)).
  { rewrite <- !Z.lor_assoc. rewrite Hl; [by rewrite (Z.lor_assoc 1 2)|]. destruct (land4 flags) as [-> | ->]; vm_compute; split; congruence. }
  rewrite Hf. destruct (land4 flags) as [-> | ->]; destruct He as [->|[->| ->]];
    rewrite ?Z.lor_0_l, ?base_lor by (done || (vm_compute; split; congruence));
    z_cases; try lia; reflexivity.
Qed.

Lemma pte_value p flags :
  0 <= p < 32768 ->
  Z.lor (Z.lor (Z.land (p * 4096) 0xFFFFF000) PAGE_PRESENT)
        (Z.land flags (Z.lor PAGE_WRITE PAGE_USER)) = pte_of p flags.
Proof.
  intros Hp. unfold pte_of, PAGE_PRESENT. rewrite page_mask, Z.div_mul by lia.
  change (Z.lor PAGE_WRITE PAGE_USER) with 6. destruct (low_flags flags) as [Hf He].
  rewrite <- Z.lor_assoc, (lor_disjoint_add _ _ 12); [| lia | |].
  - rewrite (Z.lor_comm 1), (lor_disjoint_add _ 1 1); [lia|lia|lia|exact He].
  - rewrite (Z.lor_comm 1), (lor_disjoint_add _ 1 1); [lia|lia|lia|exact He].
  - change (2 ^ 12) with 4096. apply Z.mod_mul. lia.
Qed.

(** [identity_map_page] on a page of the identity map, entry by entry. *)
Lemma map_page_entries m p flags :
  wf m -> 0 <= p < 32768 ->
  let m' := map_page (p * 4096) flags m in
  (forall q, 0 <= q < 32768 -> pte m' q = if q =? p then pte_of p flags else pte m q) /\
  (forall i, 0 <= i < 1024 -> pde m' i =
     if i =? p / 1024
     then g_page_tables + 4096 * i +
          (if (pde m i =? g_page_tables + 4096 * i + 7) || (Z.land flags 4 =? 4) then 7 else 3)
     else pde m i).
Proof.
  intros Hwf Hp. unfold identity_map_page.
  rewrite (proj2 (Z.leb_gt IDENTITY_MAP_BYTES (p * 4096)))
    by (change IDENTITY_MAP_BYTES with (32768 * 4096); lia).
  rewrite pde_index, pte_index, Z.div_mul, pte_value by lia.
  assert (Hi : 0 <= p / 1024 < 32) by mlia.
  unfold PAGE_PRESENT, PAGE_WRITE, PAGE_USER. rewrite pde_value by (done || by apply Hwf).
  replace (g_page_tables + 4096 * (p / 1024) + 4 * (p mod 1024)) with (g_page_tables + 4 * p) by mlia.
  destruct L as [Hpd Hpt Hpd0 Hpt0 Hpt1 Hpd1 Hd]. change IDENTITY_TABLES with 32 in *.
  destruct (low_flags flags) as [Hf _]. split.
  - intros q Hq. destruct (Z.eqb_spec q p) as [->|Hne].
    + apply ld32_st32_eq. unfold is_u32, pte_of. lia.
    + rewrite !ld32_st32_ne by lia. done.
  - intros i Hii. rewrite ld32_st32_ne by lia.
    destruct (Z.eqb_spec i (p / 1024)) as [->|Hne].
    + apply ld32_st32_eq. unfold is_u32. case_cond; lia.
    + rewrite ld32_st32_ne by lia. done.
Qed.

Lemma map_page_wf m p flags : wf m -> 0 <= p < 32768 -> wf (map_page (p * 4096) flags m).
Proof.
  intros Hwf Hp. destruct (map_page_entries m p flags Hwf Hp) as [Hpte Hpde].
  set (m' := map_page (p * 4096) flags m) in *. clearbody m'. split.
  - intros i Hi. rewrite Hpde by lia.
    case_cond; [case_cond; auto|]. by apply (tw_pde _ _ _ Hwf).
  - intros i Hi. rewrite Hpde by lia. rewrite (proj2 (Z.eqb_neq i _)) by mlia.
    by apply (tw_high _ _ _ Hwf).
  - intros q Hq. rewrite Hpte, Hpde by mlia.
    destruct (Z.eqb_spec q p) as [->|Hne].
    + right. exists flags. split; [done|]. rewrite Z.eqb_refl.
      destruct (land4 flags) as [E|E]; rewrite E; [|by left; rewrite orb_true_r].
      rewrite orb_false_r. case_cond; auto.
    + destruct (tw_pte _ _ _ Hwf q Hq) as [->|(f & -> & Hf)]; [by left|right].
      exists f. split; [done|]. destruct (Z.eqb_spec (q / 1024) (p / 1024)) as [E|]; [|done].
      rewrite E in *. destruct Hf as [->|[Hf4 ->]].
      * rewrite Z.eqb_refl. by left.
      * case_cond; auto.
Qed.

Lemma map_page_high m p flags : 32768 <= p -> map_page (p * 4096) flags m = m.
Proof.
  intros Hp. unfold identity_map_page.
  by rewrite (proj2 (Z.leb_le IDENTITY_MAP_BYTES (p * 4096)))
    by (change IDENTITY_MAP_BYTES with (32768 * 4096); lia).
Qed.

(** A loop over [n] consecutive pages from page [p0]. *)
Lemma map_loop n p0 flags m :
  wf m -> 0 <= p0 ->
  let m' := iter_from n (p0 * 4096) 4096 (fun a m => map_page a flags m) m in
  wf m' /\ forall q, 0 <= q < 32768 ->
    pte m' q = if (p0 <=? q) && (q <? p0 + Z.of_nat n) then pte_of q flags else pte m q.
Proof.
  revert p0 m. induction n as [|n IH]; intros p0 m Hwf Hp; simpl.
  - split; [done|]. intros q Hq. z_cases; done || lia.
  - replace (p0 * 4096 + 4096) with ((p0 + 1) * 4096) by lia.
    destruct (decide (p0 < 32768)) as [Hlt|Hge].
    + destruct (IH (p0 + 1) (map_page (p0 * 4096) flags m)) as [Hw Ht];
        [by apply map_page_wf|lia|].
      split; [done|]. intros q Hq. rewrite Ht by done.
      destruct (map_page_entries m p0 flags Hwf) as [-> _]; try lia.
      z_cases; try subst q; done || lia.
    + rewrite map_page_high by lia. destruct (IH (p0 + 1) m) as [Hw Ht]; [done|lia|].
      split; [done|]. intros q Hq. rewrite Ht by done. z_cases; done || lia.
Qed.

(** The loop of both range functions, from any start to any page-aligned
    end. *)
Lemma map_range_loop start e flags m :
  wf m -> is_u32 start -> e mod 4096 = 0 -> e < 2 ^ 32 ->
  exists m',
    u32_for (for_fuel (Z.land start 0xFFFFF000) e PAGE_SIZE) (Z.land start 0xFFFFF000) e PAGE_SIZE
      (fun a m => map_page a flags m) m = Some m' /\ wf m' /\
    forall q, 0 <= q < 32768 ->
      pte m' q = if (start / 4096 <=? q) && (q * 4096 <? e) then pte_of q flags else pte m q.
Proof.
  intros Hwf Hs He He32. unfold PAGE_SIZE. rewrite page_mask by done.
  unfold is_u32 in Hs. rewrite u32_for_pages by mlia.
  destruct (map_loop (for_fuel (start / 4096 * 4096) e 4096) (start / 4096) flags m)
    as [Hw Ht]; [done|mlia|].
  eexists. split; [done|]. split; [done|]. intros q Hq. rewrite Ht by done. unfold for_fuel.
  set (n := (e - start / 4096 * 4096 + 4096 - 1) / 4096).
  assert (n * 4096 <= e - start / 4096 * 4096 + 4095 < n * 4096 + 4096) by (subst n; mlia).
  clearbody n. z_cases; done || lia.
Qed.

Lemma align_page v : align_up_u32 v PAGE_SIZE mod 4096 = 0 /\ 0 <= align_up_u32 v PAGE_SIZE < 2 ^ 32.
Proof.
  unfold PAGE_SIZE. rewrite (align_up_u32_pow2 12) by lia. change (2 ^ 12) with 4096.
  pose proof (u32_range (v + 4096 - 1)). split; mlia.
Qed.

Lemma pte_of_facts p f :
  0 <= p < 32768 ->
  pte_of p f mod 2 = 1 /\ Z.land (pte_of p f) 0xFFFFF000 = p * 4096 /\
  Z.land (pte_of p f) 5 = 1 + Z.land f 4 /\ pte_of p f <> 0.
Proof.
  intros Hp. destruct (low_flags f) as [Hf He]. unfold pte_of.
  assert (p * 4096 mod 4096 = 0) by (apply Z.mod_mul; lia).
  rewrite <- !Z.add_assoc. split_and!; try mlia.
  - apply base_mask; mlia.
  - rewrite base_flags by lia. flag_cases f; reflexivity.
Qed.

(** Translation and user access through well-formed boot tables depend on the
    page table entry alone. *)
Lemma boot_entry m v :
  wf m -> is_u32 v ->
  page_get_phys m g_page_directory v
    = (if (v <? IDENTITY_MAP_BYTES) && negb (pte m (v / 4096) =? 0) then v else 0) /\
  user_accessible m g_page_directory v
    = (v <? IDENTITY_MAP_BYTES) && (Z.land (pte m (v / 4096)) 5 =? 5).
Proof.
  intros Hwf Hv. unfold is_u32 in Hv. unfold page_get_phys, user_accessible.
  rewrite pde_index, pte_index, offset_mask, !present_bit.
  change IDENTITY_MAP_BYTES with (32768 * 4096).
  destruct (Z.ltb_spec v (32768 * 4096)) as [Hlt|Hge]; cbn [andb].
  2: { rewrite (tw_high _ _ _ Hwf (v / 4096 / 1024)) by mlia. done. }
  set (p := v / 4096). assert (Hp : 0 <= p < 32768) by (subst p; mlia).
  destruct L as [Hpd Hpt Hpd0 Hpt0 Hpt1 Hpd1 Hd]. change IDENTITY_TABLES with 32 in *.
  assert (Hi : 0 <= p / 1024 < 32) by mlia.
  assert (Hpres : forall f c, (c = 3 \/ c = 7) ->
    pte m p = pte_of p f -> pde m (p / 1024) = g_page_tables + 4096 * (p / 1024) + c ->
    Z.land (pde m (p / 1024)) 0xFFFFF000 + 4 * (p mod 1024) = g_page_tables + 4 * p /\
    pde m (p / 1024) mod 2 = 1).
  { intros f c Hc _ Hpe. rewrite Hpe, base_mask; [split|..]; destruct Hc; mlia. }
  assert (Hlor : Z.lor (p * 4096) (v mod 4096) = v).
  { rewrite (lor_disjoint_add _ _ 12); [subst p; mlia|lia|change (2 ^ 12) with 4096; mlia|].
    change (2 ^ 12) with 4096. apply Z.mod_mul. lia. }
  destruct (tw_pte _ _ _ Hwf p Hp) as [E|(f & E & Hpe)].
  - rewrite E. destruct (tw_pde _ _ _ Hwf (p / 1024) Hi) as [Ei|[Ei|Ei]]; rewrite Ei.
    + done.
    + rewrite base_mask by mlia. replace (_ + 4 * (p mod 1024)) with (g_page_tables + 4 * p) by mlia.
      rewrite E, (proj2 (Z.eqb_neq (_ mod 2) 0)) by mlia. cbn. by rewrite andb_false_r.
    + rewrite base_mask by mlia. replace (_ + 4 * (p mod 1024)) with (g_page_tables + 4 * p) by mlia.
      rewrite E, (proj2 (Z.eqb_neq (_ mod 2) 0)) by mlia. cbn. by rewrite andb_false_r.
  - destruct (pte_of_facts p f Hp) as (H1 & H2 & H3 & H4).
    destruct Hpe as [Ei|[Hf4 Ei]].
    + destruct (Hpres f 7) as [Ha Hm]; [auto..|]. rewrite Ha, Hm, E, H1, H2, H3.
      rewrite (proj2 (Z.eqb_neq (pte_of p f) 0)) by done. cbn.
      rewrite Ei, base_flags by mlia. by rewrite Hlor.
    + destruct (Hpres f 3) as [Ha Hm]; [auto..|]. rewrite Ha, Hm, E, H1, H2, H3, Hf4.
      rewrite (proj2 (Z.eqb_neq (pte_of p f) 0)) by done. cbn.
      rewrite Ei, base_flags by mlia. by rewrite Hlor.
Qed.

(** What the loop of both range functions does to translations and to user
    access: the pages up to [e] below 128 MiB are mapped to themselves with
    the user bit of [flags]. *)
Lemma map_range_effect start e flags m :
  wf m -> is_u32 start -> e mod 4096 = 0 -> e < 2 ^ 32 ->
  exists m',
    u32_for (for_fuel (Z.land start 0xFFFFF000) e PAGE_SIZE) (Z.land start 0xFFFFF000) e PAGE_SIZE
      (fun a m => map_page a flags m) m = Some m' /\ wf m' /\
    forall v, is_u32 v ->
      let inside := (start / 4096 <=? v / 4096) && (v <? Z.min IDENTITY_MAP_BYTES e) in
      page_get_phys m' g_page_directory v = (if inside then v else page_get_phys m g_page_directory v) /\
      user_accessible m' g_page_directory v
        = (if inside then Z.land flags 4 =? 4 else user_accessible m g_page_directory v).
Proof.
  intros Hwf Hs He He32.
  destruct (map_range_loop start e flags m) as (m' & Hrun & Hwf' & Hpte); try done.
  exists m'. split; [exact Hrun|]. split; [done|]. intros v Hv. cbn zeta.
  destruct (boot_entry m' v Hwf' Hv) as [-> ->]. destruct (boot_entry m v Hwf Hv) as [-> ->].
  change IDENTITY_MAP_BYTES with (32768 * 4096). unfold is_u32 in Hv.
  destruct (Z.ltb_spec v (32768 * 4096)) as [Hlt|Hge]; cbn [andb].
  2: { rewrite (proj2 (Z.ltb_ge v (Z.min (32768 * 4096) e))) by lia. by rewrite andb_false_r. }
  rewrite Hpte by mlia.
  destruct (pte_of_facts (v / 4096) flags) as (_ & _ & H5 & Hne); [mlia|].
  assert (E : (v / 4096 * 4096 <? e) = (v <? Z.min (32768 * 4096) e)).
  { destruct (Z.ltb_spec (v / 4096 * 4096) e), (Z.ltb_spec v (Z.min (32768 * 4096) e)); try done; mlia. }
  rewrite E. destruct (_ && (v <? _)); [|done]. rewrite (proj2 (Z.eqb_neq _ 0)) by done. split; [done|].
  rewrite H5. by destruct (land4 flags) as [E4|E4]; rewrite E4.
Qed.

(** The bytes of the two arrays. *)
Definition table_area (x : Z) : Prop :=
  g_page_directory <= x < g_page_directory + 4096 \/
  g_page_tables <= x < g_page_tables + 4096 * IDENTITY_TABLES.

(** Mapping writes to the two arrays only. *)
Lemma map_page_frame a flags m :
  is_u32 a -> mem_wf m ->
  mem_wf (map_page a flags m) /\ same_outside table_area m (map_page a flags m).
Proof.
  intros Ha Hm. unfold identity_map_page. case_cond; [done|].
  split; [auto with kernel|].
  change IDENTITY_MAP_BYTES with (32768 * 4096) in *. unfold is_u32 in Ha.
  rewrite pde_index, pte_index.
  assert (0 <= a / 4096 / 1024 < 32) by mlia. assert (0 <= a / 4096 mod 1024 < 1024) by mlia.
  etransitivity; apply same_outside_st32; intros i Hi; unfold table_area; change IDENTITY_TABLES with 32; lia.
Qed.

Lemma mark_user_range_frame a size m m' :
  is_u32 a -> mem_wf m ->
  paging_mark_user_range g_page_directory g_page_tables a size m = Some m' ->
  mem_wf m' /\ same_outside table_area m m'.
Proof.
  intros Ha Hm. unfold paging_mark_user_range. case_cond; [intros; by simplify_eq|]. intros Hrun.
  refine (u32_for_inv _ (fun t => mem_wf t /\ same_outside table_area m t) _ _ _ _ _ _ _ Hrun _ _);
    [by apply land_u32|done|].
  intros i t Hi _ [Ht Hs]. destruct (map_page_frame i (Z.lor PAGE_WRITE PAGE_USER) t Hi Ht) as [? Hs'].
  split; [done|]. by etransitivity.
Qed.

(** The translations depend on the two arrays only. *)
Lemma tables_wf_same m m' :
  (forall x, table_area x -> ld8 m' x = ld8 m x) -> wf m ->
  wf m' /\ forall v, is_u32 v -> user_accessible m' g_page_directory v = user_accessible m g_page_directory v.
Proof.
  intros Hs Hwf. unfold table_area in Hs. change IDENTITY_TABLES with 32 in Hs.
  assert (Hd : forall i, 0 <= i < 1024 -> pde m' i = pde m i) by (intros; apply ld32_same; intros; apply Hs; lia).
  assert (Ht : forall p, 0 <= p < 32768 -> pte m' p = pte m p) by (intros; apply ld32_same; intros; apply Hs; lia).
  assert (Hwf' : wf m').
  { split; intros i Hi.
    - rewrite Hd by lia. by apply (tw_pde _ _ _ Hwf).
    - rewrite Hd by lia. by apply (tw_high _ _ _ Hwf).
    - rewrite Ht, Hd by mlia. by apply (tw_pte _ _ _ Hwf). }
  split; [done|]. intros v Hv. destruct (boot_entry m v Hwf Hv) as [_ ->]. destruct (boot_entry m' v Hwf' Hv) as [_ ->].
  change IDENTITY_MAP_BYTES with (32768 * 4096). unfold is_u32 in Hv.
  destruct (Z.ltb_spec v (32768 * 4096)); [|done]. by rewrite Ht by mlia.
Qed.

End IdentityMapLemmas.
(** ** page_map *)

(** Two-level paging as [page_map] keeps it: the page directory [pd] and the
    tables of its present entries are page-aligned, pairwise distinct pages,
    none of which the frame allocator could hand out. *)
Definition pd_entry (m : mem) (pd i : Z) : Z := ld32 m (pd + 4 * i).
Definition table_of (m : mem) (pd i : Z) : Z := Z.land (pd_entry m pd i) 0xFFFFF000.
Definition present (e : Z) : Prop := e mod 2 = 1.
Definition not_free (s : pmm) (a : Z) : Prop :=
  g_total_frames s <= a / 4096 \/ test_frame s (a / 4096) = true.

Record pd_ok (pd : Z) (st : mem * pmm) : Prop := {
  pk_mem : mem_wf st.1;
  pk_pmm : wf st.2;
  pk_zero : test_frame st.2 0 = true;
  pk_align : pd mod 4096 = 0;
  pk_range : 0 <= pd /\ pd + 4096 <= 2 ^ 32;
  pk_self : not_free st.2 pd;
  pk_tables : forall i, 0 <= i < 1024 -> present (pd_entry st.1 pd i) ->
    table_of st.1 pd i <> pd /\ not_free st.2 (table_of st.1 pd i);
  pk_distinct : forall i j, 0 <= i < 1024 -> 0 <= j < 1024 -> i <> j ->
    present (pd_entry st.1 pd i) -> present (pd_entry st.1 pd j) ->
    table_of st.1 pd i <> table_of st.1 pd j
}.

(** The two indices of an address. *)
Definition dir_ix (v : Z) : Z := v / 4096 / 1024.
Definition tab_ix (v : Z) : Z := v / 4096 mod 1024.

Lemma ix_range v : is_u32 v -> 0 <= dir_ix v < 1024 /\ 0 <= tab_ix v < 1024.
Proof. unfold is_u32, dir_ix, tab_ix. intros. split; mlia. Qed.

Lemma ix_page v w : v / 4096 = w / 4096 <-> dir_ix v = dir_ix w /\ tab_ix v = tab_ix w.
Proof. unfold dir_ix, tab_ix. split; [by intros ->|intros [? ?]; mlia]. Qed.

Lemma present_dec e : {present e} + {e mod 2 = 0}.
Proof. unfold present. destruct (decide (e mod 2 = 1)); [by left|right; mlia]. Qed.

Lemma get_phys_absent m pd v :
  pd_entry m pd (dir_ix v) mod 2 = 0 -> page_get_phys m pd v = 0.
Proof.
  intros H. unfold page_get_phys. rewrite pde_index, present_bit.
  change (ld32 m (pd + 4 * (v / 4096 / 1024))) with (pd_entry m pd (dir_ix v)).
  by rewrite H.
Qed.

Lemma get_phys_present m pd v :
  present (pd_entry m pd (dir_ix v)) ->
  page_get_phys m pd v =
    let e := ld32 m (table_of m pd (dir_ix v) + 4 * tab_ix v) in
    if e mod 2 =? 0 then 0 else Z.lor (Z.land e 0xFFFFF000) (v mod 4096).
Proof.
  intros H. unfold page_get_phys. rewrite pde_index, pte_index, offset_mask, !present_bit.
  change (ld32 m (pd + 4 * (v / 4096 / 1024))) with (pd_entry m pd (dir_ix v)).
  rewrite H. done.
Qed.

Lemma table_page m pd i :
  mem_wf m -> 0 <= table_of m pd i < 2 ^ 32 /\ table_of m pd i mod 4096 = 0.
Proof.
  intros H. unfold table_of. pose proof (ld32_u32 m (pd + 4 * i) H) as Hu.
  fold (pd_entry m pd i) in Hu. rewrite page_mask by done. unfold is_u32 in Hu.
  split; [mlia|apply Z.mod_mul; lia].
Qed.

(** Distinct page-aligned addresses are a page apart. *)
Lemma pages_apart a b :
  a mod 4096 = 0 -> b mod 4096 = 0 -> a <> b -> a + 4096 <= b \/ b + 4096 <= a.
Proof. intros. mlia. Qed.

(** Writing one entry of the table of directory slot [i]. *)
Lemma store_entry pd m s i j e :
  pd_ok pd (m, s) -> 0 <= i < 1024 -> 0 <= j < 1024 -> present (pd_entry m pd i) -> is_u32 e ->
  let m' := st32 m (table_of m pd i + 4 * j) e in
  pd_ok pd (m', s) /\
  (forall k, 0 <= k < 1024 -> pd_entry m' pd k = pd_entry m pd k) /\
  (forall k l, 0 <= k < 1024 -> 0 <= l < 1024 -> present (pd_entry m pd k) ->
     ld32 m' (table_of m pd k + 4 * l)
     = if (k =? i) && (l =? j) then e else ld32 m (table_of m pd k + 4 * l)).
Proof.
  intros Hok Hi Hj Hp He m'. pose proof (pk_mem _ _ Hok) as Hm. simpl in Hm.
  destruct (pk_tables _ _ Hok i Hi Hp) as [Hne _]. simpl in Hne.
  destruct (table_page m pd i Hm) as [Hr Ha]. pose proof (pk_align _ _ Hok) as Hpa.
  assert (Hent : forall k, 0 <= k < 1024 -> pd_entry m' pd k = pd_entry m pd k).
  { intros k Hk. apply ld32_st32_ne. destruct (pages_apart _ _ Ha Hpa Hne); lia. }
  assert (Htab : forall k, 0 <= k < 1024 -> table_of m' pd k = table_of m pd k).
  { intros k Hk. unfold table_of. by rewrite Hent. }
  split_and!; [|done|].
  - destruct Hok as [? ? ? ? ? ? Ht Hd]. simpl in *. split; simpl; try done.
    + by apply st32_wf.
    + intros k Hk. rewrite Hent, Htab by done. by apply Ht.
    + intros k l Hk Hl Hkl. rewrite !Hent, !Htab by done. by apply Hd.
  - intros k l Hk Hl Hpk. destruct (table_page m pd k Hm) as [Hr' Ha'].
    destruct (Z.eqb_spec k i) as [->|Hki].
    + destruct (Z.eqb_spec l j) as [->|Hlj]; cbn [andb].
      * by apply ld32_st32_eq.
      * apply ld32_st32_ne. lia.
    + apply ld32_st32_ne. pose proof (pk_distinct _ _ Hok k i Hk Hi Hki Hpk Hp) as Hd. simpl in Hd.
      destruct (pages_apart _ _ Ha' Ha Hd); lia.
Qed.

Lemma not_free_alloc s s1 r a :
  Pmm.wf s -> pmm_alloc_frame s = (r, s1) -> r <> 0 -> 0 <= a -> not_free s a ->
  not_free s1 a /\ r <> a.
Proof.
  intros Hwf Ha Hr Ha0 Hn. pose proof (wf_frames _ Hwf).
  destruct (alloc_cases s r s1 Hwf Ha) as [(f & Hf & Ht & _ & -> & ->)|(_ & ? & _)]; [|done].
  unfold not_free in *. rewrite frames_set_frame.
  rewrite test_set_frame by (done || unfold valid_frame; lia || mlia). split.
  - destruct Hn; [by left|right]. by destruct (f =? a / 4096).
  - intros <-. unfold PAGE_SIZE in Hn. rewrite Z.div_mul in Hn by lia. destruct Hn; [lia|congruence].
Qed.

Lemma alloc_page_range s s1 r :
  Pmm.wf s -> pmm_alloc_frame s = (r, s1) -> r <> 0 ->
  Pmm.wf s1 /\ 0 < r /\ r + 4096 <= 2 ^ 29 /\ r mod 4096 = 0 /\ not_free s1 r /\
  (test_frame s 0 = true -> test_frame s1 0 = true).
Proof.
  intros Hwf Ha Hr. pose proof (wf_frames _ Hwf) as Hfr. rewrite MAX_FRAMES_val in Hfr.
  destruct (alloc_cases s r s1 Hwf Ha) as [(f & Hf & Ht & _ & -> & ->)|(_ & ? & _)]; [|done].
  unfold PAGE_SIZE in *. change (2 ^ 29) with (131072 * 4096).
  split_and!; try mlia; auto with kernel.
  - right. rewrite Z.div_mul by lia.
    rewrite test_set_frame by (done || unfold valid_frame; rewrite ?MAX_FRAMES_val; lia).
    by rewrite Z.eqb_refl.
  - intros H0. rewrite test_set_frame by (done || unfold valid_frame; rewrite ?MAX_FRAMES_val; lia).
    by case_cond.
Qed.

Lemma new_entry r flags :
  0 <= r < 2 ^ 32 -> r mod 4096 = 0 -> 0 <= flags < 4096 ->
  let e := Z.lor (Z.lor r flags) PAGE_PRESENT in
  is_u32 e /\ present e /\ Z.land e 0xFFFFF000 = r.
Proof.
  intros Hr Ha Hf. unfold PAGE_PRESENT. cbn zeta. rewrite <- Z.lor_assoc.
  pose proof (lor_small flags 1 12 ltac:(lia) Hf ltac:(lia)) as Hb. change (2 ^ 12) with 4096 in Hb.
  rewrite (lor_disjoint_add r _ 12) by (done || lia).
  assert (Hodd : Z.lor flags 1 mod 2 = 1).
  { rewrite <- Z.bit0_mod, Z.lor_spec, orb_true_r. done. }
  assert (Hrr : r + 4096 <= 2 ^ 32) by mlia.
  unfold is_u32, present. split_and!; try mlia. apply base_mask; lia.
Qed.

(** Installing a fresh, zeroed page table for the empty slot [i]. *)
Lemma install_table pd m s i r s1 flags :
  pd_ok pd (m, s) -> 0 <= i < 1024 -> pd_entry m pd i mod 2 = 0 ->
  pmm_alloc_frame s = (r, s1) -> r <> 0 -> 0 <= flags < 4096 ->
  let m2 := st32 (memset r 0 4096 m) (pd + 4 * i) (Z.lor (Z.lor r flags) PAGE_PRESENT) in
  pd_ok pd (m2, s1) /\ present (pd_entry m2 pd i) /\ table_of m2 pd i = r /\
  (forall k, 0 <= k < 1024 -> k <> i -> pd_entry m2 pd k = pd_entry m pd k) /\
  (forall l, 0 <= l < 1024 -> ld32 m2 (r + 4 * l) = 0) /\
  (forall k l, 0 <= k < 1024 -> 0 <= l < 1024 -> present (pd_entry m pd k) ->
     ld32 m2 (table_of m pd k + 4 * l) = ld32 m (table_of m pd k + 4 * l)).
Proof.
  intros Hok Hi Habs Ha Hr Hflags m2.
  destruct (alloc_page_range s s1 r (pk_pmm _ _ Hok) Ha Hr) as (Hw1 & Hr0 & Hr1 & Hra & Hnf & Hz).
  destruct (new_entry r flags ltac:(lia) Hra Hflags) as (He & Hpe & Hte).
  pose proof (pk_align _ _ Hok) as Hpa. destruct (pk_range _ _ Hok) as [Hpd0 Hpd1].
  pose proof (pk_mem _ _ Hok) as Hm. simpl in Hm.
  assert (Hkeep : forall a, 0 <= a -> not_free s a -> not_free s1 a /\ r <> a)
    by (intros; by apply (not_free_alloc s s1 r a (pk_pmm _ _ Hok))).
  destruct (Hkeep pd Hpd0 (pk_self _ _ Hok)) as [Hnpd Hrpd].
  assert (Hout : forall b, b + 4 <= r \/ r + 4096 <= b ->
            b + 4 <= pd + 4 * i \/ pd + 4 * i + 4 <= b -> ld32 m2 b = ld32 m b).
  { intros b Hb1 Hb2. subst m2. rewrite ld32_st32_ne by lia.
    apply ld32_memset_out; lia. }
  assert (Hnew : pd_entry m2 pd i = Z.lor (Z.lor r flags) PAGE_PRESENT) by by apply ld32_st32_eq.
  assert (Hzero : forall l, 0 <= l < 1024 -> ld32 m2 (r + 4 * l) = 0).
  { intros l Hl. subst m2. rewrite ld32_st32_ne by (destruct (pages_apart r pd); lia).
    apply ld32_memset_zero; lia. }
  assert (Hm2 : mem_wf m2) by (apply st32_wf; auto with kernel).
  clearbody m2.
  assert (Hsep : forall k, 0 <= k < 1024 -> k <> i -> pd_entry m2 pd k = pd_entry m pd k).
  { intros k Hk Hki. apply Hout; [|lia]. destruct (pages_apart r pd); done || lia. }
  assert (Hold : forall k, 0 <= k < 1024 -> present (pd_entry m2 pd k) ->
     k = i \/ k <> i /\ present (pd_entry m pd k) /\ table_of m2 pd k = table_of m pd k).
  { intros k Hk Hpk. destruct (decide (k = i)); [by left|right].
    rewrite Hsep in Hpk by done. unfold table_of. by rewrite Hsep. }
  assert (Htn : table_of m2 pd i = r) by (unfold table_of; by rewrite Hnew).
  assert (Htr : forall k, 0 <= k < 1024 -> present (pd_entry m pd k) ->
     0 <= table_of m pd k /\ not_free s1 (table_of m pd k) /\ r <> table_of m pd k).
  { intros k Hk Hpk. destruct (table_page m pd k Hm) as [[? _] _].
    destruct (pk_tables _ _ Hok k Hk Hpk) as [_ Hn]. split; [done|]. by apply Hkeep. }
  split_and!; try done.
  - split; simpl; try done.
    + apply Hz, (pk_zero _ _ Hok).
    + intros k Hk Hpk. destruct (Hold k Hk Hpk) as [->|(Hki & Hpm & ->)]; [by rewrite Htn|].
      destruct (pk_tables _ _ Hok k Hk Hpm) as [Hne _]. split; [done|]. by apply Htr.
    + intros k l Hk Hl Hkl Hpk Hpl.
      destruct (Hold k Hk Hpk) as [->|(Hki & Hpm & ->)], (Hold l Hl Hpl) as [->|(Hli & Hpm' & ->)];
        rewrite ?Htn; try done.
      * by apply (Htr l).
      * apply not_eq_sym. by apply (Htr k).
      * by apply (pk_distinct _ _ Hok).
  - by rewrite Hnew.
  - intros k l Hk Hl Hpk. destruct (Htr k Hk Hpk) as (Ht0 & _ & Hrt).
    destruct (table_page m pd k Hm) as [_ Hta].
    destruct (pk_tables _ _ Hok k Hk Hpk) as [Hne _].
    apply Hout; [destruct (pages_apart r (table_of m pd k)); done || lia|].
    destruct (pages_apart (table_of m pd k) pd); done || lia.
Qed.

(** [page_map] when the directory slot is present: one entry changes. *)
Lemma store_entry_phys pd m s v e w :
  pd_ok pd (m, s) -> is_u32 v -> is_u32 w -> present (pd_entry m pd (dir_ix v)) ->
  is_u32 e -> present e ->
  page_get_phys (st32 m (table_of m pd (dir_ix v) + 4 * tab_ix v) e) pd w
  = if w / 4096 =? v / 4096 then Z.lor (Z.land e 0xFFFFF000) (w mod 4096)
    else page_get_phys m pd w.
Proof.
  intros Hok Hv Hw Hp He Hpe. destruct (ix_range v Hv) as [Hi Hj]. destruct (ix_range w Hw) as [Hk Hl].
  destruct (store_entry pd m s (dir_ix v) (tab_ix v) e Hok Hi Hj Hp He) as (_ & Hent & Hld).
  set (m' := st32 m (table_of m pd (dir_ix v) + 4 * tab_ix v) e) in *. clearbody m'.
  assert (Hsame : w / 4096 = v / 4096 <-> dir_ix w = dir_ix v /\ tab_ix w = tab_ix v) by apply ix_page.
  destruct (present_dec (pd_entry m pd (dir_ix w))) as [Hpw|Habs].
  - rewrite !get_phys_present by (rewrite ?Hent; done).
    assert (Ht : table_of m' pd (dir_ix w) = table_of m pd (dir_ix w)) by (unfold table_of; by rewrite Hent).
    rewrite Ht, Hld by done. cbn zeta.
    destruct (Z.eqb_spec (w / 4096) (v / 4096)) as [E|E].
    + destruct (proj1 Hsame E) as [-> ->]. rewrite !Z.eqb_refl. cbn [andb].
      unfold present in Hpe. by rewrite Hpe.
    + destruct (Z.eqb_spec (dir_ix w) (dir_ix v)), (Z.eqb_spec (tab_ix w) (tab_ix v)); try done.
      exfalso. apply E, Hsame. done.
  - rewrite !get_phys_absent by (rewrite ?Hent; done).
    destruct (Z.eqb_spec (w / 4096) (v / 4096)) as [E|E]; [|done].
    destruct (proj1 Hsame E) as [Ed _]. rewrite Ed in Habs. unfold present in Hp. lia.
Qed.

(** ** Properties *)

(** [identity_map_range] always terminates, keeps the boot tables well
    formed, and afterwards [page_get_phys] is the identity on every address
    of the pages from [start_phys] up to the rounded end (cut at 128 MiB),
    and what it was elsewhere. *)
Theorem identity_map_range_translates (g_page_directory g_page_tables : Z) (m : mem)
    (start_phys size flags : Z) :
  layout g_page_directory g_page_tables ->
  tables_wf g_page_directory g_page_tables m -> is_u32 start_phys -> size <> 0 ->
  exists m',
    identity_map_range g_page_directory g_page_tables start_phys size flags m = Some m' /\
    tables_wf g_page_directory g_page_tables m' /\
    forall v, is_u32 v ->
      page_get_phys m' g_page_directory v =
      if (start_phys / 4096 <=? v / 4096)
         && (v <? Z.min IDENTITY_MAP_BYTES (align_up_u32 (u32 (start_phys + size)) PAGE_SIZE))
      then v else page_get_phys m g_page_directory v.
Proof.
  intros L Hwf Hs Hn. unfold identity_map_range. rewrite (proj2 (Z.eqb_neq size 0) Hn).
  set (e := align_up_u32 (u32 (start_phys + size)) PAGE_SIZE).
  destruct (align_page (u32 (start_phys + size))) as [He0 He1]. fold e in He0, He1.
  replace (if IDENTITY_MAP_BYTES <? e then IDENTITY_MAP_BYTES else e) with (Z.min IDENTITY_MAP_BYTES e)
    by (case_cond; lia).
  change IDENTITY_MAP_BYTES with (32768 * 4096) in *.
  destruct (map_range_loop _ _ L start_phys (Z.min (32768 * 4096) e) flags m)
    as (m' & Hrun & Hwf' & Hpte); try done; try mlia.
  exists m'. split; [exact Hrun|split; [exact Hwf'|]]. intros v Hv.
  destruct (boot_entry _ _ L m' v Hwf' Hv) as [-> _]. destruct (boot_entry _ _ L m v Hwf Hv) as [-> _].
  change IDENTITY_MAP_BYTES with (32768 * 4096). unfold is_u32 in Hv.
  destruct (Z.ltb_spec v (32768 * 4096)) as [Hlt|Hge]; cbn [andb].
  - rewrite Hpte by mlia. destruct (pte_of_facts (v / 4096) flags) as (_ & _ & _ & Hne); [mlia|].
    destruct (Z.leb_spec (start_phys / 4096) (v / 4096)), (Z.ltb_spec (v / 4096 * 4096) (Z.min (32768 * 4096) e)),
      (Z.ltb_spec v (Z.min (32768 * 4096) e)); cbn [andb]; try mlia; try done.
    by rewrite (proj2 (Z.eqb_neq (pte_of (v / 4096) flags) 0)).
  - rewrite (proj2 (Z.ltb_ge v (Z.min (32768 * 4096) e))) by lia. by rewrite andb_false_r.
Qed.

(** The effect of marking a range, for the callers. *)
Lemma mark_user_range_exact' (g_page_directory g_page_tables : Z) (m : mem) (phys_addr size : Z) :
  layout g_page_directory g_page_tables ->
  tables_wf g_page_directory g_page_tables m -> is_u32 phys_addr -> size <> 0 ->
  exists m',
    paging_mark_user_range g_page_directory g_page_tables phys_addr size m = Some m' /\
    tables_wf g_page_directory g_page_tables m' /\
    forall v, is_u32 v ->
      user_accessible m' g_page_directory v =
      if (phys_addr / 4096 <=? v / 4096) && (v <? IDENTITY_MAP_BYTES)
         && (v <? align_up_u32 (u32 (phys_addr + size)) PAGE_SIZE)
      then true else user_accessible m g_page_directory v.
Proof.
  intros L Hwf Hs Hn. unfold paging_mark_user_range. rewrite (proj2 (Z.eqb_neq size 0) Hn).
  set (e := align_up_u32 (u32 (phys_addr + size)) PAGE_SIZE).
  destruct (align_page (u32 (phys_addr + size))) as [He0 He1]. fold e in He0, He1.
  destruct (map_range_loop _ _ L phys_addr e (Z.lor PAGE_WRITE PAGE_USER) m)
    as (m' & Hrun & Hwf' & Hpte); try done; try lia.
  exists m'. split; [exact Hrun|split; [exact Hwf'|]]. intros v Hv.
  destruct (boot_entry _ _ L m' v Hwf' Hv) as [_ ->]. destruct (boot_entry _ _ L m v Hwf Hv) as [_ ->].
  change IDENTITY_MAP_BYTES with (32768 * 4096) in *. unfold is_u32 in Hv.
  destruct (Z.ltb_spec v (32768 * 4096)) as [Hlt|Hge]; cbn [andb]; [|by rewrite !andb_false_r].
  rewrite andb_true_r, Hpte by mlia.
  destruct (pte_of_facts (v / 4096) (Z.lor PAGE_WRITE PAGE_USER)) as (_ & _ & H5 & _); [mlia|].
  change (Z.land (Z.lor PAGE_WRITE PAGE_USER) 4) with 4 in H5.
  destruct (Z.leb_spec (phys_addr / 4096) (v / 4096)), (Z.ltb_spec (v / 4096 * 4096) e), (Z.ltb_spec v e);
    cbn [andb]; try mlia; done.
Qed.

(** C25: [paging_mark_user_range] opens to ring 3 exactly the pages it is
    given: user access to every other address is what it was, although the
    user bit of a page directory entry covers 4 MiB. *)
Theorem mark_user_range_exact (g_page_directory g_page_tables : Z) (m : mem) (phys_addr size : Z) :
  layout g_page_directory g_page_tables ->
  tables_wf g_page_directory g_page_tables m -> is_u32 phys_addr -> size <> 0 ->
  exists m',
    paging_mark_user_range g_page_directory g_page_tables phys_addr size m = Some m' /\
    tables_wf g_page_directory g_page_tables m' /\
    forall v, is_u32 v ->
      user_accessible m' g_page_directory v =
      if (phys_addr / 4096 <=? v / 4096) && (v <? IDENTITY_MAP_BYTES)
         && (v <? align_up_u32 (u32 (phys_addr + size)) PAGE_SIZE)
      then true else user_accessible m g_page_directory v.
Proof. apply mark_user_range_exact'. Qed.

(** C24: [page_map] then [page_get_phys] is a round trip: unless no frame is
    left for a missing page table (and then nothing changes), the page of
    [vaddr] translates to the frame of [paddr], every other page translates as
    before, and the page directory stays well formed. *)
Theorem page_map_get_phys (pd : Z) (m : mem) (s : pmm) (vaddr paddr flags : Z) :
  pd_ok pd (m, s) -> is_u32 vaddr -> is_u32 paddr -> 0 <= flags < 4096 ->
  let st' := page_map pd vaddr paddr flags (m, s) in
  pd_ok pd st' /\
  ((st' = (m, s) /\ forall f, 0 <= f < g_total_frames s -> test_frame s f = true) \/
   forall v, is_u32 v ->
     page_get_phys st'.1 pd v =
     if v / 4096 =? vaddr / 4096 then paddr / 4096 * 4096 + v mod 4096
     else page_get_phys m pd v).
Proof.
  intros Hok Hv Hp Hf. destruct (ix_range vaddr Hv) as [Hi Hj].
  assert (Hpp : 0 <= paddr / 4096 * 4096 < 2 ^ 32) by (unfold is_u32 in Hp; mlia).
  destruct (new_entry (paddr / 4096 * 4096) flags Hpp ltac:(apply Z.mod_mul; lia) Hf) as (He & Hpe & Hme).
  assert (Hlor : forall v, Z.lor (paddr / 4096 * 4096) (v mod 4096) = paddr / 4096 * 4096 + v mod 4096).
  { intros v. apply (lor_disjoint_add _ _ 12); [lia|change (2 ^ 12) with 4096; mlia|].
    change (2 ^ 12) with 4096. apply Z.mod_mul. lia. }
  unfold page_map. rewrite present_bit, pde_index, pte_index, page_mask by done.
  fold (dir_ix vaddr) (tab_ix vaddr) (pd_entry m pd (dir_ix vaddr)).
  set (e := Z.lor (Z.lor (paddr / 4096 * 4096) flags) PAGE_PRESENT) in *. clearbody e.
  destruct (present_dec (pd_entry m pd (dir_ix vaddr))) as [Hpr|Habs].
  - rewrite (proj2 (Z.eqb_neq _ 0)) by (unfold present in Hpr; lia). cbn zeta.
    change (Z.land (pd_entry m pd (dir_ix vaddr)) 0xFFFFF000) with (table_of m pd (dir_ix vaddr)). split.
    + by apply (store_entry pd m s).
    + right. intros v Hv'. cbn [fst]. rewrite (store_entry_phys pd m s) by done. by rewrite Hme, Hlor.
  - rewrite Habs. cbn [Z.eqb]. destruct (pmm_alloc_frame s) as [r s1] eqn:Ha.
    destruct (Z.eqb_spec r 0) as [->|Hr].
    + destruct (alloc_cases s 0 s1 (pk_pmm _ _ Hok) Ha) as [(f & Hfr & Ht & _ & Hz & _)|(Hall & _ & ->)].
      * pose proof (pk_zero _ _ Hok) as H0. simpl in H0. unfold PAGE_SIZE in Hz.
        assert (f = 0) as -> by lia. congruence.
      * split; [done|left]. done.
    + destruct (install_table pd m s _ r s1 flags Hok Hi Habs Ha Hr Hf) as (Hok2 & Hpr & Htab & Hent & Hz & Hld).
      set (m2 := st32 (memset r 0 4096 m) _ _) in *. clearbody m2. cbn zeta.
      fold (pd_entry m2 pd (dir_ix vaddr)).
      change (Z.land (pd_entry m2 pd (dir_ix vaddr)) 0xFFFFF000) with (table_of m2 pd (dir_ix vaddr)). split.
      * by apply (store_entry pd m2 s1).
      * right. intros v Hv'. cbn [fst]. rewrite (store_entry_phys pd m2 s1) by done. rewrite Hme, Hlor.
        case_match; [done|]. destruct (ix_range v Hv') as [Hk Hl].
        destruct (decide (dir_ix v = dir_ix vaddr)) as [E|Hne].
        -- rewrite (get_phys_absent m), get_phys_present by (rewrite E; done).
           rewrite E, Htab, Hz by done. done.
        -- destruct (present_dec (pd_entry m pd (dir_ix v))) as [Hpv|Habv].
           ++ rewrite !get_phys_present by (rewrite ?Hent; done). unfold table_of.
              rewrite Hent by done. fold (table_of m pd (dir_ix v)). by rewrite Hld.
           ++ by rewrite !get_phys_absent by (rewrite ?Hent; done).
Qed.

(** ** Witnesses *)

(** Cleared arrays are well-formed tables: the state that memory_init sets
    up with [memset]. *)
Lemma tables_wf_zero g_page_directory g_page_tables m :
  (forall i, 0 <= i < 1024 -> ld32 m (g_page_directory + 4 * i) = 0) ->
  (forall p, 0 <= p < 32768 -> ld32 m (g_page_tables + 4 * p) = 0) ->
  tables_wf g_page_directory g_page_tables m.
Proof.
  intros Hd Ht. split; intros i Hi.
  - left. apply Hd. lia.
  - apply Hd. lia.
  - left. by apply Ht.
Qed.

Lemma ld32_empty a : ld32 ∅ a = 0.
Proof. unfold ld32, ld8. by rewrite !lookup_empty. Qed.

Lemma sample_layout : layout 0x200000 0x201000.
Proof. split; vm_compute; intuition congruence. Qed.

Lemma sample_tables : tables_wf 0x200000 0x201000 ∅.
Proof. apply tables_wf_zero; intros; apply ld32_empty. Qed.

Lemma identity_map_range_translates_witness :
  exists m', identity_map_range 0x200000 0x201000 0x3000 0x2000 PAGE_WRITE ∅ = Some m' /\
    page_get_phys m' 0x200000 0x4123 = 0x4123.
Proof.
  destruct (identity_map_range_translates 0x200000 0x201000 ∅ 0x3000 0x2000 PAGE_WRITE)
    as (m' & Hrun & _ & Hv);
    [apply sample_layout|apply sample_tables|unfold is_u32; lia|lia|].
  exists m'. split; [exact Hrun|]. rewrite Hv by (unfold is_u32; lia). vm_compute. reflexivity.
Defined.

Lemma mark_user_range_exact_witness :
  exists m', paging_mark_user_range 0x200000 0x201000 0x800000 0x1000 ∅ = Some m' /\
    user_accessible m' 0x200000 0x800FFF = true /\ user_accessible m' 0x200000 0x801000 = false.
Proof.
  destruct (mark_user_range_exact 0x200000 0x201000 ∅ 0x800000 0x1000) as (m' & Hrun & _ & Hv);
    [apply sample_layout|apply sample_tables|unfold is_u32; lia|lia|].
  exists m'. split; [exact Hrun|].
  split; rewrite Hv by (unfold is_u32; lia); vm_compute; reflexivity.
Defined.

Lemma sample_pd_ok : pd_ok 0x20000 (∅, small_pmm).
Proof.
  assert (Hnone : forall i, ~ present (pd_entry ∅ 0x20000 i)).
  { intros i. unfold present, pd_entry. by rewrite ld32_empty. }
  split; simpl; try (intros; exfalso; by eapply Hnone).
  - auto with kernel.
  - apply small_pmm_wf.
  - reflexivity.
  - reflexivity.
  - lia.
  - left. vm_compute. discriminate.
Qed.

Lemma page_map_get_phys_witness :
  page_get_phys (page_map 0x20000 0x40000000 0x5000 7 (∅, small_pmm)).1 0x20000 0x40000ABC = 0x5ABC.
Proof.
  destruct (page_map_get_phys 0x20000 ∅ small_pmm 0x40000000 0x5000 7) as [_ [[_ Hall]|Hv]];
    [apply sample_pd_ok|unfold is_u32; lia|unfold is_u32; lia|lia| |].
  - specialize (Hall 1 ltac:(split; [lia|vm_compute; reflexivity])). vm_compute in Hall. discriminate.
  - rewrite Hv by (unfold is_u32; lia). vm_compute. reflexivity.
Defined.

End Paging.
