(* ===== verification/Alloc.v ===== *)
(** * What the kernel heap promises to its clients

    The loader, and every other caller of [kmalloc] and [kfree], is verified
    against this interface; Heap.v gives the instance that arch/memory.c
    implements.  A heap state carries the whole memory; [heap_inv h owned]
    says that the client holds the regions [owned] (address, size).
    [heap_blocks h l] says what blocks (size, free) the heap consists of:
    whether a request is refused depends on them alone, and a client that
    gives back what it took finds the same blocks again. *)

From S2P Require Import Prelude Cmem.
Local Open Scope Z_scope.

Class Allocator (H : Type) := {
  heap_mem : H -> mem;
  set_heap_mem : H -> mem -> H;
  kmalloc : Z -> H -> option (Z * H);
  kfree : Z -> H -> H;
  heap_area : Z -> Prop;
  heap_inv : H -> list (Z * Z) -> Prop;
  heap_blocks : H -> list (Z * bool) -> Prop;
  fits : Z -> list (Z * bool) -> bool
}.

(** The largest request whose rounding does not wrap. *)
Definition max_request : Z := 2 ^ 32 - 64.

Class AllocatorLaws (H : Type) `{Allocator H} : Prop := {
  heap_mem_set h m : heap_mem (set_heap_mem h m) = m;
  heap_inv_wf h owned : heap_inv h owned -> mem_wf (heap_mem h);
  heap_region h owned p n :
    heap_inv h owned -> (p, n) ∈ owned ->
    0 < p /\ p + n < 2 ^ 32 /\ forall x, p <= x < p + n -> heap_area x;
  kmalloc_ok h owned size :
    heap_inv h owned -> 0 < size <= max_request ->
    exists p h', kmalloc size h = Some (p, h') /\
      heap_inv h' (if p =? 0 then owned else (p, size) :: owned) /\
      same_outside heap_area (heap_mem h) (heap_mem h');
  kfree_ok h p n owned :
    heap_inv h ((p, n) :: owned) ->
    heap_inv (kfree p h) owned /\ same_outside heap_area (heap_mem h) (heap_mem (kfree p h));
  heap_inv_writes h owned m' :
    heap_inv h owned -> mem_wf m' ->
    (forall x, heap_area x -> (forall p n, (p, n) ∈ owned -> ~ (p <= x < p + n)) -> ld8 m' x = ld8 (heap_mem h) x) ->
    heap_inv (set_heap_mem h m') owned;
  heap_blocks_exist h owned : heap_inv h owned -> exists l, heap_blocks h l;
  heap_blocks_writes h owned l m' :
    heap_inv h owned -> heap_blocks h l -> mem_wf m' ->
    (forall x, heap_area x -> (forall p n, (p, n) ∈ owned -> ~ (p <= x < p + n)) -> ld8 m' x = ld8 (heap_mem h) x) ->
    heap_blocks (set_heap_mem h m') l;
  kmalloc_fits h owned l size p h' :
    heap_inv h owned -> heap_blocks h l -> 0 < size <= max_request -> kmalloc size h = Some (p, h') ->
    (p =? 0) = negb (fits size l) /\ (p = 0 -> heap_blocks h' l);
  kfree_restores h owned l size p h' :
    heap_inv h owned -> heap_blocks h l -> 0 < size <= max_request -> kmalloc size h = Some (p, h') -> p <> 0 ->
    exists l', heap_blocks h' l' /\ forall h2, heap_blocks h2 l' -> heap_blocks (kfree p h2) l
}.

(** Does the heap grant a request? *)
Definition has_room {H : Type} `{Allocator H} (size : Z) (h : H) : bool :=
  match kmalloc size h with Some (p, _) => negb (p =? 0) | None => false end.

(** Writing one region, or none. *)
Section Writes.
Context {H : Type} `{AllocatorLaws H}.

Lemma heap_inv_write h p n owned m' :
  heap_inv h ((p, n) :: owned) -> mem_wf m' ->
  (forall x, heap_area x -> ~ (p <= x < p + n) -> ld8 m' x = ld8 (heap_mem h) x) ->
  heap_inv (set_heap_mem h m') ((p, n) :: owned).
Proof.
  intros Hi Hm Hs. apply heap_inv_writes; [done|done|]. intros x Hx Hout. apply Hs; [done|]. apply Hout. by left.
Qed.

Lemma heap_inv_outside h owned m' :
  heap_inv h owned -> mem_wf m' -> (forall x, heap_area x -> ld8 m' x = ld8 (heap_mem h) x) ->
  heap_inv (set_heap_mem h m') owned.
Proof. intros Hi Hm Hs. apply heap_inv_writes; [done|done|]. intros x Hx _. by apply Hs. Qed.

Lemma blocks_write h p n owned l m' :
  heap_inv h ((p, n) :: owned) -> heap_blocks h l -> mem_wf m' ->
  (forall x, heap_area x -> ~ (p <= x < p + n) -> ld8 m' x = ld8 (heap_mem h) x) -> heap_blocks (set_heap_mem h m') l.
Proof.
  intros Hi Hb Hm Hs. apply (heap_blocks_writes h ((p, n) :: owned)); try done.
  intros x Hx Hout. apply Hs; [done|]. apply Hout. by left.
Qed.

Lemma blocks_outside h owned l m' :
  heap_inv h owned -> heap_blocks h l -> mem_wf m' -> (forall x, heap_area x -> ld8 m' x = ld8 (heap_mem h) x) ->
  heap_blocks (set_heap_mem h m') l.
Proof. intros Hi Hb Hm Hs. apply (heap_blocks_writes h owned); try done. intros x Hx _. by apply Hs. Qed.

Lemma has_room_blocks h owned l size :
  heap_inv h owned -> heap_blocks h l -> 0 < size <= max_request -> has_room size h = fits size l.
Proof.
  intros Hi Hb Hs. unfold has_room. destruct (kmalloc_ok h owned size Hi Hs) as (p & h' & E & _). rewrite E.
  destruct (kmalloc_fits h owned l size p h' Hi Hb Hs E) as [-> _]. apply negb_involutive.
Qed.

End Writes.
