(* ===== verification/Heap.v ===== *)
(** * The kernel heap of arch/memory.c

    [kmalloc], [kfree], [kcalloc] and [krealloc] on the doubly linked list of
    block headers inside the array [g_heap].  The headers are bytes of memory
    ([heap_block_t] is a set of field offsets), so that aliasing and
    wrap-around behave as they do in C.  The abstract view is the list of
    blocks (size, free) that tile the array; [heap_rep] relates the two. *)

From Stdlib Require Import Sorted.
From S2P Require Import Prelude Cmem Alloc.
Local Open Scope Z_scope.

Module Heap.

Definition HEAP_SIZE : Z := 512 * 1024.
Definition HEAP_ALIGN : Z := 16.
Definition BLOCK_MAGIC : Z := 0xC0FFEE42.

(** [struct heap_block]: [magic] at 0, [size] at 4, [free] at 8 (one byte,
    three of padding), [next] at 12, [prev] at 16; 20 bytes in all. *)
Definition sizeof_heap_block : Z := 20.
Definition b_magic (m : mem) (b : Z) : Z := ld32 m b.
Definition b_size (m : mem) (b : Z) : Z := ld32 m (b + 4).
Definition b_free (m : mem) (b : Z) : Z := ld8 m (b + 8).
Definition b_next (m : mem) (b : Z) : Z := ld32 m (b + 12).
Definition b_prev (m : mem) (b : Z) : Z := ld32 m (b + 16).
Definition set_magic (b v : Z) (m : mem) : mem := st32 m b v.
Definition set_size (b v : Z) (m : mem) : mem := st32 m (b + 4) v.
Definition set_free (b v : Z) (m : mem) : mem := st8 m (b + 8) v.
Definition set_next (b v : Z) (m : mem) : mem := st32 m (b + 12) v.
Definition set_prev (b v : Z) (m : mem) : mem := st32 m (b + 16) v.

Definition align_up (value align : Z) : Z := align_up_u32 value align.

Definition header_size : Z := align_up sizeof_heap_block HEAP_ALIGN.

Definition block_payload (block : Z) : Z := block + align_up sizeof_heap_block HEAP_ALIGN.
Definition payload_block (ptr : Z) : Z := ptr - align_up sizeof_heap_block HEAP_ALIGN.

Definition split_block (block size : Z) (m : mem) : mem :=
  let total_needed := u32 (header_size + align_up size HEAP_ALIGN) in
  if b_size m block <=? u32 (u32 (total_needed + header_size) + HEAP_ALIGN) then m else
  let new_block := block + total_needed in
  let m := set_magic new_block BLOCK_MAGIC m in
  let m := set_size new_block (u32 (b_size m block - total_needed)) m in
  let m := set_free new_block 1 m in
  let m := set_next new_block (b_next m block) m in
  let m := set_prev new_block block m in
  let m := if negb (b_next m new_block =? 0)
           then set_prev (b_next m new_block) new_block m else m in
  let m := set_next block new_block m in
  set_size block total_needed m.

Definition merge_with_next (block : Z) (m : mem) : mem :=
  if (block =? 0) || (b_next m block =? 0) || (b_free m (b_next m block) =? 0) then m else
  let expected := u32 (block + b_size m block) in
  if negb (b_next m block =? expected) then m else
  let next := b_next m block in
  let m := set_size block (u32 (b_size m block + b_size m next)) m in
  let m := set_next block (b_next m next) m in
  if negb (b_next m block =? 0) then set_prev (b_next m block) block m else m.

Record heap := mkHeap { h_mem : mem; g_heap_head : Z; g_heap_ready : bool }.

Definition with_mem (h : heap) (m : mem) : heap := mkHeap m (g_heap_head h) (g_heap_ready h).

(** The [while (cur)] loop of [kmalloc]; [None] when [fuel] blocks were
    visited without reaching the end of the list. *)
Fixpoint find_block (fuel : nat) (cur aligned_size : Z) (m : mem) : option (Z * mem) :=
  if cur =? 0 then Some (0, m) else
  match fuel with
  | O => None
  | S fuel' =>
      if (b_magic m cur =? BLOCK_MAGIC) && negb (b_free m cur =? 0)
         && (u32 (aligned_size + header_size) <=? b_size m cur)
      then Some (block_payload cur, set_free cur 0 (split_block cur aligned_size m))
      else find_block fuel' (b_next m cur) aligned_size m
  end.

(** No list of blocks inside the heap is longer than this. *)
Definition heap_fuel : nat := Z.to_nat (HEAP_SIZE / HEAP_ALIGN).

Section KernelHeap.
Variable g_heap : Z.   (** address of the array [g_heap] *)

Definition heap_init (h : heap) : heap :=
  if g_heap_ready h then h else
  let m := set_magic g_heap BLOCK_MAGIC (h_mem h) in
  let m := set_size g_heap HEAP_SIZE m in
  let m := set_free g_heap 1 m in
  let m := set_next g_heap 0 m in
  let m := set_prev g_heap 0 m in
  mkHeap m g_heap true.

Definition kmalloc_fuel (fuel : nat) (size : Z) (h : heap) : option (Z * heap) :=
  if size =? 0 then Some (0, h) else
  let h := if g_heap_ready h then h else heap_init h in
  let aligned_size := align_up size HEAP_ALIGN in
  match find_block fuel (g_heap_head h) aligned_size (h_mem h) with
  | Some (p, m) => Some (p, with_mem h m)
  | None => None
  end.

Definition kmalloc : Z -> heap -> option (Z * heap) := kmalloc_fuel heap_fuel.

Definition kfree (ptr : Z) (h : heap) : heap :=
  if ptr =? 0 then h else
  let block := payload_block ptr in
  let m := h_mem h in
  if negb (b_magic m block =? BLOCK_MAGIC) then h else
  let m := set_free block 1 m in
  let m := merge_with_next block m in
  let m := if negb (b_prev m block =? 0) && negb (b_free m (b_prev m block) =? 0)
           then merge_with_next (b_prev m block) m else m in
  with_mem h m.

Definition kcalloc (count size : Z) (h : heap) : option (Z * heap) :=
  if negb (count =? 0) && ((2 ^ 32 - 1) / count <? size) then Some (0, h) else
  let total := u32 (count * size) in
  '(ptr, h) ← kmalloc total h;
  if ptr =? 0 then Some (0, h) else Some (ptr, with_mem h (memset ptr 0 total (h_mem h))).

Definition krealloc (ptr size : Z) (h : heap) : option (Z * heap) :=
  if ptr =? 0 then kmalloc size h else
  if size =? 0 then Some (0, kfree ptr h) else
  let block := payload_block ptr in
  if negb (b_magic (h_mem h) block =? BLOCK_MAGIC) then Some (0, h) else
  let old_size := u32 (b_size (h_mem h) block - header_size) in
  if size <=? old_size then Some (ptr, h) else
  '(new_ptr, h) ← kmalloc size h;
  if new_ptr =? 0 then Some (0, h) else
  Some (new_ptr, kfree ptr (with_mem h (memcpy new_ptr ptr old_size (h_mem h)))).

(** ** The abstract heap: the blocks (size, free) in address order *)

Definition heap_end : Z := g_heap + HEAP_SIZE.

(** The [next] pointer of a block that ends at [e]. *)
Definition next_of (e : Z) : Z := if e =? heap_end then 0 else e.

Record header_at (m : mem) (b sz : Z) (fr : bool) (pv : Z) : Prop := {
  ha_magic : b_magic m b = BLOCK_MAGIC;
  ha_size : b_size m b = sz;
  ha_free : b_free m b = if fr then 1 else 0;
  ha_next : b_next m b = next_of (b + sz);
  ha_prev : b_prev m b = pv
}.

(** Blocks [l] laid out from address [a], the first with [prev = pv]; they
    end at [e], and [lp] is the [prev] that a block at [e] has. *)
Fixpoint chain (m : mem) (pv a : Z) (l : list (Z * bool)) (e lp : Z) : Prop :=
  match l with
  | [] => e = a /\ lp = pv
  | (sz, fr) :: l' => header_at m a sz fr pv /\ chain m a (a + sz) l' e lp
  end.

Definition block_ok (b : Z * bool) : Prop := 48 <= b.1 /\ b.1 mod 16 = 0.

Fixpoint total (l : list (Z * bool)) : Z :=
  match l with [] => 0 | (sz, _) :: l' => sz + total l' end.

(** No two neighbouring blocks are free. *)
Fixpoint coalesced (l : list (Z * bool)) : Prop :=
  match l with
  | (_, true) :: (((_, true) :: _) as l') => False
  | _ :: l' => coalesced l'
  | [] => True
  end.

Record heap_rep (h : heap) (l : list (Z * bool)) : Prop := {
  hr_ready : g_heap_ready h = true;
  hr_head : g_heap_head h = g_heap;
  hr_mem : mem_wf (h_mem h);
  hr_chain : exists lp, chain (h_mem h) 0 g_heap l heap_end lp;
  hr_blocks : Forall block_ok l
}.

(** First fit with splitting, on the abstract heap: [need] is the size of
    the block that the request takes, the result the offset of the block. *)
Fixpoint alloc_spec (need : Z) (l : list (Z * bool)) : option (Z * list (Z * bool)) :=
  match l with
  | [] => None
  | (sz, fr) :: l' =>
      if fr && (need <=? sz) then
        Some (0, if sz <=? need + 48 then (sz, false) :: l'
                 else (need, false) :: (sz - need, true) :: l')
      else match alloc_spec need l' with
           | Some (off, l'') => Some (sz + off, (sz, fr) :: l'')
           | None => None
           end
  end.

(** Merging every run of free blocks. *)
Fixpoint coalesce (l : list (Z * bool)) : list (Z * bool) :=
  match l with
  | [] => []
  | (sz, fr) :: l' =>
      match fr, coalesce l' with
      | true, (sz2, true) :: l'' => (sz + sz2, true) :: l''
      | _, l'' => (sz, fr) :: l''
      end
  end.

(** The bytes of the headers of blocks [l] laid out from [a]. *)
Fixpoint header_byte (a : Z) (l : list (Z * bool)) (x : Z) : Prop :=
  match l with
  | [] => False
  | (sz, _) :: l' => a <= x < a + 20 \/ header_byte (a + sz) l' x
  end.

(** The block size that [kmalloc(size)] asks for. *)
Definition need_of (size : Z) : Z := 32 + (size + 15) / 16 * 16.

End KernelHeap.

(** ** Headers in memory *)

Lemma header_size_val : header_size = 32.
Proof. reflexivity. Qed.

(** [fields] reads header fields through a sequence of header writes. *)
Ltac fields :=
  unfold b_magic, b_size, b_free, b_next, b_prev,
         set_magic, set_size, set_free, set_next, set_prev in *;
  repeat first
    [ rewrite ld32_st32_eq by (assumption || (cbv [is_u32 BLOCK_MAGIC HEAP_SIZE]; lia))
    | rewrite ld32_st32_ne by lia
    | rewrite ld32_st8_ne by lia
    | rewrite ld8_st32_ne by lia
    | rewrite ld8_st8_eq
    | rewrite ld8_st8_ne by lia ].

Lemma total_app l1 l2 : total (l1 ++ l2) = total l1 + total l2.
Proof. induction l1 as [|[sz fr] l1 IH]; simpl; lia. Qed.

Lemma total_nonneg l : Forall block_ok l -> 0 <= total l.
Proof. induction 1 as [|[sz fr] l [H1 H2] _ IH]; simpl in *; lia. Qed.

Lemma total_aligned l : Forall block_ok l -> total l mod 16 = 0.
Proof. induction 1 as [|[sz fr] l [H1 H2] _ IH]; simpl in *; [done|mlia]. Qed.

Section Chains.
Context (g_heap : Z) (Hlow : 0 < g_heap) (Hhigh : g_heap + HEAP_SIZE < 2 ^ 32).

Abbreviation chain := (chain g_heap).
Abbreviation header_at := (header_at g_heap).

Lemma header_at_same m m' b sz fr pv :
  (forall x, b <= x < b + 20 -> ld8 m' x = ld8 m x) ->
  header_at m b sz fr pv -> header_at m' b sz fr pv.
Proof.
  intros Hs [? ? ? ? ?]. unfold b_magic, b_size, b_free, b_next, b_prev in *.
  split; unfold b_magic, b_size, b_free, b_next, b_prev; rewrite ?(ld32_same m m'), ?Hs;
    try done; try lia; intros; apply Hs; lia.
Qed.

Lemma chain_app m pv a l1 l2 e lp :
  chain m pv a (l1 ++ l2) e lp <->
  exists a' p', chain m pv a l1 a' p' /\ chain m p' a' l2 e lp.
Proof.
  revert pv a. induction l1 as [|[sz fr] l1 IH]; intros pv a; simpl.
  - split; [intros H; by exists a, pv|]. by intros (? & ? & [-> ->] & H).
  - rewrite IH. split.
    + intros (Hh & a' & p' & H1 & H2). exists a', p'. auto.
    + intros (a' & p' & [Hh H1] & H2). split; [done|]. by exists a', p'.
Qed.

Lemma chain_end m pv a l e lp : chain m pv a l e lp -> e = a + total l.
Proof.
  revert pv a. induction l as [|[sz fr] l IH]; intros pv a; simpl; [lia|].
  intros [_ H]. apply IH in H. lia.
Qed.

Lemma chain_same m m' pv a l e lp :
  Forall block_ok l -> chain m pv a l e lp ->
  (forall x, a <= x < e -> ld8 m' x = ld8 m x) -> chain m' pv a l e lp.
Proof.
  intros Hl. revert pv a. induction Hl as [|[sz fr] l Hb Hl IH]; intros pv a; simpl; [done|].
  intros [Hh Hc] Hs. pose proof (chain_end _ _ _ _ _ _ Hc). pose proof (total_nonneg _ Hl).
  destruct Hb as [Hb _]. simpl in Hb. split.
  - eapply header_at_same; [|done]. intros; apply Hs; lia.
  - apply IH; [done|]. intros; apply Hs; lia.
Qed.

(** Changing the [prev] of the first block, and nothing else in the chain. *)
Lemma chain_relink m m' pv pv' a l e lp :
  Forall block_ok l -> chain m pv a l e lp ->
  (forall x, a <= x < e -> x < a + 16 \/ a + 20 <= x -> ld8 m' x = ld8 m x) ->
  (l <> [] -> b_prev m' a = pv') ->
  exists lp', chain m' pv' a l e lp'.
Proof.
  intros Hl Hc Hs Hp. destruct l as [|[sz fr] l]; simpl in *; [by exists pv'; destruct Hc|].
  apply Forall_cons_1 in Hl as [[Hb _] Hl]. simpl in Hb. destruct Hc as [Hh Hc].
  pose proof (chain_end _ _ _ _ _ _ Hc). pose proof (total_nonneg _ Hl).
  exists lp. split.
  - destruct Hh as [? ? ? ? ?]. unfold b_magic, b_size, b_free, b_next, b_prev in *.
    split; unfold b_magic, b_size, b_free, b_next, b_prev; [..|by apply Hp];
      rewrite ?(ld32_same m m'), ?Hs; try done; try lia; intros; apply Hs; lia.
  - eapply chain_same; [done|done|]. intros; apply Hs; lia.
Qed.

Lemma next_of_zero m pv a l lp :
  Forall block_ok l -> g_heap < a -> chain m pv a l (heap_end g_heap) lp ->
  next_of g_heap a = 0 /\ l = [] /\ a = heap_end g_heap
  \/ next_of g_heap a = a /\ l <> [] /\ a + 48 <= heap_end g_heap /\ b_prev m a = pv.
Proof.
  intros Hl Ha Hc. unfold next_of. destruct l as [|[sz fr] l]; simpl in Hc.
  - destruct Hc as [<- _]. rewrite Z.eqb_refl. auto.
  - destruct Hc as [[_ _ _ _ Hp] Hc]. apply Forall_cons_1 in Hl as [[Hb _] Hl]. simpl in Hb.
    pose proof (chain_end _ _ _ _ _ _ Hc). pose proof (total_nonneg _ Hl).
    right. rewrite (proj2 (Z.eqb_neq a _)) by lia. split_and!; done || lia.
Qed.

(** ** Splitting *)

Lemma align_need need :
  48 <= need < 2 ^ 32 -> need mod 16 = 0 -> align_up (need - 32) HEAP_ALIGN = need - 32.
Proof.
  intros Hn Ha. unfold align_up. change HEAP_ALIGN with (2 ^ 4).
  rewrite align_up_u32_pow2 by lia. change (2 ^ 4) with 16. rewrite u32_small by lia. mlia.
Qed.

(** The bound that keeps every block size and address below [2^32]. *)
Lemma block_bound c sz : g_heap <= c -> c + sz <= heap_end g_heap ->
  sz <= 524288 /\ c + sz < 2 ^ 32 /\ 0 < c.
Proof. unfold heap_end. change HEAP_SIZE with 524288 in *. lia. Qed.

Lemma split_block_eq m c sz fr pv need nx :
  g_heap <= c -> c + sz <= heap_end g_heap -> 48 <= need -> need mod 16 = 0 -> need + 48 < sz ->
  header_at m c sz fr pv -> next_of g_heap (c + sz) = nx -> (nx = 0 \/ c + sz = nx) ->
  let n := c + need in
  let m1 := set_prev n c (set_next n nx (set_free n 1 (set_size n (sz - need) (set_magic n BLOCK_MAGIC m)))) in
  split_block c (need - 32) m =
  set_size c need (set_next c n (if negb (nx =? 0) then set_prev nx n m1 else m1)).
Proof.
  intros Hc He Hn Hna Hlt [_ Hs _ Hnx _] Hnx' Hnz n m1.
  destruct (block_bound c sz Hc He) as (Hsz & Hcs & Hc0).
  assert (Hall : align_up (need - 32) HEAP_ALIGN = need - 32) by (apply align_need; lia).
  unfold split_block. rewrite Hall, header_size_val.
  replace (32 + (need - 32)) with need by lia. change HEAP_ALIGN with 16.
  rewrite Hs. u32_nowrap. rewrite (proj2 (Z.leb_gt sz (need + 32 + 16))) by lia.
  rewrite Hnx' in Hnx. fold n. cbv zeta.
  assert (Hs1 : b_size (set_magic n BLOCK_MAGIC m) c = sz) by (subst n; by fields).
  rewrite Hs1. u32_nowrap.
  set (m0 := set_free n 1 (set_size n (sz - need) (set_magic n BLOCK_MAGIC m))) in *.
  assert (Hn0 : b_next m0 c = nx) by (subst m0 n; by fields).
  rewrite Hn0. fold m1.
  assert (Hu : is_u32 nx) by (unfold is_u32; lia).
  assert (Hn1 : b_next m1 n = nx) by (subst m1 n; fields; done).
  by rewrite Hn1.
Qed.

Lemma split_block_small m c sz fr pv need :
  g_heap <= c -> c + sz <= heap_end g_heap -> 48 <= need -> need mod 16 = 0 -> need <= sz -> sz <= need + 48 ->
  header_at m c sz fr pv -> split_block c (need - 32) m = m.
Proof.
  intros Hc He Hn Hna Hle Hlt [_ Hs _ Hnx _].
  destruct (block_bound c sz Hc He) as (Hsz & Hcs & Hc0).
  assert (Hall : align_up (need - 32) HEAP_ALIGN = need - 32) by (apply align_need; lia).
  unfold split_block. rewrite Hall, header_size_val.
  replace (32 + (need - 32)) with need by lia. change HEAP_ALIGN with 16.
  rewrite Hs. u32_nowrap. by rewrite (proj2 (Z.leb_le sz (need + 32 + 16))) by lia.
Qed.

(** The writes of a split stay in the headers of the block, of its second
    half and of the following block. *)
Lemma split_chain m pv c sz l2 need lp :
  mem_wf m -> Forall block_ok ((sz, true) :: l2) -> g_heap <= c ->
  chain m pv c ((sz, true) :: l2) (heap_end g_heap) lp ->
  48 <= need -> need mod 16 = 0 -> need + 48 < sz ->
  let m' := set_free c 0 (split_block c (need - 32) m) in
  let l' := (need, false) :: (sz - need, true) :: l2 in
  mem_wf m' /\ (exists lp', chain m' pv c l' (heap_end g_heap) lp') /\
  same_outside (header_byte c l') m m'.
Proof.
  intros Hm Hok Hc [Hh Hch] Hn Hna Hlt m' l'.
  apply Forall_cons_1 in Hok as [[Hb0 Hb1] Hok]. simpl in Hb0, Hb1.
  pose proof (chain_end _ _ _ _ _ _ Hch) as He. pose proof (total_nonneg _ Hok).
  destruct (block_bound c sz Hc ltac:(lia)) as (Hsz & Hcs & Hc0).
  destruct (next_of_zero m c (c + sz) l2 lp Hok ltac:(lia) Hch) as [(Hnx & -> & Hce)|(Hnx & Hne & Hce & Hpx)].
  - assert (Hm' : m' = set_free c 0 (set_size c need (set_next c (c + need)
      (set_prev (c + need) c (set_next (c + need) 0 (set_free (c + need) 1
         (set_size (c + need) (sz - need) (set_magic (c + need) BLOCK_MAGIC m)))))))).
    { unfold m'. by rewrite (split_block_eq m c sz true pv need 0) by (done || lia || auto). }
    clearbody m'. subst m'. split_and!.
    + unfold set_free, set_size, set_next, set_prev, set_magic. auto 10 with kernel.
    + exists (c + need). unfold l'. simpl. destruct Hh as [? ? ? ? ?]. split_and!; try lia; split;
        unfold next_of, heap_end in *; fields; try done; z_cases; done || lia.
    + unfold l', set_free, set_size, set_next, set_prev, set_magic.
      intros x Hx. simpl in Hx. rewrite ld8_st8_ne, !ld8_st32_ne, ld8_st8_ne, !ld8_st32_ne by lia. done.
  - assert (Hm' : m' = set_free c 0 (set_size c need (set_next c (c + need) (set_prev (c + sz) (c + need)
      (set_prev (c + need) c (set_next (c + need) (c + sz) (set_free (c + need) 1
         (set_size (c + need) (sz - need) (set_magic (c + need) BLOCK_MAGIC m))))))))).
    { unfold m'. rewrite (split_block_eq m c sz true pv need (c + sz)) by (done || lia || auto).
      by rewrite (proj2 (Z.eqb_neq (c + sz) 0)) by lia. }
    clearbody m'. subst m'. split_and!.
    + unfold set_free, set_size, set_next, set_prev, set_magic. auto 12 with kernel.
    + destruct (chain_relink m (set_free c 0 (set_size c need (set_next c (c + need) (set_prev (c + sz) (c + need)
      (set_prev (c + need) c (set_next (c + need) (c + sz) (set_free (c + need) 1
         (set_size (c + need) (sz - need) (set_magic (c + need) BLOCK_MAGIC m)))))))))
         c (c + need) (c + sz) l2 (heap_end g_heap) lp Hok Hch) as [lp' Hlp].
      * intros x Hx1 Hx2. unfold set_free, set_size, set_next, set_prev, set_magic.
        rewrite ld8_st8_ne, !ld8_st32_ne, ld8_st8_ne, !ld8_st32_ne by lia. done.
      * intros _. by fields.
      * exists lp'. unfold l'. simpl. replace (c + need + (sz - need)) with (c + sz) by lia.
        destruct Hh as [? ? ? ? ?]. split_and!; [| |done]; split;
          unfold next_of, heap_end in *; fields; try done; z_cases; done || lia.
    + unfold l', set_free, set_size, set_next, set_prev, set_magic.
      destruct l2 as [|[sz2 fr2] l2]; [done|].
      intros x Hx. simpl in Hx. rewrite ld8_st8_ne, !ld8_st32_ne, ld8_st8_ne, !ld8_st32_ne by lia. done.
Qed.

Lemma whole_chain m pv c sz l2 need lp :
  mem_wf m -> Forall block_ok ((sz, true) :: l2) -> g_heap <= c ->
  chain m pv c ((sz, true) :: l2) (heap_end g_heap) lp ->
  48 <= need -> need mod 16 = 0 -> need <= sz -> sz <= need + 48 ->
  let m' := set_free c 0 (split_block c (need - 32) m) in
  let l' := (sz, false) :: l2 in
  mem_wf m' /\ (exists lp', chain m' pv c l' (heap_end g_heap) lp') /\
  same_outside (header_byte c l') m m'.
Proof.
  intros Hm Hok Hc [Hh Hch] Hn Hna Hle Hlt m' l'.
  apply Forall_cons_1 in Hok as [[Hb0 Hb1] Hok]. simpl in Hb0, Hb1.
  pose proof (chain_end _ _ _ _ _ _ Hch) as He. pose proof (total_nonneg _ Hok).
  unfold m'. rewrite (split_block_small m c sz true pv need) by (done || lia). clear m'.
  unfold l'. split_and!.
  - unfold set_free. auto with kernel.
  - exists lp. simpl. destruct Hh as [? ? ? ? ?]. split; [split; fields; done|].
    eapply chain_same; [done|done|]. intros x Hx. apply ld8_st8_ne. lia.
  - apply same_outside_st8. simpl. lia.
Qed.

(** The blocks after a request for [need] bytes. *)
Definition alloc_blocks (need : Z) (l : list (Z * bool)) : list (Z * bool) :=
  match alloc_spec need l with Some (_, l') => l' | None => l end.

Lemma header_byte_ge a l x : Forall block_ok l -> header_byte a l x -> a <= x.
Proof.
  intros Hl. revert a. induction Hl as [|[sz fr] l [Hb _] Hl IH]; intros a; simpl in *; [done|].
  intros [?|H]; [lia|]. specialize (IH _ H). lia.
Qed.

Lemma alloc_blocks_ok need l :
  48 <= need -> need mod 16 = 0 -> Forall block_ok l -> Forall block_ok (alloc_blocks need l).
Proof.
  intros Hn Ha Hl. unfold alloc_blocks. induction Hl as [|[sz fr] l [Hb Hb'] Hl IH]; simpl in *; [constructor|].
  destruct (fr && (need <=? sz)) eqn:E; bool_to_prop.
  - case_cond; repeat constructor; simpl; try done; try lia. mlia.
  - destruct (alloc_spec need l) as [[off l'']|]; constructor; done.
Qed.

Lemma alloc_blocks_length need l : (length l <= length (alloc_blocks need l))%nat.
Proof.
  unfold alloc_blocks. induction l as [|[sz fr] l IH]; simpl; [done|].
  destruct (fr && (need <=? sz)); [case_cond; simpl; lia|].
  destruct (alloc_spec need l) as [[off l'']|]; simpl; lia.
Qed.

(** [find_block] refines [alloc_spec]. *)
Lemma find_block_spec need fuel m pv c l lp :
  48 <= need < 2 ^ 32 -> need mod 16 = 0 ->
  mem_wf m -> Forall block_ok l -> g_heap <= c -> chain m pv c l (heap_end g_heap) lp ->
  (length l <= fuel)%nat ->
  exists m',
    find_block fuel (next_of g_heap c) (need - 32) m
    = Some (match alloc_spec need l with Some (off, _) => c + off + 32 | None => 0 end, m') /\
    mem_wf m' /\ (exists lp', chain m' pv c (alloc_blocks need l) (heap_end g_heap) lp') /\
    same_outside (header_byte c (alloc_blocks need l)) m m'.
Proof.
  intros Hn Ha. revert fuel m pv c. unfold alloc_blocks.
  induction l as [|[sz fr] l IH]; intros fuel m pv c Hm Hok Hc Hch Hf.
  - simpl in Hch. destruct Hch as [<- ->]. exists m. unfold next_of. rewrite Z.eqb_refl.
    destruct fuel; simpl; split_and!; try done; by exists pv.
  - destruct fuel as [|fuel]; simpl in Hf; [lia|]. pose proof Hch as [Hh Hch'].
    pose proof Hok as [[Hb0 Hb1] Hok']%Forall_cons_1. simpl in Hb0, Hb1.
    pose proof (chain_end _ _ _ _ _ _ Hch') as He. pose proof (total_nonneg _ Hok').
    assert (Hnc : next_of g_heap c = c) by (unfold next_of; rewrite (proj2 (Z.eqb_neq c _)); lia).
    rewrite Hnc. cbn [find_block alloc_spec].
    rewrite (proj2 (Z.eqb_neq c 0)) by lia. destruct Hh as [Hmg Hsz Hfr Hnx Hpv].
    rewrite Hmg, Hsz, Hfr, Hnx, header_size_val, Z.eqb_refl. cbn [andb].
    replace (need - 32 + 32) with need by lia. rewrite (u32_small need) by lia.
    replace (negb ((if fr then 1 else 0) =? 0)) with fr by by destruct fr.
    destruct (fr && (need <=? sz)) eqn:E; bool_to_prop.
    + subst fr. exists (set_free c 0 (split_block c (need - 32) m)).
      split; [rewrite Z.add_0_r; by unfold block_payload|].
      destruct (Z.leb_spec sz (need + 48)); [eapply whole_chain|eapply split_chain]; eauto; lia.
    + destruct (IH fuel m c (c + sz)) as (m' & Hfb & Hw & [lp' Hc'] & Hso); try done; try lia.
      exists m'. rewrite Hfb.
      assert (Hh' : header_at m' c sz fr pv).
      { eapply header_at_same; [|by split]. intros x Hx. apply Hso. intros Hhb.
        apply header_byte_ge in Hhb; [lia|]. apply alloc_blocks_ok; done || lia. }
      destruct (alloc_spec need l) as [[off l'']|]; split_and!; try done;
        try (do 2 f_equal; lia); try (by exists lp');
        (eapply same_outside_mono; [|exact Hso]); simpl; auto.
Qed.

(** ** kmalloc *)

(** A request that does not wrap: the C code computes
    [align_up(size, 16) + 32] in 32 bits. *)
Definition small_request (size : Z) : Prop := 0 < size <= 2 ^ 32 - 64.

Lemma need_of_spec size :
  small_request size ->
  48 <= need_of size < 2 ^ 32 /\ need_of size mod 16 = 0 /\ size + 32 <= need_of size /\
  align_up size HEAP_ALIGN = need_of size - 32.
Proof.
  intros Hs. unfold small_request, need_of in *.
  assert (align_up size HEAP_ALIGN = (size + 15) / 16 * 16).
  { unfold align_up. change HEAP_ALIGN with (2 ^ 4). rewrite align_up_u32_pow2 by lia.
    change (2 ^ 4) with 16. rewrite u32_small by lia. f_equal. f_equal. lia. }
  split_and!; mlia.
Qed.

Lemma blocks_fuel l : Forall block_ok l -> total l <= HEAP_SIZE -> (length l <= heap_fuel)%nat.
Proof.
  intros Hl Ht. change heap_fuel with (Z.to_nat 32768). change HEAP_SIZE with 524288 in Ht.
  assert (48 * Z.of_nat (length l) <= total l); [|lia]. clear Ht.
  induction Hl as [|[sz fr] l [Hb _] Hl IH]; simpl in *; lia.
Qed.

Lemma rep_total h l : heap_rep g_heap h l -> total l = HEAP_SIZE.
Proof.
  intros [_ _ _ [lp Hc] _]. apply chain_end in Hc. unfold heap_end in Hc. lia.
Qed.

(** [kmalloc] refines [alloc_spec]: it returns, its result is the payload of
    the block that the specification chooses, the new heap represents the new
    list of blocks, and only block headers are written. *)
Lemma kmalloc_refines h l size :
  heap_rep g_heap h l -> small_request size ->
  exists h',
    kmalloc g_heap size h
    = Some (match alloc_spec (need_of size) l with
            | Some (off, _) => g_heap + off + 32 | None => 0 end, h') /\
    heap_rep g_heap h' (alloc_blocks (need_of size) l) /\
    same_outside (header_byte g_heap (alloc_blocks (need_of size) l)) (h_mem h) (h_mem h').
Proof.
  intros Hr Hs. pose proof (rep_total h l Hr) as Ht. destruct Hr as [Hrd Hhd Hm [lp Hc] Hok].
  destruct (need_of_spec size Hs) as (Hn & Hna & _ & Hal).
  destruct (find_block_spec (need_of size) heap_fuel (h_mem h) 0 g_heap l lp)
    as (m' & Hf & Hw & Hch & Hso); try done; try lia.
  { apply blocks_fuel; [done|lia]. }
  assert (Hng : next_of g_heap g_heap = g_heap).
  { unfold next_of, heap_end. rewrite (proj2 (Z.eqb_neq g_heap _)); [done|].
    change HEAP_SIZE with 524288. lia. }
  rewrite Hng in Hf. exists (with_mem h m'). unfold kmalloc, kmalloc_fuel.
  rewrite (proj2 (Z.eqb_neq size 0)) by (unfold small_request in Hs; lia).
  rewrite Hrd, Hhd, Hal, Hf. split_and!; try done.
  split; simpl; try done. apply alloc_blocks_ok; done || lia.
Qed.

(** ** Merging *)

(** [merge_with_next] on a block followed by a free block. *)
Lemma merge_free m c pv sz fr sz2 l lp :
  mem_wf m -> Forall block_ok ((sz, fr) :: (sz2, true) :: l) -> g_heap <= c ->
  chain m pv c ((sz, fr) :: (sz2, true) :: l) (heap_end g_heap) lp ->
  let m' := merge_with_next c m in
  mem_wf m' /\ (exists lp', chain m' pv c ((sz + sz2, fr) :: l) (heap_end g_heap) lp') /\
  same_outside (header_byte c ((sz, fr) :: (sz2, true) :: l)) m m'.
Proof.
  intros Hm Hok Hc (Hh & Hh2 & Hch) m'.
  apply Forall_cons_1 in Hok as [[Hb0 _] Hok]. apply Forall_cons_1 in Hok as [[Hb2 _] Hok].
  simpl in Hb0, Hb2. pose proof (chain_end _ _ _ _ _ _ Hch) as He. pose proof (total_nonneg _ Hok).
  destruct (block_bound c (sz + sz2) Hc ltac:(lia)) as (Hsz & Hcs & Hc0).
  destruct Hh as [Hmg Hs Hfr Hnx Hpv]. destruct Hh2 as [Hmg2 Hs2 Hfr2 Hnx2 Hpv2].
  assert (Hne : next_of g_heap (c + sz) = c + sz) by (unfold next_of; rewrite (proj2 (Z.eqb_neq _ _)); lia).
  rewrite Hne in Hnx. replace (c + sz + sz2) with (c + (sz + sz2)) in * by lia.
  set (nx := next_of g_heap (c + (sz + sz2))) in *.
  assert (Hm' : m' = let m2 := set_next c nx (set_size c (sz + sz2) m) in
                     if negb (nx =? 0) then set_prev nx c m2 else m2).
  { subst m'. unfold merge_with_next. rewrite Hnx, Hfr2, Hs, Hs2. u32_nowrap.
    rewrite !(proj2 (Z.eqb_neq _ 0)), Z.eqb_refl by lia. cbn [orb negb].
    assert (Hr : b_next (set_size c (sz + sz2) m) (c + sz) = nx) by by fields.
    rewrite Hr. assert (Hu : is_u32 nx) by (unfold nx, next_of, is_u32; case_cond; lia).
    assert (Hr2 : b_next (set_next c nx (set_size c (sz + sz2) m)) c = nx) by (fields; done).
    by rewrite Hr2. }
  clearbody m'.
  destruct (next_of_zero m (c + sz) (c + (sz + sz2)) l lp Hok ltac:(lia) Hch)
    as [(Hz & -> & Hce)|(Hz & Hnn & Hce & _)]; fold nx in Hz.
  - rewrite Hz in Hm'. cbn in Hm'. subst m'. split_and!.
    + unfold set_next, set_size. auto with kernel.
    + exists c. simpl. split; [split; fold nx; rewrite ?Hz; fields; done|]. lia.
    + unfold set_next, set_size. intros x Hx. simpl in Hx. rewrite !ld8_st32_ne by lia. done.
  - rewrite Hz, (proj2 (Z.eqb_neq _ 0)) in Hm' by lia. cbn in Hm'. subst m'. split_and!.
    + unfold set_next, set_size, set_prev. auto with kernel.
    + destruct (chain_relink m (set_prev (c + (sz + sz2)) c (set_next c (c + (sz + sz2)) (set_size c (sz + sz2) m)))
         (c + sz) c (c + (sz + sz2)) l (heap_end g_heap) lp Hok Hch) as [lp' Hlp].
      * intros x Hx1 Hx2. unfold set_next, set_size, set_prev. by rewrite !ld8_st32_ne by lia.
      * intros _. by fields.
      * exists lp'. simpl. split; [|done]. split; fold nx; rewrite ?Hz; fields; done.
    + destruct l as [|[sz3 fr3] l]; [done|]. unfold set_next, set_size, set_prev.
      intros x Hx. simpl in Hx. rewrite !ld8_st32_ne by lia. done.
Qed.

(** ... and on any other block, where it does nothing. *)
Lemma merge_none m c pv sz fr l lp :
  Forall block_ok ((sz, fr) :: l) -> g_heap <= c ->
  chain m pv c ((sz, fr) :: l) (heap_end g_heap) lp ->
  match l with (_, true) :: _ => False | _ => True end ->
  merge_with_next c m = m.
Proof.
  intros Hok Hc [Hh Hch] Hl. apply Forall_cons_1 in Hok as [[Hb0 _] Hok]. simpl in Hb0.
  destruct Hh as [_ _ _ Hnx _]. unfold merge_with_next.
  rewrite (proj2 (Z.eqb_neq c 0)) by lia. cbn [orb].
  destruct l as [|[sz2 [|]] l]; [| done|].
  - destruct Hch as [He _]. rewrite Hnx. unfold next_of. by rewrite <- He, Z.eqb_refl.
  - destruct Hch as [Hh2 Hch]. apply Forall_cons_1 in Hok as [[Hb2 _] Hok]. simpl in Hb2.
    pose proof (chain_end _ _ _ _ _ _ Hch). pose proof (total_nonneg _ Hok).
    rewrite Hnx. unfold next_of. rewrite (proj2 (Z.eqb_neq (c + sz) _)) by lia.
    destruct Hh2 as [_ _ Hfr2 _ _]. rewrite Hfr2, orb_true_r. done.
Qed.

(** ** kfree *)

(** Replacing the tail of a chain. *)
Lemma update_tail m m' pv a l1 t t' e lp :
  Forall block_ok l1 -> chain m pv a (l1 ++ t) e lp ->
  (forall x, a <= x < a + total l1 -> ld8 m' x = ld8 m x) ->
  (forall p', chain m p' (a + total l1) t e lp -> exists lp', chain m' p' (a + total l1) t' e lp') ->
  exists lp', chain m' pv a (l1 ++ t') e lp'.
Proof.
  intros Hok Hc Hs Ht. apply chain_app in Hc as (a' & p' & H1 & H2).
  pose proof (chain_end _ _ _ _ _ _ H1) as ->.
  destruct (Ht p' H2) as [lp' H3]. exists lp'. apply chain_app. exists (a + total l1), p'.
  split; [|done]. by eapply chain_same.
Qed.

Lemma header_byte_app a l1 l2 x :
  header_byte a (l1 ++ l2) x <-> header_byte a l1 x \/ header_byte (a + total l1) l2 x.
Proof.
  revert a. induction l1 as [|[sz fr] l1 IH]; intros a; simpl.
  - rewrite Z.add_0_r. tauto.
  - rewrite IH, <- Z.add_assoc. tauto.
Qed.

Lemma coalesce_ok l : Forall block_ok l -> Forall block_ok (coalesce l).
Proof.
  induction 1 as [|[sz fr] l Hb Hl IH]; simpl; [constructor|].
  destruct fr; [|by constructor]. destruct (coalesce l) as [|[sz2 [|]] l'']; try by constructor.
  apply Forall_cons_1 in IH as [Hb2 IH]. constructor; [|done].
  unfold block_ok in *. simpl in *. split; [lia|mlia].
Qed.

Lemma coalesce_coalesced l : coalesced (coalesce l).
Proof.
  induction l as [|[sz fr] l IH]; simpl; [done|].
  destruct fr; [|done]. destruct (coalesce l) as [|[sz2 [|]] l'']; try done.
Qed.

Lemma coalesced_tail b l : coalesced (b :: l) -> coalesced l.
Proof. destruct b as [sz [|]]; simpl; [|done]. destruct l as [|[? [|]]]; done. Qed.

Lemma coalesced_app l1 l2 : coalesced (l1 ++ l2) -> coalesced l1 /\ coalesced l2.
Proof.
  induction l1 as [|[sz fr] l1 IH]; [done|]. intros H.
  destruct (IH (coalesced_tail _ _ H)) as [H1 H2]. split; [|done].
  simpl in *. destruct fr; [|done]. by destruct l1 as [|[? [|]]].
Qed.

Lemma coalesce_id l : coalesced l -> coalesce l = l.
Proof.
  induction l as [|[sz fr] l IH]; [done|]. intros H.
  simpl. rewrite IH by by apply coalesced_tail in H.
  destruct fr; [|done]. by destruct l as [|[? [|]]].
Qed.

Lemma coalesce_app_r l1 l2 : coalesce (l1 ++ coalesce l2) = coalesce (l1 ++ l2).
Proof.
  induction l1 as [|[sz fr] l1 IH]; simpl; [by apply coalesce_id, coalesce_coalesced|by rewrite IH].
Qed.

Lemma coalesce_snoc l0 s0 f0 st l :
  coalesced (l0 ++ [(s0, f0)]) -> coalesced ((st, true) :: l) ->
  coalesce (l0 ++ (s0, f0) :: (st, true) :: l)
  = l0 ++ (if f0 then (s0 + st, true) :: l else (s0, f0) :: (st, true) :: l).
Proof.
  intros H0 Ht. induction l0 as [|[sz fr] l0 IH].
  - cbn [app]. change (coalesce ((s0, f0) :: (st, true) :: l)) with
      (match f0, coalesce ((st, true) :: l) with
       | true, (sz2, true) :: l'' => (s0 + sz2, true) :: l'' | _, l'' => (s0, f0) :: l'' end).
    rewrite (coalesce_id ((st, true) :: l)) by done. by destruct f0.
  - cbn [app coalesce]. rewrite IH by by apply coalesced_tail in H0.
    destruct fr; [|done]. cbn [app coalesced] in H0.
    destruct l0 as [|[s1 [|]] l0]; [|done|done]. cbn in H0. by destruct f0.
Qed.

(** What merging with the next block leaves of the tail. *)
Lemma merge_next_tail m c pv sz l2 lp :
  mem_wf m -> Forall block_ok ((sz, true) :: l2) -> g_heap <= c -> coalesced l2 ->
  chain m pv c ((sz, true) :: l2) (heap_end g_heap) lp ->
  let m' := merge_with_next c m in
  exists st l, coalesce ((sz, true) :: l2) = (st, true) :: l /\
    mem_wf m' /\ (exists lp', chain m' pv c ((st, true) :: l) (heap_end g_heap) lp') /\
    same_outside (header_byte c ((sz, true) :: l2)) m m'.
Proof.
  intros Hm Hok Hc Hco Hch m'. cbn [coalesce]. rewrite (coalesce_id l2) by done.
  destruct l2 as [|[sz2 [|]] l2].
  - exists sz, []. unfold m'. rewrite (merge_none m c pv sz true [] lp) by done.
    split_and!; try done. by exists lp.
  - exists (sz + sz2), l2. split; [done|]. by apply (merge_free m c pv sz true sz2 l2 lp).
  - exists sz, ((sz2, false) :: l2). unfold m'.
    rewrite (merge_none m c pv sz true ((sz2, false) :: l2) lp) by done.
    split_and!; try done. by exists lp.
Qed.

Lemma header_byte_coalesce a l x : header_byte a (coalesce l) x -> header_byte a l x.
Proof.
  revert a. induction l as [|[sz fr] l IH]; intros a; simpl; [done|].
  specialize (IH (a + sz)). destruct fr; [|simpl; tauto].
  destruct (coalesce l) as [|[sz2 [|]] l']; simpl in *; rewrite ?Z.add_assoc; tauto.
Qed.

(** Headers do not depend on the free flags. *)
Lemma header_byte_free a l1 sz f1 f2 l2 x :
  header_byte a (l1 ++ (sz, f1) :: l2) x <-> header_byte a (l1 ++ (sz, f2) :: l2) x.
Proof. by rewrite !header_byte_app. Qed.

(** The last step of [kfree]: merging the free block at [c] into a free
    predecessor. *)
Lemma merge_prev m l1 c st l lp :
  mem_wf m -> Forall block_ok (l1 ++ (st, true) :: l) -> coalesced l1 -> coalesced ((st, true) :: l) ->
  c = g_heap + total l1 -> chain m 0 g_heap (l1 ++ (st, true) :: l) (heap_end g_heap) lp ->
  let m' := if negb (b_prev m c =? 0) && negb (b_free m (b_prev m c) =? 0)
            then merge_with_next (b_prev m c) m else m in
  mem_wf m' /\ (exists lp', chain m' 0 g_heap (coalesce (l1 ++ (st, true) :: l)) (heap_end g_heap) lp') /\
  same_outside (header_byte g_heap (l1 ++ (st, true) :: l)) m m'.
Proof.
  intros Hm Hok Hco1 Hco2 -> Hch. cbn zeta. pose proof Hch as (a' & p' & H1 & H2)%chain_app.
  pose proof (chain_end _ _ _ _ _ _ H1) as ->. pose proof H2 as [[_ _ _ _ ->] _].
  apply Forall_app in Hok as [Hok1 Hok2].
  destruct l1 as [|[s0 f0] l0 _] using rev_ind.
  { destruct H1 as [_ ->]. cbn [app]. rewrite coalesce_id by done. split_and!; try done. by exists lp. }
  apply Forall_app in Hok1 as [Hok0 Hok1]. pose proof (total_nonneg _ Hok0).
  apply chain_app in H1 as (a0 & p0 & H0 & Hp). pose proof (chain_end _ _ _ _ _ _ H0) as ->.
  destruct Hp as [Hh [He ->]]. rewrite <- app_assoc in Hch |- *. cbn [app] in Hch |- *.
  rewrite coalesce_snoc by done. destruct Hh as [_ _ -> _ _].
  rewrite (proj2 (Z.eqb_neq (g_heap + total l0) 0)) by lia. cbn [negb andb].
  destruct f0; cbn [negb Z.eqb]; [|split_and!; try done; by exists lp].
  assert (Hmf : forall q lp1, chain m q (g_heap + total l0) ((s0, true) :: (st, true) :: l) (heap_end g_heap) lp1 ->
    mem_wf (merge_with_next (g_heap + total l0) m) /\
    (exists lp', chain (merge_with_next (g_heap + total l0) m) q (g_heap + total l0)
                   ((s0 + st, true) :: l) (heap_end g_heap) lp') /\
    same_outside (header_byte (g_heap + total l0) ((s0, true) :: (st, true) :: l)) m
      (merge_with_next (g_heap + total l0) m)).
  { intros q lp1 Hq. apply (merge_free m (g_heap + total l0) q s0 true st l lp1); try done; [|lia].
    apply Forall_cons_1 in Hok1 as [? _]. by constructor. }
  assert (Hq : exists q lp1, chain m q (g_heap + total l0) ((s0, true) :: (st, true) :: l) (heap_end g_heap) lp1).
  { apply chain_app in Hch as (a1 & q & Ha & Hb). pose proof (chain_end _ _ _ _ _ _ Ha) as ->. by exists q, lp. }
  destruct Hq as (q & lp1 & Hq). destruct (Hmf q lp1 Hq) as (Hw & _ & Hso).
  assert (Hokm : Forall block_ok ((s0, true) :: (st, true) :: l)).
  { apply Forall_cons_1 in Hok1 as [? _]. by constructor. }
  split_and!; [done| |].
  - eapply update_tail; [done|exact Hch| |].
    + intros x Hx. apply Hso. intros Hhb. apply header_byte_ge in Hhb; [lia|done].
    + intros q' Hq'. by apply (Hmf q' lp).
  - eapply same_outside_mono; [|exact Hso]. intros x Hx. apply header_byte_app. by right.
Qed.

(** [kfree] refines "mark free and coalesce": the heap afterwards represents
    the coalesced list of blocks, and only block headers are written. *)
Lemma kfree_refines h l1 sz fr l2 :
  let l := l1 ++ (sz, fr) :: l2 in
  heap_rep g_heap h l -> coalesced l ->
  let h' := kfree (g_heap + total l1 + 32) h in
  heap_rep g_heap h' (coalesce (l1 ++ (sz, true) :: l2)) /\
  same_outside (header_byte g_heap l) (h_mem h) (h_mem h').
Proof.
  intros l Hr Hco h'. subst l. destruct Hr as [Hrd Hhd Hm [lp Hc] Hok].
  set (c := g_heap + total l1) in *.
  pose proof Hc as (a' & p' & H1 & H2)%chain_app. pose proof (chain_end _ _ _ _ _ _ H1) as ->.
  fold c in H2. pose proof Hok as [Hok1 [Hb Hok2]%Forall_cons_1]%Forall_app.
  pose proof (total_nonneg _ Hok1). apply coalesced_app in Hco as [Hco1 Hco2%coalesced_tail].
  assert (Hokt : Forall block_ok ((sz, true) :: l2)) by (constructor; done).
  assert (Hcc : g_heap <= c) by (subst c; lia).
  destruct H2 as [Hh H2]. pose proof Hh as [Hmg _ _ _ _].
  subst h'. unfold kfree, payload_block. change (align_up sizeof_heap_block HEAP_ALIGN) with 32.
  rewrite (proj2 (Z.eqb_neq (c + 32) 0)) by lia. replace (c + 32 - 32) with c by lia.
  rewrite Hmg, Z.eqb_refl. cbn [negb]. set (m1 := set_free c 1 (h_mem h)).
  assert (Hs1 : forall x, x <> c + 8 -> ld8 m1 x = ld8 (h_mem h) x)
    by (intros x Hx; apply ld8_st8_ne; lia).
  assert (Hw1 : mem_wf m1) by (unfold m1, set_free; auto with kernel).
  assert (Ht1 : forall q lp, chain (h_mem h) q c ((sz, fr) :: l2) (heap_end g_heap) lp ->
                chain m1 q c ((sz, true) :: l2) (heap_end g_heap) lp).
  { intros q lp1 [[? ? ? ? ?] Hq]. simpl in Hb. destruct Hb as [Hb _]. simpl in Hb.
    split; [split; unfold m1; fields; done|].
    eapply chain_same; [done|done|]. intros x Hx. apply Hs1. lia. }
  destruct (merge_next_tail m1 c p' sz l2 lp) as (st & lt & Hcoal & Hw2 & _ & Hso2); try done.
  { by apply Ht1. }
  set (m2 := merge_with_next c m1) in *.
  assert (Hc2 : exists lp2, chain m2 0 g_heap (l1 ++ (st, true) :: lt) (heap_end g_heap) lp2).
  { eapply (update_tail (h_mem h)); [done|exact Hc| |].
    - intros x Hx. rewrite Hso2; [apply Hs1; subst c; lia|].
      intros Hhb. apply header_byte_ge in Hhb; [subst c; lia|done].
    - intros q Hq. apply Ht1 in Hq. destruct (merge_next_tail m1 c q sz l2 lp) as (st' & lt' & E & _ & Hx & _); try done.
      rewrite Hcoal in E. by simplify_eq. }
  destruct Hc2 as [lp2 Hc2].
  assert (Hokc : Forall block_ok ((st, true) :: lt)) by (rewrite <- Hcoal; by apply coalesce_ok).
  assert (Hcoc : coalesced ((st, true) :: lt)) by (rewrite <- Hcoal; apply coalesce_coalesced).
  destruct (merge_prev m2 l1 c st lt lp2) as (Hw3 & [lp3 Hc3] & Hso3); try done.
  { by apply Forall_app. }
  rewrite <- (coalesce_app_r l1 ((sz, true) :: l2)), Hcoal. split.
  - split; try done; simpl; [by exists lp3|]. apply coalesce_ok. by apply Forall_app.
  - simpl. transitivity m2; [transitivity m1|].
    + apply same_outside_st8. apply header_byte_app. right. simpl. subst c. lia.
    + eapply same_outside_mono; [|exact Hso2]. intros x Hx. apply header_byte_app. right. exact Hx.
    + eapply same_outside_mono; [|exact Hso3]. intros x Hx.
      apply header_byte_app in Hx. apply header_byte_app. destruct Hx as [?|Hx]; [by left|right].
      rewrite <- Hcoal in Hx. by apply header_byte_coalesce in Hx.
Qed.

(** ** Live allocations *)

Lemma alloc_blocks_coalesced need l : coalesced l -> coalesced (alloc_blocks need l).
Proof.
  unfold alloc_blocks. induction l as [|[sz fr] l IH]; [done|]. intros H.
  specialize (IH (coalesced_tail _ _ H)). cbn [alloc_spec].
  destruct (fr && (need <=? sz)) eqn:E; bool_to_prop.
  - subst fr. simpl in H. case_cond; simpl; destruct l as [|[? [|]]]; done.
  - destruct (alloc_spec need l) as [[off l'']|] eqn:Hal; [|done].
    destruct fr; [|done]. destruct l as [|[sz2 fr2] l]; [done|].
    cbn [alloc_spec] in Hal. simpl in H. destruct fr2; [done|]. cbn [andb] in Hal.
    destruct (alloc_spec need l) as [[? ?]|]; by simplify_eq.
Qed.

(** The payloads (address, capacity) of the allocated blocks of [l]. *)
Fixpoint live (a : Z) (l : list (Z * bool)) : list (Z * Z) :=
  match l with
  | [] => []
  | (sz, fr) :: l' => if fr then live (a + sz) l' else (a + 32, sz - 32) :: live (a + sz) l'
  end.

Lemma live_app a l1 l2 : live a (l1 ++ l2) = live a l1 ++ live (a + total l1) l2.
Proof.
  revert a. induction l1 as [|[sz [|]] l1 IH]; intros a; simpl; rewrite ?Z.add_0_r, ?IH, ?Z.add_assoc; done.
Qed.

Lemma live_coalesce a l : live a (coalesce l) = live a l.
Proof.
  revert a. induction l as [|[sz fr] l IH]; intros a; [done|]. simpl. specialize (IH (a + sz)).
  destruct fr; [|simpl; by rewrite IH].
  destruct (coalesce l) as [|[sz2 [|]] l']; simpl in *; rewrite ?Z.add_assoc; done.
Qed.

Lemma live_alloc a need l off l' :
  alloc_spec need l = Some (off, l') ->
  exists c, need - 32 <= c /\ live a l' ≡ₚ (a + off + 32, c) :: live a l.
Proof.
  revert a off l'. induction l as [|[sz fr] l IH]; intros a off l' Hal; [done|]. cbn [alloc_spec] in Hal.
  destruct (fr && (need <=? sz)) eqn:E; bool_to_prop.
  - subst fr. simplify_eq. rewrite Z.add_0_r. case_cond; simpl.
    + exists (sz - 32). split; [lia|done].
    + exists (need - 32). replace (a + need + (sz - need)) with (a + sz) by lia. split; [lia|done].
  - destruct (alloc_spec need l) as [[off0 l0]|]; [|done]. simplify_eq.
    destruct (IH (a + sz) off0 l0 eq_refl) as (c & Hc & Hp). exists c. split; [done|].
    simpl. rewrite Z.add_assoc. destruct fr; [done|]. rewrite Hp. constructor.
Qed.

Lemma live_split a l p c :
  (p, c) ∈ live a l ->
  exists l1 sz l2, l = l1 ++ (sz, false) :: l2 /\ p = a + total l1 + 32 /\ c = sz - 32.
Proof.
  revert a. induction l as [|[sz fr] l IH]; intros a; simpl; [by intros ?%elem_of_nil|].
  destruct fr; [intros H|intros [[= -> ->]|H]%elem_of_cons]; try (apply IH in H as (l1 & s & l2 & -> & -> & ->)).
  - exists ((sz, true) :: l1), s, l2. simpl. split_and!; done || lia.
  - exists [], sz, l. simpl. split_and!; done || lia.
  - exists ((sz, false) :: l1), s, l2. simpl. split_and!; done || lia.
Qed.

(** Live payloads lie inside the blocks, in address order, each at least a
    header below the next. *)
Definition before (x y : Z * Z) : Prop := x.1 + x.2 + 32 <= y.1.

Lemma live_sorted a l :
  Forall block_ok l -> StronglySorted before (live a l) /\
  Forall (fun x => a + 32 <= x.1 /\ 16 <= x.2 /\ x.1 + x.2 <= a + total l) (live a l).
Proof.
  intros Hl. revert a. induction Hl as [|[sz fr] l [Hb _] Hl IH]; intros a; simpl in *.
  { split; constructor. }
  destruct (IH (a + sz)) as [Hs Hf]. pose proof (total_nonneg _ Hl).
  assert (Hf' : Forall (fun x => a + 32 <= x.1 /\ 16 <= x.2 /\ x.1 + x.2 <= a + (sz + total l)) (live (a + sz) l)).
  { eapply Forall_impl; [|exact Hf]. simpl. intros x Hx. lia. }
  destruct fr; [done|]. split; constructor; try done; simpl; [|lia].
  eapply Forall_impl; [|exact Hf]. unfold before. simpl. intros x Hx. lia.
Qed.

Lemma live_not_header a l p c x :
  Forall block_ok l -> (p, c) ∈ live a l -> p <= x < p + c -> ~ header_byte a l x.
Proof.
  intros Hl. revert a. induction Hl as [|[sz fr] l [Hb _] Hl IH]; intros a Hin Hx; simpl in *; [tauto|].
  intros [Hh|Hh].
  - destruct fr; [|apply elem_of_cons in Hin as [[= -> ->]|Hin]; [lia|]];
      destruct (live_sorted (a + sz) l Hl) as [_ Hf];
      rewrite list.Forall_forall in Hf; specialize (Hf _ Hin); simpl in Hf; lia.
  - destruct fr; [|apply elem_of_cons in Hin as [[= -> ->]|Hin]]; try (by apply (IH (a + sz))).
    apply header_byte_ge in Hh; [lia|done].
Qed.

(** The chain depends on the header bytes only. *)
Lemma chain_headers m m' pv a l e lp :
  chain m pv a l e lp -> (forall x, header_byte a l x -> ld8 m' x = ld8 m x) -> chain m' pv a l e lp.
Proof.
  revert pv a. induction l as [|[sz fr] l IH]; intros pv a; simpl; [done|].
  intros [Hh Hc] Hs. split; [eapply header_at_same; [|done]; auto|]. apply IH; auto.
Qed.

(** ** Client runs

    A client of the heap: it may ask for [size] bytes (a request that does
    not wrap), give back a pointer it owns, or write a byte of a region it
    owns.  [owned] lists the regions (address, size) it holds. *)
Inductive client_step : heap * list (Z * Z) -> heap * list (Z * Z) -> Prop :=
| cs_alloc h h' p size owned :
    small_request size -> kmalloc g_heap size h = Some (p, h') -> p <> 0 ->
    client_step (h, owned) (h', (p, size) :: owned)
| cs_fail h h' size owned :
    small_request size -> kmalloc g_heap size h = Some (0, h') ->
    client_step (h, owned) (h', owned)
| cs_free h p n o1 o2 :
    client_step (h, o1 ++ (p, n) :: o2) (kfree p h, o1 ++ o2)
| cs_write h p n x v owned :
    (p, n) ∈ owned -> p <= x < p + n ->
    client_step (h, owned) (with_mem h (st8 (h_mem h) x v), owned).

(** The client's regions are exactly the live payloads, each at least as big
    as the request. *)
Definition owns (a : Z) (owned : list (Z * Z)) (l : list (Z * bool)) : Prop :=
  exists lv, live a l ≡ₚ lv /\ Forall2 (fun o v => o.1 = v.1 /\ 0 < o.2 <= v.2) owned lv.

Definition client_inv (c : heap * list (Z * Z)) : Prop :=
  exists l, heap_rep g_heap c.1 l /\ coalesced l /\ owns g_heap c.2 l.

Lemma owns_elem owned l p n :
  owns g_heap owned l -> (p, n) ∈ owned -> exists c, (p, c) ∈ live g_heap l /\ 0 < n <= c.
Proof.
  intros (lv & Hp & Hf) Hin. apply list_elem_of_lookup in Hin as [i Hi].
  destruct (Forall2_lookup_l _ _ _ _ _ Hf Hi) as ([p' c] & Hv & Heq & Hn). simpl in *. subst p'.
  exists c. split; [|done]. rewrite Hp. by eapply list_elem_of_lookup_2.
Qed.

Lemma inv_alloc h h' p size owned :
  client_inv (h, owned) -> small_request size -> kmalloc g_heap size h = Some (p, h') ->
  (p <> 0 /\ client_inv (h', (p, size) :: owned)) \/ (p = 0 /\ client_inv (h', owned)).
Proof.
  intros (l & Hr & Hco & Ho) Hs Hk. simpl in *.
  destruct (kmalloc_refines h l size Hr Hs) as (h1 & Hk1 & Hr1 & _). rewrite Hk in Hk1. simplify_eq.
  destruct (need_of_spec size Hs) as (Hn & _ & Hcap & _).
  unfold alloc_blocks in Hr1. pose proof (alloc_blocks_coalesced (need_of size) l Hco) as Hco1.
  unfold alloc_blocks in Hco1.
  destruct (alloc_spec (need_of size) l) as [[off l']|] eqn:Hal; [left|right].
  - destruct (live_alloc g_heap _ _ _ _ Hal) as (c & Hc & Hp). destruct Ho as (lv & Hlv & Hf).
    assert (Hin : (g_heap + off + 32, c) ∈ live g_heap l') by (rewrite Hp; constructor).
    destruct (live_sorted g_heap l' (hr_blocks _ _ _ Hr1)) as [_ Hpos].
    rewrite list.Forall_forall in Hpos. specialize (Hpos _ Hin). simpl in Hpos. split; [lia|].
    exists l'. split_and!; try done. exists ((g_heap + off + 32, c) :: lv).
    split; [by rewrite Hp, Hlv|]. constructor; [|done]. simpl. unfold small_request in Hs. lia.
  - split; [done|]. by exists l.
Qed.

Lemma inv_free h p n o1 o2 :
  client_inv (h, o1 ++ (p, n) :: o2) -> client_inv (kfree p h, o1 ++ o2).
Proof.
  intros (l & Hr & Hco & Ho). simpl in *.
  destruct Ho as (lv & Hlv & Hf). apply Forall2_app_inv_l in Hf as (v1 & v2' & Hf1 & Hf2 & ->).
  destruct (Forall2_cons_inv_l _ _ _ _ Hf2) as ([p' c] & v2 & [Hpp _] & Hf3 & ->). simpl in Hpp. subst p'.
  assert (Hin : (p, c) ∈ live g_heap l).
  { rewrite Hlv, elem_of_app, elem_of_cons. auto. }
  destruct (live_split g_heap l p c Hin) as (l1 & sz & l2 & -> & -> & ->).
  destruct (kfree_refines h l1 sz false l2 Hr Hco) as [Hr' _].
  exists (coalesce (l1 ++ (sz, true) :: l2)). simpl. split_and!; [done|apply coalesce_coalesced|].
  exists (v1 ++ v2). split; [|by apply Forall2_app].
  rewrite live_coalesce. rewrite live_app in Hlv |- *. simpl in Hlv |- *.
  rewrite <- !Permutation_middle in Hlv. by apply Permutation_cons_inv in Hlv.
Qed.

(** Writing inside an owned region, in any way. *)
Lemma inv_region h m' p n owned :
  client_inv (h, owned) -> (p, n) ∈ owned -> mem_wf m' ->
  same_outside (fun x => p <= x < p + n) (h_mem h) m' -> client_inv (with_mem h m', owned).
Proof.
  intros (l & Hr & Hco & Ho) Hin Hm' Hs. simpl in *.
  destruct (owns_elem owned l p n Ho Hin) as (c & Hl & Hn).
  exists l. split_and!; try done. destruct Hr as [Hrd Hhd Hm [lp Hc] Hok]. split; simpl; try done.
  exists lp. eapply chain_headers; [exact Hc|]. intros y Hy. apply Hs. intros Hpy.
  by eapply (live_not_header g_heap l p c y Hok Hl); [lia|].
Qed.

Lemma inv_write h p n x v owned :
  client_inv (h, owned) -> (p, n) ∈ owned -> p <= x < p + n ->
  client_inv (with_mem h (st8 (h_mem h) x v), owned).
Proof.
  intros Hc Hin Hx. eapply inv_region; try done.
  - pose proof Hc as (l & [_ _ Hm _ _] & _). simpl in Hm. auto with kernel.
  - by apply same_outside_st8.
Qed.

Lemma client_inv_rtc c c' : rtc client_step c c' -> client_inv c -> client_inv c'.
Proof.
  induction 1 as [|c c1 c2 Hs _ IH]; [done|]. intros Hc. apply IH.
  destruct Hs as [h h' p size owned Hs Hk Hp|h h' size owned Hs Hk|h p n o1 o2|h p n x v owned Hin Hx].
  - destruct (inv_alloc h h' p size owned Hc Hs Hk) as [[_ ?]|[? _]]; done.
  - destruct (inv_alloc h h' 0 size owned Hc Hs Hk) as [[? _]|[_ ?]]; done.
  - by eapply inv_free.
  - by eapply inv_write.
Qed.

Lemma sorted_apart L x y :
  StronglySorted before L -> x ∈ L -> y ∈ L -> x <> y -> before x y \/ before y x.
Proof.
  induction 1 as [|z L HL IH Hz]; [by intros ?%elem_of_nil|]. rewrite list.Forall_forall in Hz.
  intros [->|Hx]%elem_of_cons [->|Hy]%elem_of_cons Hne; auto; done.
Qed.

Lemma live_NoDup a l : Forall block_ok l -> NoDup (live a l).
Proof.
  intros Hok. destruct (live_sorted a l Hok) as [Hs Hf]. induction Hs as [|z L HL IH Hz]; constructor.
  - rewrite list.Forall_forall in Hz. intros Hin%Hz. apply Forall_cons_1 in Hf as [Hf _]. unfold before in Hin. lia.
  - apply IH. by apply Forall_cons_1 in Hf as [_ ?].
Qed.

Lemma owns_disjoint owned l i j p n q k :
  Forall block_ok l -> owns g_heap owned l ->
  owned !! i = Some (p, n) -> owned !! j = Some (q, k) -> i <> j -> p + n <= q \/ q + k <= p.
Proof.
  intros Hok (lv & Hp & Hf) Hi Hj Hij.
  destruct (Forall2_lookup_l _ _ _ _ _ Hf Hi) as ([p' c] & Hv & Hep & Hn).
  destruct (Forall2_lookup_l _ _ _ _ _ Hf Hj) as ([q' d] & Hw & Heq & Hk). simpl in *. subst p' q'.
  destruct (live_sorted g_heap l Hok) as [Hs _].
  assert (Hne : (p, c) <> (q, d)).
  { intros E. apply Hij. eapply (NoDup_lookup lv); [|exact Hv|by rewrite E].
    rewrite <- Hp. by apply live_NoDup. }
  destruct (sorted_apart _ (p, c) (q, d) Hs) as [Hb|Hb]; try done.
  - rewrite Hp. by eapply list_elem_of_lookup_2.
  - rewrite Hp. by eapply list_elem_of_lookup_2.
  - left. unfold before in Hb. simpl in Hb. lia.
  - right. unfold before in Hb. simpl in Hb. lia.
Qed.

Lemma owns_perm owned owned' l : owned ≡ₚ owned' -> owns g_heap owned l -> owns g_heap owned' l.
Proof.
  intros Hp (lv & Hlv & Hf).
  destruct (Permutation_Forall2 Hp Hf) as (lv' & Hp' & Hf').
  exists lv'. split; [by rewrite Hlv|done].
Qed.

(** kmalloc and kfree touch no byte of a live region: the writes of both stay
    in block headers. *)
Lemma kmalloc_contents h owned size p h' q n x :
  client_inv (h, owned) -> small_request size -> kmalloc g_heap size h = Some (p, h') ->
  (q, n) ∈ owned -> q <= x < q + n -> ld8 (h_mem h') x = ld8 (h_mem h) x.
Proof.
  intros (l & Hr & Hco & Ho) Hs Hk Hin Hx. simpl in *.
  destruct (kmalloc_refines h l size Hr Hs) as (h1 & Hk1 & Hr1 & Hso). rewrite Hk in Hk1. simplify_eq.
  destruct (owns_elem owned l q n Ho Hin) as (c & Hl & Hn).
  apply Hso. apply (live_not_header _ _ q c); [apply Hr1| |lia].
  unfold alloc_blocks. destruct (alloc_spec (need_of size) l) as [[off l']|] eqn:Hal; [|done].
  destruct (live_alloc g_heap _ _ _ _ Hal) as (c' & _ & ->). by constructor.
Qed.

Lemma kfree_contents h owned p k q n x :
  client_inv (h, owned) -> (p, k) ∈ owned ->
  (q, n) ∈ owned -> q <= x < q + n -> ld8 (h_mem (kfree p h)) x = ld8 (h_mem h) x.
Proof.
  intros (l & Hr & Hco & Ho) Hp Hin Hx. simpl in *.
  destruct (owns_elem owned l q n Ho Hin) as (c & Hl & Hn).
  destruct (owns_elem owned l p k Ho Hp) as (c' & Hl' & _).
  destruct (live_split g_heap l p c' Hl') as (l1 & sz & l2 & -> & -> & _).
  destruct (kfree_refines h l1 sz false l2 Hr Hco) as [_ Hso].
  apply Hso. apply (live_not_header _ _ q c); [apply Hr|done|lia].
Qed.

(** The state after the first use of the heap. *)
Lemma heap_init_rep h :
  g_heap_ready h = false -> mem_wf (h_mem h) -> heap_rep g_heap (heap_init g_heap h) [(HEAP_SIZE, true)].
Proof.
  intros Hr Hm. unfold heap_init. rewrite Hr. split; simpl; try done.
  - unfold set_magic, set_size, set_free, set_next, set_prev. auto 10 with kernel.
  - exists g_heap. unfold heap_end. split; [|split; lia].
    split; unfold next_of, heap_end; fields; try done. by rewrite Z.eqb_refl.
  - constructor; [split; vm_compute; congruence|constructor].
Qed.

Lemma client_inv_init h :
  g_heap_ready h = false -> mem_wf (h_mem h) -> client_inv (heap_init g_heap h, []).
Proof.
  intros Hr Hm. exists [(HEAP_SIZE, true)]. split_and!; simpl.
  - by apply heap_init_rep.
  - done.
  - exists []. split; [done|constructor].
Qed.

(** All blocks free and none adjacent: one block, or none. *)
Lemma all_free l : coalesced l -> live g_heap l = [] -> total l = HEAP_SIZE -> l = [(HEAP_SIZE, true)].
Proof.
  intros Hco Hlv Ht. destruct l as [|[sz [|]] l]; [done| |done].
  assert (Hfree : forall a l, live a l = [] -> Forall (fun b => b.2 = true) l).
  { intros a l0. revert a. induction l0 as [|[s [|]] l0 IH]; intros a H0; constructor; try done. by apply (IH (a + s)). }
  simpl in Hlv. apply Hfree in Hlv. destruct l as [|[s2 fr] l].
  - simpl in Ht. by replace sz with HEAP_SIZE by lia.
  - apply Forall_cons_1 in Hlv as [Hf _]. simpl in Hf. by subst fr.
Qed.

End Chains.

(** ** Properties *)

(** Where the linker may put the array: 16-aligned, not at 0, not at the very
    end of the address space. *)
Record heap_layout (g_heap : Z) : Prop := {
  hl_low : 0 < g_heap;
  hl_high : g_heap + HEAP_SIZE < 2 ^ 32;
  hl_align : g_heap mod 16 = 0
}.

(** A heap before its first use. *)
Definition fresh (h : heap) : Prop := g_heap_ready h = false /\ mem_wf (h_mem h).

(** C1: in every run of a client that allocates, frees what it owns and
    writes only to what it owns, the regions it holds are pairwise disjoint,
    16-aligned and inside the heap, and a further [kmalloc] always returns. *)
Theorem heap_run_safe (g_heap : Z) (h0 h : heap) (owned : list (Z * Z)) :
  heap_layout g_heap -> fresh h0 ->
  rtc (client_step g_heap) (heap_init g_heap h0, []) (h, owned) ->
  (forall i j p n q k, owned !! i = Some (p, n) -> owned !! j = Some (q, k) -> i <> j ->
     p + n <= q \/ q + k <= p) /\
  (forall p n, (p, n) ∈ owned ->
     g_heap + 32 <= p /\ p + n <= g_heap + HEAP_SIZE /\ p mod 16 = 0) /\
  (forall size, small_request size -> is_Some (kmalloc g_heap size h)).
Proof.
  intros [Hlow Hhigh Hal] [Hr Hm] Hrun.
  pose proof (client_inv_rtc g_heap Hlow Hhigh _ _ Hrun (client_inv_init g_heap h0 Hr Hm)) as (l & Hrep & Hco & Ho).
  simpl in *. pose proof (hr_blocks _ _ _ Hrep) as Hok. split_and!.
  - intros. by eapply owns_disjoint.
  - intros p n Hin. destruct (owns_elem g_heap owned l p n Ho Hin) as (c & Hl & Hn).
    destruct (live_split g_heap l p c Hl) as (l1 & sz & l2 & E & Hp & Hc).
    destruct (live_sorted g_heap l Hok) as [_ Hf]. rewrite list.Forall_forall in Hf.
    specialize (Hf _ Hl). simpl in Hf. rewrite (rep_total g_heap h l Hrep) in Hf.
    assert (Hok1 : Forall block_ok l1) by (rewrite E in Hok; by apply Forall_app in Hok as [? _]).
    pose proof (total_aligned _ Hok1). split_and!; mlia.
  - intros size Hs. destruct (kmalloc_refines g_heap Hlow Hhigh h l size Hrep Hs) as (h' & -> & _). done.
Qed.

(** C21: no memory is lost: when a run has given back everything it took, the
    heap is again the single free block it started as. *)
Theorem heap_run_no_leak (g_heap : Z) (h0 h : heap) :
  heap_layout g_heap -> fresh h0 ->
  rtc (client_step g_heap) (heap_init g_heap h0, []) (h, []) ->
  heap_rep g_heap h [(HEAP_SIZE, true)].
Proof.
  intros [Hlow Hhigh Hal] [Hr Hm] Hrun.
  pose proof (client_inv_rtc g_heap Hlow Hhigh _ _ Hrun (client_inv_init g_heap h0 Hr Hm)) as (l & Hrep & Hco & Ho).
  simpl in *. destruct Ho as (lv & Hlv & Hf). inversion Hf. subst lv.
  apply Permutation_nil_r in Hlv.
  by rewrite <- (all_free g_heap l Hco Hlv (rep_total g_heap h l Hrep)).
Qed.

(** Neither [kmalloc] nor [kfree] changes a byte of a region that the
    client holds (not even of the one being freed). *)
Theorem heap_ops_keep_contents (g_heap : Z) (h : heap) (owned : list (Z * Z)) (q n x : Z) :
  heap_layout g_heap -> client_inv g_heap (h, owned) -> (q, n) ∈ owned -> q <= x < q + n ->
  (forall size p h', small_request size -> kmalloc g_heap size h = Some (p, h') ->
     ld8 (h_mem h') x = ld8 (h_mem h) x) /\
  (forall p k, (p, k) ∈ owned -> ld8 (h_mem (kfree p h)) x = ld8 (h_mem h) x).
Proof.
  intros [Hlow Hhigh Hal] Hinv Hin Hx. split; intros.
  - by apply (kmalloc_contents g_heap Hlow Hhigh h owned size p h' q n x).
  - by apply (kfree_contents g_heap Hlow Hhigh h owned p k q n x).
Qed.

(** C2: [kmalloc] implements first fit with splitting: on a heap that
    represents the blocks [l] it returns, with the payload of the block that
    [alloc_spec] chooses (or null when no block is big enough), and the new
    heap represents the blocks that [alloc_spec] leaves. *)
Theorem kmalloc_first_fit (g_heap : Z) (h : heap) (l : list (Z * bool)) (size : Z) :
  heap_layout g_heap -> heap_rep g_heap h l -> small_request size ->
  match alloc_spec (need_of size) l with
  | Some (off, l') => exists h', kmalloc g_heap size h = Some (g_heap + off + 32, h') /\ heap_rep g_heap h' l'
  | None => exists h', kmalloc g_heap size h = Some (0, h') /\ heap_rep g_heap h' l
  end.
Proof.
  intros [Hlow Hhigh Hal] Hr Hs.
  destruct (kmalloc_refines g_heap Hlow Hhigh h l size Hr Hs) as (h' & Hk & Hr' & _).
  unfold alloc_blocks in Hr'. destruct (alloc_spec (need_of size) l) as [[off l']|]; by exists h'.
Qed.

(** C7: [kfree] of the block after [l1] marks it free and merges it with
    free neighbours on both sides: the heap represents the coalesced list. *)
Theorem kfree_coalesces (g_heap : Z) (h : heap) (l1 l2 : list (Z * bool)) (sz : Z) :
  heap_layout g_heap ->
  heap_rep g_heap h (l1 ++ (sz, false) :: l2) -> coalesced (l1 ++ (sz, false) :: l2) ->
  heap_rep g_heap (kfree (g_heap + total l1 + 32) h) (coalesce (l1 ++ (sz, true) :: l2)) /\
  coalesced (coalesce (l1 ++ (sz, true) :: l2)).
Proof.
  intros [Hlow Hhigh Hal] Hr Hco. split; [|apply coalesce_coalesced].
  by apply (kfree_refines g_heap Hlow Hhigh h l1 sz false l2).
Qed.

(** What a successful [kmalloc] gives the client: the region [p, p + size)
    joins its regions. *)
Lemma inv_alloc_some g_heap h h' p size owned :
  heap_layout g_heap -> client_inv g_heap (h, owned) -> small_request size ->
  kmalloc g_heap size h = Some (p, h') -> p <> 0 -> client_inv g_heap (h', (p, size) :: owned).
Proof.
  intros [Hlow Hhigh Hal] Hinv Hs Hk Hp.
  by destruct (inv_alloc g_heap Hlow Hhigh h h' p size owned Hinv Hs Hk) as [[_ ?]|[? _]].
Qed.

Lemma inv_mem_wf g_heap h owned : client_inv g_heap (h, owned) -> mem_wf (h_mem h).
Proof. by intros (l & [_ _ Hm _ _] & _). Qed.

(** [kcalloc] returns null without touching the heap when
    [count * size] does not fit in 32 bits; otherwise a non-null result is a
    region of [count * size] zero bytes that joins the client's regions. *)
Theorem kcalloc_zeroed (g_heap : Z) (h : heap) (owned : list (Z * Z)) (count size : Z) :
  heap_layout g_heap -> client_inv g_heap (h, owned) -> is_u32 count -> is_u32 size ->
  (2 ^ 32 <= count * size -> kcalloc g_heap count size h = Some (0, h)) /\
  (small_request (count * size) -> exists p h',
     kcalloc g_heap count size h = Some (p, h') /\
     (p <> 0 -> client_inv g_heap (h', (p, count * size) :: owned) /\
        forall i, 0 <= i < count * size -> ld8 (h_mem h') (p + i) = 0)).
Proof.
  intros HL Hinv Hc Hs. unfold is_u32, small_request in *. unfold kcalloc. split.
  - intros Hbig. rewrite (proj2 (Z.eqb_neq count 0)) by nia.
    rewrite (proj2 (Z.ltb_lt ((2 ^ 32 - 1) / count) size)); [done|].
    apply Z.div_lt_upper_bound; nia.
  - intros Hsm. assert (0 < count) by nia. rewrite (proj2 (Z.eqb_neq count 0)) by lia.
    rewrite (proj2 (Z.ltb_ge ((2 ^ 32 - 1) / count) size)) by (apply Z.div_le_lower_bound; nia).
    cbn [negb andb]. rewrite u32_small by lia.
    destruct HL as [Hlow Hhigh Hal]. pose proof Hinv as (l & Hr & _).
    destruct (kmalloc_refines g_heap Hlow Hhigh h l (count * size) Hr Hsm) as (h1 & Hk & _).
    rewrite Hk. cbn [mbind option_bind]. set (p := match alloc_spec _ l with Some _ => _ | None => _ end) in *.
    destruct (Z.eqb_spec p 0) as [Hp|Hp]; [by exists 0, h1|].
    eexists _, _. split; [done|]. intros _.
    assert (Hinv1 : client_inv g_heap (h1, (p, count * size) :: owned))
      by (by eapply inv_alloc_some; [split|..]). split.
    + eapply inv_region; [done|by left| |].
      * apply inv_mem_wf in Hinv1. auto with kernel.
      * intros x Hx. rewrite memset_ld8_out by lia. done.
    + intros i Hi. simpl. by rewrite memset_ld8_in by lia.
Qed.

(** The header behind an owned pointer. *)
Lemma owned_header g_heap h p n o :
  heap_layout g_heap -> client_inv g_heap (h, (p, n) :: o) ->
  exists c, p <> 0 /\ b_magic (h_mem h) (payload_block p) = BLOCK_MAGIC /\
    u32 (b_size (h_mem h) (payload_block p) - header_size) = c /\ 0 < n <= c /\ c < 2 ^ 32 /\
    forall size, 0 < size <= c -> client_inv g_heap (h, (p, size) :: o).
Proof.
  intros [Hlow Hhigh _] (l & Hr & Hco & lv & Hlv & Hf). simpl in *.
  destruct (Forall2_cons_inv_l _ _ _ _ Hf) as ([p' c] & lv' & [Hp Hn] & Hf' & ->). simpl in *. subst p'.
  assert (Hin : (p, c) ∈ live g_heap l) by (rewrite Hlv; constructor).
  destruct (live_split g_heap l p c Hin) as (l1 & sz & l2 & -> & -> & ->).
  pose proof (hr_blocks _ _ _ Hr) as [Hok1 [[Hb _] Hok2]%Forall_cons_1]%Forall_app. simpl in Hb.
  destruct (hr_chain _ _ _ Hr) as [lp Hc]. pose proof (rep_total _ _ _ Hr) as Ht.
  rewrite total_app in Ht. simpl in Ht. pose proof (total_nonneg _ Hok1). pose proof (total_nonneg _ Hok2).
  apply chain_app in Hc as (a & p' & Hc1 & [Hh _]). pose proof (chain_end _ _ _ _ _ _ _ Hc1) as ->.
  destruct Hh as [Hmg Hsz _ _ _]. exists (sz - 32).
  unfold payload_block. change (align_up sizeof_heap_block HEAP_ALIGN) with 32.
  replace (g_heap + total l1 + 32 - 32) with (g_heap + total l1) by lia.
  rewrite Hmg, Hsz, header_size_val. change HEAP_SIZE with 524288 in *. u32_nowrap.
  split_and!; try done; try lia. intros size Hs. exists (l1 ++ (sz, false) :: l2).
  split_and!; try done. exists ((g_heap + total l1 + 32, sz - 32) :: lv'). split; [done|].
  constructor; [|done]. simpl. lia.
Qed.

Lemma client_inv_perm g_heap h o o' : o ≡ₚ o' -> client_inv g_heap (h, o) -> client_inv g_heap (h, o').
Proof. intros Hp (l & Hr & Hco & Ho). exists l. split_and!; try done. by eapply owns_perm. Qed.

(** The moving half of [krealloc]: copy the old payload into the new region,
    then free the old one. *)
Lemma realloc_move g_heap h h1 p n q size c o :
  heap_layout g_heap -> client_inv g_heap (h, (p, n) :: o) ->
  client_inv g_heap (h, (p, c) :: o) -> n <= c -> c < size -> small_request size ->
  kmalloc g_heap size h = Some (q, h1) -> q <> 0 ->
  let h2 := with_mem h1 (memcpy q p c (h_mem h1)) in
  client_inv g_heap (kfree p h2, (q, size) :: o) /\
  forall i, 0 <= i < n -> ld8 (h_mem (kfree p h2)) (q + i) = ld8 (h_mem h) (p + i).
Proof.
  intros HL Hn Hc Hnc Hcs Hs Hk Hq. pose proof HL as [Hlow Hhigh _].
  pose proof (inv_alloc_some g_heap h h1 q size _ HL Hc Hs Hk Hq) as H1.
  assert (Hdis : q + size <= p \/ p + c <= q).
  { destruct H1 as (l & Hr & _ & Ho). simpl in *.
    destruct (owns_disjoint g_heap _ l 0 1 q size p c (hr_blocks _ _ _ Hr) Ho) as [?|?]; auto. }
  assert (Hc0 : 0 < c).
  { destruct Hc as (l & _ & _ & Ho). simpl in Ho.
    destruct (owns_elem g_heap _ l p c Ho) as (? & _ & ?); [constructor|lia]. }
  pose proof (inv_mem_wf _ _ _ H1) as Hm1. cbn zeta.
  set (m2 := memcpy q p c (h_mem h1)).
  assert (Hcopy : forall x, ld8 m2 x = if (q <=? x) && (x <? q + c) then ld8 (h_mem h1) (p + (x - q)) else ld8 (h_mem h1) x).
  { intros x. apply memcpy_ld8; [done|lia|lia]. }
  assert (H2 : client_inv g_heap (with_mem h1 m2, (q, size) :: (p, c) :: o)).
  { eapply inv_region; [done|by left|by apply memcpy_wf|].
    intros x Hx. rewrite Hcopy. z_cases; done || lia. }
  clearbody m2. split.
  - apply (inv_free g_heap Hlow Hhigh (with_mem h1 m2) p c [(q, size)] o H2).
  - intros i Hi.
    rewrite (kfree_contents g_heap Hlow Hhigh _ _ p c q size (q + i) H2); [|right; by left|by left|lia].
    simpl. rewrite Hcopy, (proj2 (Z.leb_le q (q + i))), (proj2 (Z.ltb_lt (q + i) (q + c))) by lia. cbn [andb].
    replace (p + (q + i - q)) with (p + i) by lia.
    apply (kmalloc_contents g_heap Hlow Hhigh h _ size q h1 p c (p + i) Hc); try done; [by left|lia].
Qed.

(** C22: [krealloc] of a region [(p, n)] always returns; on failure the
    client keeps its region and its contents, and on success it owns, instead,
    a region of [size] bytes that holds the old contents up to the smaller of
    the two sizes. *)
Theorem krealloc_preserves (g_heap : Z) (h : heap) (p n size : Z) (o : list (Z * Z)) :
  heap_layout g_heap -> client_inv g_heap (h, (p, n) :: o) -> small_request size ->
  exists q h', krealloc g_heap p size h = Some (q, h') /\
    (q = 0 -> client_inv g_heap (h', (p, n) :: o) /\
       forall i, 0 <= i < n -> ld8 (h_mem h') (p + i) = ld8 (h_mem h) (p + i)) /\
    (q <> 0 -> client_inv g_heap (h', (q, size) :: o) /\
       forall i, 0 <= i < Z.min n size -> ld8 (h_mem h') (q + i) = ld8 (h_mem h) (p + i)).
Proof.
  intros HL Hinv Hs. pose proof HL as [Hlow Hhigh _].
  destruct (owned_header g_heap h p n o HL Hinv) as (c & Hp & Hmg & Hsz & Hn & Hc32 & Hres).
  unfold krealloc. rewrite (proj2 (Z.eqb_neq p 0)) by done.
  rewrite (proj2 (Z.eqb_neq size 0)) by (unfold small_request in Hs; lia).
  rewrite Hmg, Z.eqb_refl, Hsz. cbn [negb].
  destruct (Z.leb_spec size c) as [Hle|Hgt].
  - exists p, h. split_and!; [done|done|]. intros _. split; [|done].
    apply Hres. unfold small_request in Hs. lia.
  - pose proof Hinv as (l & Hr & _). destruct (kmalloc_refines g_heap Hlow Hhigh h l size Hr Hs) as (h1 & Hk & _).
    rewrite Hk. cbn [mbind option_bind]. set (q := match alloc_spec _ l with Some _ => _ | None => _ end) in *.
    destruct (Z.eqb_spec q 0) as [Hq|Hq].
    + exists 0, h1. split_and!; [done| |done]. intros _.
      destruct (inv_alloc g_heap Hlow Hhigh h h1 q size _ Hinv Hs Hk) as [[? _]|[_ Hi1]]; [done|].
      split; [done|]. intros i Hi.
      apply (kmalloc_contents g_heap Hlow Hhigh h _ size q h1 p n (p + i) Hinv); try done; [by left|lia].
    + eexists _, _. split; [done|]. split; [done|]. intros _.
      destruct (realloc_move g_heap h h1 p n q size c o) as [Hi Hb]; try done; try lia.
      { apply Hres. lia. }
      split; [done|]. intros i Hi'. apply Hb. lia.
Qed.

Lemma find_block_self_loop fuel c al m :
  c <> 0 -> b_free m c = 0 -> b_next m c = c -> find_block fuel c al m = None.
Proof.
  intros Hc Hf Hn. induction fuel as [|fuel IH]; cbn [find_block]; rewrite (proj2 (Z.eqb_neq c 0)) by done; [done|].
  rewrite Hf, Hn. cbn [negb]. rewrite andb_false_r. done.
Qed.

Lemma heap_fuel_S : exists n, heap_fuel = S n.
Proof.
  unfold heap_fuel. change (HEAP_SIZE / HEAP_ALIGN) with 32768.
  exists (pred (Z.to_nat 32768)). lia.
Qed.

(** The header that the wrapped request leaves behind. *)
Lemma wrapped_split g_heap m lp :
  heap_layout g_heap -> mem_wf m -> chain g_heap m 0 g_heap [(HEAP_SIZE, true)] (heap_end g_heap) lp ->
  let m' := set_free g_heap 0 (split_block g_heap (2 ^ 32 - 32) m) in
  b_free m' g_heap = 0 /\ b_next m' g_heap = g_heap /\ b_size m' g_heap = 0.
Proof.
  intros [Hlow Hhigh _] Hm [[Hmg Hsz Hfr Hnx Hpv] _]. cbn zeta.
  unfold next_of, heap_end in Hnx. rewrite Z.eqb_refl in Hnx.
  assert (Hu : is_u32 g_heap) by (unfold is_u32, HEAP_SIZE in *; lia).
  unfold split_block. rewrite Hsz.
  change (u32 (header_size + align_up (2 ^ 32 - 32) HEAP_ALIGN)) with 0.
  change (HEAP_SIZE <=? u32 (u32 (0 + header_size) + HEAP_ALIGN)) with false. cbn iota zeta.
  rewrite Z.add_0_r, Z.sub_0_r.
  assert (E : forall m0, b_next (set_prev g_heap g_heap (set_next g_heap 0 m0)) g_heap = 0) by (intros; fields; done).
  assert (Hr : b_size (set_magic g_heap BLOCK_MAGIC m) g_heap = HEAP_SIZE) by by fields.
  rewrite Hr. change (u32 HEAP_SIZE) with HEAP_SIZE.
  assert (Hr2 : b_next (set_free g_heap 1 (set_size g_heap HEAP_SIZE (set_magic g_heap BLOCK_MAGIC m))) g_heap = 0) by by fields.
  rewrite Hr2, E. cbn [negb Z.eqb]. split_and!; fields; done.
Qed.

(** C40: a request that wraps destroys the heap.  On an empty heap
    [kmalloc(0xFFFFFFE0)], a request of almost 4 GiB, does not fail: it
    returns a pointer, and leaves the first block pointing to itself, so that
    every later [kmalloc] loops forever. *)
Theorem kmalloc_wrap_breaks_heap (g_heap : Z) (h : heap) :
  heap_layout g_heap -> heap_rep g_heap h [(HEAP_SIZE, true)] ->
  exists h', kmalloc g_heap 0xFFFFFFE0 h = Some (g_heap + 32, h') /\
    forall fuel size, size <> 0 -> kmalloc_fuel g_heap fuel size h' = None.
Proof.
  intros HL [Hrd Hhd Hm [lp Hc] _]. pose proof HL as [Hlow Hhigh _].
  destruct (wrapped_split g_heap (h_mem h) lp HL Hm Hc) as (Hf & Hn & _). destruct Hc as [[Hmg Hsz Hfr _ _] _].
  exists (with_mem h (set_free g_heap 0 (split_block g_heap (2 ^ 32 - 32) (h_mem h)))). split.
  - unfold kmalloc, kmalloc_fuel. change (0xFFFFFFE0 =? 0) with false.
    change (align_up 0xFFFFFFE0 HEAP_ALIGN) with (2 ^ 32 - 32).
    rewrite Hrd, Hhd. destruct heap_fuel_S as [n ->].
    cbn [find_block]. rewrite (proj2 (Z.eqb_neq g_heap 0)) by lia.
    rewrite Hmg, Hfr, Hsz, Z.eqb_refl. done.
  - intros fuel size Hs. unfold kmalloc_fuel. rewrite (proj2 (Z.eqb_neq size 0) Hs). simpl. rewrite Hrd. simpl. rewrite Hhd.
    rewrite find_block_self_loop; try done. lia.
Qed.

(** ** Witnesses *)

Definition heap_at : Z := 0x200000.
Definition fresh_heap : heap := mkHeap ∅ 0 false.
Definition ready_heap : heap := heap_init heap_at fresh_heap.

Lemma heap_at_layout : heap_layout heap_at.
Proof. split; [unfold heap_at; lia|vm_compute; reflexivity|reflexivity]. Qed.

Lemma fresh_heap_fresh : fresh fresh_heap.
Proof. split; [done|apply mem_wf_empty]. Qed.

Lemma ready_heap_rep : heap_rep heap_at ready_heap [(HEAP_SIZE, true)].
Proof. apply heap_init_rep; [done|apply mem_wf_empty]. Qed.

(** [kmalloc(100)] on the fresh heap, and then [kfree] of the result. *)
Definition heap_100 : heap :=
  match kmalloc heap_at 100 ready_heap with Some (_, h) => h | None => ready_heap end.

Lemma kmalloc_100 : kmalloc heap_at 100 ready_heap = Some (heap_at + 32, heap_100).
Proof. vm_compute. reflexivity. Qed.

Lemma run_100 : rtc (client_step heap_at) (ready_heap, []) (heap_100, [(heap_at + 32, 100)]).
Proof.
  apply rtc_once, cs_alloc; [unfold small_request; lia|exact kmalloc_100|discriminate].
Qed.

Lemma inv_100 : client_inv heap_at (heap_100, [(heap_at + 32, 100)]).
Proof.
  apply (inv_alloc_some heap_at ready_heap); [apply heap_at_layout| |unfold small_request; lia|exact kmalloc_100|discriminate].
  exists [(HEAP_SIZE, true)]. split_and!; [apply ready_heap_rep|done|]. exists []. split; [done|constructor].
Qed.

Lemma heap_run_safe_witness :
  heap_at + 32 <= heap_at + 32 /\ heap_at + 32 + 100 <= heap_at + HEAP_SIZE /\ (heap_at + 32) mod 16 = 0.
Proof.
  destruct (heap_run_safe heap_at fresh_heap heap_100 [(heap_at + 32, 100)] heap_at_layout fresh_heap_fresh run_100)
    as (_ & H & _).
  apply (H (heap_at + 32) 100). constructor.
Defined.

Lemma heap_run_no_leak_witness :
  heap_rep heap_at (kfree (heap_at + 32) heap_100) [(HEAP_SIZE, true)].
Proof.
  apply (heap_run_no_leak heap_at fresh_heap _ heap_at_layout fresh_heap_fresh).
  eapply rtc_r; [exact run_100|]. exact (cs_free heap_at heap_100 (heap_at + 32) 100 [] []).
Defined.

Lemma heap_ops_keep_contents_witness :
  ld8 (h_mem (kfree (heap_at + 32) heap_100)) (heap_at + 40) = ld8 (h_mem heap_100) (heap_at + 40).
Proof.
  destruct (heap_ops_keep_contents heap_at heap_100 [(heap_at + 32, 100)] (heap_at + 32) 100 (heap_at + 40))
    as [_ H]; [apply heap_at_layout|apply inv_100|constructor|lia|].
  apply (H (heap_at + 32) 100). constructor.
Defined.

Lemma kmalloc_first_fit_witness :
  exists h', kmalloc heap_at 100 ready_heap = Some (heap_at + 0 + 32, h') /\
    heap_rep heap_at h' [(144, false); (HEAP_SIZE - 144, true)].
Proof.
  exact (kmalloc_first_fit heap_at ready_heap [(HEAP_SIZE, true)] 100 heap_at_layout ready_heap_rep ltac:(unfold small_request; lia)).
Defined.

Lemma kfree_coalesces_witness :
  heap_rep heap_at (kfree (heap_at + 0 + 32) heap_100) [(144 + (HEAP_SIZE - 144), true)].
Proof.
  assert (Hr : heap_rep heap_at heap_100 [(144, false); (HEAP_SIZE - 144, true)]).
  { destruct kmalloc_first_fit_witness as (h' & Hk & Hr). rewrite kmalloc_100 in Hk. by simplify_eq. }
  destruct (kfree_coalesces heap_at heap_100 [] [(HEAP_SIZE - 144, true)] 144) as [H _];
    [apply heap_at_layout|exact Hr|done|exact H].
Defined.

Lemma kcalloc_zeroed_witness :
  kcalloc heap_at 65536 65536 heap_100 = Some (0, heap_100).
Proof.
  destruct (kcalloc_zeroed heap_at heap_100 [(heap_at + 32, 100)] 65536 65536) as [H _];
    [apply heap_at_layout|apply inv_100|unfold is_u32; lia|unfold is_u32; lia|].
  apply H. lia.
Defined.

Lemma krealloc_preserves_witness :
  exists q h', krealloc heap_at (heap_at + 32) 4000 heap_100 = Some (q, h').
Proof.
  destruct (krealloc_preserves heap_at heap_100 (heap_at + 32) 100 4000 []) as (q & h' & H & _);
    [apply heap_at_layout|apply inv_100|unfold small_request; lia|].
  exists q, h'. exact H.
Defined.

Lemma kmalloc_wrap_breaks_heap_witness :
  exists h', kmalloc heap_at 0xFFFFFFE0 ready_heap = Some (heap_at + 32, h') /\
    kmalloc heap_at 16 h' = None.
Proof.
  destruct (kmalloc_wrap_breaks_heap heap_at ready_heap heap_at_layout ready_heap_rep) as (h' & Hk & Hn).
  exists h'. split; [exact Hk|apply Hn; discriminate].
Defined.

(** ** The heap as an allocator *)

Section Instance.
Context (g_heap : Z).

#[export] Instance heap_allocator : Allocator heap := {|
  Alloc.heap_mem := h_mem;
  Alloc.set_heap_mem := with_mem;
  Alloc.kmalloc := kmalloc g_heap;
  Alloc.kfree := kfree;
  Alloc.heap_area := fun x => g_heap <= x < g_heap + HEAP_SIZE;
  Alloc.heap_inv := fun h owned => client_inv g_heap (h, owned);
  Alloc.heap_blocks := fun h l => heap_rep g_heap h l /\ coalesced l;
  Alloc.fits := fun size l => bool_decide (is_Some (alloc_spec (need_of size) l))
|}.

(** The memory determines the blocks. *)
Lemma chain_unique m pv a l l' e lp lp' :
  Forall block_ok l -> Forall block_ok l' -> chain g_heap m pv a l e lp -> chain g_heap m pv a l' e lp' -> l = l'.
Proof.
  intros Hl. revert pv a l'. induction Hl as [|[sz fr] l [Hb _] Hl IH]; intros pv a l' Hl' Hc Hc'.
  - destruct Hl' as [|[sz' fr'] l' [Hb' _] Hl']; [done|]. apply chain_end in Hc, Hc'.
    pose proof (total_nonneg l' Hl'). cbn [total fst] in *. lia.
  - destruct Hl' as [|[sz' fr'] l' [Hb' _] Hl'].
    + apply chain_end in Hc, Hc'. pose proof (total_nonneg l Hl). cbn [total fst] in *. lia.
    + destruct Hc as [[_ E1 E2 _ _] Hc], Hc' as [[_ E3 E4 _ _] Hc']. rewrite E1 in E3. subst sz'.
      rewrite E2 in E4. assert (fr = fr') as <- by (by destruct fr, fr'). f_equal. by eapply IH.
Qed.

Lemma rep_unique h l l' : heap_rep g_heap h l -> heap_rep g_heap h l' -> l = l'.
Proof. intros [_ _ _ [lp H1] O1] [_ _ _ [lp' H2] O2]. by eapply chain_unique. Qed.

(** Taking a block and giving it back. *)
Lemma alloc_spec_undo need l off l' :
  alloc_spec need l = Some (off, l') -> coalesced l ->
  exists l1 sz l2, l' = l1 ++ (sz, false) :: l2 /\ off = total l1 /\ coalesce (l1 ++ (sz, true) :: l2) = l.
Proof.
  revert off l'. induction l as [|[sz fr] l IH]; intros off l' E Hc; [done|]. cbn [alloc_spec] in E.
  destruct (fr && (need <=? sz)) eqn:Ef; bool_to_prop.
  - subst fr. pose proof (coalesce_id _ Hc) as Hid. cbn [coalesce] in Hid.
    destruct (sz <=? need + 48); simplify_eq; [by exists [], sz, l|].
    exists [], need, ((sz - need, true) :: l). split; [done|]. split; [done|]. cbn [app coalesce].
    destruct (coalesce l) as [|[s2 [|]] l2]; simplify_eq; rewrite <- ?Hid; do 2 f_equal; try lia; f_equal; lia.
  - destruct (alloc_spec need l) as [[off1 l1]|]; [|done]. simplify_eq.
    destruct (IH off1 l1 eq_refl) as (k1 & s1 & k2 & -> & -> & Hk); [by eapply coalesced_tail|].
    exists ((sz, fr) :: k1), s1, k2. split; [done|]. split; [done|].
    rewrite <- (coalesce_id _ Hc). cbn [app coalesce]. by rewrite Hk, (coalesce_id l) by (by eapply coalesced_tail).
Qed.

Lemma header_byte_area h l x :
  heap_rep g_heap h l -> header_byte g_heap l x -> g_heap <= x < g_heap + HEAP_SIZE.
Proof.
  intros Hr Hx. rewrite <- (rep_total g_heap h l Hr). revert Hx. pose proof (hr_blocks _ _ _ Hr) as Hok.
  clear Hr. revert g_heap. induction Hok as [|[sz fr] l [Hb _] Hok IH]; intros a Hx; simpl in *; [done|].
  pose proof (total_nonneg l Hok). destruct Hx as [|Hx]; [lia|]. apply IH in Hx. lia.
Qed.

Lemma owned_area h owned p n :
  heap_layout g_heap -> client_inv g_heap (h, owned) -> (p, n) ∈ owned ->
  g_heap + 32 <= p /\ p + n <= g_heap + HEAP_SIZE.
Proof.
  intros [Hlow Hhigh _] (l & Hr & _ & Ho) Hin. simpl in *.
  destruct (owns_elem g_heap owned l p n Ho Hin) as (c & Hl & Hn).
  pose proof (hr_blocks _ _ _ Hr) as Hok.
  destruct (live_split g_heap l p c Hl) as (l1 & sz & l2 & -> & -> & ->).
  apply Forall_app in Hok as [Hok1 Hok2]. apply Forall_cons_1 in Hok2 as [_ Hok2].
  pose proof (total_nonneg l1 Hok1). pose proof (total_nonneg l2 Hok2).
  pose proof (rep_total g_heap h _ Hr) as Ht. rewrite total_app in Ht. simpl in Ht. lia.
Qed.

Lemma alloc_frame h size p h' owned :
  heap_layout g_heap -> client_inv g_heap (h, owned) -> small_request size ->
  kmalloc g_heap size h = Some (p, h') ->
  same_outside (fun x => g_heap <= x < g_heap + HEAP_SIZE) (h_mem h) (h_mem h').
Proof.
  intros [Hlow Hhigh _] (l & Hr & _ & _) Hs Hk. simpl in *.
  destruct (kmalloc_refines g_heap Hlow Hhigh h l size Hr Hs) as (h1 & Hk1 & Hr1 & Hso).
  rewrite Hk in Hk1. simplify_eq. eapply same_outside_mono; [|exact Hso].
  intros x Hx. by apply (header_byte_area h1 _ x Hr1).
Qed.

Lemma free_frame h p n owned :
  heap_layout g_heap -> client_inv g_heap (h, (p, n) :: owned) ->
  same_outside (fun x => g_heap <= x < g_heap + HEAP_SIZE) (h_mem h) (h_mem (kfree p h)).
Proof.
  intros [Hlow Hhigh _] (l & Hr & Hco & Ho). simpl in *.
  destruct (owns_elem g_heap _ l p n Ho) as (c & Hl & _); [by left|].
  destruct (live_split g_heap l p c Hl) as (l1 & sz & l2 & -> & -> & _).
  destruct (kfree_refines g_heap Hlow Hhigh h l1 sz false l2 Hr Hco) as [_ Hso].
  eapply same_outside_mono; [|exact Hso]. intros x Hx. by apply (header_byte_area h _ x Hr).
Qed.

(** Writes outside the headers. *)
Lemma rep_writes h owned l m' :
  heap_rep g_heap h l -> owns g_heap owned l -> mem_wf m' ->
  (forall x, g_heap <= x < g_heap + HEAP_SIZE -> (forall p n, (p, n) ∈ owned -> ~ (p <= x < p + n)) -> ld8 m' x = ld8 (h_mem h) x) ->
  heap_rep g_heap (with_mem h m') l.
Proof.
  intros Hr Ho Hm' Hs. pose proof Hr as [Hrd Hhd Hm [lp Hc] Hok]. split; simpl; try done.
  exists lp. eapply chain_headers; [exact Hc|]. intros y Hy. apply Hs.
  - by apply (header_byte_area h l y Hr).
  - intros p n Hin Hpy. destruct (owns_elem g_heap _ l p n Ho Hin) as (c & Hl & Hn).
    by eapply (live_not_header g_heap l p c y Hok Hl); [lia|].
Qed.

#[export] Instance heap_allocator_laws :
  heap_layout g_heap -> AllocatorLaws heap.
Proof.
  intros HL. pose proof HL as [Hlow Hhigh _]. split; simpl.
  - done.
  - intros h owned H. by apply (inv_mem_wf g_heap h owned).
  - intros h owned p n Hi Hin. destruct (owned_area h owned p n HL Hi Hin). split_and!; lia || (intros; lia).
  - intros h owned size Hi Hs. pose proof Hi as (l & Hr & _). simpl in Hr.
    destruct (kmalloc_refines g_heap Hlow Hhigh h l size Hr Hs) as (h1 & Hk & _).
    eexists _, h1. split; [exact Hk|].
    destruct (inv_alloc g_heap Hlow Hhigh h h1 _ size owned Hi Hs Hk) as [[Hp Hi1]|[Hp Hi1]].
    + rewrite (proj2 (Z.eqb_neq _ 0) Hp). split; [done|]. by eapply alloc_frame.
    + rewrite Hp. split; [done|]. by eapply alloc_frame.
  - intros h p n owned Hi. split; [by apply (inv_free g_heap Hlow Hhigh h p n [] owned)|by eapply free_frame].
  - intros h owned m' (l & Hr & Hco & Ho) Hm' Hs. simpl in *. exists l. split_and!; try done. by apply (rep_writes h owned).
  - intros h owned (l & Hr & Hco & _). by exists l.
  - intros h owned l m' (l0 & Hr0 & _ & Ho) [Hr Hco] Hm' Hs. simpl in *. pose proof (rep_unique h l0 l Hr0 Hr) as ->. split; [|done].
    by apply (rep_writes h owned).
  - intros h owned l size p h' _ [Hr Hco] Hs Hk.
    destruct (kmalloc_refines g_heap Hlow Hhigh h l size Hr Hs) as (h1 & Hk1 & Hr1 & _). rewrite Hk in Hk1.
    unfold alloc_blocks in Hr1. destruct (alloc_spec (need_of size) l) as [[off l']|] eqn:Ea; simplify_eq.
    + destruct (alloc_spec_undo _ _ _ _ Ea Hco) as (l1 & sz & l2 & -> & -> & _).
      pose proof (hr_blocks _ _ _ Hr1) as [Hok1 _]%Forall_app. pose proof (total_nonneg l1 Hok1).
      rewrite (bool_decide_eq_true_2 _) by (by eexists). split; [apply Z.eqb_neq; lia|lia].
    + rewrite (bool_decide_eq_false_2 _) by (by intros [? ?]). done.
  - intros h owned l size p h' _ [Hr Hco] Hs Hk Hp.
    destruct (kmalloc_refines g_heap Hlow Hhigh h l size Hr Hs) as (h1 & Hk1 & Hr1 & _). rewrite Hk in Hk1.
    pose proof (alloc_blocks_coalesced (need_of size) l Hco) as Hco1.
    unfold alloc_blocks in Hr1, Hco1. destruct (alloc_spec (need_of size) l) as [[off l']|] eqn:Ea; simplify_eq.
    destruct (alloc_spec_undo _ _ _ _ Ea Hco) as (l1 & sz & l2 & -> & -> & Hback).
    exists (l1 ++ (sz, false) :: l2). split; [done|]. intros h2 [Hr2 Hco2].
    destruct (kfree_refines g_heap Hlow Hhigh h2 l1 sz false l2 Hr2 Hco2) as [Hr3 _]. rewrite Hback in Hr3. done.
Qed.

End Instance.

End Heap.
