(* ===== verification/Block.v ===== *)
(** * The interface of the disk driver

    What arch/disk.c promises to the file system (include/disk.h): a read that
    returns and delivers the bytes of the disk.  Disk.v discharges it with the
    ATA driver; Ext2.v and Dir.v are proved against it. *)

From S2P Require Import Prelude Cmem.
Local Open Scope Z_scope.

(** [holds disk d]: the device is ready, and [disk x] is its [x]-th byte. *)
Class BlockDevice (D : Type) := {
  disk_read : Z -> Z -> Z -> mem -> D -> option (mem * D);
  holds : (Z -> Z) -> D -> Prop
}.

(** The memory [m'] is [m] with [n] bytes of [src], from the [x]-th on, at
    address [buf]. *)
Definition filled (src : Z -> Z) (x buf n : Z) (m m' : mem) : Prop :=
  forall a, ld8 m' a = if (buf <=? a) && (a <? buf + n) then src (x + (a - buf)) else ld8 m a.

Class BlockDeviceLaws (D : Type) `{BlockDevice D} : Prop := {
  holds_bytes disk (d : D) : holds disk d -> forall x, is_u8 (disk x);
  disk_read_law disk (d : D) lba buf count m :
    holds disk d -> 0 <= lba -> lba + count <= 2 ^ 28 -> 0 < count <= 256 ->
    0 <= buf -> buf + 512 * count <= 2 ^ 32 ->
    exists m' d', disk_read lba buf count m d = Some (m', d') /\ holds disk d' /\
      filled disk (512 * lba) buf (512 * count) m m'
}.

Lemma filled_in src x buf n m m' i : filled src x buf n m m' -> 0 <= i < n -> ld8 m' (buf + i) = src (x + i).
Proof.
  intros H Hi. rewrite H, (proj2 (Z.leb_le buf (buf + i))), (proj2 (Z.ltb_lt (buf + i) (buf + n))) by lia.
  cbn [andb]. f_equal. lia.
Qed.

Lemma filled_out src x buf n m m' a : filled src x buf n m m' -> a < buf \/ buf + n <= a -> ld8 m' a = ld8 m a.
Proof. intros H Ha. rewrite H. z_cases; try done; lia. Qed.

Lemma filled_same src x buf n m m' : filled src x buf n m m' -> same_outside (fun a => buf <= a < buf + n) m m'.
Proof. intros H a Ha. apply (filled_out _ _ _ _ _ _ _ H). lia. Qed.

Lemma filled_wf src x buf n m m' : filled src x buf n m m' -> (forall y, is_u8 (src y)) -> mem_wf m -> mem_wf m'.
Proof. intros H Hs Hm a. rewrite H. case_cond; [apply Hs|apply Hm]. Qed.

Lemma filled_shift src x y buf n m m' :
  filled src (x + y) buf n m m' -> filled (fun z => src (x + z)) y buf n m m'.
Proof. intros H a. rewrite H. case_cond; [f_equal; lia|done]. Qed.
