(* ===== verification/Disk.v ===== *)
(** * The disk: arch/ata.c, arch/disk.c and include/ata.h

    The driver talks to the drive through port instructions only.  The drive
    is an interface, [AtaPort]: a state with the effect of reading a port,
    writing a port and reading a block of words.  [AtaDrive] states what the
    ATA standard promises of a drive in PIO mode (28-bit addressing, READ
    SECTORS); the driver's theorems are proved against it, and [sim_drive] is
    a drive that satisfies it.  Delay loops change nothing and are left out,
    like the debug output. *)

From Stdlib Require Import ZifyBool.
From S2P Require Import Prelude Cmem Block.
Local Open Scope Z_scope.

(** The port instructions, on the state of the hardware. *)
Class AtaPort (D : Type) := {
  inb : Z -> D -> Z * D;
  outb : Z -> Z -> D -> D;
  insw : Z -> Z -> D -> list Z * D   (** the bytes of [count] words *)
}.

Module Disk.

Definition ATA_PRIMARY_CTRL : Z := 0x3F6.
Definition ATA_REG_DATA : Z := 0x1F0.
Definition ATA_REG_SECCOUNT : Z := 0x1F2.
Definition ATA_REG_LBA_LOW : Z := 0x1F3.
Definition ATA_REG_LBA_MID : Z := 0x1F4.
Definition ATA_REG_LBA_HIGH : Z := 0x1F5.
Definition ATA_REG_DEVICE : Z := 0x1F6.
Definition ATA_REG_COMMAND : Z := 0x1F7.
Definition ATA_REG_STATUS : Z := 0x1F7.
Definition ATA_SR_BSY : Z := 0x80.
Definition ATA_SR_DRQ : Z := 0x08.
Definition ATA_SR_ERR : Z := 0x01.
Definition ATA_SR_DRDY : Z := 0x40.
Definition ATA_MASTER : Z := 0xE0.

(** [status & flag] as a condition. *)
Definition has (status flag : Z) : bool := negb (Z.land status flag =? 0).

Section Driver.
Context {D : Type} `{AtaPort D}.

(** *** arch/ata.c *)

(** [while ((inb(ATA_REG_STATUS) & ATA_SR_BSY) && timeout--);] with the value
    of [timeout] behind the loop. *)
Fixpoint reset_wait (timeout : nat) (d : D) : Z * D :=
  let '(status, d) := inb ATA_REG_STATUS d in
  if has status ATA_SR_BSY then
    match timeout with
    | O => (2 ^ 32 - 1, d)
    | S timeout' => reset_wait timeout' d
    end
  else (Z.of_nat timeout, d).

(** The loop that waits for DRDY: [None] is an early [return false], otherwise
    the value of [poll] behind the loop. *)
Fixpoint drdy_wait (poll : nat) (d : D) : option Z * D :=
  let '(status, d) := inb ATA_REG_STATUS d in
  if status =? 0xFF then (None, d)
  else if has status ATA_SR_ERR then (None, d)
  else if negb (has status ATA_SR_DRDY) then
    match poll with
    | O => (Some (2 ^ 32 - 1), d)
    | S poll' => drdy_wait poll' d
    end
  else (Some (Z.of_nat poll), d).

Definition ata_timeout : nat := Z.to_nat 100000.

Definition ata_init (d : D) : bool * D :=
  let d := outb ATA_PRIMARY_CTRL 0x04 d in
  let d := outb ATA_PRIMARY_CTRL 0x00 d in
  let '(timeout, d) := reset_wait ata_timeout d in
  if timeout =? 0 then (false, d)
  else
    let d := outb ATA_REG_DEVICE ATA_MASTER d in
    let '(poll, d) := drdy_wait ata_timeout d in
    match poll with
    | None => (false, d)
    | Some poll => (negb (poll =? 0), d)
    end.

(** *** arch/disk.c *)

(** [while (inb(ATA_REG_STATUS) & ATA_SR_BSY);] *)
Fixpoint wait_idle (fuel : nat) (d : D) : option D :=
  let '(status, d) := inb ATA_REG_STATUS d in
  if has status ATA_SR_BSY then
    match fuel with O => None | S fuel' => wait_idle fuel' d end
  else Some d.

(** [while (timeout--)]: the values of [timeout] and [status] behind it. *)
Fixpoint poll_sector (timeout : nat) (status : Z) (d : D) : Z * Z * D :=
  match timeout with
  | O => (-1, status, d)
  | S timeout' =>
      let '(status, d) := inb 0x3F6 d in
      if has status ATA_SR_ERR then (Z.of_nat timeout', status, d)
      else if negb (has status ATA_SR_BSY) && has status ATA_SR_DRQ then (Z.of_nat timeout', status, d)
      else poll_sector timeout' status d
  end.

Definition sector_timeout : nat := Z.to_nat 1000000.

(** [while (error_count < 3)], with [tries] the tries left; [None] is the
    [while(1)] behind it. *)
Fixpoint read_sector (tries : nat) (sector_buffer : Z) (m : mem) (d : D) : option (mem * D) :=
  match tries with
  | O => None
  | S tries' =>
      let '(timeout, status, d) := poll_sector sector_timeout 0 d in
      if (0 <? timeout) && negb (has status ATA_SR_ERR) then
        let '(data, d) := insw ATA_REG_DATA 256 d in
        Some (poke sector_buffer data m, d)
      else read_sector tries' sector_buffer m d
  end.

(** The sectors from the [i]-th on, [n] of them. *)
Fixpoint read_sectors (n : nat) (i buffer : Z) (m : mem) (d : D) : option (mem * D) :=
  match n with
  | O => Some (m, d)
  | S n' =>
      '(m, d) ← read_sector 3 (u32 (buffer + u32 (i * 512))) m d;
      read_sectors n' (i + 1) buffer m d
  end.

Definition disk_read_ex (fuel : nat) (drive lba buffer sector_count : Z) (m : mem) (d : D) : option (mem * D) :=
  d ← wait_idle fuel d;
  let devsel := if drive =? 0 then 0xE0 else 0xF0 in
  let d := outb ATA_REG_DEVICE (Z.lor devsel (Z.land (Z.shiftr lba 24) 0x0F)) d in
  let d := outb ATA_REG_SECCOUNT (u8 sector_count) d in
  let d := outb ATA_REG_LBA_LOW (u8 lba) d in
  let d := outb ATA_REG_LBA_MID (u8 (Z.shiftr lba 8)) d in
  let d := outb ATA_REG_LBA_HIGH (u8 (Z.shiftr lba 16)) d in
  let d := outb ATA_REG_COMMAND 0x20 d in
  read_sectors (Z.to_nat sector_count) 0 buffer m d.

Definition disk_read (fuel : nat) (lba buffer sector_count : Z) (m : mem) (d : D) : option (mem * D) :=
  disk_read_ex fuel 0 lba buffer sector_count m d.

End Driver.

(** ** What a drive promises *)

(** The state of a drive as the standard describes it: the sectors of the
    master drive, the registers of the command block by port, the sectors that
    a command has still to deliver, and how many polls it stays busy. *)
Record drive_view := mkView {
  sectors : Z -> list Z;
  regs : Z -> Z;
  pending : list Z;
  busy : nat
}.

(** The sector that the registers address, and the number of sectors. *)
Definition reg_lba (r : Z -> Z) : Z :=
  r ATA_REG_LBA_LOW + 2 ^ 8 * r ATA_REG_LBA_MID + 2 ^ 16 * r ATA_REG_LBA_HIGH
  + 2 ^ 24 * (r ATA_REG_DEVICE mod 16).
Definition reg_count (r : Z -> Z) : Z :=
  if r ATA_REG_SECCOUNT =? 0 then 256 else r ATA_REG_SECCOUNT.
Definition selects_master (r : Z -> Z) : bool := Z.land (r ATA_REG_DEVICE) 0xF0 =? 0xE0.

Definition is_register (port : Z) : Prop := ATA_REG_SECCOUNT <= port <= ATA_REG_DEVICE.

(** [AtaDrive D n]: a drive that is never busy for more than [n] polls, and
    reads without errors. *)
Class AtaDrive (D : Type) `{AtaPort D} (n : nat) := {
  view : D -> drive_view;
  view_busy : forall d, (busy (view d) <= n)%nat;
  view_sectors : forall d lba, length (sectors (view d) lba) = 512%nat /\ Forall is_u8 (sectors (view d) lba);
  drive_status : forall d port status d',
    port = ATA_REG_STATUS \/ port = ATA_PRIMARY_CTRL ->
    inb port d = (status, d') ->
    has status ATA_SR_ERR = false /\ status <> 0xFF /\
    sectors (view d') = sectors (view d) /\ regs (view d') = regs (view d) /\ pending (view d') = pending (view d) /\
    match busy (view d) with
    | O => busy (view d') = O /\ has status ATA_SR_BSY = false /\ has status ATA_SR_DRDY = true /\
           has status ATA_SR_DRQ = negb (bool_decide (pending (view d) = []))
    | S k => (busy (view d') <= k)%nat /\ has status ATA_SR_BSY = true
    end;
  drive_register : forall d port v,
    is_register port -> busy (view d) = O -> pending (view d) = [] ->
    view (outb port v d) = mkView (sectors (view d)) (fun p => if p =? port then v else regs (view d) p) [] 0;
  drive_control : forall d v,
    let v' := view (outb ATA_PRIMARY_CTRL v d) in sectors v' = sectors (view d) /\ pending v' = [];
  drive_read : forall d,
    busy (view d) = O -> pending (view d) = [] -> selects_master (regs (view d)) = true ->
    let v' := view (outb ATA_REG_COMMAND 0x20 d) in
    sectors v' = sectors (view d) /\
    pending v' = seqZ (reg_lba (regs (view d))) (reg_count (regs (view d)));
  drive_data : forall d s rest data d',
    busy (view d) = O -> pending (view d) = s :: rest ->
    insw ATA_REG_DATA 256 d = (data, d') ->
    data = sectors (view d) s /\ sectors (view d') = sectors (view d) /\ pending (view d') = rest
}.

(** ** The driver on such a drive *)

Section Reads.
Context {D : Type} `{P : AtaPort D} {n : nat} `{!AtaDrive D n}.

Lemma reset_wait_ok t (d : D) :
  (busy (view d) < t)%nat ->
  exists k d', reset_wait t d = (Z.of_nat (S k), d') /\ busy (view d') = O /\
    sectors (view d') = sectors (view d) /\ pending (view d') = pending (view d).
Proof.
  revert d. induction t as [|t IH]; intros d Hb; [lia|]. cbn [reset_wait].
  destruct (inb ATA_REG_STATUS d) as [st d1] eqn:E.
  destruct (drive_status d _ st d1 (or_introl eq_refl) E) as (_ & _ & E1 & _ & E2 & Hs).
  destruct (busy (view d)) as [|k].
  - destruct Hs as (H1 & -> & _). exists t, d1. by rewrite E1, E2.
  - destruct Hs as (H1 & ->). destruct (IH d1) as (j & d' & -> & H2 & H3 & H4); [lia|].
    exists j, d'. by rewrite <- E1, <- E2.
Qed.

Lemma drdy_wait_ok t (d : D) :
  busy (view d) = O ->
  exists d', drdy_wait t d = (Some (Z.of_nat t), d') /\ busy (view d') = O /\
    sectors (view d') = sectors (view d) /\ pending (view d') = pending (view d).
Proof.
  intros Hb. destruct t as [|t]; cbn [drdy_wait]; destruct (inb ATA_REG_STATUS d) as [st d1] eqn:E;
    destruct (drive_status d _ st d1 (or_introl eq_refl) E) as (H0 & Hf & E1 & _ & E2 & Hs);
    rewrite Hb in Hs; destruct Hs as (H1 & _ & H2 & _); apply Z.eqb_neq in Hf; rewrite Hf, H0, H2; cbn [negb];
    exists d1; by rewrite E1, E2.
Qed.

Lemma wait_idle_ok fuel (d : D) :
  (busy (view d) <= fuel)%nat ->
  exists d', wait_idle fuel d = Some d' /\ busy (view d') = O /\
    sectors (view d') = sectors (view d) /\ regs (view d') = regs (view d) /\ pending (view d') = pending (view d).
Proof.
  revert d. induction fuel as [|fuel IH]; intros d Hb; cbn [wait_idle];
    destruct (inb ATA_REG_STATUS d) as [st d1] eqn:E;
    destruct (drive_status d _ st d1 (or_introl eq_refl) E) as (_ & _ & E1 & E2 & E3 & Hs);
    destruct (busy (view d)) as [|k].
  1, 3: destruct Hs as (H1 & -> & _); exists d1; by rewrite E1, E2, E3.
  - lia.
  - destruct Hs as (H1 & ->). destruct (IH d1) as (d' & -> & H2 & H3 & H4 & H5); [lia|].
    exists d'. by rewrite <- E1, <- E2, <- E3.
Qed.

Lemma poll_sector_ok t st (d : D) s rest :
  (busy (view d) < t)%nat -> pending (view d) = s :: rest ->
  exists k st' d', poll_sector (S t) st d = (Z.of_nat (S k), st', d') /\ has st' ATA_SR_ERR = false /\
    busy (view d') = O /\ sectors (view d') = sectors (view d) /\ pending (view d') = s :: rest.
Proof.
  intros Hb Hp. revert d st Hb Hp. induction t as [|t IH]; intros d st Hb Hp; [lia|].
  cbn [poll_sector]. destruct (inb 0x3F6 d) as [st1 d1] eqn:E.
  destruct (drive_status d _ st1 d1 (or_intror eq_refl) E) as (H0 & _ & E1 & _ & E2 & Hs).
  rewrite H0. destruct (busy (view d)) as [|k].
  - destruct Hs as (H1 & H2 & _ & H3). rewrite H2, H3, Hp. cbn [negb bool_decide andb].
    exists t, st1, d1. by rewrite E1, E2, Hp.
  - destruct Hs as (H1 & H2). rewrite H2. cbn [negb andb].
    destruct (IH d1 st1) as (j & st' & d' & Hj & H3 & H4 & H5 & H6); [lia|by rewrite E2|].
    cbn [poll_sector] in Hj. rewrite Hj. exists j, st', d'. by rewrite <- E1.
Qed.

Lemma read_sector_ok a m (d : D) s rest :
  (n < Nat.pred sector_timeout)%nat -> pending (view d) = s :: rest ->
  exists d', read_sector 3 a m d = Some (poke a (sectors (view d) s) m, d') /\
    sectors (view d') = sectors (view d) /\ pending (view d') = rest.
Proof.
  intros Hn Hp. pose proof (view_busy d) as Hb. cbn [read_sector].
  destruct (poll_sector_ok (Nat.pred sector_timeout) 0 d s rest) as (k & st' & d1 & Hq & H1 & H2 & H3 & H4); [lia|done|].
  replace (S (Nat.pred sector_timeout)) with sector_timeout in Hq by lia.
  rewrite Hq, H1. rewrite (proj2 (Z.ltb_lt 0 (Z.of_nat (S k)))) by lia. cbn [negb andb].
  destruct (insw ATA_REG_DATA 256 d1) as [data d2] eqn:E.
  destruct (drive_data d1 s rest data d2 H2 H4 E) as (-> & H5 & H6).
  exists d2. by rewrite H5, H6, H3.
Qed.

(** The bytes of the sectors [l] on a disk, one after the other. *)
Definition disk_bytes (disk : Z -> list Z) (l : list Z) : list Z := concat (List.map disk l).

Lemma read_sectors_ok l i buffer m (d : D) :
  (n < Nat.pred sector_timeout)%nat -> pending (view d) = l ->
  0 <= i -> 0 <= buffer -> buffer + 512 * (i + Z.of_nat (length l)) <= 2 ^ 32 ->
  exists d', read_sectors (length l) i buffer m d
             = Some (poke (buffer + 512 * i) (disk_bytes (sectors (view d)) l) m, d') /\
    sectors (view d') = sectors (view d) /\ pending (view d') = [].
Proof.
  intros Hn. revert i m d. induction l as [|s l IH]; intros i m d Hp Hi Hb Hw; cbn [length read_sectors].
  - exists d. done.
  - cbn [length] in Hw. rewrite (u32_small (i * 512)), u32_small by lia.
    destruct (read_sector_ok (buffer + i * 512) m d s l Hn Hp) as (d1 & E & H1 & H2).
    rewrite (bind_some _ _ _ E). destruct (IH (i + 1) (poke (buffer + i * 512) (sectors (view d) s) m) d1 H2)
      as (d' & E' & H3 & H4); [lia|lia|lia|].
    exists d'. rewrite E', H3, H1. split; [|done]. do 2 f_equal.
    cbn [disk_bytes List.map concat]. fold (disk_bytes (sectors (view d)) l).
    rewrite poke_app. destruct (view_sectors d s) as [-> _].
    by replace (buffer + i * 512) with (buffer + 512 * i) by lia;
      replace (buffer + 512 * (i + 1)) with (buffer + 512 * i + Z.of_nat 512) by lia.
Qed.

End Reads.

Lemma disk_bytes_spec disk base n :
  (forall s, length (disk s) = 512%nat /\ Forall is_u8 (disk s)) ->
  let bytes := disk_bytes disk (seqZ base (Z.of_nat n)) in
  Z.of_nat (length bytes) = 512 * Z.of_nat n /\
  forall s i, 0 <= s < Z.of_nat n -> 0 <= i < 512 -> getZ bytes (512 * s + i) = getZ (disk (base + s)) i.
Proof.
  intros Hd. revert base. induction n as [|n IH]; intros base; cbn zeta.
  - split; [done|lia].
  - rewrite seqZ_cons by lia. replace (Z.pred (Z.of_nat (S n))) with (Z.of_nat n) by lia.
    destruct (IH (Z.succ base)) as [H1 H2]. unfold disk_bytes in *. cbn [List.map concat].
    destruct (Hd base) as [Hl _]. rewrite length_app, Hl. split; [lia|].
    intros s i Hs Hi. unfold getZ in *. destruct (decide (s = 0)) as [->|Hne].
    + rewrite lookup_app_l by lia. by replace (base + 0) with base by lia.
    + rewrite lookup_app_r, Hl by lia.
      replace (Z.to_nat (512 * s + i) - 512)%nat with (Z.to_nat (512 * (s - 1) + i)) by lia.
      rewrite (H2 (s - 1) i) by lia. by replace (Z.succ base + (s - 1)) with (base + s) by lia.
Qed.

(** The registers that the driver programs address the low 28 bits of [lba]. *)
Lemma programmed_lba (r : Z -> Z) lba count dev :
  is_u32 lba -> 0 < count <= 256 ->
  r ATA_REG_LBA_LOW = u8 lba -> r ATA_REG_LBA_MID = u8 (Z.shiftr lba 8) ->
  r ATA_REG_LBA_HIGH = u8 (Z.shiftr lba 16) -> r ATA_REG_SECCOUNT = u8 count ->
  r ATA_REG_DEVICE = Z.lor 0xE0 dev -> dev = Z.land (Z.shiftr lba 24) 0x0F ->
  reg_lba r = lba mod 2 ^ 28 /\ reg_count r = count /\ selects_master r = true.
Proof.
  intros Hl Hc E1 E2 E3 E4 E5 Ed. unfold reg_lba, reg_count, selects_master. rewrite E1, E2, E3, E4, E5.
  assert (Hd : dev = lba / 2 ^ 24 mod 16).
  { rewrite Ed, Z.shiftr_div_pow2 by lia. change 0x0F with (2 ^ 4 - 1). by rewrite land_ones_mod by lia. }
  assert (Hr : 0 <= dev < 16) by (rewrite Hd; apply Z.mod_pos_bound; lia).
  assert (Ho : Z.lor 0xE0 dev = 0xE0 + dev) by (by apply (lor_disjoint_add _ _ 4)).
  rewrite !Z.shiftr_div_pow2 by lia. unfold u8. change (2 ^ 8) with 256. change (2 ^ 16) with 65536 in *.
  change (2 ^ 24) with 16777216 in *. change (2 ^ 28) with 268435456. unfold is_u32 in Hl. change (2 ^ 32) with 4294967296 in Hl.
  split; [|split].
  - rewrite Ho, Hd. mlia.
  - destruct (Z.eqb_spec (count mod 256) 0); mlia.
  - apply (check_range (fun dev => Z.land (Z.lor 0xE0 dev) 0xF0 =? 0xE0) 0 16); [reflexivity|lia].
Qed.

Section Commands.
Context {D : Type} `{P : AtaPort D} {n : nat} `{!AtaDrive D n}.

(** Writing a register of an idle drive. *)
Lemma register_ok (d : D) port v :
  is_register port -> busy (view d) = O -> pending (view d) = [] ->
  let v' := view (outb port v d) in
  busy v' = O /\ pending v' = [] /\ sectors v' = sectors (view d) /\
  (forall p, regs v' p = if p =? port then v else regs (view d) p).
Proof. intros H1 H2 H3. cbn zeta. by rewrite (drive_register d port v H1 H2 H3). Qed.

Lemma disk_read_ok lba buffer count m (d : D) :
  (n < Nat.pred sector_timeout)%nat -> pending (view d) = [] -> is_u32 lba -> 0 < count <= 256 ->
  0 <= buffer -> buffer + 512 * count <= 2 ^ 32 ->
  exists d', disk_read n lba buffer count m d
             = Some (poke buffer (disk_bytes (sectors (view d)) (seqZ (lba mod 2 ^ 28) count)) m, d') /\
    sectors (view d') = sectors (view d) /\ pending (view d') = [].
Proof.
  intros Hn Hp Hl Hc Hb Hw. unfold disk_read, disk_read_ex. cbn [Z.eqb].
  destruct (wait_idle_ok n d (view_busy d)) as (d0 & E & B0 & S0 & _ & P0).
  rewrite (bind_some _ _ _ E). rewrite Hp in P0.
  set (dev := Z.land (Z.shiftr lba 24) 0x0F).
  destruct (register_ok d0 ATA_REG_DEVICE (Z.lor 0xE0 dev)) as (B1 & P1 & S1 & R1); [done..|].
  set (d1 := outb ATA_REG_DEVICE _ d0) in *.
  destruct (register_ok d1 ATA_REG_SECCOUNT (u8 count)) as (B2 & P2 & S2 & R2); [done..|].
  set (d2 := outb ATA_REG_SECCOUNT _ d1) in *.
  destruct (register_ok d2 ATA_REG_LBA_LOW (u8 lba)) as (B3 & P3 & S3 & R3); [done..|].
  set (d3 := outb ATA_REG_LBA_LOW _ d2) in *.
  destruct (register_ok d3 ATA_REG_LBA_MID (u8 (Z.shiftr lba 8))) as (B4 & P4 & S4 & R4); [done..|].
  set (d4 := outb ATA_REG_LBA_MID _ d3) in *.
  destruct (register_ok d4 ATA_REG_LBA_HIGH (u8 (Z.shiftr lba 16))) as (B5 & P5 & S5 & R5); [done..|].
  set (d5 := outb ATA_REG_LBA_HIGH _ d4) in *.
  destruct (programmed_lba (regs (view d5)) lba count dev) as (E1 & E2 & E3); try done;
    [rewrite R5; cbn; rewrite R4; cbn; by rewrite R3
    |rewrite R5; cbn; by rewrite R4
    |rewrite R5; cbn; rewrite R4; cbn; rewrite R3; cbn; by rewrite R2
    |rewrite R5; cbn; rewrite R4; cbn; rewrite R3; cbn; rewrite R2; cbn; by rewrite R1|].
  destruct (drive_read d5 B5 P5 E3) as (S6 & P6). rewrite E1, E2 in P6.
  assert (Hlen : length (seqZ (lba mod 2 ^ 28) count) = Z.to_nat count) by apply length_seqZ.
  destruct (read_sectors_ok _ 0 buffer m (outb ATA_REG_COMMAND 0x20 d5) Hn P6) as (d' & E' & S7 & P7); [lia|lia|lia|].
  rewrite Hlen in E'. rewrite E'. exists d'. rewrite S7, S6, S5, S4, S3, S2, S1, S0, Z.mul_0_r, Z.add_0_r. done.
Qed.

Lemma ata_init_ok (d : D) :
  (n < ata_timeout)%nat ->
  exists d', ata_init d = (true, d') /\ sectors (view d') = sectors (view d) /\ pending (view d') = [].
Proof.
  intros Hn. unfold ata_init.
  destruct (drive_control d 0x04) as [S1 P1]. set (d1 := outb ATA_PRIMARY_CTRL 0x04 d) in *.
  destruct (drive_control d1 0x00) as [S2 P2]. set (d2 := outb ATA_PRIMARY_CTRL 0x00 d1) in *.
  destruct (reset_wait_ok ata_timeout d2) as (k & d3 & -> & B3 & S3 & P3).
  { pose proof (view_busy d2). lia. }
  rewrite (proj2 (Z.eqb_neq (Z.of_nat (S k)) 0)) by lia.
  destruct (register_ok d3 ATA_REG_DEVICE ATA_MASTER) as (B4 & P4 & S4 & _); [done|done|by rewrite P3|].
  destruct (drdy_wait_ok ata_timeout _ B4) as (d5 & -> & B5 & S5 & P5).
  rewrite (proj2 (Z.eqb_neq (Z.of_nat ata_timeout) 0)) by lia.
  exists d5. rewrite S5, P5, S4, P4, S3, S2, S1. done.
Qed.

End Commands.

(** ** Timeouts

    The drive as the sequence of the values that its status register shows. *)

Definition polled (status : nat -> Z) : AtaPort nat := {|
  inb := fun port k => (status k, S k);
  outb := fun port v k => k;
  insw := fun port count k => (replicate (Z.to_nat (2 * count)) 0, k)
|}.

Section Timeouts.
Variable status : nat -> Z.
#[local] Instance status_port : AtaPort nat := polled status.

Lemma reset_wait_busy t k :
  (forall i, (k <= i <= k + t)%nat -> has (status i) ATA_SR_BSY = true) ->
  reset_wait t k = (2 ^ 32 - 1, (k + S t)%nat).
Proof.
  revert k. induction t as [|t IH]; intros k Hs; cbn [reset_wait inb status_port polled]; rewrite Hs by lia.
  - f_equal. lia.
  - rewrite IH by (intros; apply Hs; lia). f_equal. lia.
Qed.

Lemma reset_wait_ready t k j :
  (j <= t)%nat -> (forall i, (k <= i < k + j)%nat -> has (status i) ATA_SR_BSY = true) ->
  has (status (k + j)%nat) ATA_SR_BSY = false ->
  reset_wait t k = (Z.of_nat (t - j), (k + S j)%nat).
Proof.
  revert t k. induction j as [|j IH]; intros t k Ht Hb He.
  - rewrite Nat.add_0_r in He. destruct t; cbn [reset_wait inb status_port polled]; rewrite He; f_equal; lia.
  - destruct t as [|t]; [lia|]. cbn [reset_wait inb status_port polled]. rewrite Hb by lia.
    rewrite IH; [f_equal; lia|lia|intros; apply Hb; lia|]. by replace (S k + j)%nat with (k + S j)%nat by lia.
Qed.

Lemma drdy_wait_never t k :
  (forall i, (k <= i <= k + t)%nat -> status i <> 0xFF /\ has (status i) ATA_SR_ERR = false /\
     has (status i) ATA_SR_DRDY = false) ->
  drdy_wait t k = (Some (2 ^ 32 - 1), (k + S t)%nat).
Proof.
  revert k. induction t as [|t IH]; intros k Hs; cbn [drdy_wait inb status_port polled];
    destruct (Hs k) as (H1 & H2 & H3); try lia; apply Z.eqb_neq in H1; rewrite H1, H2, H3; cbn [negb].
  - f_equal. lia.
  - rewrite IH by (intros; apply Hs; lia). f_equal. lia.
Qed.

Lemma wait_idle_never fuel k :
  (forall i, (k <= i)%nat -> has (status i) ATA_SR_BSY = true) -> wait_idle fuel k = None.
Proof.
  revert k. induction fuel as [|fuel IH]; intros k Hs; cbn [wait_idle inb status_port polled]; rewrite Hs by lia; [done|].
  apply IH. intros. apply Hs. lia.
Qed.

Lemma poll_sector_error t st k :
  has (status k) ATA_SR_ERR = true -> poll_sector (S t) st k = (Z.of_nat t, status k, S k).
Proof. intros H. cbn [poll_sector inb status_port polled]. by rewrite H. Qed.

Lemma read_sector_error tries a m k :
  (forall i, (k <= i)%nat -> has (status i) ATA_SR_ERR = true) -> read_sector tries a m k = None.
Proof.
  revert k. induction tries as [|tries IH]; intros k Hs; cbn [read_sector]; [done|].
  assert (E : exists t, sector_timeout = S t) by (exists (Nat.pred sector_timeout); unfold sector_timeout; lia).
  destruct E as [t ->]. rewrite poll_sector_error by (apply Hs; lia). rewrite Hs, andb_false_r by lia.
  apply IH. intros. apply Hs. lia.
Qed.

End Timeouts.

(** ** The driver as a block device *)

Section Device.
Context {D : Type} `{P : AtaPort D} {n : nat} `{!AtaDrive D n}.

#[export] Instance ata_device : BlockDevice D := {|
  Block.disk_read := disk_read n;
  holds := fun disk d => pending (view d) = [] /\
    forall x, disk x = getZ (sectors (view d) (x / 512)) (x mod 512)
|}.

Lemma ata_device_laws : Z.of_nat n < 999999 -> BlockDeviceLaws D.
Proof.
  intros Hn. assert (Ht : (n < Nat.pred sector_timeout)%nat) by (unfold sector_timeout; lia). split.
  - intros disk d [_ Hd] x. rewrite Hd. apply (getZ_Forall is_u8); [apply view_sectors|done].
  - intros disk d lba buf count m [Hp Hd] Hl Hw Hc Hb Hbw.
    destruct (disk_read_ok lba buf count m d) as (d' & E & HS & HP); try done; [unfold is_u32; lia|].
    eexists _, d'. split; [exact E|]. split; [split; [done|by rewrite HS]|].
    destruct (disk_bytes_spec (sectors (view d)) (lba mod 2 ^ 28) (Z.to_nat count)) as [Hlen Hget].
    { intros s. apply view_sectors. }
    rewrite Z2Nat.id in Hlen, Hget by lia. intros a. rewrite poke_ld8, Hlen. case_cond; [|done].
    specialize (Hget ((a - buf) / 512) ((a - buf) mod 512)).
    replace (512 * ((a - buf) / 512) + (a - buf) mod 512) with (a - buf) in Hget by mlia.
    rewrite Hget by mlia. rewrite Z.mod_small by lia. rewrite Hd.
    replace ((512 * lba + (a - buf)) / 512) with (lba + (a - buf) / 512) by mlia.
    replace ((512 * lba + (a - buf)) mod 512) with ((a - buf) mod 512) by mlia.
    apply u8_small. apply (getZ_Forall is_u8); [apply view_sectors|done].
Qed.

End Device.

(** ** Properties *)

(** C12: [disk_read] delivers the disk: on an idle drive that answers within a
    million polls it returns, the [512 * sector_count] bytes behind [buffer]
    are the bytes of the sectors from [lba] on (28 bits of it), in order,
    no other memory changes, and the drive is idle again with the same disk. *)
Theorem disk_read_delivers {D : Type} `{P : AtaPort D} {n : nat} `{!AtaDrive D n}
  (lba buffer sector_count : Z) (m : mem) (d : D) :
  Z.of_nat n < 999999 -> pending (view d) = [] -> is_u32 lba -> 0 < sector_count <= 256 ->
  0 <= buffer -> buffer + 512 * sector_count <= 2 ^ 32 ->
  exists m' d', disk_read n lba buffer sector_count m d = Some (m', d') /\
    (forall s i, 0 <= s < sector_count -> 0 <= i < 512 ->
       ld8 m' (buffer + 512 * s + i) = getZ (sectors (view d) (lba mod 2 ^ 28 + s)) i) /\
    same_outside (fun a => buffer <= a < buffer + 512 * sector_count) m m' /\
    pending (view d') = [] /\ sectors (view d') = sectors (view d).
Proof.
  intros Hn Hp Hl Hc Hb Hw.
  destruct (disk_read_ok lba buffer sector_count m d) as (d' & E & HS & HP); try done.
  { unfold sector_timeout. lia. }
  set (base := lba mod 2 ^ 28) in *. set (bytes := disk_bytes _ _) in *.
  destruct (disk_bytes_spec (sectors (view d)) base (Z.to_nat sector_count)) as [Hlen Hget].
  { intros s. apply view_sectors. }
  rewrite Z2Nat.id in Hlen, Hget by lia. fold bytes in Hlen, Hget.
  exists (poke buffer bytes m), d'. split; [done|split; [|split; [|done]]].
  - intros s i Hs Hi. rewrite poke_ld8.
    replace ((buffer <=? buffer + 512 * s + i) && _) with true by lia.
    replace (buffer + 512 * s + i - buffer) with (512 * s + i) by lia. rewrite Hget by lia.
    apply u8_small. apply (getZ_Forall is_u8); [apply view_sectors|done].
  - intros a Ha. rewrite poke_ld8. by replace ((buffer <=? a) && _) with false by lia.
Qed.

(** [ata_init] finds a drive that becomes ready in time, and leaves it
    idle, so that reads can follow. *)
Theorem ata_init_finds_drive {D : Type} `{P : AtaPort D} {n : nat} `{!AtaDrive D n} (d : D) :
  Z.of_nat n < 100000 ->
  exists d', ata_init d = (true, d') /\ sectors (view d') = sectors (view d) /\ pending (view d') = [].
Proof. intros Hn. apply ata_init_ok. unfold ata_timeout. lia. Qed.

(** The timeouts of [ata_init] are inverted.  A drive that stays busy for
    ever is reported as ready, and the first read from it never returns; a
    drive that becomes ready exactly after 100000 polls is reported as
    missing. *)
Theorem ata_init_timeouts_inverted (status : nat -> Z) :
  ((forall i, status i = ATA_SR_BSY) ->
   exists k, @ata_init nat (polled status) 0%nat = (true, k) /\
     forall fuel lba buffer count m, @disk_read nat (polled status) fuel lba buffer count m k = None) /\
  ((forall i, status i = if Z.of_nat i <? 100000 then ATA_SR_BSY else ATA_SR_DRDY) ->
   exists k, @ata_init nat (polled status) 0%nat = (false, k)).
Proof.
  change (polled status) with (status_port status). split; intros Hs; unfold ata_init; cbn [outb status_port polled].
  - rewrite reset_wait_busy by (intros; by rewrite Hs). cbn [Z.eqb].
    rewrite drdy_wait_never by (intros; by rewrite Hs). eexists. split; [reflexivity|].
    intros. unfold disk_read, disk_read_ex. rewrite wait_idle_never by (intros; by rewrite Hs). done.
  - rewrite (reset_wait_ready status ata_timeout 0 ata_timeout).
    + rewrite Nat.sub_diag. eexists. reflexivity.
    + lia.
    + intros i Hi. rewrite Hs. unfold ata_timeout in Hi. by replace (Z.of_nat i <? 100000) with true by lia.
    + rewrite Hs. unfold ata_timeout. by replace (Z.of_nat (0 + Z.to_nat 100000) <? 100000) with false by lia.
Qed.

(** A drive that reports an error at every poll stops the kernel: after three
    tries, without issuing the command again, [disk_read] loops for ever. *)
Theorem disk_read_error_hangs (status : nat -> Z) (fuel : nat) (lba buffer sector_count : Z) (m : mem) (k : nat) :
  (forall i, has (status i) ATA_SR_ERR = true) -> 0 < sector_count ->
  @disk_read nat (polled status) fuel lba buffer sector_count m k = None.
Proof.
  change (polled status) with (status_port status).
  intros Hs Hc. unfold disk_read, disk_read_ex. destruct (wait_idle fuel k) as [k'|]; [|done].
  cbn [mbind option_bind]. destruct (Z.to_nat sector_count) as [|j] eqn:E; [lia|]. cbn [read_sectors].
  by rewrite read_sector_error.
Qed.

(** ** A drive

    Busy for [latency] polls after a command and after each sector. *)
Section Simulation.
Variable latency : nat.

Definition sim_cap (d : drive_view) : drive_view :=
  mkView (fun s => List.map u8 (resize 512 0 (sectors d s))) (regs d) (pending d) (Nat.min (busy d) latency).

Definition sim_status (d : drive_view) : Z :=
  match busy d with
  | O => match pending d with [] => 0x40 | _ => 0x48 end
  | S _ => 0x80
  end.

#[local] Instance sim_port : AtaPort drive_view := {|
  inb := fun port d => (sim_status (sim_cap d), mkView (sectors d) (regs d) (pending d) (Nat.pred (busy (sim_cap d))));
  outb := fun port v d =>
    if port =? ATA_PRIMARY_CTRL then mkView (sectors d) (regs d) [] latency
    else if port =? ATA_REG_COMMAND then mkView (sectors d) (regs d) (seqZ (reg_lba (regs d)) (reg_count (regs d))) latency
    else mkView (sectors d) (fun p => if p =? port then v else regs d p) (pending d) (busy d);
  insw := fun port count d =>
    match pending d with
    | [] => ([], d)
    | s :: rest => (sectors (sim_cap d) s, mkView (sectors d) (regs d) rest latency)
    end
|}.

#[local] Instance sim_drive : AtaDrive drive_view latency.
Proof.
  refine {| view := sim_cap |}.
  - intros d. apply Nat.le_min_r.
  - intros d lba. cbn [sim_cap sectors]. rewrite length_map, length_resize. split; [done|].
    apply list.Forall_forall. intros x Hx. apply list_elem_of_In, in_map_iff in Hx as (y & <- & _). apply u8_is_u8.
  - intros d port st d' _ [= <- <-]. cbn [sim_cap sectors regs pending busy]. unfold sim_status. cbn [busy pending sim_cap].
    destruct (Nat.min (busy d) latency) as [|k] eqn:E; cbn [Nat.pred Nat.min].
    + destruct (pending d); done.
    + repeat (split; [done|]). split; [lia|done].
  - intros d port v Hp Hb Hq. cbn [outb sim_port sim_cap pending busy sectors regs] in *.
    rewrite (proj2 (Z.eqb_neq port ATA_PRIMARY_CTRL)), (proj2 (Z.eqb_neq port ATA_REG_COMMAND)).
    2-3: unfold is_register, ATA_REG_SECCOUNT, ATA_REG_DEVICE, ATA_PRIMARY_CTRL, ATA_REG_COMMAND in *; lia.
    unfold sim_cap. cbn [sectors regs pending busy]. by rewrite Hq, Hb.
  - intros d v. done.
  - intros d Hb Hq Hm. done.
  - intros d s rest data d' Hb Hp. cbn [sim_cap pending] in Hp. cbn [insw sim_port]. rewrite Hp. by intros [= <- <-].
Defined.

End Simulation.

(** A disk whose sector [s] is filled with the byte [s]. *)
Definition sample_drive : drive_view := mkView (fun s => replicate 512 s) (fun _ => 0) [] 0.

Lemma disk_read_delivers_witness :
  exists m' d', @disk_read drive_view (sim_port 3) 3 7 0x1000 2 ∅ sample_drive = Some (m', d') /\
    ld8 m' 0x1205 = 8.
Proof.
  destruct (@disk_read_delivers drive_view (sim_port 3) 3 (sim_drive 3) 7 0x1000 2 ∅ sample_drive)
    as (m' & d' & E & H & _); [lia|reflexivity|unfold is_u32; lia|lia|lia|lia|].
  exists m', d'. split; [exact E|]. specialize (H 1 5 ltac:(lia) ltac:(lia)). exact H.
Defined.

Lemma ata_init_finds_drive_witness :
  exists d', @ata_init drive_view (sim_port 3) sample_drive = (true, d').
Proof.
  destruct (@ata_init_finds_drive drive_view (sim_port 3) 3 (sim_drive 3) sample_drive) as (d' & E & _); [lia|].
  exists d'. exact E.
Defined.

Lemma ata_init_timeouts_inverted_witness :
  exists k, @ata_init nat (polled (fun _ => ATA_SR_BSY)) 0%nat = (true, k).
Proof.
  destruct (ata_init_timeouts_inverted (fun _ => ATA_SR_BSY)) as [H _].
  destruct (H (fun i => eq_refl)) as (k & E & _). exists k. exact E.
Defined.

Lemma disk_read_error_hangs_witness :
  @disk_read nat (polled (fun _ => 0x41)) 5 0 0x1000 1 ∅ 0%nat = None.
Proof. apply disk_read_error_hangs; [intros i; reflexivity|lia]. Defined.

#[global] Opaque sector_timeout ata_timeout.
End Disk.
