(* ===== verification/Ext2.v ===== *)
(** * Reading the ext2 file system: fs/disk_io.c, fs/inode.c, arch/load.c

    The run-time parameters of the file system are a record, structures on disk
    are read through their byte offsets (include/ext2.h), and memory is the
    byte-addressed memory of the kernel, so that a copy that is longer than the
    structure it fills shows what it overwrites.  A result [None] is a run that
    does not return: the endless loops of the code, or a division by zero. *)

From Stdlib Require Import ZifyBool.
From S2P Require Import Prelude Cmem Block.
Local Open Scope Z_scope.

Module Ext2.

(** The fields of [struct ext2_superblock] that are read. *)
Definition s_inodes_count (m : mem) (sb : Z) : Z := ld32 m sb.
Definition s_first_data_block (m : mem) (sb : Z) : Z := ld32 m (sb + 20).
Definition s_log_block_size (m : mem) (sb : Z) : Z := ld32 m (sb + 24).
Definition s_magic (m : mem) (sb : Z) : Z := ld16 m (sb + 56).
Definition s_rev_level (m : mem) (sb : Z) : Z := ld32 m (sb + 76).
Definition s_inode_size (m : mem) (sb : Z) : Z := ld16 m (sb + 88).

(** [struct ext2_group_desc] and [struct ext2_inode]. *)
Definition bg_inode_table (m : mem) (gdt : Z) : Z := ld32 m (gdt + 8).
Definition sizeof_ext2_inode : Z := 128.
Definition i_mode (m : mem) (ino : Z) : Z := ld16 m ino.
Definition i_size (m : mem) (ino : Z) : Z := ld32 m (ino + 4).
Definition i_block (m : mem) (ino i : Z) : Z := ld32 m (ino + 40 + 4 * i).

(** The master boot record. *)
Definition mbr_signature (m : mem) (mbr : Z) : Z := ld16 m (mbr + 510).
Definition partition_type (m : mem) (mbr i : Z) : Z := ld8 m (mbr + 446 + 16 * i + 4).
Definition start_lba (m : mem) (mbr i : Z) : Z := ld32 m (mbr + 446 + 16 * i + 8).

(** The globals of fs_runtime.h. *)
Record fs_runtime := mkFs {
  g_block_size : Z;
  g_inode_size : Z;
  g_inodes_per_block : Z;
  ext2_start_lba : Z
}.

(** Their values before the file system is found. *)
Definition fs_boot : fs_runtime := mkFs 1024 128 0 0.

Definition set_start_lba (lba : Z) (g : fs_runtime) : fs_runtime :=
  mkFs (g_block_size g) (g_inode_size g) (g_inodes_per_block g) lba.

(** The loop over the four partitions, from the [i]-th on. *)
Fixpoint find_partition (n : nat) (i mbr : Z) (m : mem) : option Z :=
  match n with
  | O => None
  | S n' => if partition_type m mbr i =? 0x83 then Some (start_lba m mbr i)
            else find_partition n' (i + 1) mbr m
  end.

(** [fs_init].  [1024 << n] is the shift of the i386, which uses the low five
    bits of the count; a division by zero does not return. *)
Definition fs_init (sb : Z) (m : mem) (g : fs_runtime) : option fs_runtime :=
  let bs := u32 (Z.shiftl 1024 (s_log_block_size m sb mod 32)) in
  let isz := if 1 <=? s_rev_level m sb then s_inode_size m sb else 128 in
  if isz =? 0 then None else Some (mkFs bs isz (bs / isz) (ext2_start_lba g)).

Section Runtime.
Context {D : Type} `{BlockDevice D}.

Definition probe_ext2_partition (mbr_buffer : Z) (g : fs_runtime) (m : mem) (d : D)
  : option (fs_runtime * mem * D) :=
  '(m, d) ← disk_read 0 mbr_buffer 1 m d;
  let found := if mbr_signature m mbr_buffer =? 0xAA55 then find_partition 4 0 mbr_buffer m else None in
  Some (set_start_lba (default 0 found) g, m, d).

Definition read_fs_block (g : fs_runtime) (block_id buf : Z) (m : mem) (d : D) : option (mem * D) :=
  if 0x100000 <? block_id then None
  else
    let sectors := g_block_size g / 512 in
    let lba := u32 (block_id * sectors) in
    disk_read (u32 (ext2_start_lba g + lba)) buf sectors m d.

(** [read_inode], with the address of its buffer; the loop that copies the
    inode is the ascending copy of memcpy. *)
Definition read_inode (safe_inode_buf : Z) (g : fs_runtime) (inode_num sb gdt out_inode : Z) (m : mem) (d : D)
  : option (mem * D) :=
  if (inode_num =? 0) || (s_inodes_count m sb <? inode_num) then Some (m, d)
  else
    let local_inode_idx := inode_num - 1 in
    let inode_size := g_inode_size g in
    if inode_size =? 0 then None
    else
      let inodes_per_block := g_block_size g / inode_size in
      if inodes_per_block =? 0 then None
      else
        let block_num := u32 (bg_inode_table m gdt + local_inode_idx / inodes_per_block) in
        let offset := u32 ((local_inode_idx mod inodes_per_block) * inode_size) in
        '(m, d) ← read_fs_block g block_num safe_inode_buf m d;
        Some (copy_up (Z.to_nat inode_size) out_inode (safe_inode_buf + offset) m, d).

(** *** arch/load.c *)

(** The body of both loops: a hole is filled with zeros. *)
Definition load_block (g : fs_runtime) (block current_ptr : Z) (m : mem) (d : D) : option (mem * D) :=
  if block =? 0 then Some (memset current_ptr 0 (g_block_size g) m, d)
  else read_fs_block g block current_ptr m d.

(** The loops: block [i] is read at [ptrs + 4 * i], where the memory has it at
    that moment; [n] blocks are left. *)
Fixpoint load_blocks (g : fs_runtime) (n : nat) (ptrs i current_ptr : Z) (m : mem) (d : D) : option (mem * D) :=
  match n with
  | O => Some (m, d)
  | S n' =>
      '(m, d) ← load_block g (ld32 m (ptrs + 4 * i)) current_ptr m d;
      load_blocks g n' ptrs (i + 1) (u32 (current_ptr + g_block_size g)) m d
  end.

(** [load_file_to_memory], with the addresses of its local variables [inode]
    and [indirect_block]. *)
Definition load_file_to_memory (safe_inode_buf g_sb fs_gdt inode indirect_block : Z) (g : fs_runtime)
  (inode_num dest_addr : Z) (m : mem) (d : D) : option (bool * mem * D) :=
  '(m, d) ← read_inode safe_inode_buf g inode_num g_sb fs_gdt inode m d;
  if g_block_size g =? 0 then None
  else
    let total_blocks := u32 (u32 (i_size m inode + g_block_size g) - 1) / g_block_size g in
    if i_size m inode =? 0 then Some (false, m, d)
    else
      let direct := Z.min total_blocks 12 in
      '(m, d) ← load_blocks g (Z.to_nat direct) (inode + 40) 0 dest_addr m d;
      if direct <? total_blocks then
        if i_block m inode 12 =? 0 then Some (false, m, d)
        else if 4096 <? g_block_size g then Some (false, m, d)
        else
          '(m, d) ← read_fs_block g (i_block m inode 12) indirect_block m d;
          let indirect_count := g_block_size g / 4 in
          let n := Z.min indirect_count (total_blocks - direct) in
          '(m, d) ← load_blocks g (Z.to_nat n) indirect_block 0 (u32 (dest_addr + direct * g_block_size g)) m d;
          Some (negb (direct + n <? total_blocks), m, d)
      else Some (true, m, d).

(** *** Mounting: the part of [kmain] from line 753 on *)

Inductive mount_result :=
| Mounted          (** the kernel goes on to user mode *)
| NotDirectory     (** panic: the root inode is not a directory *)
| NotExt2.         (** panic: no ext2 magic number *)

(** The addresses of the buffers of [kmain] and of what it calls. *)
Record mount_buffers := mkBuffers {
  mbr_buffer : Z; sb_buffer : Z; gdt_buffer : Z; safe_inode_buf : Z; root_inode : Z
}.

Definition mount (b : mount_buffers) (g : fs_runtime) (m : mem) (d : D)
  : option (mount_result * fs_runtime * mem * D) :=
  '(g, m, d) ← probe_ext2_partition (mbr_buffer b) g m d;
  '(m, d) ← disk_read (u32 (ext2_start_lba g + 2)) (sb_buffer b) 2 m d;
  if s_magic m (sb_buffer b) =? 0xEF53 then
    g ← fs_init (sb_buffer b) m g;
    let fs_gdt_block_id := u32 (s_first_data_block m (sb_buffer b) + 1) in
    '(m, d) ← read_fs_block g fs_gdt_block_id (gdt_buffer b) m d;
    let table := bg_inode_table m (gdt_buffer b) in
    if (table =? 0) || (0x10000 <? table) then None
    else
      '(m, d) ← read_inode (safe_inode_buf b) g 2 (sb_buffer b) (gdt_buffer b) (root_inode b) m d;
      Some (if Z.land (i_mode m (root_inode b)) 0xF000 =? 0x4000 then Mounted else NotDirectory, g, m, d)
  else Some (NotExt2, g, m, d).

End Runtime.

(** ** The file system on the disk *)

Definition le16 (src : Z -> Z) (x : Z) : Z := src x + 256 * src (x + 1).
Definition le32 (src : Z -> Z) (x : Z) : Z :=
  src x + 256 * (src (x + 1) + 256 * (src (x + 2) + 256 * src (x + 3))).

Section Image.
Variable g : fs_runtime.
Variable disk : Z -> Z.
Abbreviation bs := (g_block_size g).
Abbreviation isz := (g_inode_size g).

(** Parameters that the driver can work with: the usual block sizes, inodes
    that fill their blocks, and a partition whose blocks have 28-bit sectors. *)
Record fs_ok : Prop := {
  fo_bs : bs = 1024 \/ bs = 2048 \/ bs = 4096;
  fo_isz : 128 <= isz;
  fo_div : bs mod isz = 0;
  fo_start : 0 <= ext2_start_lba g /\ ext2_start_lba g + 8 * 0x100001 <= 2 ^ 28
}.

(** The [x]-th byte of the partition. *)
Definition part (x : Z) : Z := disk (512 * ext2_start_lba g + x).

(** Where inode [num] of an inode table at block [table] is. *)
Definition inode_pos (table num : Z) : Z := table * bs + (num - 1) * isz.

(** Byte [i] of block [p] of a file; block 0 is a hole. *)
Definition block_byte (p i : Z) : Z := if p =? 0 then 0 else part (p * bs + i).

(** The block of the [b]-th block of the file with the inode at [pos]. *)
Definition indirect_of (pos : Z) : Z := le32 part (pos + 88).
Definition file_ptr (pos b : Z) : Z :=
  if b <? 12 then le32 part (pos + 40 + 4 * b) else le32 part (indirect_of pos * bs + 4 * (b - 12)).

Definition file_size (pos : Z) : Z := le32 part (pos + 4).
Definition file_byte (pos k : Z) : Z := block_byte (file_ptr pos (k / bs)) (k mod bs).

(** The number of blocks that the inode and its indirect block can name. *)
Definition max_blocks (pos : Z) : Z := if indirect_of pos =? 0 then 12 else 12 + bs / 4.

Definition file_blocks (pos : Z) : Z := (file_size pos + bs - 1) / bs.
End Image.

Lemma ld32_filled src x buf n m m' a i :
  filled src x buf n m m' -> a = buf + i -> 0 <= i -> i + 4 <= n -> ld32 m' a = le32 src (x + i).
Proof.
  intros Hf -> Hi Hn. unfold ld32, le32.
  rewrite <- !Z.add_assoc, !(filled_in _ _ _ _ _ _ _ Hf) by lia. by rewrite !Z.add_assoc.
Qed.

Lemma le32_u32 src x : (forall y, is_u8 (src y)) -> is_u32 (le32 src x).
Proof.
  intros Hs. unfold le32, is_u32.
  pose proof (Hs x). pose proof (Hs (x + 1)). pose proof (Hs (x + 2)). pose proof (Hs (x + 3)). unfold is_u8 in *. lia.
Qed.

Section Reading.
Context {D : Type} `{BlockDevice D} `{!BlockDeviceLaws D}.
Variable g : fs_runtime.
Variable disk : Z -> Z.
Abbreviation bs := (g_block_size g).
Abbreviation isz := (g_inode_size g).
Hypothesis G : fs_ok g.

Lemma bs_sectors : exists k, bs = 512 * k /\ 2 <= k <= 8.
Proof. destruct (fo_bs g G) as [-> |[-> | ->]]; [exists 2|exists 4|exists 8]; lia. Qed.

Lemma isz_blocks : exists k, bs = k * isz /\ 0 < k /\ bs / isz = k.
Proof.
  pose proof (fo_isz g G). exists (bs / isz). destruct bs_sectors as (j & Hj & Hk).
  assert (E : bs = bs / isz * isz) by (rewrite (Z.div_mod bs isz) at 1 by lia; rewrite (fo_div g G); lia).
  split; [done|split; [nia|done]].
Qed.

Lemma read_fs_block_ok id buf m (d : D) :
  holds disk d -> 0 <= id <= 0x100000 -> 0 <= buf -> buf + bs <= 2 ^ 32 ->
  exists m' d', read_fs_block g id buf m d = Some (m', d') /\ holds disk d' /\
    filled (part g disk) (id * bs) buf bs m m'.
Proof.
  intros Hd Hid Hb Hw. destruct bs_sectors as (k & Ek & Hk). destruct (fo_start g G) as [Hs1 Hs2].
  unfold read_fs_block. rewrite (proj2 (Z.ltb_ge 0x100000 id)) by lia.
  replace (bs / 512) with k by (rewrite Ek; mlia).
  rewrite (u32_small (id * k)), u32_small by nia.
  destruct (disk_read_law disk d (ext2_start_lba g + id * k) buf k m) as (m' & d' & E & H1 & H2); try done; try nia.
  exists m', d'. split; [done|]. split; [done|].
  unfold part. replace (bs) with (512 * k) by lia. apply filled_shift.
  by replace (512 * ext2_start_lba g + id * (512 * k)) with (512 * (ext2_start_lba g + id * k)) by lia.
Qed.

(** The block and the offset that the code computes for an inode. *)
Lemma inode_location table num :
  0 <= table -> 1 <= num ->
  let k := bs / isz in
  (table + (num - 1) / k) * bs + (num - 1) mod k * isz = inode_pos g table num /\
  0 <= (num - 1) mod k * isz /\ (num - 1) mod k * isz + isz <= bs.
Proof.
  intros Ht Hn k. destruct isz_blocks as (j & Ej & Hj & Ek). subst k. rewrite Ek. unfold inode_pos.
  pose proof (fo_isz g G). pose proof (Z.div_mod (num - 1) j ltac:(lia)) as Hdm.
  pose proof (Z.mod_pos_bound (num - 1) j ltac:(lia)) as Hm. split; [rewrite Ej; nia|]. rewrite Ej. nia.
Qed.

Section Inode.
Variables (safe_inode_buf sb gdt out_inode : Z).
Hypothesis Hsafe : 0 < safe_inode_buf /\ safe_inode_buf + bs <= 2 ^ 32.
Hypothesis Hout : out_inode + isz <= safe_inode_buf \/ safe_inode_buf + bs <= out_inode.

(** What reading an inode may write. *)
Definition inode_area (a : Z) : Prop :=
  safe_inode_buf <= a < safe_inode_buf + bs \/ out_inode <= a < out_inode + isz.

Lemma read_inode_ok num m (d : D) :
  holds disk d -> mem_wf m -> 1 <= num <= s_inodes_count m sb ->
  let table := bg_inode_table m gdt in
  table + (num - 1) / (bs / isz) <= 0x100000 ->
  exists m' d', read_inode safe_inode_buf g num sb gdt out_inode m d = Some (m', d') /\ holds disk d' /\ mem_wf m' /\
    (forall i, 0 <= i < isz -> ld8 m' (out_inode + i) = part g disk (inode_pos g table num + i)) /\
    same_outside inode_area m m'.
Proof.
  intros Hd Hm Hn table Ht.
  assert (H0 : is_u32 table) by (by apply ld32_u32). unfold is_u32 in H0.
  destruct (inode_location table num) as (E1 & E2 & E3); [lia|lia|].
  destruct isz_blocks as (j & Ej & Hj & Ek). destruct bs_sectors as (jj & Ejj & Hjj).
  pose proof (fo_isz g G) as Hi. unfold read_inode.
  rewrite (proj2 (Z.eqb_neq num 0)), (proj2 (Z.ltb_ge _ num)) by lia. cbn [orb].
  rewrite (proj2 (Z.eqb_neq isz 0)), (proj2 (Z.eqb_neq (bs / isz) 0)) by lia.
  fold table. set (q := (num - 1) / (bs / isz)) in *. set (off := (num - 1) mod (bs / isz) * isz) in *.
  assert (Hq : 0 <= q) by (subst q; apply Z.div_pos; lia).
  rewrite (u32_small (table + q)), (u32_small off) by lia.
  destruct (read_fs_block_ok (table + q) safe_inode_buf m d) as (m1 & d1 & E & Hd1 & Hf); try done; try lia.
  rewrite (bind_some _ _ _ E).
  assert (Hm1 : mem_wf m1) by (eapply filled_wf; [exact Hf|intros y; apply (holds_bytes disk d1 Hd1)|done]).
  eexists _, d1. split; [reflexivity|]. split; [done|]. split; [by apply copy_up_wf|]. split.
  - intros i Hii. rewrite copy_up_ld8, Z2Nat.id by (done || lia).
    rewrite (proj2 (Z.leb_le _ _)), (proj2 (Z.ltb_lt (out_inode + i) _)) by lia. cbn [andb].
    replace (safe_inode_buf + off + (out_inode + i - out_inode)) with (safe_inode_buf + (off + i)) by lia.
    rewrite (filled_in _ _ _ _ _ _ _ Hf) by lia. f_equal. lia.
  - intros a Ha. rewrite copy_up_ld8, Z2Nat.id by (done || lia). unfold inode_area in Ha.
    case_cond; [lia|]. apply (filled_out _ _ _ _ _ _ _ Hf). lia.
Qed.

End Inode.

(** *** Loading files *)

Lemma load_block_ok p buf m (d : D) :
  holds disk d -> 0 <= p <= 0x100000 -> 0 <= buf -> buf + bs <= 2 ^ 32 ->
  exists m' d', load_block g p buf m d = Some (m', d') /\ holds disk d' /\
    filled (block_byte g disk p) 0 buf bs m m'.
Proof.
  intros Hd Hp Hb Hw. destruct bs_sectors as (k & Ek & Hk). unfold load_block, block_byte.
  destruct (Z.eqb_spec p 0) as [->|Hne].
  - eexists _, d. split; [reflexivity|]. split; [done|]. intros a. by rewrite memset_ld8 by lia.
  - destruct (read_fs_block_ok p buf m d) as (m' & d' & E & Hd' & Hf); try done.
    exists m', d'. split; [done|]. split; [done|]. apply filled_shift. by rewrite Z.add_0_r.
Qed.

(** The pointers at [ptrs] lie outside the buffer that is filled. *)
Lemma load_blocks_ok n ptrs i cur m (d : D) :
  holds disk d -> mem_wf m -> 0 <= i -> 0 < cur -> cur + Z.of_nat n * bs < 2 ^ 32 ->
  (forall j, i <= j < i + Z.of_nat n -> ld32 m (ptrs + 4 * j) <= 0x100000) ->
  (forall x, ptrs <= x < ptrs + 4 * (i + Z.of_nat n) -> ~ (cur <= x < cur + Z.of_nat n * bs)) ->
  exists m' d', load_blocks g n ptrs i cur m d = Some (m', d') /\ holds disk d' /\
    filled (fun k => block_byte g disk (ld32 m (ptrs + 4 * (i + k / bs))) (k mod bs)) 0 cur (Z.of_nat n * bs) m m'.
Proof.
  intros Hd Hm Hi Hc Hw Hp Hdis. destruct bs_sectors as (kk & Ek & Hk).
  revert i cur m d Hd Hm Hi Hc Hw Hp Hdis. induction n as [|n IH]; intros i cur m d Hd Hm Hi Hc Hw Hp Hdis; cbn [load_blocks].
  - exists m, d. split; [done|]. split; [done|]. intros a. case_cond; [lia|done].
  - replace (Z.of_nat (S n) * bs) with (Z.of_nat n * bs + bs) in * by lia.
    assert (Hx : forall j, i <= j < i + Z.of_nat (S n) -> is_u32 (ld32 m (ptrs + 4 * j))) by (intros; by apply ld32_u32).
    destruct (load_block_ok (ld32 m (ptrs + 4 * i)) cur m d) as (m1 & d1 & E & Hd1 & Hf1); try done; try lia.
    { specialize (Hx i). specialize (Hp i). unfold is_u32 in Hx. lia. }
    rewrite (bind_some _ _ _ E). rewrite u32_small by lia.
    assert (Hm1 : mem_wf m1).
    { eapply filled_wf; [exact Hf1| |done]. intros y. unfold block_byte. case_match; [done|apply (holds_bytes disk d1 Hd1)]. }
    assert (Hptr : forall j, i <= j < i + Z.of_nat (S n) -> ld32 m1 (ptrs + 4 * j) = ld32 m (ptrs + 4 * j)).
    { intros j Hj. apply ld32_same. intros x Hx'. apply (filled_out _ _ _ _ _ _ _ Hf1).
      specialize (Hdis x). lia. }
    destruct (IH (i + 1) (cur + bs) m1 d1) as (m2 & d2 & E2 & Hd2 & Hf2); try done; try lia.
    + intros j Hj. rewrite Hptr by lia. apply Hp. lia.
    + intros x Hx'. specialize (Hdis x). lia.
    + exists m2, d2. split; [done|]. split; [done|]. intros a. rewrite Hf2. case_cond.
      * replace ((cur <=? a) && (a <? cur + (Z.of_nat n * bs + bs))) with true by lia.
        replace (0 + (a - cur)) with (0 + (a - (cur + bs)) + 1 * bs) by lia.
        rewrite Z.div_add, Z.mod_add by lia. rewrite Hptr.
        -- by replace (i + ((0 + (a - (cur + bs))) / bs + 1)) with (i + 1 + (0 + (a - (cur + bs))) / bs) by lia.
        -- assert (0 <= (0 + (a - (cur + bs))) / bs < Z.of_nat n); [|lia].
           split; [apply Z.div_pos; lia|apply Z.div_lt_upper_bound; lia].
      * rewrite Hf1. case_cond.
        -- replace ((cur <=? a) && (a <? cur + (Z.of_nat n * bs + bs))) with true by lia.
           by rewrite Z.div_small, Z.mod_small, Z.add_0_r by lia.
        -- by replace ((cur <=? a) && (a <? cur + (Z.of_nat n * bs + bs))) with false by lia.
Qed.

(** The fields of an inode that has been read. *)
Lemma inode_fields ino pos m :
  (forall i, 0 <= i < isz -> ld8 m (ino + i) = part g disk (pos + i)) ->
  i_size m ino = file_size g disk pos /\
  i_block m ino 12 = indirect_of g disk pos /\
  (forall b, 0 <= b < 12 -> ld32 m (ino + 40 + 4 * b) = file_ptr g disk pos b).
Proof.
  intros Hi. pose proof (fo_isz g G) as Hz.
  assert (Hw : forall o, 0 <= o -> o + 4 <= 128 -> ld32 m (ino + o) = le32 (part g disk) (pos + o)).
  { intros o H1 H2. unfold ld32, le32. rewrite <- !Z.add_assoc, !Hi by lia. done. }
  unfold i_size, i_block, file_size, indirect_of, file_ptr. split; [by apply Hw|]. split.
  - change (4 * 12) with 48. rewrite <- Z.add_assoc. by apply Hw.
  - intros b Hb. rewrite (proj2 (Z.ltb_lt b 12)), <- !Z.add_assoc by lia. apply Hw; lia.
Qed.

Lemma inode_fields_same ino pos m m' :
  (forall i, 0 <= i < isz -> ld8 m (ino + i) = part g disk (pos + i)) ->
  (forall i, 0 <= i < isz -> ld8 m' (ino + i) = ld8 m (ino + i)) ->
  forall i, 0 <= i < isz -> ld8 m' (ino + i) = part g disk (pos + i).
Proof. intros H1 H2 i Hi. by rewrite H2, H1. Qed.

Lemma file_ptr_u32 (d : D) pos b : holds disk d -> is_u32 (file_ptr g disk pos b).
Proof.
  intros Hd. unfold file_ptr. case_match; apply le32_u32; intros y; apply (holds_bytes disk d Hd).
Qed.

(** The bytes [k] of the file from [lo] on to [hi] are in place. *)
Definition loaded (pos dest lo hi : Z) (m : mem) : Prop :=
  forall k, lo <= k < hi -> ld8 m (dest + k) = file_byte g disk pos k.

Lemma load_direct ino pos dest n m (d : D) :
  holds disk d -> mem_wf m ->
  (forall i, 0 <= i < isz -> ld8 m (ino + i) = part g disk (pos + i)) ->
  0 <= n <= 12 -> 0 < dest -> dest + n * bs < 2 ^ 32 ->
  ino + isz <= dest \/ dest + n * bs <= ino ->
  (forall b, 0 <= b < n -> file_ptr g disk pos b <= 0x100000) ->
  exists m' d', load_blocks g (Z.to_nat n) (ino + 40) 0 dest m d = Some (m', d') /\ holds disk d' /\ mem_wf m' /\
    loaded pos dest 0 (n * bs) m' /\ same_outside (fun a => dest <= a < dest + n * bs) m m'.
Proof.
  intros Hd Hm Hi Hn Hdest Hw Hdis Hp. pose proof (fo_isz g G) as Hz. destruct bs_sectors as (kk & Ek & Hk).
  destruct (inode_fields ino pos m Hi) as (_ & _ & Hb).
  destruct (load_blocks_ok (Z.to_nat n) (ino + 40) 0 dest m d) as (m' & d' & E & Hd' & Hf);
    rewrite ?Z2Nat.id by lia; try done; try lia.
  { intros j Hj. rewrite Hb by lia. apply Hp. lia. }
  rewrite Z2Nat.id in Hf by lia.
  exists m', d'. split; [done|]. split; [done|]. split; [|split; [|by apply filled_same in Hf]].
  - eapply filled_wf; [exact Hf| |done]. intros y. unfold block_byte. case_match; [done|apply (holds_bytes disk d Hd)].
  - intros k Hkk. rewrite (filled_in _ _ _ _ _ _ _ Hf) by lia. unfold file_byte. cbn beta.
    assert (0 <= k / bs < n) by (split; [apply Z.div_pos; lia|apply Z.div_lt_upper_bound; lia]).
    by rewrite !Z.add_0_l, Hb by lia.
Qed.

Lemma load_indirect ib pos dest n m (d : D) :
  holds disk d -> mem_wf m -> indirect_of g disk pos <= 0x100000 ->
  0 <= n <= bs / 4 -> 0 < ib -> ib + bs <= 2 ^ 32 -> 0 < dest -> dest + (12 + n) * bs < 2 ^ 32 ->
  ib + bs <= dest \/ dest + (12 + n) * bs <= ib ->
  (forall b, 12 <= b < 12 + n -> file_ptr g disk pos b <= 0x100000) ->
  exists m1 d1 m' d', read_fs_block g (indirect_of g disk pos) ib m d = Some (m1, d1) /\
    load_blocks g (Z.to_nat n) ib 0 (u32 (dest + 12 * bs)) m1 d1 = Some (m', d') /\
    holds disk d' /\ loaded pos dest (12 * bs) ((12 + n) * bs) m' /\
    same_outside (fun a => ib <= a < ib + bs \/ dest + 12 * bs <= a < dest + (12 + n) * bs) m m'.
Proof.
  intros Hd Hm Hind Hn Hib Hibw Hdest Hw Hdis Hp. destruct bs_sectors as (kk & Ek & Hk).
  rewrite Z.mul_add_distr_r in *. assert (Hnb : 0 <= n * bs) by (apply Z.mul_nonneg_nonneg; lia).
  assert (Hiu : is_u32 (indirect_of g disk pos)) by (apply le32_u32; intros y; apply (holds_bytes disk d Hd)).
  destruct (read_fs_block_ok (indirect_of g disk pos) ib m d) as (m1 & d1 & E1 & Hd1 & Hf1); try done; [by split; [apply Hiu|]|lia|].
  assert (Hm1 : mem_wf m1) by (eapply filled_wf; [exact Hf1|intros y; apply (holds_bytes disk d Hd)|done]).
  assert (H4 : bs / 4 * 4 = bs) by (rewrite Ek; mlia).
  assert (Hptr : forall j, 0 <= j < n -> ld32 m1 (ib + 4 * j) = file_ptr g disk pos (12 + j)).
  { intros j Hj. rewrite (ld32_filled _ _ _ _ _ _ _ (4 * j) Hf1) by lia. unfold file_ptr.
    rewrite (proj2 (Z.ltb_ge (12 + j) 12)) by lia. f_equal. lia. }
  rewrite u32_small by lia.
  destruct (load_blocks_ok (Z.to_nat n) ib 0 (dest + 12 * bs) m1 d1) as (m' & d' & E & Hd' & Hf);
    rewrite ?Z2Nat.id by lia; try done; try lia.
  { intros j Hj. rewrite Hptr by lia. apply Hp. lia. }
  rewrite Z2Nat.id in Hf by lia.
  exists m1, d1, m', d'. split; [done|]. split; [done|]. split; [done|]. split.
  - intros k Hkk. replace (dest + k) with (dest + 12 * bs + (k - 12 * bs)) by lia.
    rewrite (filled_in _ _ _ _ _ _ _ Hf) by lia. cbn beta. rewrite !Z.add_0_l. unfold file_byte.
    replace k with (k - 12 * bs + 12 * bs) at 3 4 by lia. rewrite Z.div_add, Z.mod_add by lia.
    assert (0 <= (k - 12 * bs) / bs < n) by (split; [apply Z.div_pos; lia|apply Z.div_lt_upper_bound; lia]).
    rewrite Hptr by lia. by rewrite (Z.add_comm 12).
  - intros a Ha. rewrite (filled_out _ _ _ _ _ _ _ Hf), (filled_out _ _ _ _ _ _ _ Hf1) by lia. done.
Qed.

(** Where the buffers of a load are. *)
Record load_layout (safe_inode_buf ino ib dest len : Z) : Prop := {
  ll_safe : 0 < safe_inode_buf /\ safe_inode_buf + bs <= 2 ^ 32;
  ll_inode : ino + isz <= safe_inode_buf \/ safe_inode_buf + bs <= ino;
  ll_indirect : 0 < ib /\ ib + bs <= 2 ^ 32;
  ll_dest : 0 < dest /\ dest + len < 2 ^ 32;
  ll_dest_inode : ino + isz <= dest \/ dest + len <= ino;
  ll_dest_indirect : ib + bs <= dest \/ dest + len <= ib
}.

(** What a load may write. *)
Definition load_area (safe_inode_buf ino ib dest len a : Z) : Prop :=
  inode_area safe_inode_buf ino a \/ ib <= a < ib + bs \/ dest <= a < dest + len.

(** The blocks of the file that are loaded, and whether these are all.  For a
    file that ends less than a block below 4 GiB the sum in the count of blocks
    wraps, and no block is loaded at all. *)
Definition loadable (pos : Z) : Z := Z.min (file_blocks g disk pos) (max_blocks g disk pos).
Definition size_wraps (pos : Z) : bool := 2 ^ 32 <? file_size g disk pos + bs.
Definition load_accepts (pos : Z) : bool :=
  negb (file_size g disk pos =? 0) && (size_wraps pos || (file_blocks g disk pos <=? max_blocks g disk pos)).

(** The number of blocks that the code computes. *)
Lemma total_blocks pos :
  is_u32 (file_size g disk pos) ->
  u32 (u32 (file_size g disk pos + bs) - 1) / bs = if size_wraps pos then 0 else file_blocks g disk pos.
Proof.
  unfold is_u32, size_wraps, file_blocks. intros Hs. destruct bs_sectors as (k & Ek & Hk).
  set (s := file_size _ _ _) in *. destruct (Z.ltb_spec (2 ^ 32) (s + bs)) as [Hw|Hw].
  - apply Z.div_small. unfold u32. rewrite <- (Z.mod_add (s + bs) (-1)) by lia. mlia.
  - destruct (decide (s + bs = 2 ^ 32)) as [->|Hne]; [done|]. by rewrite (u32_small (s + bs)), u32_small by lia.
Qed.

Lemma max_blocks_range pos : 12 <= max_blocks g disk pos <= 12 + bs / 4.
Proof.
  destruct bs_sectors as (k & Ek & Hk). pose proof (Z.div_pos bs 4). unfold max_blocks. case_match; lia.
Qed.

Lemma load_file_ok safe_inode_buf g_sb fs_gdt ino ib num dest m (d : D) :
  holds disk d -> mem_wf m -> 1 <= num <= s_inodes_count m g_sb ->
  let table := bg_inode_table m fs_gdt in
  let pos := inode_pos g table num in
  table + (num - 1) / (bs / isz) <= 0x100000 ->
  load_layout safe_inode_buf ino ib dest (loadable pos * bs) ->
  (forall b, 0 <= b < loadable pos -> file_ptr g disk pos b <= 0x100000) ->
  (12 < file_blocks g disk pos -> indirect_of g disk pos <= 0x100000) ->
  exists m' d',
    load_file_to_memory safe_inode_buf g_sb fs_gdt ino ib g num dest m d = Some (load_accepts pos, m', d') /\
    holds disk d' /\
    (load_accepts pos = true -> size_wraps pos = false -> loaded pos dest 0 (file_blocks g disk pos * bs) m') /\
    same_outside (load_area safe_inode_buf ino ib dest (loadable pos * bs)) m m' /\
    (size_wraps pos = true -> same_outside (inode_area safe_inode_buf ino) m m').
Proof.
  intros Hd Hm Hnum table pos Ht [L1 L2 L3 L4 L5 L6] Hp Hind.
  destruct bs_sectors as (kk & Ek & Hk). pose proof (fo_isz g G) as Hz.
  destruct (read_inode_ok safe_inode_buf g_sb fs_gdt ino L1 L2 num m d) as (m1 & d1 & E1 & Hd1 & Hm1 & Hi & Hs1); try done.
  fold table in Hi. fold pos in Hi.
  destruct (inode_fields ino pos m1 Hi) as (Es & Eind & _).
  unfold load_file_to_memory. rewrite (bind_some _ _ _ E1), Es.
  assert (Hsu : is_u32 (file_size g disk pos)) by (apply le32_u32; intros y; apply (holds_bytes disk d Hd)).
  rewrite (total_blocks pos Hsu). unfold is_u32 in Hsu. unfold load_accepts, loadable in *.
  assert (Hs1' : same_outside (load_area safe_inode_buf ino ib dest (Z.min (file_blocks g disk pos) (max_blocks g disk pos) * bs)) m m1).
  { intros a Ha. apply Hs1. unfold load_area in Ha. tauto. }
  destruct (Z.eqb_spec (file_size g disk pos) 0) as [E0|E0]; cbn [negb andb].
  { rewrite (proj2 (Z.eqb_neq bs 0)) by lia. exists m1, d1. done. }
  rewrite (proj2 (Z.eqb_neq bs 0)) by lia. destruct (size_wraps pos) eqn:Ew; cbn [orb].
  { cbn [Z.min Z.compare Z.to_nat load_blocks mbind option_bind]. exists m1, d1. done. }
  set (total := file_blocks g disk pos) in *.
  assert (Htot : 0 < total) by (apply Z.div_str_pos; lia).
  assert (Hmax : 12 <= max_blocks g disk pos <= 12 + bs / 4) by (by apply max_blocks_range).
  assert (Hmul : Z.min total 12 * bs <= Z.min total (max_blocks g disk pos) * bs) by (apply Z.mul_le_mono_nonneg_r; lia).
  destruct (load_direct ino pos dest (Z.min total 12) m1 d1) as (m2 & d2 & E2 & Hd2 & Hm2 & Hl2 & Hs2); try done; try lia.
  { intros b Hb. apply Hp. lia. }
  rewrite (bind_some _ _ _ E2).
  assert (Hi2 : forall i, 0 <= i < isz -> ld8 m2 (ino + i) = part g disk (pos + i)).
  { apply (inode_fields_same ino pos m1 m2 Hi). intros i Hii. apply Hs2. lia. }
  destruct (inode_fields ino pos m2 Hi2) as (_ & Eind2 & _). rewrite Eind2.
  assert (Hs12 : same_outside (load_area safe_inode_buf ino ib dest (Z.min total (max_blocks g disk pos) * bs)) m m2).
  { intros a Ha. unfold load_area in Ha. rewrite Hs2 by lia. apply Hs1. tauto. }
  destruct (Z.ltb_spec (Z.min total 12) total) as [Hlt|Hge].
  2: { rewrite (proj2 (Z.leb_le total _)) by lia. rewrite Z.min_l in Hl2 by lia. exists m2, d2. do 4 (split; [done|]). done. }
  rewrite Z.min_r in * by lia. unfold max_blocks in *.
  destruct (Z.eqb_spec (indirect_of g disk pos) 0) as [Ei|Ei].
  { rewrite (proj2 (Z.leb_gt total 12)) by lia. exists m2, d2. done. }
  rewrite (proj2 (Z.ltb_ge 4096 bs)) by (destruct (fo_bs g G); lia).
  set (n := Z.min (bs / 4) (total - 12)).
  assert (Hn : Z.min total (12 + bs / 4) = 12 + n) by lia. rewrite Hn in *.
  destruct (load_indirect ib pos dest n m2 d2) as (m3 & d3 & m4 & d4 & E3 & E4 & Hd4 & Hl4 & Hs4); try done; try lia.
  { intros b Hb. apply Hp. lia. }
  rewrite (bind_some _ _ _ E3), (bind_some _ _ _ E4).
  exists m4, d4. split; [|split; [done|split; [|split; [|done]]]].
  - do 3 f_equal. destruct (Z.ltb_spec (12 + n) total), (Z.leb_spec total (12 + bs / 4)); done || lia.
  - intros Hacc%Z.leb_le _ k Hk4. replace total with (12 + n) in * by lia.
    destruct (decide (k < 12 * bs)).
    + rewrite Hs4 by lia. apply Hl2. lia.
    + apply Hl4. lia.
  - intros a Ha. unfold load_area in Ha. rewrite Hs4 by lia. by apply Hs12.
Qed.

End Reading.

(** ** Mounting *)

(** The file system that a disk holds: the partition, and the parameters in
    its superblock. *)
Definition mbr_partition (disk : Z -> Z) : option Z :=
  if le16 disk 510 =? 0xAA55 then
    i ← List.find (fun i => disk (446 + 16 * i + 4) =? 0x83) [0; 1; 2; 3];
    Some (le32 disk (446 + 16 * i + 8))
  else None.

Definition disk_start (disk : Z -> Z) : Z := default 0 (mbr_partition disk).
Definition superblock (disk : Z -> Z) (off : Z) : Z := 512 * (disk_start disk + 2) + off.
Definition disk_magic (disk : Z -> Z) : Z := le16 disk (superblock disk 56).
Definition disk_fs (disk : Z -> Z) : fs_runtime :=
  let bs := 1024 * 2 ^ le32 disk (superblock disk 24) in
  let isz := if 1 <=? le32 disk (superblock disk 76) then le16 disk (superblock disk 88) else 128 in
  mkFs bs isz (bs / isz) (disk_start disk).
Definition disk_gdt (disk : Z -> Z) : Z := (le32 disk (superblock disk 20) + 1) * g_block_size (disk_fs disk).
Definition disk_inode_table (disk : Z -> Z) : Z := le32 (part (disk_fs disk) disk) (disk_gdt disk + 8).
Definition disk_inodes (disk : Z -> Z) : Z := le32 disk (superblock disk 0).
Definition root_mode (disk : Z -> Z) : Z :=
  le16 (part (disk_fs disk) disk) (inode_pos (disk_fs disk) (disk_inode_table disk) 2).

(** A disk that holds a file system of the supported kind: with the magic
    number, blocks of at most 4096 bytes that are filled by inodes, a partition
    inside the 28-bit sectors, and the group descriptors where [read_fs_block]
    can read them. *)
Record supported (disk : Z -> Z) : Prop := {
  mt_magic : disk_magic disk = 0xEF53;
  mt_log : le32 disk (superblock disk 24) <= 2;
  mt_ok : fs_ok (disk_fs disk);
  mt_gdt : le32 disk (superblock disk 20) < 0x100000
}.

(** The inode table is where the kernel takes it for valid, and there is a root
    inode. *)
Record mountable (disk : Z -> Z) : Prop := {
  mt_supported : supported disk;
  mt_table : 0 < disk_inode_table disk <= 0x10000;
  mt_inodes : 2 <= disk_inodes disk
}.

(** The buffers are apart from each other. *)
Definition apart (a n b k : Z) : Prop := a + n <= b \/ b + k <= a.
Record buffers_ok (b : mount_buffers) : Prop := {
  bo_mbr : 0 < mbr_buffer b /\ mbr_buffer b + 512 <= 2 ^ 32;
  bo_sb : 0 < sb_buffer b /\ sb_buffer b + 1024 <= 2 ^ 32;
  bo_gdt : 0 < gdt_buffer b /\ gdt_buffer b + 4096 <= 2 ^ 32;
  bo_safe : 0 < safe_inode_buf b /\ safe_inode_buf b + 4096 <= 2 ^ 32;
  bo_sb_gdt : apart (sb_buffer b) 1024 (gdt_buffer b) 4096;
  bo_sb_safe : apart (sb_buffer b) 1024 (safe_inode_buf b) 4096;
  bo_gdt_safe : apart (gdt_buffer b) 4096 (safe_inode_buf b) 4096;
  bo_root_sb : apart (root_inode b) 4096 (sb_buffer b) 1024;
  bo_root_gdt : apart (root_inode b) 4096 (gdt_buffer b) 4096;
  bo_root_safe : apart (root_inode b) 4096 (safe_inode_buf b) 4096
}.

Lemma ld16_filled src x buf n m m' a i :
  filled src x buf n m m' -> a = buf + i -> 0 <= i -> i + 2 <= n -> ld16 m' a = le16 src (x + i).
Proof.
  intros Hf -> Hi Hn. unfold ld16, le16.
  rewrite <- !Z.add_assoc, !(filled_in _ _ _ _ _ _ _ Hf) by lia. by rewrite !Z.add_assoc.
Qed.

(** What mounting may write. *)
Definition mount_area (b : mount_buffers) (x : Z) : Prop :=
  mbr_buffer b <= x < mbr_buffer b + 512 \/ sb_buffer b <= x < sb_buffer b + 1024 \/
  gdt_buffer b <= x < gdt_buffer b + 4096 \/ safe_inode_buf b <= x < safe_inode_buf b + 4096 \/
  root_inode b <= x < root_inode b + 4096.

Section Mounting.
Context {D : Type} `{BlockDevice D} `{!BlockDeviceLaws D}.

Lemma find_partition_spec n i mbr m :
  find_partition n i mbr m =
  (j ← List.find (fun j => partition_type m mbr j =? 0x83) (seqZ i (Z.of_nat n)); Some (start_lba m mbr j)).
Proof.
  revert i. induction n as [|n IH]; intros i; cbn [find_partition]; [done|].
  rewrite seqZ_cons by lia. replace (Z.pred (Z.of_nat (S n))) with (Z.of_nat n) by lia. cbn [List.find].
  destruct (partition_type m mbr i =? 0x83); [done|apply IH].
Qed.

Lemma probe_ok disk mbr g m (d : D) :
  holds disk d -> 0 < mbr -> mbr + 512 <= 2 ^ 32 ->
  exists m' d', probe_ext2_partition mbr g m d = Some (set_start_lba (disk_start disk) g, m', d') /\ holds disk d' /\
    filled disk 0 mbr 512 m m'.
Proof.
  intros Hd H1 H2. unfold probe_ext2_partition.
  destruct (disk_read_law disk d 0 mbr 1 m Hd) as (m' & d' & E & Hd' & Hf); [lia|lia|lia|lia|lia|].
  rewrite (bind_some _ _ _ E). exists m', d'. split; [|done]. do 4 f_equal.
  unfold disk_start, mbr_partition, mbr_signature. change (512 * 0) with 0 in Hf. change (512 * 1) with 512 in Hf.
  rewrite (ld16_filled _ _ _ _ _ _ _ 510 Hf) by lia. rewrite Z.add_0_l.
  destruct (le16 disk 510 =? 0xAA55); [|done].
  rewrite find_partition_spec. change (seqZ 0 (Z.of_nat 4)) with [0; 1; 2; 3].
  assert (Ht : forall j, 0 <= j < 4 -> partition_type m' mbr j = disk (446 + 16 * j + 4) /\
                 start_lba m' mbr j = le32 disk (446 + 16 * j + 8)).
  { intros j Hj. unfold partition_type, start_lba. split.
    - rewrite <- !Z.add_assoc, (filled_in _ _ _ _ _ _ _ Hf) by lia. done.
    - by rewrite (ld32_filled _ _ _ _ _ _ _ (446 + 16 * j + 8) Hf) by lia. }
  rewrite (find_ext_in _ (fun i => disk (446 + 16 * i + 4) =? 0x83)).
  2: { intros j Hj. change (In j (seqZ 0 4)) in Hj; apply list_elem_of_In, elem_of_seqZ in Hj. by rewrite (proj1 (Ht j Hj)). }
  destruct (List.find _ [0; 1; 2; 3]) as [j|] eqn:Ef; [|done].
  apply find_some in Ef as [Hj _]. change (In j (seqZ 0 4)) in Hj; apply list_elem_of_In, elem_of_seqZ in Hj.
  cbn [mbind option_bind default from_option]. apply (Ht j Hj).
Qed.

(** The parameters that [fs_init] computes from the superblock in memory. *)
Lemma fs_init_ok disk sb m m1 g :
  supported disk -> filled disk (superblock disk 0) sb 1024 m m1 -> ext2_start_lba g = disk_start disk ->
  fs_init sb m1 g = Some (disk_fs disk).
Proof.
  intros Hm Hf Eg. pose proof (fo_isz _ (mt_ok disk Hm)) as Hz. pose proof (fo_bs _ (mt_ok disk Hm)) as Hb.
  unfold fs_init, s_log_block_size, s_rev_level, s_inode_size.
  rewrite (ld32_filled _ _ _ _ _ _ (sb + 24) 24 Hf), (ld32_filled _ _ _ _ _ _ (sb + 76) 76 Hf), (ld16_filled _ _ _ _ _ _ (sb + 88) 88 Hf) by lia.
  unfold disk_fs, superblock in *. rewrite !Z.add_0_r. cbn [g_block_size g_inode_size] in Hz, Hb.
  set (log := le32 disk (512 * (disk_start disk + 2) + 24)) in *.
  set (isz := if 1 <=? _ then _ else _) in *. rewrite (proj2 (Z.eqb_neq isz 0)) by lia.
  assert (Hl : 0 <= log).
  { destruct (decide (0 <= log)); [done|]. rewrite (Z.pow_neg_r 2 log) in Hb by lia. lia. }
  pose proof (mt_log disk Hm) as Hlog. unfold superblock in Hlog. fold log in Hlog.
  rewrite Z.mod_small, Z.shiftl_mul_pow2, u32_small, Eg; [done| |lia|lia]. lia.
Qed.

Lemma root_mode_read disk m ino :
  supported disk ->
  (forall i, 0 <= i < g_inode_size (disk_fs disk) ->
     ld8 m (ino + i) = part (disk_fs disk) disk (inode_pos (disk_fs disk) (disk_inode_table disk) 2 + i)) ->
  i_mode m ino = root_mode disk.
Proof.
  intros Hm Hi. pose proof (fo_isz _ (mt_ok disk Hm)) as Hz. unfold i_mode, root_mode, ld16, le16.
  rewrite <- (Z.add_0_r ino) at 1. by rewrite !Hi, Z.add_0_r by lia.
Qed.

(** Reading the superblock, behind the search for the partition. *)
Lemma superblock_ok disk b g m (d : D) :
  holds disk d -> buffers_ok b -> 0 <= disk_start disk -> disk_start disk + 4 <= 2 ^ 28 -> ext2_start_lba g = disk_start disk ->
  exists m' d', disk_read (u32 (ext2_start_lba g + 2)) (sb_buffer b) 2 m d = Some (m', d') /\ holds disk d' /\
    filled disk (superblock disk 0) (sb_buffer b) 1024 m m'.
Proof.
  intros Hd Hb H0 H1 ->. pose proof (bo_sb b Hb). rewrite u32_small by lia.
  destruct (disk_read_law disk d (disk_start disk + 2) (sb_buffer b) 2 m) as (m' & d' & E & Hd' & Hf); try done; try lia.
  exists m', d'. split; [done|]. split; [done|]. unfold superblock. by rewrite Z.add_0_r.
Qed.

(** What is written before the root inode is read. *)
Definition header_area (b : mount_buffers) (x : Z) : Prop :=
  mbr_buffer b <= x < mbr_buffer b + 512 \/ sb_buffer b <= x < sb_buffer b + 1024 \/
  gdt_buffer b <= x < gdt_buffer b + 4096.

(** Up to the test of the inode table, with superblock and group descriptor in
    their buffers. *)
Lemma mount_header disk b m (d : D) :
  holds disk d -> mem_wf m -> buffers_ok b -> supported disk ->
  exists m3 d3,
    mount b fs_boot m d =
    (if (disk_inode_table disk =? 0) || (0x10000 <? disk_inode_table disk) then None
     else
       '(m, d) ← read_inode (safe_inode_buf b) (disk_fs disk) 2 (sb_buffer b) (gdt_buffer b) (root_inode b) m3 d3;
       Some (if Z.land (i_mode m (root_inode b)) 0xF000 =? 0x4000 then Mounted else NotDirectory, disk_fs disk, m, d)) /\
    holds disk d3 /\ mem_wf m3 /\
    s_inodes_count m3 (sb_buffer b) = disk_inodes disk /\ bg_inode_table m3 (gdt_buffer b) = disk_inode_table disk /\
    same_outside (header_area b) m m3.
Proof.
  intros Hd Hm Hb Hmt. pose proof (mt_ok disk Hmt) as G. pose proof Hb as [B1 B2 B3 B4 B5 B6 B7 B8 B9 B10].
  set (g := disk_fs disk) in *. pose proof (fo_start g G) as Hst. change (ext2_start_lba g) with (disk_start disk) in Hst.
  assert (Hbs : 1024 <= g_block_size g <= 4096) by (destruct (fo_bs g G); lia). unfold apart in *.
  assert (Hbyte : forall x, is_u8 (disk x)) by apply (holds_bytes disk d Hd).
  unfold mount. destruct (probe_ok disk (mbr_buffer b) fs_boot m d Hd) as (m1 & d1 & E1 & Hd1 & Hf1); [lia|lia|].
  rewrite (bind_some _ _ _ E1). set (g0 := set_start_lba _ fs_boot).
  destruct (superblock_ok disk b g0 m1 d1 Hd1 Hb) as (m2 & d2 & E2 & Hd2 & Hf2); [lia|lia|done|].
  rewrite (bind_some _ _ _ E2).
  assert (Emagic : s_magic m2 (sb_buffer b) = 0xEF53).
  { unfold s_magic. rewrite (ld16_filled _ _ _ _ _ _ _ 56 Hf2) by lia. rewrite <- (mt_magic disk Hmt).
    unfold disk_magic, superblock. f_equal. lia. }
  rewrite Emagic. cbn [Z.eqb Pos.eqb]. rewrite (bind_some _ _ _ (fs_init_ok disk _ _ _ g0 Hmt Hf2 eq_refl)). fold g.
  assert (Egdt : s_first_data_block m2 (sb_buffer b) = le32 disk (superblock disk 20)).
  { unfold s_first_data_block. rewrite (ld32_filled _ _ _ _ _ _ _ 20 Hf2) by lia. unfold superblock. f_equal. lia. }
  rewrite Egdt. pose proof (le32_u32 disk (superblock disk 20) Hbyte) as Hu. unfold is_u32 in Hu.
  pose proof (mt_gdt disk Hmt) as Hg. rewrite u32_small by lia.
  destruct (read_fs_block_ok g disk G (le32 disk (superblock disk 20) + 1) (gdt_buffer b) m2 d2 Hd2)
    as (m3 & d3 & E3 & Hd3 & Hf3); [lia|lia|lia|].
  rewrite (bind_some _ _ _ E3).
  assert (Etab : bg_inode_table m3 (gdt_buffer b) = disk_inode_table disk).
  { unfold bg_inode_table. rewrite (ld32_filled _ _ _ _ _ _ _ 8 Hf3) by lia. done. }
  assert (Ecnt : s_inodes_count m3 (sb_buffer b) = disk_inodes disk).
  { unfold s_inodes_count. rewrite (ld32_same m2) by (intros; apply (filled_out _ _ _ _ _ _ _ Hf3); lia).
    rewrite (ld32_filled _ _ _ _ _ _ _ 0 Hf2) by lia. unfold disk_inodes, superblock. f_equal. lia. }
  exists m3, d3. rewrite Etab. split; [done|]. split; [done|]. split; [|split; [done|split; [done|]]].
  - eapply filled_wf; [exact Hf3|intros y; apply Hbyte|]. eapply filled_wf; [exact Hf2|exact Hbyte|].
    by eapply filled_wf; [exact Hf1|exact Hbyte|].
  - intros x Hx. unfold header_area in Hx.
    by rewrite (filled_out _ _ _ _ _ _ _ Hf3), (filled_out _ _ _ _ _ _ _ Hf2), (filled_out _ _ _ _ _ _ _ Hf1) by lia.
Qed.

Lemma mount_ok disk b m (d : D) :
  holds disk d -> mem_wf m -> buffers_ok b -> mountable disk ->
  exists m' d',
    mount b fs_boot m d
    = Some (if Z.land (root_mode disk) 0xF000 =? 0x4000 then Mounted else NotDirectory, disk_fs disk, m', d') /\
    holds disk d' /\ mem_wf m' /\
    s_inodes_count m' (sb_buffer b) = disk_inodes disk /\ bg_inode_table m' (gdt_buffer b) = disk_inode_table disk /\
    same_outside (mount_area b) m m'.
Proof.
  intros Hd Hm Hb [Hmt Ht Hin]. pose proof (mt_ok disk Hmt) as G. pose proof Hb as [B1 B2 B3 B4 B5 B6 B7 B8 B9 B10].
  destruct (mount_header disk b m d Hd Hm Hb Hmt) as (m3 & d3 & E & Hd3 & Hm3 & Ecnt & Etab & Hs3). rewrite E. clear E.
  set (g := disk_fs disk) in *.
  assert (Hz : 128 <= g_inode_size g <= g_block_size g).
  { destruct (isz_blocks g G) as (k & Ek & Hk & _). pose proof (fo_isz g G). nia. }
  assert (Hbs : g_block_size g <= 4096) by (destruct (fo_bs g G); lia). unfold apart in *.
  rewrite (proj2 (Z.eqb_neq (disk_inode_table disk) 0)), (proj2 (Z.ltb_ge _ (disk_inode_table disk))) by lia. cbn [orb].
  destruct (read_inode_ok g disk G (safe_inode_buf b) (sb_buffer b) (gdt_buffer b) (root_inode b)) with (num := 2) (m := m3) (d := d3)
    as (m4 & d4 & E4 & Hd4 & Hm4 & Hi4 & Hs4); try done; try lia.
  { rewrite Etab. change (2 - 1) with 1. assert (1 / (g_block_size g / g_inode_size g) <= 1); [|lia].
    apply Z.div_le_upper_bound; [|]; destruct (isz_blocks g G) as (k & _ & Hk & ->); lia. }
  rewrite (bind_some _ _ _ E4). rewrite Etab in Hi4. rewrite (root_mode_read disk m4 _ Hmt Hi4).
  exists m4, d4. split; [done|]. split; [done|]. split; [done|]. unfold inode_area in Hs4. rewrite <- Ecnt, <- Etab.
  split; [|split].
  - apply ld32_same. intros i Hi. apply Hs4. lia.
  - apply ld32_same. intros i Hi. apply Hs4. lia.
  - intros x Hx. unfold mount_area in Hx. rewrite Hs4 by lia. apply Hs3. unfold header_area. lia.
Qed.

(** With the inode table outside the range that the kernel takes for valid it
    stops in [while (1)]. *)
Lemma mount_bad_table disk b m (d : D) :
  holds disk d -> mem_wf m -> buffers_ok b -> supported disk ->
  disk_inode_table disk = 0 \/ 0x10000 < disk_inode_table disk -> mount b fs_boot m d = None.
Proof.
  intros Hd Hm Hb Hmt Ht. destruct (mount_header disk b m d Hd Hm Hb Hmt) as (m3 & d3 & E & _). rewrite E.
  by replace ((disk_inode_table disk =? 0) || _) with true by lia.
Qed.

(** Without a root inode the uninitialised structure decides. *)
Lemma mount_no_root disk b m (d : D) :
  holds disk d -> mem_wf m -> buffers_ok b -> supported disk -> 0 < disk_inode_table disk <= 0x10000 -> disk_inodes disk < 2 ->
  exists m' d',
    mount b fs_boot m d
    = Some (if Z.land (i_mode m' (root_inode b)) 0xF000 =? 0x4000 then Mounted else NotDirectory, disk_fs disk, m', d') /\
    holds disk d' /\ mem_wf m' /\ same_outside (header_area b) m m'.
Proof.
  intros Hd Hm Hb Hmt Ht Hi. destruct (mount_header disk b m d Hd Hm Hb Hmt) as (m3 & d3 & E & Hd3 & Hm3 & Ecnt & _ & Hs3).
  exists m3, d3. split; [|done]. rewrite E. replace ((disk_inode_table disk =? 0) || _) with false by lia.
  unfold read_inode. rewrite Ecnt. by replace ((2 =? 0) || _) with true by lia.
Qed.

(** An inode size of zero is a division by zero. *)
Lemma mount_no_inode_size disk b m (d : D) :
  holds disk d -> buffers_ok b -> 0 <= disk_start disk -> disk_start disk + 4 <= 2 ^ 28 ->
  disk_magic disk = 0xEF53 -> 1 <= le32 disk (superblock disk 76) -> le16 disk (superblock disk 88) = 0 ->
  mount b fs_boot m d = None.
Proof.
  intros Hd Hb H0 H1 Hmagic Hrev Hz. pose proof (bo_mbr b Hb) as [B1 B2]. unfold mount.
  destruct (probe_ok disk (mbr_buffer b) fs_boot m d Hd B1 B2) as (m1 & d1 & E1 & Hd1 & Hf1). rewrite (bind_some _ _ _ E1).
  destruct (superblock_ok disk b (set_start_lba (disk_start disk) fs_boot) m1 d1) as (m2 & d2 & E2 & Hd2 & Hf2); try done.
  rewrite (bind_some _ _ _ E2).
  assert (Hsb : forall i, superblock disk 0 + i = superblock disk i) by (intros i; unfold superblock; lia).
  unfold s_magic. rewrite (ld16_filled _ _ _ _ _ _ _ 56 Hf2), Hsb by lia. fold (disk_magic disk). rewrite Hmagic. cbn [Z.eqb Pos.eqb].
  unfold fs_init, s_rev_level, s_inode_size.
  rewrite (ld32_filled _ _ _ _ _ _ (sb_buffer b + 76) 76 Hf2), (ld16_filled _ _ _ _ _ _ (sb_buffer b + 88) 88 Hf2), !Hsb, Hz by lia.
  by rewrite (proj2 (Z.leb_le 1 _) Hrev).
Qed.

Lemma mount_not_ext2 disk b m (d : D) :
  holds disk d -> mem_wf m -> buffers_ok b -> 0 <= disk_start disk -> disk_start disk + 4 <= 2 ^ 28 ->
  disk_magic disk <> 0xEF53 ->
  exists g' m' d', mount b fs_boot m d = Some (NotExt2, g', m', d') /\ holds disk d' /\ mem_wf m' /\
    same_outside (mount_area b) m m'.
Proof.
  intros Hd Hm Hb H0 H1 Hmagic. pose proof (bo_mbr b Hb) as [B1 B2].
  assert (Hbyte : forall x, is_u8 (disk x)) by apply (holds_bytes disk d Hd).
  unfold mount. destruct (probe_ok disk (mbr_buffer b) fs_boot m d Hd B1 B2) as (m1 & d1 & E1 & Hd1 & Hf1).
  rewrite (bind_some _ _ _ E1).
  destruct (superblock_ok disk b (set_start_lba (disk_start disk) fs_boot) m1 d1) as (m2 & d2 & E2 & Hd2 & Hf2); try done.
  rewrite (bind_some _ _ _ E2).
  assert (E : s_magic m2 (sb_buffer b) = disk_magic disk).
  { unfold s_magic, disk_magic, superblock. rewrite (ld16_filled _ _ _ _ _ _ _ 56 Hf2) by lia.
    unfold superblock. f_equal. lia. }
  rewrite E, (proj2 (Z.eqb_neq _ _) Hmagic). eexists _, m2, d2. split; [done|]. split; [done|]. split.
  - eapply filled_wf; [exact Hf2|exact Hbyte|]. by eapply filled_wf; [exact Hf1| |].
  - intros x Hx. unfold mount_area in Hx.
    by rewrite (filled_out _ _ _ _ _ _ _ Hf2), (filled_out _ _ _ _ _ _ _ Hf1) by lia.
Qed.

End Mounting.

(** ** Properties *)

(** C4: loading a file delivers the file.  [load_file_to_memory] returns true
    exactly when the file is not empty and its blocks fit the twelve direct
    pointers and, when the inode has one, the single indirect block (so that a
    file with a hole in place of the indirect block is refused when it has more
    than twelve blocks); then every byte at [dest_addr] is the byte of the file
    (holes read as zeros, the last block is loaded to its end), and nothing but
    the buffers that the load uses has changed.  The exception are files of
    more than 4 GiB less a block: the sum wraps, the code counts no blocks, and
    true is returned with nothing loaded. *)
Theorem load_file_delivers {D : Type} `{BlockDevice D} `{!BlockDeviceLaws D} (g : fs_runtime) (disk : Z -> Z)
  (safe_inode_buf g_sb fs_gdt inode indirect_block num dest : Z) (m : mem) (d : D) :
  fs_ok g -> holds disk d -> mem_wf m -> 1 <= num <= s_inodes_count m g_sb ->
  let pos := inode_pos g (bg_inode_table m fs_gdt) num in
  bg_inode_table m fs_gdt + (num - 1) / (g_block_size g / g_inode_size g) <= 0x100000 ->
  load_layout g safe_inode_buf inode indirect_block dest (loadable g disk pos * g_block_size g) ->
  (forall b, 0 <= b < loadable g disk pos -> file_ptr g disk pos b <= 0x100000) ->
  (12 < file_blocks g disk pos -> indirect_of g disk pos <= 0x100000) ->
  let wraps := 2 ^ 32 <? file_size g disk pos + g_block_size g in
  let accepted := negb (file_size g disk pos =? 0) && (wraps || (file_blocks g disk pos <=? max_blocks g disk pos)) in
  exists m' d',
    load_file_to_memory safe_inode_buf g_sb fs_gdt inode indirect_block g num dest m d = Some (accepted, m', d') /\
    holds disk d' /\
    (accepted = true -> wraps = false -> forall k, 0 <= k < file_blocks g disk pos * g_block_size g ->
       ld8 m' (dest + k) = file_byte g disk pos k) /\
    same_outside (load_area g safe_inode_buf inode indirect_block dest (loadable g disk pos * g_block_size g)) m m' /\
    (wraps = true -> same_outside (inode_area g safe_inode_buf inode) m m').
Proof. intros G Hd Hm Hn pos Ht HL Hp Hi wraps accepted. by apply load_file_ok. Qed.

(** C13: the kernel mounts what is on the disk.  From a cold start, a disk with a
    partition table or a raw image that holds a file system of the supported
    geometry is mounted with the parameters of its superblock when its root
    inode is a directory (the kernel panics when it is not); afterwards the
    superblock and the group descriptor are in their buffers, and nothing
    outside the buffers has changed.  When the group descriptor gives no inode
    table, or one behind block 0x10000, the kernel stops there; when the
    superblock counts less than two inodes, what was on the stack before
    decides.  A superblock with the inode size 0 stops the kernel with a
    division by zero, and without the ext2 magic number the result is the other
    panic. *)
Theorem mount_reads_disk {D : Type} `{BlockDevice D} `{!BlockDeviceLaws D} (disk : Z -> Z) (b : mount_buffers)
  (m : mem) (d : D) :
  holds disk d -> mem_wf m -> buffers_ok b -> 0 <= disk_start disk -> disk_start disk + 4 <= 2 ^ 28 ->
  (supported disk ->
   if (0 <? disk_inode_table disk) && (disk_inode_table disk <=? 0x10000) then
     if 2 <=? disk_inodes disk then
       exists m' d', mount b fs_boot m d
         = Some (if Z.land (root_mode disk) 0xF000 =? 0x4000 then Mounted else NotDirectory, disk_fs disk, m', d') /\
         holds disk d' /\ mem_wf m' /\
         s_inodes_count m' (sb_buffer b) = disk_inodes disk /\ bg_inode_table m' (gdt_buffer b) = disk_inode_table disk /\
         same_outside (mount_area b) m m'
     else
       exists m' d', mount b fs_boot m d
         = Some (if Z.land (i_mode m' (root_inode b)) 0xF000 =? 0x4000 then Mounted else NotDirectory, disk_fs disk, m', d') /\
         holds disk d' /\ mem_wf m' /\ same_outside (header_area b) m m'
   else mount b fs_boot m d = None) /\
  (disk_magic disk = 0xEF53 -> 1 <= le32 disk (superblock disk 76) -> le16 disk (superblock disk 88) = 0 ->
   mount b fs_boot m d = None) /\
  (disk_magic disk <> 0xEF53 ->
   exists g' m' d', mount b fs_boot m d = Some (NotExt2, g', m', d') /\ holds disk d' /\ mem_wf m' /\
     same_outside (mount_area b) m m').
Proof.
  intros Hd Hm Hb H0 H1. split; [|split; [by apply mount_no_inode_size|by apply mount_not_ext2]]. intros Hsup.
  assert (Hpos : 0 <= disk_inode_table disk).
  { apply le32_u32. intros y. apply (holds_bytes disk d Hd). }
  destruct (Z.ltb_spec 0 (disk_inode_table disk)) as [Hlow|Hlow]; cbn [andb]; [|by apply (mount_bad_table disk); auto; left; lia].
  destruct (Z.leb_spec (disk_inode_table disk) 0x10000) as [Hhigh|Hhigh]; [|by apply (mount_bad_table disk); auto].
  destruct (Z.leb_spec 2 (disk_inodes disk)) as [Hi|Hi]; [by apply mount_ok|by apply mount_no_root].
Qed.

(** [read_inode] fetches the inode from its place in the table, on every
    branch: a number outside the file system leaves all memory (also the
    caller's uninitialised structure) as it is, any other delivers the bytes
    at [table * block size + (number - 1) * inode size], which is the place in
    the first block group whatever group the inode belongs to. *)
Theorem read_inode_fetches {D : Type} `{BlockDevice D} `{!BlockDeviceLaws D} (g : fs_runtime) (disk : Z -> Z)
  (safe_inode_buf sb gdt out_inode num : Z) (m : mem) (d : D) :
  fs_ok g -> holds disk d -> mem_wf m ->
  0 < safe_inode_buf /\ safe_inode_buf + g_block_size g <= 2 ^ 32 ->
  out_inode + g_inode_size g <= safe_inode_buf \/ safe_inode_buf + g_block_size g <= out_inode ->
  (num = 0 \/ s_inodes_count m sb < num -> read_inode safe_inode_buf g num sb gdt out_inode m d = Some (m, d)) /\
  (1 <= num <= s_inodes_count m sb ->
   bg_inode_table m gdt + (num - 1) / (g_block_size g / g_inode_size g) <= 0x100000 ->
   exists m' d', read_inode safe_inode_buf g num sb gdt out_inode m d = Some (m', d') /\ holds disk d' /\
     (forall i, 0 <= i < g_inode_size g ->
        ld8 m' (out_inode + i) = part g disk (bg_inode_table m gdt * g_block_size g + (num - 1) * g_inode_size g + i)) /\
     same_outside (inode_area g safe_inode_buf out_inode) m m').
Proof.
  intros G Hd Hm Hs Ho. split.
  - intros Hn. unfold read_inode. replace ((num =? 0) || _) with true by lia. done.
  - intros Hn Ht. destruct (read_inode_ok g disk G safe_inode_buf sb gdt out_inode Hs Ho num m d)
      as (m' & d' & E & Hd' & _ & Hi & Hsame); try done. by exists m', d'.
Qed.

(** Reading an inode overruns its structure.  On a file system with 256-byte
    inodes (the default of mke2fs) [read_inode] fills 256 bytes, 128 more than
    [struct ext2_inode] has: any byte behind the caller's structure is replaced
    by a byte of the disk. *)
Theorem read_inode_overruns {D : Type} `{BlockDevice D} `{!BlockDeviceLaws D} (g : fs_runtime) (disk : Z -> Z)
  (safe_inode_buf sb gdt out_inode num i : Z) (m : mem) (d : D) :
  fs_ok g -> g_inode_size g = 256 -> holds disk d -> mem_wf m -> 1 <= num <= s_inodes_count m sb ->
  bg_inode_table m gdt + (num - 1) / (g_block_size g / g_inode_size g) <= 0x100000 ->
  0 < safe_inode_buf /\ safe_inode_buf + g_block_size g <= 2 ^ 32 ->
  out_inode + g_inode_size g <= safe_inode_buf \/ safe_inode_buf + g_block_size g <= out_inode ->
  sizeof_ext2_inode <= i < 256 ->
  exists m' d', read_inode safe_inode_buf g num sb gdt out_inode m d = Some (m', d') /\
    ld8 m' (out_inode + i) = part g disk (inode_pos g (bg_inode_table m gdt) num + i).
Proof.
  intros G Hz Hd Hm Hn Ht Hs Ho Hi.
  destruct (read_inode_ok g disk G safe_inode_buf sb gdt out_inode Hs Ho num m d)
    as (m' & d' & E & _ & _ & Hb & _); try done.
  exists m', d'. split; [done|]. apply Hb. unfold sizeof_ext2_inode in Hi. lia.
Qed.

(** ** Witnesses: a disk in memory *)

#[local] Instance ram_device : BlockDevice mem := {|
  disk_read := fun lba buf count m d =>
    Some (poke buf (List.map (fun i => ld8 d (512 * lba + i)) (seqZ 0 (512 * count))) m, d);
  holds := fun disk d => mem_wf d /\ forall x, disk x = ld8 d x
|}.

#[local] Instance ram_device_laws : BlockDeviceLaws mem.
Proof.
  split.
  - intros disk d [Hw Hd] x. rewrite Hd. apply Hw.
  - intros disk d lba buf count m [Hw Hd] Hl Hlc Hc Hb Hbw. eexists _, d. split; [reflexivity|]. split; [done|].
    intros a. rewrite poke_ld8, length_map, length_seqZ, Z2Nat.id by lia. case_cond; [|done].
    unfold getZ. rewrite list_lookup_fmap, lookup_seqZ_lt by lia. cbn [fmap option_fmap option_map default from_option].
    rewrite Z2Nat.id, Z.add_0_l, Hd by lia. apply u8_small, Hw.
Qed.

(** A raw image with 1024-byte blocks and an inode table at block 5: the root
    directory is inode 2, inode 12 a file of 1030 bytes whose second block is
    a hole. *)
Definition small_image : mem :=
  let m := st32 (st32 (st32 (st32 ∅ 1024 16) 1044 1) 1048 0) 1080 0xEF53 in
  let m := st32 m 2056 5 in
  let m := st16 m (5 * 1024 + 128) 0x41ED in
  let inode12 := 5 * 1024 + 11 * 128 in
  let m := st32 (st32 (st16 m inode12 0x81A4) (inode12 + 4) 1030) (inode12 + 40) 20 in
  st8 (st8 m (20 * 1024) 72) (20 * 1024 + 1) 105.

Definition small_disk : Z -> Z := ld8 small_image.

Lemma small_holds : holds small_disk small_image.
Proof. split; [|done]. unfold small_image. repeat apply st8_wf. auto 12 using st32_wf, st16_wf with kernel. Qed.

Lemma small_mountable : mountable small_disk.
Proof.
  assert (Ef : disk_fs small_disk = mkFs 1024 128 8 0) by (vm_compute; reflexivity).
  split; [split|split|]; try (vm_compute; congruence). rewrite Ef. split; cbn; lia || auto.
Qed.

Definition kernel_buffers : mount_buffers := mkBuffers 0x10000 0x20000 0x30000 0x40000 0x50000.

Lemma kernel_buffers_ok : buffers_ok kernel_buffers.
Proof. split; unfold apart; cbn; lia. Qed.

Lemma mount_reads_disk_witness :
  exists m' d', mount kernel_buffers fs_boot ∅ small_image = Some (Mounted, mkFs 1024 128 8 0, m', d').
Proof.
  destruct (mount_reads_disk small_disk kernel_buffers ∅ small_image small_holds) as [H _];
    [auto with kernel|exact kernel_buffers_ok|vm_compute; congruence|vm_compute; congruence|].
  specialize (H (mt_supported _ small_mountable)).
  assert (Et : (0 <? disk_inode_table small_disk) && (disk_inode_table small_disk <=? 0x10000) = true) by (vm_compute; reflexivity).
  assert (Ei : (2 <=? disk_inodes small_disk) = true) by (vm_compute; reflexivity).
  rewrite Et, Ei in H. destruct H as (m' & d' & E & _).
  assert (Er : (Z.land (root_mode small_disk) 0xF000 =? 0x4000 ) = true) by (vm_compute; reflexivity).
  assert (Eg : disk_fs small_disk = mkFs 1024 128 8 0) by (vm_compute; reflexivity).
  rewrite Er, Eg in E. exists m', d'. exact E.
Defined.

(** The memory after mounting, as far as loading reads it. *)
Definition mounted_mem : mem := st32 (st32 ∅ 0x20000 16) 0x30008 5.
Definition small_fs : fs_runtime := mkFs 1024 128 8 0.

Lemma small_fs_ok : fs_ok small_fs.
Proof. split; cbn; lia || auto. Qed.

Lemma load_file_delivers_witness :
  exists m' d', load_file_to_memory 0x40000 0x20000 0x30000 0x50000 0x60000 small_fs 12 0x800000 mounted_mem small_image
                = Some (true, m', d') /\ ld8 m' 0x800001 = 105 /\ ld8 m' 0x800405 = 0.
Proof.
  destruct (load_file_delivers small_fs small_disk 0x40000 0x20000 0x30000 0x50000 0x60000 12 0x800000 mounted_mem small_image)
    as (m' & d' & E & _ & H & _).
  - exact small_fs_ok.
  - exact small_holds.
  - unfold mounted_mem. auto with kernel.
  - vm_compute. split; congruence.
  - vm_compute. congruence.
  - change (loadable small_fs small_disk _) with 2. split; cbn; lia.
  - intros b Hb. assert (Hl : 0 <= b < 2) by exact Hb. assert (Hc : b = 0 \/ b = 1) by lia.
    destruct Hc as [-> | ->]; vm_compute; congruence.
  - intros Hx. vm_compute in Hx. discriminate.
  - exists m', d'. split; [exact E|]. split; [apply (H eq_refl eq_refl 1); split; vm_compute; congruence|].
    apply (H eq_refl eq_refl 1029). split; vm_compute; congruence.
Defined.

Lemma read_inode_fetches_witness :
  exists m' d', read_inode 0x40000 small_fs 12 0x20000 0x30000 0x50000 mounted_mem small_image = Some (m', d') /\
    ld8 m' 0x50004 = 6.
Proof.
  destruct (read_inode_fetches small_fs small_disk 0x40000 0x20000 0x30000 0x50000 12 mounted_mem small_image
              small_fs_ok small_holds) as [_ H];
    [unfold mounted_mem; auto with kernel|cbn; lia|cbn; lia|].
  destruct H as (m' & d' & E & _ & Hb & _); [vm_compute; split; congruence|vm_compute; congruence|].
  exists m', d'. split; [exact E|]. apply (Hb 4). cbn. lia.
Defined.

Lemma read_inode_overruns_witness :
  exists m' d', read_inode 0x40000 (mkFs 1024 256 4 0) 2 0x20000 0x30000 0x50000 mounted_mem small_image = Some (m', d') /\
    ld8 m' 0x50080 = 0.
Proof.
  destruct (read_inode_overruns (mkFs 1024 256 4 0) small_disk 0x40000 0x20000 0x30000 0x50000 2 128 mounted_mem small_image)
    as (m' & d' & E & Hb).
  - split; cbn; lia || auto.
  - reflexivity.
  - exact small_holds.
  - unfold mounted_mem. auto with kernel.
  - vm_compute. split; congruence.
  - vm_compute. congruence.
  - cbn. lia.
  - cbn. lia.
  - unfold sizeof_ext2_inode. lia.
  - exists m', d'. split; [exact E|exact Hb].
Defined.

End Ext2.
