(* ===== verification/Elf.v ===== *)
(** * The ELF loader: arch/elf.c and include/elf.h

    [load_elf_program_from_vfs] on byte-addressed memory: the image is read
    into a heap block, its headers are read from there with the field
    accessors below (the packed structs of elf.h), and the segments are copied
    to their addresses while their pages are opened to ring 3.  The heap is
    used through [Allocator], the file system through [Vfs]. *)

From S2P Require Import Prelude Cmem Pmm Paging Alloc Heap.
Local Open Scope Z_scope.

(** The virtual file system of vfs.h, whose source the repository does not
    hold: what elf.c takes from a node, and [vfs_read(node, offset, size,
    buffer)] as a memory transformer.  [vfs_file] is the content of the node
    and [vfs_area] the memory that the file system keeps for itself. *)
Class Vfs (vfs_node_t : Type) := {
  node_type : vfs_node_t -> Z;
  node_size : vfs_node_t -> Z;
  VFS_TYPE_FILE : Z;
  vfs_read : vfs_node_t -> Z -> Z -> Z -> mem -> bool * mem;
  vfs_file : vfs_node_t -> mem;
  vfs_area : Z -> Prop
}.

(** A read touches the buffer and the file system's own memory only, and when
    it succeeds the buffer holds the bytes of the file. *)
Class VfsLaws (vfs_node_t : Type) `{Vfs vfs_node_t} : Prop := {
  node_size_u32 node : is_u32 (node_size node);
  vfs_file_wf node : mem_wf (vfs_file node);
  vfs_read_wf node off len buf m : mem_wf m -> mem_wf (vfs_read node off len buf m).2;
  vfs_read_frame node off len buf m :
    same_outside (fun x => buf <= x < buf + len \/ vfs_area x) m (vfs_read node off len buf m).2;
  vfs_read_bytes node off len buf m i :
    (vfs_read node off len buf m).1 = true -> 0 <= i < len ->
    ld8 (vfs_read node off len buf m).2 (buf + i) = ld8 (vfs_file node) (off + i)
}.

Module Elf.
Import Paging.

Definition USER_PROGRAM_BASE : Z := 0x00800000.
Definition USER_PROGRAM_MAX_SIZE : Z := 1024 * 1024.

Definition ELF32_MAGIC : Z := 0x464C457F.
Definition ELF32_CLASS_32 : Z := 1.
Definition ELF32_DATA_LSB : Z := 1.
Definition ELF32_VERSION_CURRENT : Z := 1.
Definition ELF32_MACHINE_386 : Z := 3.
Definition ELF32_PT_LOAD : Z := 1.

(** struct elf32_ehdr at address [e] *)
Definition sizeof_elf32_ehdr : Z := 52.
Definition e_ident (m : mem) (e i : Z) : Z := ld8 m (e + i).
Definition e_machine (m : mem) (e : Z) : Z := ld16 m (e + 18).
Definition e_version (m : mem) (e : Z) : Z := ld32 m (e + 20).
Definition e_entry (m : mem) (e : Z) : Z := ld32 m (e + 24).
Definition e_phoff (m : mem) (e : Z) : Z := ld32 m (e + 28).
Definition e_ehsize (m : mem) (e : Z) : Z := ld16 m (e + 40).
Definition e_phentsize (m : mem) (e : Z) : Z := ld16 m (e + 42).
Definition e_phnum (m : mem) (e : Z) : Z := ld16 m (e + 44).

(** struct elf32_phdr at address [p] *)
Definition sizeof_elf32_phdr : Z := 32.
Definition p_type (m : mem) (p : Z) : Z := ld32 m p.
Definition p_offset (m : mem) (p : Z) : Z := ld32 m (p + 4).
Definition p_vaddr (m : mem) (p : Z) : Z := ld32 m (p + 8).
Definition p_filesz (m : mem) (p : Z) : Z := ld32 m (p + 16).
Definition p_memsz (m : mem) (p : Z) : Z := ld32 m (p + 20).

Definition validate_segment (vaddr memsz : Z) : bool :=
  if memsz =? 0 then true else
  let region_start := USER_PROGRAM_BASE in
  let region_end := USER_PROGRAM_BASE + USER_PROGRAM_MAX_SIZE in
  let seg_end := u32 (vaddr + memsz) in
  if vaddr <? region_start then false else
  if seg_end <? vaddr then false else
  if region_end <? seg_end then false else
  true.

(** The checks on the file header, in the order of the code. *)
Definition check_ehdr (m : mem) (image size : Z) : bool :=
  if negb (ld32 m image =? ELF32_MAGIC) then false else
  if negb (e_ident m image 4 =? ELF32_CLASS_32) || negb (e_ident m image 5 =? ELF32_DATA_LSB)
     || negb (e_ident m image 6 =? ELF32_VERSION_CURRENT) then false else
  if negb (e_machine m image =? ELF32_MACHINE_386)
     || negb (e_version m image =? ELF32_VERSION_CURRENT) then false else
  if negb (e_ehsize m image =? sizeof_elf32_ehdr) then false else
  if negb (e_phentsize m image =? sizeof_elf32_phdr) then false else
  let ph_end := u32 (e_phoff m image + u32 (e_phnum m image * sizeof_elf32_phdr)) in
  if (ph_end <? e_phoff m image) || (size <? ph_end) then false else
  true.

Section Loader.
Variable g_page_directory : Z.
Variable g_page_tables : Z.

(** The body of the loop over the program headers, for the header at
    [phdr]; [false] stands for the paths that free the image and fail. *)
Definition load_segment (image size phdr : Z) (m : mem) : option (bool * mem) :=
  if negb (p_type m phdr =? ELF32_PT_LOAD) then Some (true, m) else
  if u32 (p_offset m phdr + p_filesz m phdr) <? p_offset m phdr then Some (false, m) else
  if size <? u32 (p_offset m phdr + p_filesz m phdr) then Some (false, m) else
  if p_memsz m phdr <? p_filesz m phdr then Some (false, m) else
  if negb (validate_segment (p_vaddr m phdr) (p_memsz m phdr)) then Some (false, m) else
  m ← (if negb (p_memsz m phdr =? 0)
       then paging_mark_user_range g_page_directory g_page_tables (p_vaddr m phdr)
              (Z.land (u32 (p_memsz m phdr + 0xFFF)) (u32 (Z.lnot 0xFFF))) m
       else Some m);
  let m := memcpy (p_vaddr m phdr) (image + p_offset m phdr) (p_filesz m phdr) m in
  let m := if p_filesz m phdr <? p_memsz m phdr
           then memset (u32 (p_vaddr m phdr + p_filesz m phdr)) 0
                  (u32 (p_memsz m phdr - p_filesz m phdr)) m
           else m in
  Some (true, m).

Fixpoint load_segments (fuel : nat) (i image size : Z) (m : mem) : option (bool * mem) :=
  if i <? e_phnum m image then
    match fuel with
    | O => None
    | S fuel' =>
        '(ok, m) ← load_segment image size (image + e_phoff m image + i * sizeof_elf32_phdr) m;
        if ok : bool then load_segments fuel' (u32 (i + 1)) image size m else Some (false, m)
    end
  else Some (true, m).

(** [e_phnum] has 16 bits. *)
Definition phdr_fuel : nat := Z.to_nat 65536.

Section Program.
Context {H : Type} `{Allocator H} {vfs_node_t : Type} `{Vfs vfs_node_t}.

(** From line 64 on: the file is in the heap block [image], which every path
    frees. *)
Definition load_image (image size entry_point_out : Z) (h : H) : option (bool * H) :=
  let m := heap_mem h in
  if negb (check_ehdr m image size) then Some (false, kfree image h) else
  '(ok, m) ← load_segments phdr_fuel 0 image size m;
  let h := set_heap_mem h m in
  if negb ok then Some (false, kfree image h) else
  let h := set_heap_mem h (st32 m entry_point_out (e_entry m image)) in
  Some (true, kfree image h).

Definition load_elf_program_from_vfs (node : option vfs_node_t) (entry_point_out : Z) (h : H)
    : option (bool * H) :=
  match node with
  | None => Some (false, h)
  | Some node =>
    if entry_point_out =? 0 then Some (false, h) else
    if negb (node_type node =? VFS_TYPE_FILE) then Some (false, h) else
    if node_size node <? sizeof_elf32_ehdr then Some (false, h) else
    '(image, h) ← kmalloc (node_size node) h;
    if image =? 0 then Some (false, h) else
    let '(ok, m) := vfs_read node 0 (node_size node) image (heap_mem h) in
    let h := set_heap_mem h m in
    if negb ok then Some (false, kfree image h) else
    load_image image (node_size node) entry_point_out h
  end.

End Program.
End Loader.

(** ** The abstract loader

    A program header as data; [seg_ok] is what a loadable segment must
    satisfy, without wrap-around, and [loaded_byte] the byte that a list of
    segments leaves at an address, later segments over earlier ones. *)
Record phdr := mkPhdr { ph_type : Z; ph_offset : Z; ph_vaddr : Z; ph_filesz : Z; ph_memsz : Z }.

Definition read_phdr (m : mem) (p : Z) : phdr :=
  mkPhdr (p_type m p) (p_offset m p) (p_vaddr m p) (p_filesz m p) (p_memsz m p).

Definition is_load (s : phdr) : bool := ph_type s =? 1.

Definition seg_ok (size : Z) (s : phdr) : bool :=
  negb (is_load s) ||
  ((ph_offset s + ph_filesz s <=? size) && (ph_filesz s <=? ph_memsz s) &&
   ((ph_memsz s =? 0) ||
    ((0x800000 <=? ph_vaddr s) && (ph_vaddr s + ph_memsz s <=? 0x900000)))).

Definition seg_covers (s : phdr) (a : Z) : bool :=
  is_load s && (ph_vaddr s <=? a) && (a <? ph_vaddr s + ph_memsz s).

Definition seg_byte (file : mem) (s : phdr) (a : Z) : Z :=
  if a <? ph_vaddr s + ph_filesz s then ld8 file (ph_offset s + (a - ph_vaddr s)) else 0.

Fixpoint loaded_byte (file : mem) (segs : list phdr) (a old : Z) : Z :=
  match segs with
  | [] => old
  | s :: segs' => loaded_byte file segs' a (if seg_covers s a then seg_byte file s a else old)
  end.

(** The pages that a segment opens: from the page of its address to the end
    of [p_vaddr + roundup(p_memsz)], rounded up. *)
Definition seg_opens (s : phdr) (v : Z) : bool :=
  is_load s && negb (ph_memsz s =? 0) && (ph_vaddr s / 4096 <=? v / 4096)
  && (v <? (ph_vaddr s + (ph_memsz s + 4095) / 4096 * 4096 + 4095) / 4096 * 4096).

(** The first [n] headers from the [i]-th on of the file at address [e]. *)
Fixpoint headers (m : mem) (e i : Z) (n : nat) : list phdr :=
  match n with
  | O => []
  | S n' => read_phdr m (e + e_phoff m e + i * sizeof_elf32_phdr) :: headers m e (i + 1) n'
  end.

Definition image_headers (file : mem) : list phdr := headers file 0 0 (Z.to_nat (e_phnum file 0)).

(** The ELF format, from its specification: numbers of two and four bytes,
    lowest byte first; the identification of a 32-bit little-endian file of
    version 1; the processor (3, the i386) and the version; the sizes of the
    file header and of a program header; and the table of program headers
    inside the file. *)
Definition half (file : mem) (o : Z) : Z := ld8 file o + 256 * ld8 file (o + 1).
Definition word (file : mem) (o : Z) : Z := half file o + 65536 * half file (o + 2).

Definition elf_ident : list Z := [0x7F; 69; 76; 70; 1; 1; 1].

Definition elf_header_ok (file : mem) (size : Z) : bool :=
  bool_decide (List.map (ld8 file) (seqZ 0 7) = elf_ident) &&
  (half file 18 =? 3) && (word file 20 =? 1) && (half file 40 =? 52) && (half file 42 =? 32) &&
  (word file 28 + 32 * half file 44 <=? size).

(** The program headers of the file, and its entry point. *)
Definition file_phdr (file : mem) (i : Z) : phdr :=
  let p := word file 28 + 32 * i in
  mkPhdr (word file p) (word file (p + 4)) (word file (p + 8)) (word file (p + 16)) (word file (p + 20)).

Definition file_headers (file : mem) : list phdr := List.map (file_phdr file) (seqZ 0 (half file 44)).
Definition file_entry (file : mem) : Z := word file 24.

(** A well-formed file. *)
Definition elf_ok (file : mem) (size : Z) : bool :=
  (52 <=? size) && elf_header_ok file size && forallb (seg_ok size) (file_headers file).

(** The segments up to the first bad one: those that are loaded. *)
Fixpoint good_prefix (size : Z) (segs : list phdr) : list phdr :=
  match segs with
  | [] => []
  | s :: segs' => if seg_ok size s then s :: good_prefix size segs' else []
  end.

Definition user_region (x : Z) : Prop :=
  USER_PROGRAM_BASE <= x < USER_PROGRAM_BASE + USER_PROGRAM_MAX_SIZE.

(** ** Segments *)

Lemma validate_segment_spec v n :
  is_u32 v -> is_u32 n ->
  validate_segment v n = (n =? 0) || ((0x800000 <=? v) && (v + n <=? 0x900000)).
Proof.
  unfold is_u32, validate_segment, u32. intros Hv Hn.
  change (USER_PROGRAM_BASE + USER_PROGRAM_MAX_SIZE) with 0x900000. change USER_PROGRAM_BASE with 0x800000.
  assert (Hw : (v + n) mod 2 ^ 32 = if v + n <? 2 ^ 32 then v + n else v + n - 2 ^ 32).
  { case_cond; [apply Z.mod_small; lia|]. symmetry. apply (Z.mod_unique_pos _ _ 1); lia. }
  rewrite Hw. destruct (Z.ltb_spec (v + n) (2 ^ 32)); z_cases; done || lia.
Qed.

Lemma roundup_page n : 0 <= n <= 0x100000 ->
  Z.land (u32 (n + 0xFFF)) (u32 (Z.lnot 0xFFF)) = (n + 4095) / 4096 * 4096.
Proof.
  intros Hn. rewrite u32_small by lia. apply (mask_low_div 12 (n + 4095)); lia.
Qed.

Section Segments.
Context (g_page_directory g_page_tables : Z) (L : layout g_page_directory g_page_tables).
Abbreviation tables := (table_area g_page_directory g_page_tables).
Abbreviation wf := (tables_wf g_page_directory g_page_tables).
Abbreviation uaccess := (fun m v => user_accessible m g_page_directory v).
Context (Hut : forall x, user_region x -> ~ tables x).
Context (image size : Z) (Himage : 0 <= image) (Hsize : 0 <= size) (Hend : image + size < 2 ^ 32).
Context (Hblock : forall x, image <= x < image + size -> ~ user_region x /\ ~ tables x).

(** What loading may write. *)
Definition load_area (x : Z) : Prop := user_region x \/ tables x.

(** Memory [m'] is [m] with the segment [s] of [file] loaded. *)
Record seg_loaded (file : mem) (s : phdr) (m m' : mem) : Prop := {
  sl_mem : mem_wf m';
  sl_tables : wf m';
  sl_frame : same_outside load_area m m';
  sl_bytes : forall a, user_region a ->
    ld8 m' a = if seg_covers s a then seg_byte file s a else ld8 m a;
  sl_access : forall v, is_u32 v -> uaccess m' v = seg_opens s v || uaccess m v
}.

(** The pages of a segment inside the region. *)
Lemma mark_segment m v n :
  mem_wf m -> wf m -> 0x800000 <= v -> v + n <= 0x900000 -> 0 < n ->
  exists m', paging_mark_user_range g_page_directory g_page_tables v ((n + 4095) / 4096 * 4096) m = Some m' /\
    mem_wf m' /\ wf m' /\ same_outside tables m m' /\
    forall a, is_u32 a -> uaccess m' a =
      ((v / 4096 <=? a / 4096) && (a <? (v + (n + 4095) / 4096 * 4096 + 4095) / 4096 * 4096)) || uaccess m a.
Proof.
  intros Hm Hwf Hv Hn Hn0. set (sz := (n + 4095) / 4096 * 4096).
  assert (Hsz : n <= sz <= n + 4095) by (subst sz; mlia).
  destruct (mark_user_range_exact' g_page_directory g_page_tables m v sz) as (m' & Hrun & Hwf' & Hacc); try done; try (unfold is_u32; lia).
  destruct (mark_user_range_frame g_page_directory g_page_tables v sz m m') as [Hm' Hs]; try done; try (unfold is_u32; lia).
  exists m'. split_and!; try done. intros a Ha. rewrite (Hacc a Ha).
  unfold Pmm.PAGE_SIZE. rewrite (align_up_u32_pow2 12) by lia. change (2 ^ 12) with 4096.
  rewrite (u32_small (v + sz)), u32_small by lia. change IDENTITY_MAP_BYTES with (32768 * 4096).
  replace (v + sz + 4096 - 1) with (v + sz + 4095) by lia.
  destruct (Z.leb_spec (v / 4096) (a / 4096)), (Z.ltb_spec a ((v + sz + 4095) / 4096 * 4096)),
    (Z.ltb_spec a (32768 * 4096)); cbn [andb orb]; try done. mlia.
Qed.

(** Reads of the image survive what loading writes. *)
Lemma image_ld8 m m' x :
  same_outside load_area m m' -> image <= x < image + size -> ld8 m' x = ld8 m x.
Proof. intros Hs Hx. apply Hs. destruct (Hblock x Hx). by intros [?|?]. Qed.

Lemma image_ld32 m m' x :
  same_outside load_area m m' -> image <= x -> x + 4 <= image + size -> ld32 m' x = ld32 m x.
Proof. intros Hs H1 H2. apply ld32_same. intros. apply (image_ld8 m m'); [done|lia]. Qed.

Lemma image_ld16 m m' x :
  same_outside load_area m m' -> image <= x -> x + 2 <= image + size -> ld16 m' x = ld16 m x.
Proof. intros Hs H1 H2. unfold ld16. by rewrite !(image_ld8 m m') by (done || lia). Qed.

Lemma image_phdr m m' p :
  same_outside load_area m m' -> image <= p -> p + 32 <= image + size -> read_phdr m' p = read_phdr m p.
Proof.
  intros Hs H1 H2. unfold read_phdr, p_type, p_offset, p_vaddr, p_filesz, p_memsz.
  by rewrite !(image_ld32 m m') by (done || lia).
Qed.

(** Copying and clearing a segment of the region. *)
Lemma copy_segment m file v o f n :
  mem_wf m -> (forall i, 0 <= i < size -> ld8 m (image + i) = ld8 file i) ->
  0 <= o -> o + f <= size -> 0 <= f <= n -> (n = 0 \/ 0x800000 <= v /\ v + n <= 0x900000) ->
  let m1 := memcpy v (image + o) f m in
  let m2 := if f <? n then memset (u32 (v + f)) 0 (u32 (n - f)) m1 else m1 in
  mem_wf m2 /\
  forall a, ld8 m2 a =
    if (v <=? a) && (a <? v + n) then if a <? v + f then ld8 file (o + (a - v)) else 0 else ld8 m a.
Proof.
  intros Hm Hfile Ho Hof Hf Hn m1 m2.
  assert (Hd : v <= image + o \/ image + o + f <= v).
  { destruct (decide (v <= image + o)); [by left|]. destruct (decide (image + o + f <= v)); [by right|].
    destruct (Hblock v ltac:(lia)) as [Hu _]. exfalso. apply Hu. unfold user_region.
    change (USER_PROGRAM_BASE + USER_PROGRAM_MAX_SIZE) with 0x900000. change USER_PROGRAM_BASE with 0x800000. lia. }
  assert (Hm1 : mem_wf m1) by (subst m1; auto with kernel).
  assert (Hm2 : mem_wf m2) by (subst m2; case_cond; auto with kernel).
  split; [done|]. intros a.
  assert (H1 : ld8 m1 a = if (v <=? a) && (a <? v + f) then ld8 file (o + (a - v)) else ld8 m a).
  { subst m1. rewrite memcpy_ld8 by (done || lia). case_cond; [|done].
    rewrite <- Hfile by lia. f_equal. lia. }
  subst m2. destruct (Z.ltb_spec f n).
  - rewrite !u32_small, memset_ld8 by lia. rewrite H1. z_cases; done || lia.
  - rewrite H1. z_cases; done || lia.
Qed.

(** Opening the pages of an accepted segment. *)
Lemma open_segment m s :
  mem_wf m -> wf m -> is_load s = true -> 0 <= ph_memsz s ->
  (ph_memsz s = 0 \/ 0x800000 <= ph_vaddr s /\ ph_vaddr s + ph_memsz s <= 0x900000) ->
  exists m1,
    (if negb (ph_memsz s =? 0)
     then paging_mark_user_range g_page_directory g_page_tables (ph_vaddr s)
            (Z.land (u32 (ph_memsz s + 0xFFF)) (u32 (Z.lnot 0xFFF))) m
     else Some m) = Some m1 /\
    mem_wf m1 /\ wf m1 /\ same_outside tables m m1 /\
    forall v, is_u32 v -> uaccess m1 v = seg_opens s v || uaccess m v.
Proof.
  intros Hm Hwf Hld H0 Hr. unfold seg_opens. rewrite Hld.
  destruct (Z.eqb_spec (ph_memsz s) 0) as [Hz|Hz]; cbn [negb andb].
  - exists m. split_and!; done.
  - destruct Hr as [?|[Hv Hn]]; [done|].
    rewrite roundup_page by lia. by apply mark_segment; try lia.
Qed.

(** The copy that follows, on the memory [m1] with the pages open. *)
Lemma finish_segment m m1 file p :
  let s := read_phdr m p in
  mem_wf m1 -> wf m1 -> same_outside tables m m1 ->
  (forall i, 0 <= i < size -> ld8 m (image + i) = ld8 file i) ->
  (forall v, is_u32 v -> uaccess m1 v = seg_opens s v || uaccess m v) ->
  image <= p -> p + 32 <= image + size -> is_load s = true ->
  0 <= ph_offset s -> ph_offset s + ph_filesz s <= size -> 0 <= ph_filesz s <= ph_memsz s ->
  (ph_memsz s = 0 \/ 0x800000 <= ph_vaddr s /\ ph_vaddr s + ph_memsz s <= 0x900000) ->
  let m2 := memcpy (p_vaddr m1 p) (image + p_offset m1 p) (p_filesz m1 p) m1 in
  let m3 := if p_filesz m2 p <? p_memsz m2 p
            then memset (u32 (p_vaddr m2 p + p_filesz m2 p)) 0 (u32 (p_memsz m2 p - p_filesz m2 p)) m2
            else m2 in
  seg_loaded file s m m3.
Proof.
  intros s Hm1 Hwf1 Hs1 Hfile Hacc Hp1 Hp2 Hld Ho Hof Hfn Hr m2 m3.
  assert (Hla : same_outside load_area m m1) by (eapply same_outside_mono; [|exact Hs1]; by right).
  assert (Hb1 : forall i, 0 <= i < size -> ld8 m1 (image + i) = ld8 file i).
  { intros i Hi. rewrite (image_ld8 m m1) by (done || lia). by apply Hfile. }
  pose proof (image_phdr m m1 p Hla Hp1 Hp2) as E1. fold s in E1.
  assert (Hm2 : m2 = memcpy (ph_vaddr s) (image + ph_offset s) (ph_filesz s) m1) by (subst m2; by rewrite <- E1).
  assert (E2 : read_phdr m2 p = s).
  { rewrite <- E1. apply image_phdr; try done. rewrite Hm2.
    destruct (copy_segment m1 file (ph_vaddr s) (ph_offset s) (ph_filesz s) (ph_filesz s)) as [_ Hb]; try done; try lia.
    rewrite Z.ltb_irrefl in Hb. intros a Ha. rewrite Hb. case_cond; [|done]. exfalso. apply Ha. left.
    unfold user_region. change (USER_PROGRAM_BASE + USER_PROGRAM_MAX_SIZE) with 0x900000.
    change USER_PROGRAM_BASE with 0x800000. lia. }
  assert (Hm3 : m3 = if ph_filesz s <? ph_memsz s
                     then memset (u32 (ph_vaddr s + ph_filesz s)) 0 (u32 (ph_memsz s - ph_filesz s)) m2 else m2).
  { subst m3. rewrite <- E2. done. }
  rewrite Hm2 in Hm3. clearbody m3. clear m2 Hm2 E2.
  destruct (copy_segment m1 file (ph_vaddr s) (ph_offset s) (ph_filesz s) (ph_memsz s)) as [Hw Hb]; try done; try lia.
  rewrite <- Hm3 in Hw, Hb.
  assert (Hu : forall a, ph_vaddr s <= a -> a < ph_vaddr s + ph_memsz s -> user_region a).
  { intros a ? ?. unfold user_region. change (USER_PROGRAM_BASE + USER_PROGRAM_MAX_SIZE) with 0x900000.
    change USER_PROGRAM_BASE with 0x800000. lia. }
  assert (Hout : forall a, ~ user_region a -> ld8 m3 a = ld8 m1 a).
  { intros a Ha. rewrite Hb. case_cond; [|done]. exfalso. apply Ha, Hu; lia. }
  destruct (tables_wf_same _ _ L m1 m3) as [Hwf3 Hacc3]; [|done|].
  { intros x Hx. apply Hout. intros Hx'. by apply (Hut x). }
  split; try done.
  - intros a Ha. rewrite Hout; [apply Hla, Ha|]. intros ?. apply Ha. by left.
  - intros a Ha. rewrite Hb. unfold seg_covers. rewrite Hld. cbn [andb]. case_cond; [done|].
    apply Hs1. by apply Hut.
  - intros v Hv. rewrite Hacc3 by done. by apply Hacc.
Qed.

(** One program header: accepted and loaded when [seg_ok] holds, otherwise
    rejected with nothing written. *)
Lemma load_segment_spec m file p :
  mem_wf m -> wf m -> (forall i, 0 <= i < size -> ld8 m (image + i) = ld8 file i) ->
  image <= p -> p + 32 <= image + size ->
  let s := read_phdr m p in
  if seg_ok size s
  then exists m', load_segment g_page_directory g_page_tables image size p m = Some (true, m') /\ seg_loaded file s m m'
  else load_segment g_page_directory g_page_tables image size p m = Some (false, m).
Proof.
  intros Hm Hwf Hfile Hp1 Hp2 s. unfold load_segment.
  change (p_type m p =? ELF32_PT_LOAD) with (is_load s).
  change (p_offset m p) with (ph_offset s). change (p_filesz m p) with (ph_filesz s).
  change (p_memsz m p) with (ph_memsz s). change (p_vaddr m p) with (ph_vaddr s).
  assert (Ho : is_u32 (ph_offset s)) by (apply ld32_u32; done).
  assert (Hv : is_u32 (ph_vaddr s)) by (apply ld32_u32; done).
  assert (Hf : is_u32 (ph_filesz s)) by (apply ld32_u32; done).
  assert (Hn : is_u32 (ph_memsz s)) by (apply ld32_u32; done).
  rewrite validate_segment_spec by done. unfold seg_ok.
  destruct (is_load s) eqn:Hld; cbn [negb orb].
  2: { exists m. split; [done|]. split; try done.
       - intros a _. unfold seg_covers. by rewrite Hld.
       - intros v _. unfold seg_opens. by rewrite Hld. }
  unfold is_u32 in *.
  assert (Hw : u32 (ph_offset s + ph_filesz s) =
    if ph_offset s + ph_filesz s <? 2 ^ 32 then ph_offset s + ph_filesz s else ph_offset s + ph_filesz s - 2 ^ 32).
  { unfold u32. case_cond; [apply Z.mod_small; lia|]. symmetry. apply (Z.mod_unique_pos _ _ 1); lia. }
  destruct (Z.leb_spec (ph_offset s + ph_filesz s) size) as [Hsz|Hsz]; cbn [andb].
  2: { rewrite Hw. destruct (Z.ltb_spec (ph_offset s + ph_filesz s) (2 ^ 32)).
       - rewrite (proj2 (Z.ltb_lt size _)) by lia. by case_cond.
       - by rewrite (proj2 (Z.ltb_lt (ph_offset s + ph_filesz s - 2 ^ 32) _)) by lia. }
  rewrite Hw, (proj2 (Z.ltb_lt _ (2 ^ 32))) by lia.
  rewrite (proj2 (Z.ltb_ge _ (ph_offset s))), (proj2 (Z.ltb_ge size _)) by lia.
  destruct (Z.leb_spec (ph_filesz s) (ph_memsz s)) as [Hfn|Hfn]; cbn [andb].
  2: { by rewrite (proj2 (Z.ltb_lt _ _)). }
  rewrite (proj2 (Z.ltb_ge (ph_memsz s) (ph_filesz s))) by lia.
  destruct ((ph_memsz s =? 0) || _) eqn:Hreg; cbn [negb]; [|done].
  assert (Hr : ph_memsz s = 0 \/ 0x800000 <= ph_vaddr s /\ ph_vaddr s + ph_memsz s <= 0x900000).
  { apply orb_true_iff in Hreg as [?|?]; bool_to_prop; [by left|by right]. }
  destruct (open_segment m s) as (m1 & -> & Hm1 & Hwf1 & Hs1 & Hacc); try done; try lia.
  cbn [mbind option_bind]. eexists. split; [reflexivity|].
  apply (finish_segment m m1 file p); try done; fold s; lia.
Qed.

(** ** The loop over the program headers *)

(** The memory holds [file] from address [image] on. *)
Definition holds (m file : mem) : Prop := forall i, 0 <= i < size -> ld8 m (image + i) = ld8 file i.

Lemma holds_ld32 m file q : holds m file -> 0 <= q -> q + 4 <= size -> ld32 m (image + q) = ld32 file q.
Proof. intros Hh H1 H2. unfold ld32. rewrite <- !Z.add_assoc, !Hh by lia. done. Qed.

Lemma holds_ld16 m file q : holds m file -> 0 <= q -> q + 2 <= size -> ld16 m (image + q) = ld16 file q.
Proof. intros Hh H1 H2. unfold ld16. rewrite <- !Z.add_assoc, !Hh by lia. done. Qed.

Lemma holds_phdr m file q : holds m file -> 0 <= q -> q + 32 <= size -> read_phdr m (image + q) = read_phdr file q.
Proof.
  intros Hh H1 H2. unfold read_phdr, p_type, p_offset, p_vaddr, p_filesz, p_memsz.
  by rewrite <- !Z.add_assoc, !(holds_ld32 m file) by (done || lia).
Qed.

Lemma holds_same m m' file : holds m file -> same_outside load_area m m' -> holds m' file.
Proof. intros Hh Hs i Hi. rewrite (image_ld8 m m') by (done || lia). by apply Hh. Qed.

(** Memory [m'] is [m] with the segments [segs] loaded in order. *)
Record all_loaded (file : mem) (segs : list phdr) (m m' : mem) : Prop := {
  al_mem : mem_wf m';
  al_tables : wf m';
  al_frame : same_outside load_area m m';
  al_bytes : forall a, user_region a -> ld8 m' a = loaded_byte file segs a (ld8 m a);
  al_access : forall v, is_u32 v -> uaccess m' v = existsb (fun s => seg_opens s v) segs || uaccess m v
}.

Lemma all_loaded_nil file m : mem_wf m -> wf m -> all_loaded file [] m m.
Proof. by split. Qed.

Lemma all_loaded_cons file s segs m m1 m' :
  seg_loaded file s m m1 -> all_loaded file segs m1 m' -> all_loaded file (s :: segs) m m'.
Proof.
  intros [_ _ Hf1 Hb1 Ha1] [Hm Hw Hf2 Hb2 Ha2]. split; try done.
  - by etransitivity.
  - intros a Ha. simpl. rewrite Hb2, Hb1 by done. done.
  - intros v Hv. simpl. rewrite Ha2, Ha1 by done. by destruct (seg_opens s v), (existsb _ _).
Qed.

Lemma load_segments_spec file :
  52 <= size -> mem_wf file -> e_phoff file 0 + 32 * e_phnum file 0 <= size ->
  forall n fuel i m,
  mem_wf m -> wf m -> holds m file -> (n <= fuel)%nat -> 0 <= i -> i + Z.of_nat n = e_phnum file 0 ->
  let segs := headers file 0 i n in
  exists m', load_segments g_page_directory g_page_tables fuel i image size m
             = Some (forallb (seg_ok size) segs, m') /\
    all_loaded file (good_prefix size segs) m m'.
Proof.
  intros H52 Hfile Htab. pose proof (Hfile 44) as B44. pose proof (Hfile 45) as B45. unfold is_u8 in B44, B45.
  assert (Hnum : 0 <= e_phnum file 0 < 65536).
  { unfold e_phnum, ld16. rewrite !Z.add_0_l. change (44 + 1) with 45. lia. }
  assert (Hoff : is_u32 (e_phoff file 0)) by (apply ld32_u32; done). unfold is_u32 in Hoff.
  induction n as [|n IH]; intros fuel i m Hm Hwf Hh Hf Hi Hin segs.
  all: assert (En : e_phnum m image = e_phnum file 0) by (apply (holds_ld16 m file 44 Hh); lia).
  all: assert (Eo : e_phoff m image = e_phoff file 0) by (apply (holds_ld32 m file 28 Hh); lia).
  - exists m. subst segs. simpl. split; [|by apply all_loaded_nil].
    destruct fuel; simpl; rewrite En, (proj2 (Z.ltb_ge i _)) by lia; done.
  - destruct fuel as [|fuel]; [lia|]. subst segs. cbn [headers load_segments].
    rewrite En, Eo, (proj2 (Z.ltb_lt i _)) by lia. unfold sizeof_elf32_phdr.
    rewrite <- (Z.add_assoc image). rewrite (Z.add_0_l (e_phoff file 0)).
    set (q := e_phoff file 0 + i * 32).
    assert (Hq : 0 <= q /\ q + 32 <= size) by (subst q; lia).
    pose proof (load_segment_spec m file (image + q) Hm Hwf Hh ltac:(lia) ltac:(lia)) as Hseg.
    cbn zeta in Hseg. rewrite (holds_phdr m file) in Hseg by (done || lia).
    cbn [forallb good_prefix]. destruct (seg_ok size (read_phdr file q)); cbn [andb].
    + destruct Hseg as (m1 & -> & Hl). cbn [mbind option_bind]. rewrite u32_small by lia.
      destruct (IH fuel (i + 1) m1) as (m' & Hrun & Hal); try done; try lia; try apply Hl.
      { eapply holds_same; [exact Hh|apply Hl]. }
      exists m'. split; [exact Hrun|]. by eapply all_loaded_cons.
    + rewrite Hseg. exists m. split; [done|]. by apply all_loaded_nil.
Qed.

End Segments.

(** What a segment opens lies in the region or in the page behind it, and
    covers the segment. *)
Lemma seg_opens_bound size s v :
  seg_ok size s = true -> seg_opens s v = true -> 0x800000 <= v < 0x901000.
Proof.
  unfold seg_ok, seg_opens. intros Hok Ho. bool_to_prop.
  replace (is_load s) with true in Hok by done. cbn [negb orb] in Hok. bool_to_prop.
  match goal with H : (_ || _) = true |- _ => apply orb_true_iff in H as [?|?]; bool_to_prop; [done|] end.
  assert (ph_memsz s + ph_vaddr s <= 0x900000) by lia.
  assert ((ph_memsz s + 4095) / 4096 * 4096 <= ph_memsz s + 4095) by mlia. split; [mlia|].
  assert ((ph_vaddr s + (ph_memsz s + 4095) / 4096 * 4096 + 4095) / 4096 * 4096 <= 0x901000); [|lia].
  mlia.
Qed.

Lemma all_opens_bound size segs v :
  existsb (fun s => seg_opens s v) (good_prefix size segs) = true -> 0x800000 <= v < 0x901000.
Proof.
  induction segs as [|s segs IH]; simpl; [done|]. destruct (seg_ok size s) eqn:Hs; simpl; [|done].
  intros [Ho|Ho]%orb_true_iff; [by eapply seg_opens_bound|by apply IH].
Qed.

(** ** The whole loader *)

(** A file that passes the tests of the code. *)
Definition accepts (file : mem) (size : Z) : bool :=
  check_ehdr file 0 size && forallb (seg_ok size) (image_headers file).

Lemma check_ehdr_table m e size :
  mem_wf m -> check_ehdr m e size = true -> e_phoff m e + 32 * e_phnum m e <= size.
Proof.
  intros Hm Hc. assert (Ho : is_u32 (e_phoff m e)) by (apply ld32_u32; done).
  assert (Hn : 0 <= e_phnum m e < 65536).
  { unfold e_phnum, ld16. pose proof (Hm (e + 44)). pose proof (Hm (e + 44 + 1)). unfold is_u8 in *. lia. }
  unfold check_ehdr in Hc. repeat (case_match; try done). bool_to_prop.
  unfold sizeof_elf32_phdr, is_u32 in *. rewrite (u32_small (e_phnum m e * 32)) in * by lia.
  destruct (decide (e_phoff m e + e_phnum m e * 32 < 2 ^ 32)) as [Hlt|Hge].
  - rewrite u32_small in * by lia. lia.
  - assert (u32 (e_phoff m e + e_phnum m e * 32) = e_phoff m e + e_phnum m e * 32 - 2 ^ 32).
    { unfold u32. symmetry. apply (Z.mod_unique_pos _ _ 1); lia. }
    lia.
Qed.

Lemma check_ehdr_holds image size m file :
  52 <= size -> holds image size m file -> check_ehdr m image size = check_ehdr file 0 size.
Proof.
  intros H52 Hh. unfold check_ehdr, e_ident, e_machine, e_version, e_ehsize, e_phentsize, e_phoff, e_phnum.
  rewrite <- (Z.add_0_r image) at 1.
  rewrite !(holds_ld32 image size m file), !(holds_ld16 image size m file), !Hh by (done || lia). done.
Qed.

Lemma good_prefix_all size segs : forallb (seg_ok size) segs = true -> good_prefix size segs = segs.
Proof. induction segs as [|s segs IH]; simpl; [done|]. intros [-> Hs]%andb_true_iff. by rewrite IH. Qed.


(** The code reads the same header fields, and its tests are those of the
    specification: the sum that may wrap is compared with its first summand. *)
Lemma half_ld16 m o : ld16 m o = half m o.
Proof. done. Qed.

Lemma word_ld32 m o : ld32 m o = word m o.
Proof. unfold ld32, word, half. replace (o + 2 + 1) with (o + 3) by lia. lia. Qed.

Lemma image_headers_spec file : image_headers file = file_headers file.
Proof.
  unfold image_headers, file_headers, e_phnum. rewrite half_ld16.
  assert (Hh : forall n i, headers file 0 i n = List.map (file_phdr file) (seqZ i (Z.of_nat n))).
  { induction n as [|n IH]; intros i; cbn [headers]; [done|]. rewrite IH, (seqZ_cons i) by lia. cbn [List.map].
    replace (Z.pred (Z.of_nat (S n))) with (Z.of_nat n) by lia. rewrite <- Z.add_1_r. f_equal.
    unfold read_phdr, file_phdr, p_type, p_offset, p_vaddr, p_filesz, p_memsz, e_phoff, sizeof_elf32_phdr.
    rewrite !word_ld32. cbn [Z.add]. by rewrite (Z.mul_comm i 32). }
  rewrite Hh, Z.add_0_l. destruct (decide (0 <= half file 44)); [by rewrite Z2Nat.id|].
  rewrite Z2Nat.nonpos, !seqZ_nil by lia. done.
Qed.

Lemma ident_spec file :
  mem_wf file ->
  (word file 0 =? ELF32_MAGIC) && (ld8 file 4 =? 1) && (ld8 file 5 =? 1) && (ld8 file 6 =? 1) =
  bool_decide (List.map (ld8 file) (seqZ 0 7) = elf_ident).
Proof.
  intros Hm. change (seqZ 0 7) with [0; 1; 2; 3; 4; 5; 6]. cbn [List.map]. unfold elf_ident, word, half, ELF32_MAGIC.
  pose proof (Hm 0). pose proof (Hm 1). pose proof (Hm 2). pose proof (Hm 3). unfold is_u8 in *.
  rewrite !Z.add_0_l. change (2 + 1) with 3.
  case_bool_decide as E.
  - injection E as -> -> -> -> -> -> ->. done.
  - apply not_true_is_false. intros Ht. apply E. bool_to_prop.
    assert (ld8 file 0 = 0x7F /\ ld8 file 1 = 69 /\ ld8 file 2 = 76 /\ ld8 file 3 = 70) by lia. intuition congruence.
Qed.

Lemma check_ehdr_spec file size :
  mem_wf file -> is_u32 size -> check_ehdr file 0 size = elf_header_ok file size.
Proof.
  intros Hm Hs. unfold elf_header_ok. rewrite <- (ident_spec file Hm).
  unfold check_ehdr, e_ident, e_machine, e_version, e_ehsize, e_phentsize, e_phoff, e_phnum.
  rewrite !word_ld32, !Z.add_0_l. change (ld16 file) with (half file).
  change ELF32_CLASS_32 with 1. change ELF32_DATA_LSB with 1. change ELF32_VERSION_CURRENT with 1.
  change ELF32_MACHINE_386 with 3. change sizeof_elf32_ehdr with 52. change sizeof_elf32_phdr with 32.
  assert (Ho : is_u32 (word file 28)) by (rewrite <- word_ld32; by apply ld32_u32).
  assert (Hn : 0 <= half file 44 < 65536).
  { unfold half. pose proof (Hm 44). pose proof (Hm (44 + 1)). unfold is_u8 in *. lia. }
  unfold is_u32 in *. rewrite (u32_small (half file 44 * 32)) by lia.
  assert (Hend : (u32 (word file 28 + half file 44 * 32) <? word file 28) || (size <? u32 (word file 28 + half file 44 * 32))
                 = negb (word file 28 + 32 * half file 44 <=? size)).
  { destruct (decide (word file 28 + half file 44 * 32 < 2 ^ 32)) as [Hlt|Hge].
    - rewrite u32_small by lia. lia.
    - assert (Ew : u32 (word file 28 + half file 44 * 32) = word file 28 + half file 44 * 32 - 2 ^ 32).
      { unfold u32. symmetry. apply (Z.mod_unique_pos _ _ 1); lia. }
      rewrite Ew. lia. }
  rewrite Hend. clear. repeat case_match; lia.
Qed.

Lemma accepts_spec file size :
  mem_wf file -> is_u32 size -> (52 <=? size) && accepts file size = elf_ok file size.
Proof.
  intros Hm Hs. unfold accepts, elf_ok. by rewrite check_ehdr_spec, image_headers_spec, andb_assoc.
Qed.

Section WholeLoader.
Context {H : Type} `{HA : Allocator H} {HLaws : AllocatorLaws H}.
Context {vfs_node_t : Type} `{HV : Vfs vfs_node_t} {HVLaws : VfsLaws vfs_node_t}.
Context (g_page_directory g_page_tables : Z).
Abbreviation tables := (table_area g_page_directory g_page_tables).
Abbreviation wf := (tables_wf g_page_directory g_page_tables).
Abbreviation uaccess := (fun m v => user_accessible m g_page_directory v).

(** Where things are: the page tables, the heap, the file system's memory,
    the user region and the caller's [entry_point_out] do not overlap. *)
Record load_layout (entry_point_out : Z) : Prop := {
  ll_tables : layout g_page_directory g_page_tables;
  ll_user_tables x : user_region x -> ~ tables x;
  ll_heap x : heap_area x -> ~ user_region x /\ ~ tables x /\ ~ vfs_area x;
  ll_vfs x : vfs_area x -> ~ user_region x /\ ~ tables x;
  ll_out x : entry_point_out <= x < entry_point_out + 4 ->
    ~ user_region x /\ ~ tables x /\ ~ heap_area x
}.

(** What a call may change. *)
Definition load_effect (entry_point_out x : Z) : Prop :=
  user_region x \/ tables x \/ heap_area x \/ vfs_area x \/ entry_point_out <= x < entry_point_out + 4.

(** The outcome of a call that loads the segments [segs]. *)
Record outcome (file : mem) (segs : list phdr) (entry_point_out : Z) (owned : list (Z * Z)) (h h' : H) : Prop := {
  oc_heap : heap_inv h' owned;
  oc_tables : wf (heap_mem h');
  oc_frame : same_outside (load_effect entry_point_out) (heap_mem h) (heap_mem h');
  oc_bytes a : user_region a -> ld8 (heap_mem h') a = loaded_byte file segs a (ld8 (heap_mem h) a);
  oc_access v : is_u32 v ->
    uaccess (heap_mem h') v = existsb (fun s => seg_opens s v) segs || uaccess (heap_mem h) v
}.

(** Steps of the heap and of the file system load nothing. *)
Lemma outcome_quiet epo file segs owned h0 h h' :
  load_layout epo -> heap_inv h' owned -> wf (heap_mem h0) ->
  same_outside (fun x => heap_area x \/ vfs_area x) (heap_mem h0) (heap_mem h) ->
  outcome file segs epo owned h h' -> outcome file segs epo owned h0 h'.
Proof.
  intros L Hinv Hwf Hs [_ Hw Hf Hb Ha].
  assert (Hq : forall x, user_region x \/ tables x -> ld8 (heap_mem h) x = ld8 (heap_mem h0) x).
  { intros x Hx. apply Hs. intros [Hy|Hy].
    - destruct (ll_heap _ L x Hy) as (? & ? & _). tauto.
    - destruct (ll_vfs _ L x Hy). tauto. }
  destruct (tables_wf_same _ _ (ll_tables _ L) (heap_mem h0) (heap_mem h)) as [_ Hacc]; [intros; apply Hq; tauto|done|].
  split; try done.
  - etransitivity; [|exact Hf]. eapply same_outside_mono; [|exact Hs]. unfold load_effect. tauto.
  - intros a Hu. rewrite Hb, Hq by tauto. done.
  - intros v Hv. by rewrite Ha, Hacc.
Qed.

Lemma outcome_nothing epo file owned h h' :
  load_layout epo -> heap_inv h' owned -> wf (heap_mem h) ->
  same_outside (fun x => heap_area x \/ vfs_area x) (heap_mem h) (heap_mem h') ->
  outcome file [] epo owned h h'.
Proof.
  intros L Hinv Hwf Hs. eapply outcome_quiet; try done. split; try done.
  destruct (tables_wf_same _ _ (ll_tables _ L) (heap_mem h) (heap_mem h')) as [Hw _]; try done.
  intros x Hx. apply Hs. intros [Hy|Hy]; [by destruct (ll_heap _ L x Hy) as (? & ? & _)|by destruct (ll_vfs _ L x Hy)].
Qed.

(** Freeing the image, and storing the entry point before, keep an outcome. *)
Lemma outcome_free epo file segs owned h h1 p n :
  load_layout epo -> heap_inv h1 ((p, n) :: owned) ->
  outcome file segs epo ((p, n) :: owned) h h1 ->
  outcome file segs epo owned h (kfree p h1) /\
  forall x, ~ heap_area x -> ld8 (heap_mem (kfree p h1)) x = ld8 (heap_mem h1) x.
Proof.
  intros L Hinv [_ Hw Hf Hb Ha]. destruct (kfree_ok h1 p n owned Hinv) as [Hinv' Hs]. split; [|exact Hs].
  assert (Hq : forall x, user_region x \/ tables x -> ld8 (heap_mem (kfree p h1)) x = ld8 (heap_mem h1) x).
  { intros x Hx. apply Hs. intros Hy. destruct (ll_heap _ L x Hy) as (? & ? & _). tauto. }
  destruct (tables_wf_same _ _ (ll_tables _ L) (heap_mem h1) (heap_mem (kfree p h1))) as [Hw' Hacc]; [intros; apply Hq; tauto|done|].
  split; try done.
  - etransitivity; [exact Hf|]. eapply same_outside_mono; [|exact Hs]. unfold load_effect. tauto.
  - intros a Hu. rewrite Hq, Hb by tauto. done.
  - intros v Hv. by rewrite Hacc, Ha.
Qed.

(** After the segments: the outcome on the memory that the loop leaves. *)
Lemma outcome_loaded epo file segs owned h m1 p n :
  load_layout epo -> heap_inv h ((p, n) :: owned) ->
  all_loaded g_page_directory g_page_tables file segs (heap_mem h) m1 ->
  outcome file segs epo ((p, n) :: owned) h (set_heap_mem h m1).
Proof.
  intros L Hinv [Hm Hw Hf Hb Ha]. split; rewrite ?heap_mem_set; try done.
  - apply heap_inv_write; [done|done|]. intros x Hx _. apply Hf.
    destruct (ll_heap _ L x Hx) as (? & ? & _). by intros [?|?].
  - eapply same_outside_mono; [|exact Hf]. unfold load_area, load_effect. tauto.
Qed.

Lemma outcome_store epo file segs owned h h1 p n v :
  load_layout epo -> heap_inv h1 ((p, n) :: owned) ->
  outcome file segs epo ((p, n) :: owned) h h1 ->
  outcome file segs epo ((p, n) :: owned) h (set_heap_mem h1 (st32 (heap_mem h1) epo v)).
Proof.
  intros L Hinv [_ Hw Hf Hb Ha].
  assert (Hs : same_outside (fun x => epo <= x < epo + 4) (heap_mem h1) (st32 (heap_mem h1) epo v))
    by (apply same_outside_st32; lia).
  assert (Hm : mem_wf (heap_mem h1)) by (by eapply heap_inv_wf).
  assert (Hx : forall x, user_region x \/ tables x \/ heap_area x ->
            ld8 (st32 (heap_mem h1) epo v) x = ld8 (heap_mem h1) x).
  { intros x Hx. apply Hs. intros Hy. destruct (ll_out _ L x Hy) as (? & ? & ?). tauto. }
  destruct (tables_wf_same _ _ (ll_tables _ L) (heap_mem h1) (st32 (heap_mem h1) epo v)) as [Hw' Hacc];
    [intros; apply Hx; tauto|done|].
  split; rewrite ?heap_mem_set; try done.
  - apply heap_inv_write; [done|auto with kernel|]. intros x Ho _. apply Hx. tauto.
  - etransitivity; [exact Hf|]. eapply same_outside_mono; [|exact Hs]. unfold load_effect. tauto.
  - intros a Hu. rewrite Hx, Hb by tauto. done.
  - intros u Hu. by rewrite Hacc, Ha.
Qed.

Lemma load_image_spec epo image size file owned h :
  load_layout epo -> heap_inv h ((image, size) :: owned) -> wf (heap_mem h) ->
  52 <= size -> mem_wf file -> holds image size (heap_mem h) file ->
  exists h' segs,
    load_image g_page_directory g_page_tables image size epo h = Some (accepts file size, h') /\
    outcome file segs epo owned h h' /\
    (forall v, existsb (fun s => seg_opens s v) segs = true -> 0x800000 <= v < 0x901000) /\
    (accepts file size = true -> segs = image_headers file /\ ld32 (heap_mem h') epo = e_entry file 0).
Proof.
  intros L Hinv Hwf H52 Hfile Hh. unfold load_image, accepts.
  pose proof (heap_inv_wf h _ Hinv) as Hm.
  rewrite (check_ehdr_holds image size _ file) by done.
  destruct (heap_region h _ image size Hinv ltac:(by left)) as (Hi0 & Hi1 & Hreg).
  destruct (check_ehdr file 0 size) eqn:Hc; cbn [negb andb].
  2: { exists (kfree image h), []. split; [done|]. split; [|by split].
       destruct (kfree_ok h image size owned Hinv) as [Hinv' Hs].
       apply outcome_nothing; try done. eapply same_outside_mono; [|exact Hs]. tauto. }
  assert (Hnum : 0 <= e_phnum file 0 < 65536).
  { pose proof (Hfile 44) as B44. pose proof (Hfile 45) as B45. unfold is_u8 in B44, B45.
    unfold e_phnum, ld16. rewrite !Z.add_0_l. change (44 + 1) with 45. lia. }
  assert (Hblock : forall x, image <= x < image + size -> ~ user_region x /\ ~ tables x).
  { intros x Hx. destruct (ll_heap _ L x (Hreg x Hx)) as (? & ? & _). tauto. }
  destruct (load_segments_spec g_page_directory g_page_tables (ll_tables _ L) (ll_user_tables _ L)
              image size ltac:(lia) ltac:(lia) Hblock file H52 Hfile
              (check_ehdr_table file 0 size Hfile Hc) (Z.to_nat (e_phnum file 0)) phdr_fuel 0 (heap_mem h))
    as (m1 & -> & Hal); try done; try (unfold phdr_fuel; lia).
  fold (image_headers file) in *. cbn [mbind option_bind].
  pose proof (all_opens_bound size (image_headers file)) as Hop.
  pose proof (outcome_loaded epo file _ owned h m1 image size L Hinv Hal) as Ho.
  destruct (forallb (seg_ok size) (image_headers file)) eqn:Hall; cbn [negb].
  - rewrite good_prefix_all in Ho, Hal, Hop by done.
    assert (Ee : e_entry m1 image = e_entry file 0).
    { apply (holds_ld32 image size m1 file 24); [|lia|lia].
      apply (holds_same g_page_directory g_page_tables image size Hblock (heap_mem h)); [done|apply Hal]. }
    rewrite Ee.
    pose proof (outcome_store epo file _ owned h _ image size (e_entry file 0) L (oc_heap _ _ _ _ _ _ Ho) Ho) as Ho2.
    rewrite heap_mem_set in Ho2.
    set (h2 := set_heap_mem (set_heap_mem h m1) _) in *.
    destruct (outcome_free epo file _ owned h h2 image size L (oc_heap _ _ _ _ _ _ Ho2) Ho2) as [Ho3 Hq].
    exists (kfree image h2), (image_headers file). split; [done|]. split; [done|]. split; [exact Hop|]. intros _. split; [done|].
    rewrite (ld32_same (heap_mem h2)).
    + subst h2. rewrite heap_mem_set. apply ld32_st32_eq. by apply ld32_u32.
    + intros i Hi. apply Hq. by apply (ll_out _ L).
  - set (h2 := set_heap_mem h m1) in *.
    destruct (outcome_free epo file _ owned h h2 image size L (oc_heap _ _ _ _ _ _ Ho) Ho) as [Ho3 _].
    eexists _, _. split; [done|]. split; [exact Ho3|]. split; [exact Hop|done].
Qed.

(** From the call on: what every path does. *)
Lemma load_elf_outcome epo node owned h :
  load_layout epo -> heap_inv h owned -> wf (heap_mem h) -> node_size node <= max_request ->
  exists ok h' segs,
    load_elf_program_from_vfs g_page_directory g_page_tables (Some node) epo h = Some (ok, h') /\
    outcome (vfs_file node) segs epo owned h h' /\
    (forall v, existsb (fun s => seg_opens s v) segs = true -> 0x800000 <= v < 0x901000) /\
    (ok = true -> segs = image_headers (vfs_file node) /\
       ld32 (heap_mem h') epo = e_entry (vfs_file node) 0) /\
    (forall image h1, epo <> 0 -> node_type node = VFS_TYPE_FILE ->
       kmalloc (node_size node) h = Some (image, h1) -> image <> 0 ->
       (vfs_read node 0 (node_size node) image (heap_mem h1)).1 = true ->
       ok = (sizeof_elf32_ehdr <=? node_size node) && accepts (vfs_file node) (node_size node)).
Proof.
  intros L Hinv Hwf Hsz.
  assert (Hquiet : forall h', heap_inv h' owned ->
            same_outside (fun x => heap_area x \/ vfs_area x) (heap_mem h) (heap_mem h') ->
            outcome (vfs_file node) [] epo owned h h') by (intros; by apply outcome_nothing).
  unfold load_elf_program_from_vfs.
  destruct (Z.eqb_spec epo 0); [exists false, h, []; split_and!; try done; by apply Hquiet|].
  destruct (Z.eqb_spec (node_type node) VFS_TYPE_FILE); cbn [negb];
    [|exists false, h, []; split_and!; try done; by apply Hquiet].
  unfold sizeof_elf32_ehdr. destruct (Z.ltb_spec (node_size node) 52) as [?|H52].
  { exists false, h, []. split_and!; try done; try (by apply Hquiet).
    intros. by rewrite (proj2 (Z.leb_gt 52 (node_size node))). }
  rewrite (proj2 (Z.leb_le 52 (node_size node))) by done. cbn [andb].
  assert (Hsz' : 0 < node_size node <= max_request) by lia.
  destruct (kmalloc_ok h owned (node_size node) Hinv Hsz') as (image & h1 & -> & Hinv1 & Hs1).
  cbn [mbind option_bind].
  assert (Hs1' : same_outside (fun x => heap_area x \/ vfs_area x) (heap_mem h) (heap_mem h1))
    by (eapply same_outside_mono; [|exact Hs1]; tauto).
  destruct (Z.eqb_spec image 0) as [Hz|Hz].
  { exists false, h1, []. split_and!; try done; try (by apply Hquiet). intros ? ? _ _ [= <- <-]. done. }
  pose proof (heap_inv_wf h1 _ Hinv1) as Hm1.
  pose proof (vfs_read_wf node 0 (node_size node) image (heap_mem h1) Hm1) as Hm2.
  pose proof (vfs_read_frame node 0 (node_size node) image (heap_mem h1)) as Hs2.
  pose proof (fun i => vfs_read_bytes node 0 (node_size node) image (heap_mem h1) i) as Hb2.
  destruct (heap_region h1 _ image (node_size node) Hinv1 ltac:(by left)) as (Hi0 & Hi1 & Hreg).
  destruct (vfs_read node 0 (node_size node) image (heap_mem h1)) as [ok m2] eqn:Ev. simpl in Hm2, Hs2, Hb2.
  set (h2 := set_heap_mem h1 m2).
  assert (Hinv2 : heap_inv h2 ((image, node_size node) :: owned)).
  { apply heap_inv_write; [done|done|]. intros x Hx Hnx. apply Hs2. intros [?|Hv]; [done|].
    by destruct (ll_heap _ L x Hx) as (_ & _ & ?). }
  assert (Hs3 : same_outside (fun x => heap_area x \/ vfs_area x) (heap_mem h) (heap_mem h2)).
  { etransitivity; [exact Hs1'|]. subst h2. rewrite heap_mem_set. eapply same_outside_mono; [|exact Hs2].
    intros x [Hx|?]; [left; by apply Hreg|by right]. }
  destruct ok; cbn [negb].
  2: { destruct (kfree_ok h2 image (node_size node) owned Hinv2) as [Hinv3 Hs4].
       exists false, (kfree image h2), []. split_and!; try done.
       - apply Hquiet; [done|]. etransitivity; [exact Hs3|]. eapply same_outside_mono; [|exact Hs4]. tauto.
       - intros ? ? _ _ [= <- <-] _. by rewrite Ev. }
  destruct (tables_wf_same _ _ (ll_tables _ L) (heap_mem h) (heap_mem h2)) as [Hwf2 _]; try done.
  { intros x Hx. apply Hs3. intros [Hy|Hy]; [by destruct (ll_heap _ L x Hy) as (? & ? & _)|by destruct (ll_vfs _ L x Hy)]. }
  destruct (load_image_spec epo image (node_size node) (vfs_file node) owned h2)
    as (h' & segs & -> & Hoc & Hop & Htrue); try done.
  { apply vfs_file_wf. }
  { intros i Hi. subst h2. rewrite heap_mem_set. by rewrite Hb2. }
  exists (accepts (vfs_file node) (node_size node)), h', segs. split_and!; try done.
  apply (outcome_quiet epo _ segs owned h h2); try done. apply Hoc.
Qed.

End WholeLoader.

(** ** Properties *)

(** C14: loading a node is safe.  Whatever bytes the file holds, for every file
    of a size that kmalloc can take ([max_request], all but the last 64 below
    4 GiB; what kmalloc does with a larger size is C40) the call returns; it
    changes memory only in the user region, the page tables, the heap, the file
    system's memory and [*entry_point_out]; it gives back the heap block that
    it takes; and ring 3 gains access at most to the user region and to the
    page behind it. *)
Theorem load_elf_safe {H : Type} `{HA : Allocator H} {HLaws : AllocatorLaws H}
    {vfs_node_t : Type} `{HV : Vfs vfs_node_t} {HVLaws : VfsLaws vfs_node_t}
    (g_page_directory g_page_tables epo : Z) (node : option vfs_node_t) (owned : list (Z * Z)) (h : H) :
  load_layout g_page_directory g_page_tables epo ->
  heap_inv h owned -> tables_wf g_page_directory g_page_tables (heap_mem h) ->
  (forall n, node = Some n -> node_size n <= max_request) ->
  exists ok h',
    load_elf_program_from_vfs g_page_directory g_page_tables node epo h = Some (ok, h') /\
    heap_inv h' owned /\
    tables_wf g_page_directory g_page_tables (heap_mem h') /\
    same_outside (load_effect g_page_directory g_page_tables epo) (heap_mem h) (heap_mem h') /\
    forall v, is_u32 v -> user_accessible (heap_mem h') g_page_directory v = true ->
      user_accessible (heap_mem h) g_page_directory v = true \/ 0x800000 <= v < 0x901000.
Proof.
  intros L Hinv Hwf Hsz. destruct node as [node|].
  2: { exists false, h. split_and!; try done. by left. }
  destruct (load_elf_outcome g_page_directory g_page_tables epo node owned h L Hinv Hwf (Hsz node eq_refl))
    as (ok & h' & segs & Hrun & [Hi Hw Hf _ Ha] & Hop & _).
  exists ok, h'. split_and!; try done. intros v Hv. rewrite Ha by done.
  intros [?|?]%orb_true_iff; [right; by apply Hop|by left].
Qed.

(** C3: the loader implements the abstract loader.  When the heap block and
    the read are granted, it accepts exactly the well-formed files ([elf_ok],
    written from the ELF specification: identification, processor, version,
    sizes and place of the headers, and every loadable segment inside the file
    and inside the user region); then every byte of the user region is the
    byte that the loadable segments of the file put there (file bytes, then
    zeros, later segments over earlier ones) or its old value, user access is
    extended by the pages of the segments, and [*entry_point_out] is the entry
    point of the file.  The file has a size that kmalloc can take (C40 shows
    what happens beyond). *)
Theorem load_elf_correct {H : Type} `{HA : Allocator H} {HLaws : AllocatorLaws H}
    {vfs_node_t : Type} `{HV : Vfs vfs_node_t} {HVLaws : VfsLaws vfs_node_t}
    (g_page_directory g_page_tables epo : Z) (node : vfs_node_t) (owned : list (Z * Z)) (h h1 : H) (image : Z) :
  load_layout g_page_directory g_page_tables epo ->
  heap_inv h owned -> tables_wf g_page_directory g_page_tables (heap_mem h) ->
  epo <> 0 -> node_type node = VFS_TYPE_FILE -> node_size node <= max_request ->
  kmalloc (node_size node) h = Some (image, h1) -> image <> 0 ->
  (vfs_read node 0 (node_size node) image (heap_mem h1)).1 = true ->
  let file := vfs_file node in
  exists h',
    load_elf_program_from_vfs g_page_directory g_page_tables (Some node) epo h = Some (elf_ok file (node_size node), h') /\
    (elf_ok file (node_size node) = true ->
     (forall a, user_region a ->
        ld8 (heap_mem h') a = loaded_byte file (file_headers file) a (ld8 (heap_mem h) a)) /\
     (forall v, is_u32 v -> user_accessible (heap_mem h') g_page_directory v
        = existsb (fun s => seg_opens s v) (file_headers file)
          || user_accessible (heap_mem h) g_page_directory v) /\
     ld32 (heap_mem h') epo = file_entry file).
Proof.
  intros L Hinv Hwf He Ht Hsz Hk Hi Hr file.
  destruct (load_elf_outcome g_page_directory g_page_tables epo node owned h L Hinv Hwf Hsz)
    as (ok & h' & segs & Hrun & [_ _ _ Hb Ha] & _ & Htrue & Hok).
  assert (Ea : ok = elf_ok file (node_size node)).
  { rewrite <- accepts_spec by (apply vfs_file_wf || apply node_size_u32). by apply (Hok image h1). }
  rewrite Ea in Hrun, Htrue.
  exists h'. split; [done|]. intros Hacc. destruct (Htrue Hacc) as [-> Hentry]. rewrite image_headers_spec in *.
  split; [done|]. split; [done|]. rewrite Hentry. apply word_ld32.
Qed.

(** The entry point is not checked: replacing the [e_entry] field of an
    accepted file by any address leaves the file accepted, and the loader
    reports that address.  (The program headers start behind the file
    header, as in any ELF file.) *)
Theorem entry_point_unchecked (file : mem) (size v : Z) :
  mem_wf file -> is_u32 v -> is_u32 size -> elf_ok file size = true -> 52 <= word file 28 ->
  elf_ok (st32 file 24 v) size = true /\ file_entry (st32 file 24 v) = v.
Proof.
  intros Hm Hv Hsz Hok Hpo. unfold file_entry. rewrite <- word_ld32 in Hpo |- *. split; [|by apply ld32_st32_eq].
  rewrite <- accepts_spec in Hok |- * by auto with kernel. apply andb_true_iff in Hok as [H52 Hok]. rewrite H52. cbn [andb].
  unfold accepts in *. apply andb_true_iff in Hok as [Hc Hs].
  assert (E32 : forall a, a + 4 <= 24 \/ 28 <= a -> ld32 (st32 file 24 v) a = ld32 file a)
    by (intros; apply ld32_st32_ne; lia).
  assert (E8 : forall a, a < 24 \/ 28 <= a -> ld8 (st32 file 24 v) a = ld8 file a)
    by (intros; apply ld8_st32_ne; lia).
  assert (E16 : forall a, a + 2 <= 24 \/ 28 <= a -> ld16 (st32 file 24 v) a = ld16 file a)
    by (intros; unfold ld16; rewrite !E8 by lia; done).
  apply andb_true_iff. split.
  - rewrite <- Hc. unfold check_ehdr, e_ident, e_machine, e_version, e_ehsize, e_phentsize, e_phoff, e_phnum.
    by rewrite !E32, !E16, !E8 by lia.
  - rewrite <- Hs. unfold image_headers, e_phnum. rewrite E16 by lia. f_equal.
    assert (Eo : e_phoff (st32 file 24 v) 0 = e_phoff file 0) by (apply E32; lia).
    assert (Hh : forall n i, 0 <= i -> headers (st32 file 24 v) 0 i n = headers file 0 i n).
    { change (ld32 file 28) with (e_phoff file 0) in Hpo. induction n as [|n IH]; intros i Hi; cbn [headers]; [done|].
      rewrite IH, Eo by lia. f_equal.
      unfold read_phdr, p_type, p_offset, p_vaddr, p_filesz, p_memsz, sizeof_elf32_phdr.
      by rewrite !E32 by lia. }
    by rewrite Hh.
Qed.

(** User access can leak behind the region.  A one-byte segment at the
    last address of the user region is accepted, and loading it opens the page
    at 0x900000, which is not part of the region, to ring 3. *)
Theorem segment_opens_next_page (g_page_directory g_page_tables image size p : Z) (m file : mem) :
  layout g_page_directory g_page_tables ->
  (forall x, user_region x -> ~ table_area g_page_directory g_page_tables x) ->
  (forall x, image <= x < image + size -> ~ user_region x /\ ~ table_area g_page_directory g_page_tables x) ->
  mem_wf m -> tables_wf g_page_directory g_page_tables m -> holds image size m file ->
  0 <= image <= p -> p + 32 <= image + size -> image + size < 2 ^ 32 ->
  read_phdr m p = mkPhdr ELF32_PT_LOAD 0 0x8FFFFF 1 1 ->
  exists m', load_segment g_page_directory g_page_tables image size p m = Some (true, m') /\
    user_accessible m' g_page_directory 0x900000 = true /\ ~ user_region 0x900000.
Proof.
  intros L Hut Hb Hm Hwf Hh Hp1 Hp2 He Hph.
  pose proof (load_segment_spec g_page_directory g_page_tables L Hut image size ltac:(lia) He Hb m
    file p Hm Hwf Hh ltac:(lia) Hp2) as Hseg.
  cbn zeta in Hseg. rewrite Hph in Hseg.
  replace (seg_ok size _) with true in Hseg.
  - destruct Hseg as (m' & -> & [_ _ _ _ Ha]). exists m'. split; [done|]. split.
    + rewrite Ha by (unfold is_u32; lia). reflexivity.
    + unfold user_region, USER_PROGRAM_BASE, USER_PROGRAM_MAX_SIZE. lia.
  - unfold seg_ok. cbn [ph_offset ph_filesz ph_memsz ph_vaddr is_load ph_type]. z_cases; done || lia.
Qed.

(** ** Witnesses: a RAM file system and the heap of arch/memory.c *)

(** A file in memory: a node is the list of its bytes. *)
#[local] Instance ram_vfs : Vfs (list Z) := {|
  node_type := fun _ => 1;
  node_size := fun l => Z.min (Z.of_nat (length l)) (2 ^ 32 - 1);
  VFS_TYPE_FILE := 1;
  vfs_read := fun l off len buf m =>
    if (0 <=? off) && (off + len <=? Z.of_nat (length l))
    then (true, poke buf (take (Z.to_nat len) (drop (Z.to_nat off) l)) m) else (false, m);
  vfs_file := fun l => poke 0 l ∅;
  vfs_area := fun _ => False
|}.

#[local] Instance ram_vfs_laws : VfsLaws (list Z).
Proof.
  split; simpl.
  - intros l. unfold is_u32. lia.
  - intros. apply poke_wf; auto with kernel.
  - intros. case_cond; simpl; auto using poke_wf.
  - intros. case_cond; simpl; [|done]. intros x Hx. rewrite poke_ld8, length_take, length_drop.
    case_cond; [|done]. exfalso. apply Hx. lia.
  - intros l off len buf m i. case_cond; simpl; [|done]. intros _ Hi.
    rewrite !poke_ld8, length_take, length_drop.
    rewrite (proj2 (Z.leb_le buf (buf + i))), (proj2 (Z.ltb_lt (buf + i) _)) by lia.
    rewrite (proj2 (Z.leb_le 0 (off + i))), (proj2 (Z.ltb_lt (off + i) _)) by lia. cbn [andb].
    unfold getZ. rewrite lookup_take_lt, lookup_drop by lia. do 3 f_equal. lia.
Qed.

(** A small program: one segment of four bytes at 0x800000, zero-filled to
    eight, entered at 0x800000. *)
Definition tiny_elf : list Z :=
  [ 0x7F; 0x45; 0x4C; 0x46; 1; 1; 1; 0; 0; 0; 0; 0; 0; 0; 0; 0;
    2; 0; 3; 0; 1; 0; 0; 0; 0x00; 0x00; 0x80; 0x00; 52; 0; 0; 0;
    0; 0; 0; 0; 0; 0; 0; 0; 52; 0; 32; 0; 1; 0; 0; 0; 0; 0; 0; 0;
    1; 0; 0; 0; 84; 0; 0; 0; 0x00; 0x00; 0x80; 0x00; 0x00; 0x00; 0x80; 0x00;
    4; 0; 0; 0; 8; 0; 0; 0; 7; 0; 0; 0; 0; 0x10; 0; 0;
    0x90; 0xCD; 0x80; 0xC3 ].

#[local] Instance heap_at_allocator : Allocator Heap.heap := Heap.heap_allocator Heap.heap_at.
#[local] Instance heap_at_laws : AllocatorLaws Heap.heap :=
  Heap.heap_allocator_laws Heap.heap_at Heap.heap_at_layout.

(** The regions of the sample layout as numbers. *)
Ltac sample_regions :=
  unfold user_region, table_area; simpl;
  change (USER_PROGRAM_BASE + USER_PROGRAM_MAX_SIZE) with 0x900000;
  change USER_PROGRAM_BASE with 0x800000; change (4096 * IDENTITY_TABLES) with 0x20000;
  change Heap.heap_at with 0x200000; change Heap.HEAP_SIZE with 0x80000.

Lemma sample_load_layout : load_layout (H := Heap.heap) (vfs_node_t := list Z) 0x300000 0x301000 0x100000.
Proof.
  split.
  - split; vm_compute; intuition congruence.
  - intros x. sample_regions. lia.
  - intros x. sample_regions. lia.
  - intros x [].
  - intros x. sample_regions. lia.
Qed.

Lemma sample_heap_inv : heap_inv Heap.ready_heap [].
Proof.
  destruct Heap.heap_at_layout as [Hlow Hhigh _]. destruct Heap.fresh_heap_fresh as [Hr Hm].
  exact (Heap.client_inv_init Heap.heap_at Heap.fresh_heap Hr Hm).
Qed.

Lemma sample_heap_tables : tables_wf 0x300000 0x301000 (heap_mem Heap.ready_heap).
Proof.
  apply tables_wf_zero; intros i Hi; simpl; unfold Heap.ready_heap, Heap.heap_init; simpl;
    unfold Heap.set_magic, Heap.set_size, Heap.set_free, Heap.set_next, Heap.set_prev;
    change Heap.heap_at with 0x200000;
    rewrite !ld32_st32_ne, !ld32_st8_ne, !ld32_st32_ne by lia; apply ld32_empty.
Qed.

Lemma load_elf_safe_witness :
  exists ok h', load_elf_program_from_vfs 0x300000 0x301000 (Some tiny_elf) 0x100000 Heap.ready_heap = Some (ok, h') /\
    heap_inv h' [].
Proof.
  destruct (load_elf_safe 0x300000 0x301000 0x100000 (Some tiny_elf) [] Heap.ready_heap sample_load_layout
              sample_heap_inv sample_heap_tables) as (ok & h' & Hrun & Hinv & _).
  { intros n [= <-]. vm_compute. congruence. }
  exists ok, h'. split; [exact Hrun|exact Hinv].
Defined.

Lemma load_elf_correct_witness :
  exists h', load_elf_program_from_vfs 0x300000 0x301000 (Some tiny_elf) 0x100000 Heap.ready_heap = Some (true, h') /\
    ld8 (heap_mem h') 0x800002 = 0x80 /\ ld8 (heap_mem h') 0x800005 = 0 /\
    user_accessible (heap_mem h') 0x300000 0x800000 = true /\ ld32 (heap_mem h') 0x100000 = 0x800000.
Proof.
  destruct (load_elf_correct 0x300000 0x301000 0x100000 tiny_elf [] Heap.ready_heap
              (default (0, Heap.ready_heap) (kmalloc 88 Heap.ready_heap)).2 0x200020
              sample_load_layout sample_heap_inv sample_heap_tables) as (h' & Hrun & Hacc);
    [lia|reflexivity|vm_compute; congruence|vm_compute; reflexivity|lia|reflexivity|].
  exists h'.
  assert (E : elf_ok (vfs_file tiny_elf) (node_size tiny_elf) = true) by (vm_compute; reflexivity).
  rewrite E in Hrun, Hacc. destruct (Hacc eq_refl) as (Hb & Ha & He).
  split; [exact Hrun|]. split_and!.
  - rewrite Hb by (unfold user_region, USER_PROGRAM_BASE, USER_PROGRAM_MAX_SIZE; lia). vm_compute. reflexivity.
  - rewrite Hb by (unfold user_region, USER_PROGRAM_BASE, USER_PROGRAM_MAX_SIZE; lia). vm_compute. reflexivity.
  - rewrite Ha by (unfold is_u32; lia). vm_compute. reflexivity.
  - rewrite He. vm_compute. reflexivity.
Defined.

Lemma entry_point_unchecked_witness : elf_ok (st32 (vfs_file tiny_elf) 24 0x100000) 88 = true.
Proof.
  apply (entry_point_unchecked (vfs_file tiny_elf) 88 0x100000);
    [apply vfs_file_wf|unfold is_u32; lia|unfold is_u32; lia|vm_compute; reflexivity|vm_compute; discriminate].
Defined.

(** The same file with its segment moved to the last byte of the region, in
    memory at 0x200000. *)
Definition edge_elf : list Z :=
  take 52 tiny_elf ++
  [ 1; 0; 0; 0; 0; 0; 0; 0; 0xFF; 0xFF; 0x8F; 0x00; 0; 0; 0; 0; 1; 0; 0; 0; 1; 0; 0; 0; 7; 0; 0; 0; 0; 0x10; 0; 0 ].
Definition edge_mem : mem := poke 0x200000 edge_elf ∅.

Lemma segment_opens_next_page_witness :
  exists m', load_segment 0x300000 0x301000 0x200000 84 0x200034 edge_mem = Some (true, m') /\
    user_accessible m' 0x300000 0x900000 = true.
Proof.
  pose proof sample_load_layout as L.
  destruct (segment_opens_next_page 0x300000 0x301000 0x200000 84 0x200034 edge_mem (vfs_file edge_elf))
    as (m' & Hrun & Ha & _); try lia.
  - apply L.
  - apply L.
  - intros x Hx. destruct (ll_heap _ _ _ L x) as (? & ? & _); [|done]. simpl.
    sample_regions. lia.
  - apply poke_wf. auto with kernel.
  - apply tables_wf_zero; intros i Hi; unfold edge_mem; apply (eq_trans (y := ld32 ∅ 0)); try done;
      unfold ld32; rewrite !poke_ld8; change (Z.of_nat (length edge_elf)) with 84; z_cases; done || lia.
  - intros i Hi. change (vfs_file edge_elf) with (poke 0 edge_elf ∅). unfold edge_mem. rewrite !poke_ld8. change (Z.of_nat (length edge_elf)) with 84.
    rewrite (proj2 (Z.leb_le _ (0x200000 + i))), (proj2 (Z.ltb_lt (0x200000 + i) _)) by lia.
    rewrite (proj2 (Z.leb_le 0 i)), (proj2 (Z.ltb_lt i _)) by lia. cbn [andb]. do 2 f_equal. lia.
  - vm_compute. reflexivity.
  - exists m'. split; [exact Hrun|exact Ha].
Defined.

End Elf.
