(* ===== verification/MemInit.v ===== *)
(** * memory_init: from the multiboot information to a running memory system

    [detect_memory_bytes], the two walks over the multiboot memory map,
    [memory_init] and [enable_paging] of arch/memory.c, on the structs
    [multiboot_info] and [multiboot_mmap_entry] of include/memory.h as they
    lie in memory. *)

From Stdlib Require Import ZifyBool.
From S2P Require Import Prelude Cmem Pmm Paging Alloc Heap Elf.
Local Open Scope Z_scope.

(** Equalities of boolean combinations of integer comparisons. *)
Ltac bool_lia :=
  change (0 / 4096) with 0; change (0x100000 / 4096) with 256; cbn [negb Z.eqb andb orb]; lia.

Module MemInit.
Import Pmm Paging.

Definition USER_STACK_TOP : Z := 0x00C00000.
Definition USER_STACK_SIZE : Z := 0x00001000.
Definition MULTIBOOT_MAGIC : Z := 0x2BADB002.

(** struct multiboot_info at address [mb] *)
Definition mb_flags (m : mem) (mb : Z) : Z := ld32 m mb.
Definition mem_lower (m : mem) (mb : Z) : Z := ld32 m (mb + 4).
Definition mem_upper (m : mem) (mb : Z) : Z := ld32 m (mb + 8).
Definition mmap_length (m : mem) (mb : Z) : Z := ld32 m (mb + 44).
Definition mmap_addr (m : mem) (mb : Z) : Z := ld32 m (mb + 48).

(** struct multiboot_mmap_entry at address [e] *)
Definition me_size (m : mem) (e : Z) : Z := ld32 m e.
Definition me_addr_low (m : mem) (e : Z) : Z := ld32 m (e + 4).
Definition me_len_low (m : mem) (e : Z) : Z := ld32 m (e + 12).
Definition me_type (m : mem) (e : Z) : Z := ld32 m (e + 20).

(** The walk [while (offset < mb->mmap_length)], which both functions
    perform: [body entry], then the next entry, unless its length is 0. *)
Fixpoint mmap_loop {S} (fuel : nat) (m : mem) (mb offset : Z) (body : Z -> S -> option S) (s : S)
    : option S :=
  if offset <? mmap_length m mb then
    match fuel with
    | O => None
    | Datatypes.S fuel' =>
        let entry := u32 (mmap_addr m mb + offset) in
        let length := u32 (me_size m entry + 4) in
        s ← body entry s;
        if length =? 0 then Some s
        else mmap_loop fuel' m mb (u32 (offset + length)) body s
    end
  else Some s.

(** Every iteration advances by at least one byte, unless [offset] wraps. *)
Definition mmap_fuel (m : mem) (mb : Z) : nat := Z.to_nat (mmap_length m mb).

Definition has_mmap (m : mem) (mb : Z) : bool :=
  negb (Z.land (mb_flags m mb) (Z.shiftl 1 6) =? 0) && negb (mmap_length m mb =? 0).

Definition detect_memory_bytes (m : mem) (mb_magic mb_info_addr : Z) : option Z :=
  if negb (mb_magic =? MULTIBOOT_MAGIC) || (mb_info_addr =? 0) then Some (64 * 1024 * 1024) else
  let mb := mb_info_addr in
  let without_mmap :=
    if negb (Z.land (mb_flags m mb) 1 =? 0) then
      let total_kb := u32 (mem_lower m mb + mem_upper m mb) in
      if negb (total_kb =? 0) then u32 (total_kb * 1024) else 64 * 1024 * 1024
    else 64 * 1024 * 1024 in
  if has_mmap m mb then
    max_end ← mmap_loop (mmap_fuel m mb) m mb 0
      (fun entry max_end =>
         Some (if me_type m entry =? 1 then
                 let e := u32 (me_addr_low m entry + me_len_low m entry) in
                 if max_end <? e then e else max_end
               else max_end)) 0;
    Some (if negb (max_end =? 0) then max_end else without_mmap)
  else Some without_mmap.

(** The state that memory_init sets up: the frame allocator, the heap with the
    whole memory, the control registers and [g_paging_ready]. *)
Record mm := mkMm {
  mm_pmm : pmm;
  mm_heap : Heap.heap;
  g_paging_ready : bool;
  cr0 : Z;
  cr3 : Z
}.

(** The body of the second walk: give the frames of an available entry to the
    allocator. *)
Definition free_entry (m : mem) (entry : Z) (s : pmm) : option pmm :=
  if me_type m entry =? 1 then
    let start := me_addr_low m entry in
    let size := me_len_low m entry in
    if start <? g_total_memory_bytes s then
      let size := if g_total_memory_bytes s <? u32 (start + size)
                  then u32 (g_total_memory_bytes s - start) else size in
      free_range start size s
    else Some s
  else Some s.

Definition free_above_1m (s : pmm) : option pmm :=
  free_range 0x00100000
    (if 0x00100000 <? g_total_memory_bytes s then u32 (g_total_memory_bytes s - 0x00100000) else 0) s.

Section Init.
Variables g_page_directory g_page_tables g_heap kernel_end : Z.

Definition enable_paging (k : mm) : mm :=
  mkMm (mm_pmm k) (mm_heap k) (g_paging_ready k) (Z.lor (cr0 k) 0x80000000) g_page_directory.

(** Lines 330-335: the amount of memory. *)
Definition init_totals (bytes : Z) (s : pmm) : pmm :=
  let total := if MAX_PHYS_MEM_BYTES <? bytes then MAX_PHYS_MEM_BYTES else bytes in
  let total := align_up_u32 total PAGE_SIZE in
  mkPmm total (total / PAGE_SIZE) (g_frame_bitmap s).

(** Lines 337-379: every frame in use, then the available ones freed, then
    the ones that the kernel keeps reserved. *)
Definition init_frames (m : mem) (mb_magic mb_info_addr : Z) (s : pmm) : option pmm :=
  let s := set_bitmap s (replicate (Z.to_nat (FRAME_BITMAP_BYTES / 4)) 0xFFFFFFFF) in
  s ← (if (mb_magic =? MULTIBOOT_MAGIC) && negb (mb_info_addr =? 0) then
         let mb := mb_info_addr in
         if has_mmap m mb then mmap_loop (mmap_fuel m mb) m mb 0 (free_entry m) s
         else free_above_1m s
       else free_above_1m s);
  s ← reserve_range 0x00000000 0x00100000 s;
  s ← (if 0x00100000 <? kernel_end then reserve_range 0x00100000 (u32 (kernel_end - 0x00100000)) s
       else Some s);
  s ← reserve_range Elf.USER_PROGRAM_BASE Elf.USER_PROGRAM_MAX_SIZE s;
  reserve_range (USER_STACK_TOP - USER_STACK_SIZE) USER_STACK_SIZE s.

(** Lines 338-339: empty page tables. *)
Definition clear_tables (m : mem) : mem :=
  let m := memset g_page_directory 0 4096 m in
  memset g_page_tables 0 (IDENTITY_TABLES * 4096) m.

(** Lines 381-387: the boot page tables. *)
Definition init_tables (total : Z) (m : mem) : option mem :=
  let identity_bytes := if IDENTITY_MAP_BYTES <? total then IDENTITY_MAP_BYTES else total in
  m ← identity_map_range g_page_directory g_page_tables 0x00000000 identity_bytes PAGE_WRITE m;
  m ← paging_mark_user_range g_page_directory g_page_tables Elf.USER_PROGRAM_BASE Elf.USER_PROGRAM_MAX_SIZE m;
  paging_mark_user_range g_page_directory g_page_tables (USER_STACK_TOP - USER_STACK_SIZE) USER_STACK_SIZE m.

Definition memory_init (mb_magic mb_info_addr : Z) (k : mm) : option mm :=
  if g_paging_ready k then Some k else
  let m := Heap.h_mem (mm_heap k) in
  bytes ← detect_memory_bytes m mb_magic mb_info_addr;
  let s := init_totals bytes (mm_pmm k) in
  let m := clear_tables m in
  s ← init_frames m mb_magic mb_info_addr s;
  m ← init_tables (g_total_memory_bytes s) m;
  let k := enable_paging (mkMm s (Heap.with_mem (mm_heap k) m) (g_paging_ready k) (cr0 k) (cr3 k)) in
  Some (mkMm (mm_pmm k) (Heap.heap_init g_heap (mm_heap k)) true (cr0 k) (cr3 k)).

End Init.

(** ** The memory map as data *)

Record entry := mkEntry { en_size : Z; en_addr : Z; en_len : Z; en_type : Z }.

Definition read_entry (m : mem) (e : Z) : entry :=
  mkEntry (me_size m e) (me_addr_low m e) (me_len_low m e) (me_type m e).

(** The entries [l] lie from [offset] to the end of the map, where the walk
    finds them; their bytes satisfy [P]. *)
Fixpoint mmap_rep (P : Z -> Prop) (m : mem) (mb offset : Z) (l : list entry) : Prop :=
  match l with
  | [] => mmap_length m mb <= offset
  | e :: l' =>
      let a := u32 (mmap_addr m mb + offset) in
      offset < mmap_length m mb /\ read_entry m a = e /\ (forall x, a <= x < a + 24 -> P x) /\
      offset + en_size e + 4 < 2 ^ 32 /\ mmap_rep P m mb (offset + en_size e + 4) l'
  end.

(** An available region does not run past 4 GiB. *)
Definition entry_ok (e : entry) : Prop := en_type e = 1 -> en_addr e + en_len e < 2 ^ 32.

(** The frame meets an available region, as far as memory_init reads the map:
    by the low halves of address and length.  A region is freed with the pages
    that it only begins or ends in. *)
Definition available (l : list entry) (g : Z) : bool :=
  existsb (fun e => (en_type e =? 1) && negb (en_len e =? 0) &&
                    (en_addr e / 4096 <=? g) && (g * 4096 <? en_addr e + en_len e)) l.

(** Where the walk finds the entries [l], and the region that the entry at [a]
    describes, with the full 64 bits of its address and length. *)
Fixpoint entry_places (m : mem) (mb offset : Z) (l : list entry) : list Z :=
  match l with
  | [] => []
  | e :: l' => u32 (mmap_addr m mb + offset) :: entry_places m mb (offset + en_size e + 4) l'
  end.

Definition region_start (m : mem) (a : Z) : Z := ld32 m (a + 4) + 2 ^ 32 * ld32 m (a + 8).
Definition region_end (m : mem) (a : Z) : Z := region_start m a + (ld32 m (a + 12) + 2 ^ 32 * ld32 m (a + 16)).

(** The available regions above the first megabyte lie below 4 GiB and consist
    of whole pages. *)
Definition whole_pages (m : mem) (mb : Z) (l : list entry) : Prop :=
  forall a, In a (entry_places m mb 0 l) -> ld32 m (a + 20) = 1 -> 0x100000 < region_end m a ->
    ld32 m (a + 8) = 0 /\ ld32 m (a + 16) = 0 /\ region_start m a mod 4096 = 0 /\ region_end m a mod 4096 = 0.

(** The end of the highest available region. *)
Definition max_end (l : list entry) : Z :=
  foldl (fun mx e => if en_type e =? 1 then Z.max mx (u32 (en_addr e + en_len e)) else mx) 0 l.

(** The frames that the kernel keeps: the first megabyte, its image, the user
    region and the user stack. *)
Definition reserved (kernel_end g : Z) : bool :=
  (g <? 256) || ((256 <=? g) && (g * 4096 <? kernel_end))
  || ((2048 <=? g) && (g <? 2304)) || (g =? 3071).

(** The pages that ring 3 may use after memory_init. *)
Definition user_page (v : Z) : bool :=
  ((0x800000 <=? v) && (v <? 0x900000)) || ((0xBFF000 <=? v) && (v <? 0xC00000)).

Section Walk.
Context (P : Z -> Prop) (m : mem) (mb : Z) (Hm : mem_wf m).

Lemma entry_size_nonneg a : 0 <= me_size m a.
Proof. apply ld32_u32. done. Qed.

Lemma mmap_rep_length offset l :
  mmap_rep P m mb offset l -> Z.of_nat (length l) <= Z.max 0 (mmap_length m mb - offset).
Proof.
  revert offset. induction l as [|e l IH]; intros offset; simpl; [lia|].
  intros (Ho & <- & _ & _ & Hl). pose proof (entry_size_nonneg (u32 (mmap_addr m mb + offset))).
  apply IH in Hl. simpl in Hl. lia.
Qed.

(** The walk visits exactly the entries, in order; [I done s] is an invariant
    of the entries visited so far. *)
Lemma mmap_loop_inv {S} (I : list entry -> S -> Prop) (Q : entry -> Prop) (body : Z -> S -> option S) l :
  (forall done a s, Q (read_entry m a) -> I done s ->
     exists s', body a s = Some s' /\ I (done ++ [read_entry m a]) s') ->
  forall fuel offset done s,
  0 <= offset -> mmap_rep P m mb offset l -> Forall Q l -> (length l <= fuel)%nat -> I done s ->
  exists s', mmap_loop fuel m mb offset body s = Some s' /\ I (done ++ l) s'.
Proof.
  intros Hb. induction l as [|e l IH]; intros fuel offset done s Ho Hr Hq Hf Hi.
  - exists s. rewrite app_nil_r. simpl in Hr.
    destruct fuel; simpl; by rewrite (proj2 (Z.ltb_ge offset _)).
  - simpl in Hr, Hf. destruct Hr as (Hlt & <- & _ & Hw & Hr).
    apply Forall_cons_1 in Hq as [Hq Hql]. destruct fuel as [|fuel]; [lia|]. cbn [mmap_loop].
    rewrite (proj2 (Z.ltb_lt offset _)) by done.
    set (a := u32 (mmap_addr m mb + offset)) in *.
    pose proof (entry_size_nonneg a) as Hsz. cbn [read_entry en_size] in Hw, Hr.
    destruct (Hb done a s Hq Hi) as (s' & -> & Hi'). cbn [mbind option_bind].
    rewrite (u32_small (me_size m a + 4)), (proj2 (Z.eqb_neq (me_size m a + 4) 0)), u32_small by lia.
    rewrite Z.add_assoc. destruct (IH fuel (offset + me_size m a + 4) (done ++ [read_entry m a]) s')
      as (s2 & Hrun & Hi2); try done; [lia|lia|].
    exists s2. by rewrite <- app_assoc in Hi2.
Qed.

Lemma mmap_walk {S} (I : list entry -> S -> Prop) (Q : entry -> Prop) (body : Z -> S -> option S) l s :
  (forall done a s, Q (read_entry m a) -> I done s ->
     exists s', body a s = Some s' /\ I (done ++ [read_entry m a]) s') ->
  mmap_rep P m mb 0 l -> Forall Q l -> I [] s ->
  exists s', mmap_loop (mmap_fuel m mb) m mb 0 body s = Some s' /\ I l s'.
Proof.
  intros Hb Hr Hq Hi. apply (mmap_loop_inv I Q body l Hb (mmap_fuel m mb) 0 [] s); try done.
  apply mmap_rep_length in Hr. unfold mmap_fuel. lia.
Qed.

Lemma detect_with_mmap mb_magic l :
  mb_magic = MULTIBOOT_MAGIC -> mb <> 0 -> has_mmap m mb = true -> mmap_rep P m mb 0 l ->
  exists bytes, detect_memory_bytes m mb_magic mb = Some bytes /\ (max_end l <> 0 -> bytes = max_end l).
Proof.
  intros -> Hmb Hmm Hr. unfold detect_memory_bytes.
  rewrite (proj2 (Z.eqb_neq mb 0)) by done. cbn [negb orb Z.eqb]. rewrite Hmm.
  replace (negb (MULTIBOOT_MAGIC =? MULTIBOOT_MAGIC)) with false by done. cbn [orb].
  edestruct (mmap_walk (fun done mx => mx = max_end done) (fun _ => True)) as (mx & -> & Hmx);
    [|exact Hr|by apply list.Forall_true|done|].
  - intros done a mx _ ->. eexists. split; [done|]. unfold max_end. rewrite foldl_app. simpl.
    case_match; [|done]. case_match; bool_to_prop; lia.
  - cbn [mbind option_bind]. rewrite Hmx. eexists. split; [done|]. intros Hne.
    by rewrite (proj2 (Z.eqb_neq _ 0)).
Qed.

End Walk.

(** ** The frames *)

Section Frames.
Context (kernel_end : Z) (Hke : 0 <= kernel_end) (Hke2 : kernel_end + 4096 < 2 ^ 32).

(** Away from the end of the address space, the range operations cover the
    frames that meet the range. *)
Lemma covers_spec s start size g :
  wf s -> 0 <= start -> 0 <= size -> start + size + 4096 < 2 ^ 32 -> 0 <= g < g_total_frames s ->
  covers s start size g = negb (size =? 0) && (start / 4096 <=? g) && (g * 4096 <? start + size).
Proof.
  intros Hwf Hs Hn Hw Hg. unfold covers, range_end. pose proof (wf_bytes _ Hwf) as Hb.
  unfold PAGE_SIZE in *. rewrite (u32_small (start + size)), (align_up_u32_pow2 12) by lia.
  change (2 ^ 12) with 4096. rewrite u32_small by lia.
  assert (E : (g * 4096 <? (if g_total_memory_bytes s <? (start + size + 4096 - 1) / 4096 * 4096
                            then g_total_memory_bytes s else (start + size + 4096 - 1) / 4096 * 4096))
              = (g * 4096 <? start + size)).
  { case_cond; z_cases; try done; mlia. }
  by rewrite E.
Qed.

(** All frames in use: the state that the walk starts from. *)
Definition full (total : Z) : pmm :=
  mkPmm total (total / PAGE_SIZE) (replicate (Z.to_nat (FRAME_BITMAP_BYTES / 4)) 0xFFFFFFFF).

Lemma init_totals_spec bytes s :
  is_u32 bytes ->
  set_bitmap (init_totals bytes s) (replicate (Z.to_nat (FRAME_BITMAP_BYTES / 4)) 0xFFFFFFFF)
  = full (Z.min MAX_PHYS_MEM_BYTES ((bytes + 4095) / 4096 * 4096)).
Proof.
  intros Hb. unfold is_u32 in Hb. unfold init_totals, set_bitmap, full. cbn [g_total_memory_bytes g_total_frames].
  assert (E : align_up_u32 (if MAX_PHYS_MEM_BYTES <? bytes then MAX_PHYS_MEM_BYTES else bytes) PAGE_SIZE
              = Z.min MAX_PHYS_MEM_BYTES ((bytes + 4095) / 4096 * 4096)); [|by rewrite E].
  unfold PAGE_SIZE. change MAX_PHYS_MEM_BYTES with (131072 * 4096).
  rewrite (align_up_u32_pow2 12) by lia. change (2 ^ 12) with 4096.
  case_cond; rewrite u32_small by lia; mlia.
Qed.

Lemma full_spec total :
  0 <= total <= MAX_PHYS_MEM_BYTES -> total mod 4096 = 0 ->
  wf (full total) /\ forall g, valid_frame g -> test_frame (full total) g = true.
Proof.
  change MAX_PHYS_MEM_BYTES with (131072 * 4096). intros Ht Hm. split.
  - split; cbn [full g_frame_bitmap g_total_frames g_total_memory_bytes].
    + rewrite length_replicate. rewrite Z2Nat.id; [done|]. vm_compute. discriminate.
    + apply Forall_replicate. unfold is_u32. lia.
    + rewrite MAX_FRAMES_val. unfold PAGE_SIZE. mlia.
    + unfold PAGE_SIZE. mlia.
  - intros g Hg. rewrite test_frame_testbit. cbn [full g_frame_bitmap].
    assert (E : getZ (replicate (Z.to_nat (FRAME_BITMAP_BYTES / 4)) 0xFFFFFFFF) (g / 32) = 2 ^ 32 - 1).
    { unfold getZ. unfold valid_frame in Hg. rewrite MAX_FRAMES_val in Hg.
      rewrite lookup_replicate_2; [done|]. change (FRAME_BITMAP_BYTES / 4) with 4096. mlia. }
    rewrite E. rewrite Z.sub_1_r, <- Z.ones_equiv. apply Z.ones_spec_low. mlia.
Qed.

(** What the frame phase keeps while it runs: the totals, and which frames
    are in use. *)
Record frames_are (total : Z) (used : Z -> bool) (s : pmm) : Prop := {
  fa_wf : wf s;
  fa_total : g_total_memory_bytes s = total;
  fa_used g : 0 <= g < g_total_frames s -> test_frame s g = used g
}.

Lemma frames_are_ext total used used' s :
  (forall g, 0 <= g < g_total_frames s -> used g = used' g) -> frames_are total used s -> frames_are total used' s.
Proof. intros H [Hw Ht Hu]. split; try done. intros g Hg. rewrite <- H by done. by apply Hu. Qed.

Lemma frames_reserve total used s start size :
  frames_are total used s -> 0 <= start -> 0 <= size -> start + size + 4096 < 2 ^ 32 ->
  exists s', reserve_range start size s = Some s' /\
    frames_are total (fun g => used g || (negb (size =? 0) && (start / 4096 <=? g) && (g * 4096 <? start + size))) s'.
Proof.
  intros [Hw Ht Hu] Hs Hn He.
  destruct (reserve_range_spec start size s Hw) as (s' & Hrun & Hw' & Hb & Hf & Hg); [unfold is_u32; lia|].
  exists s'. split; [done|]. split; [done|congruence|]. intros g Hgr. rewrite Hf in Hgr.
  rewrite Hg, covers_spec, Hu by (done || lia). destruct (_ && _); [by rewrite orb_true_r|by rewrite orb_false_r].
Qed.

Lemma frames_free total used s start size :
  frames_are total used s -> 0 <= start -> 0 <= size -> start + size + 4096 < 2 ^ 32 ->
  exists s', free_range start size s = Some s' /\
    frames_are total (fun g => used g && negb (negb (size =? 0) && (start / 4096 <=? g) && (g * 4096 <? start + size))) s'.
Proof.
  intros [Hw Ht Hu] Hs Hn He.
  destruct (free_range_spec start size s Hw) as (s' & Hrun & Hw' & Hb & Hf & Hg); [unfold is_u32; lia|].
  exists s'. split; [done|]. split; [done|congruence|]. intros g Hgr. rewrite Hf in Hgr.
  rewrite Hg, covers_spec, Hu by (done || lia). destruct (_ && _); [by rewrite andb_false_r|by rewrite andb_true_r].
Qed.

Lemma total_bounds total used s :
  frames_are total used s -> total = g_total_frames s * 4096 /\ 0 <= total <= 131072 * 4096.
Proof.
  intros [[_ _ Hf Hb] Ht _]. rewrite MAX_FRAMES_val in Hf. unfold PAGE_SIZE in Hb. lia.
Qed.

(** One entry of the map. *)
Lemma free_entry_spec m total used a s :
  mem_wf m -> entry_ok (read_entry m a) -> frames_are total used s ->
  exists s', free_entry m a s = Some s' /\
    frames_are total (fun g => used g && negb (available [read_entry m a] g)) s'.
Proof.
  intros Hm Hok Hfa. pose proof (total_bounds _ _ _ Hfa) as [Ht Hb].
  unfold free_entry, available. cbn [existsb read_entry en_type en_len en_addr].
  change (me_type m a) with (en_type (read_entry m a)).
  destruct (Z.eqb_spec (en_type (read_entry m a)) 1) as [Hty|Hty]; cbn [andb orb negb].
  2: { exists s. split; [done|]. eapply frames_are_ext; [|exact Hfa]. intros. by rewrite andb_true_r. }
  specialize (Hok Hty). cbn [read_entry en_addr en_len] in Hok.
  assert (Ha : is_u32 (me_addr_low m a)) by (apply ld32_u32; done).
  assert (Hl : is_u32 (me_len_low m a)) by (apply ld32_u32; done).
  unfold is_u32 in *. set (st := me_addr_low m a) in *. set (n := me_len_low m a) in *. clearbody st n.
  rewrite (fa_total _ _ _ Hfa). destruct (Z.ltb_spec st total) as [Hst|Hst].
  2: { exists s. split; [done|]. eapply frames_are_ext; [|exact Hfa]. intros g Hg.
       rewrite (proj2 (Z.leb_gt (st / 4096) g)), andb_false_r by mlia. by rewrite andb_true_r. }
  rewrite (u32_small (st + n)) by lia.
  set (n' := if total <? st + n then u32 (total - st) else n).
  assert (Hn' : n' = Z.min n (total - st)).
  { subst n'. case_cond; [rewrite u32_small by lia|]; lia. }
  destruct (frames_free total used s st n' Hfa) as (s' & Hrun & Hfa'); try lia.
  exists s'. split; [done|]. eapply frames_are_ext; [|exact Hfa']. intros g Hg. cbn beta.
  assert (Hfr : g_total_frames s' = g_total_frames s).
  { pose proof (total_bounds _ _ _ Hfa') as [? _]. lia. }
  rewrite Hfr in Hg. rewrite orb_false_r. do 2 f_equal.
  destruct (Z.eqb_spec n' 0), (Z.eqb_spec n 0); cbn [negb andb];
    try lia; try done; f_equal; z_cases; done || lia.
Qed.

Lemma available_app l l' g : available (l ++ l') g = available l g || available l' g.
Proof. apply existsb_app. Qed.

Lemma free_mmap_spec (P : Z -> Prop) m mb l total used s :
  mem_wf m -> mmap_rep P m mb 0 l -> Forall entry_ok l -> frames_are total used s ->
  exists s', mmap_loop (mmap_fuel m mb) m mb 0 (free_entry m) s = Some s' /\
    frames_are total (fun g => used g && negb (available l g)) s'.
Proof.
  intros Hm Hr Hok Hfa.
  apply (mmap_walk P m mb Hm (fun done s => frames_are total (fun g => used g && negb (available done g)) s)
           entry_ok (free_entry m) l s); try done.
  - intros done a s0 Ha Hs0. destruct (free_entry_spec m total _ a s0 Hm Ha Hs0) as (s' & Hrun & Hs').
    exists s'. split; [exact Hrun|]. eapply frames_are_ext; [|exact Hs']. intros g _. cbn beta.
    by rewrite available_app, negb_orb, andb_assoc.
  - eapply frames_are_ext; [|exact Hfa]. intros. by rewrite andb_true_r.
Qed.

Lemma free_above_spec total used s :
  frames_are total used s ->
  exists s', free_above_1m s = Some s' /\ frames_are total (fun g => used g && (g <? 256)) s'.
Proof.
  intros Hfa. pose proof (total_bounds _ _ _ Hfa) as [Ht Hb]. unfold free_above_1m.
  rewrite (fa_total _ _ _ Hfa). set (n := if _ <? total then _ else 0).
  assert (Hn : n = Z.max 0 (total - 0x100000)) by (subst n; case_cond; [rewrite u32_small|]; lia).
  destruct (frames_free total used s 0x100000 n Hfa) as (s' & Hrun & Hfa'); try lia.
  exists s'. split; [done|]. eapply frames_are_ext; [|exact Hfa']. intros g Hg. cbn beta.
  assert (Hfr : g_total_frames s' = g_total_frames s).
  { pose proof (total_bounds _ _ _ Hfa') as [? _]. lia. }
  rewrite Hfr in Hg. f_equal. change (0x100000 / 4096) with 256.
  destruct (Z.eqb_spec n 0); z_cases; done || lia.
Qed.

(** The multiboot information says which frames are available. *)
Inductive boot_info (P : Z -> Prop) (m : mem) (mb_magic mb : Z) : (Z -> bool) -> Prop :=
| bi_map l :
    mb_magic = MULTIBOOT_MAGIC -> mb <> 0 -> has_mmap m mb = true ->
    mmap_rep P m mb 0 l -> Forall entry_ok l -> boot_info P m mb_magic mb (available l)
| bi_no_map :
    (mb_magic =? MULTIBOOT_MAGIC) && negb (mb =? 0) && has_mmap m mb = false ->
    boot_info P m mb_magic mb (fun g => 256 <=? g).

(** The whole frame phase. *)
Lemma init_frames_spec P m mb_magic mb av total s :
  mem_wf m -> boot_info P m mb_magic mb av ->
  0 <= total <= MAX_PHYS_MEM_BYTES -> total mod 4096 = 0 ->
  set_bitmap s (replicate (Z.to_nat (FRAME_BITMAP_BYTES / 4)) 0xFFFFFFFF) = full total ->
  exists s', init_frames kernel_end m mb_magic mb s = Some s' /\
    frames_are total (fun g => negb (av g) || reserved kernel_end g) s'.
Proof.
  intros Hm Hbi Ht Htm Hs. unfold init_frames. rewrite Hs.
  destruct (full_spec total Ht Htm) as [Hw Hf].
  assert (H0 : frames_are total (fun _ => true) (full total)).
  { split; try done. intros g Hg. apply Hf. pose proof (wf_frames _ Hw). unfold valid_frame. lia. }
  clear Hs Hf Hw. revert H0. generalize (full total). intros s0 H0.
  assert (Hwalk : exists s1,
    (if (mb_magic =? MULTIBOOT_MAGIC) && negb (mb =? 0) then
       if has_mmap m mb then mmap_loop (mmap_fuel m mb) m mb 0 (free_entry m) s0 else free_above_1m s0
     else free_above_1m s0) = Some s1 /\ frames_are total (fun g => negb (av g)) s1).
  { destruct Hbi as [l -> Hmb Hmm Hr Hok|Hno].
    - rewrite Z.eqb_refl, (proj2 (Z.eqb_neq mb 0)), Hmm by done. cbn [negb andb].
      by apply (free_mmap_spec P m mb l total (fun _ => true)).
    - destruct (free_above_spec total (fun _ => true) s0 H0) as (s1 & Hrun & Hs1).
      exists s1. split.
      + destruct ((mb_magic =? MULTIBOOT_MAGIC) && negb (mb =? 0)); cbn [andb] in Hno; [by rewrite Hno|done].
      + eapply frames_are_ext; [|exact Hs1]. intros g _. cbn beta. z_cases; done || lia. }
  destruct Hwalk as (s1 & -> & H1). cbn [mbind option_bind].
  destruct (frames_reserve total _ s1 0 0x100000 H1) as (s2 & -> & H2); try lia. cbn [mbind option_bind].
  assert (Hk : exists s3, (if 0x100000 <? kernel_end then reserve_range 0x100000 (u32 (kernel_end - 0x100000)) s2 else Some s2)
                = Some s3 /\ frames_are total (fun g => negb (av g) || (g * 4096 <? 0x100000) || ((256 <=? g) && (g * 4096 <? kernel_end))) s3).
  { case_cond.
    - rewrite u32_small by lia.
      destruct (frames_reserve total _ s2 0x100000 (kernel_end - 0x100000) H2) as (s3 & -> & H3); try lia.
      exists s3. split; [done|]. eapply frames_are_ext; [|exact H3]. intros g Hg. cbn beta.
      bool_lia.
    - exists s2. split; [done|]. eapply frames_are_ext; [|exact H2]. intros g Hg. cbn beta.
      bool_lia. }
  destruct Hk as (s3 & -> & H3). cbn [mbind option_bind].
  unfold Elf.USER_PROGRAM_BASE, Elf.USER_PROGRAM_MAX_SIZE, USER_STACK_TOP, USER_STACK_SIZE.
  destruct (frames_reserve total _ s3 0x800000 (1024 * 1024) H3) as (s4 & -> & H4); try lia. cbn [mbind option_bind].
  destruct (frames_reserve total _ s4 (0xC00000 - 0x1000) 0x1000 H4) as (s5 & -> & H5); try lia.
  exists s5. split; [done|]. eapply frames_are_ext; [|exact H5]. intros g Hg. cbn beta. unfold reserved.
  change (0x800000 / 4096) with 2048. change ((0xC00000 - 0x1000) / 4096) with 3071.
  bool_lia.
Qed.

End Frames.

(** ** The page tables and the heap *)

Section Ready.
Context (g_page_directory g_page_tables g_heap kernel_end : Z).
Abbreviation tables := (table_area g_page_directory g_page_tables).
Abbreviation wf_tables := (tables_wf g_page_directory g_page_tables).

(** Where the linker puts the arrays. *)
Record init_layout : Prop := {
  il_tables : layout g_page_directory g_page_tables;
  il_heap : Heap.heap_layout g_heap;
  il_disj x : g_heap <= x < g_heap + Heap.HEAP_SIZE -> ~ tables x;
  il_kernel : 0 <= kernel_end /\ kernel_end + 4096 < 2 ^ 32
}.

Context (L : init_layout).

Lemma clear_tables_wf m :
  mem_wf m ->
  mem_wf (clear_tables g_page_directory g_page_tables m) /\
  wf_tables (clear_tables g_page_directory g_page_tables m) /\
  same_outside tables m (clear_tables g_page_directory g_page_tables m).
Proof.
  intros Hm. destruct (il_tables L) as [Hpd Hpt Hpd0 Hpt0 Hpt1 Hpd1 Hd]. unfold clear_tables.
  change IDENTITY_TABLES with 32 in *. split; [by apply memset_wf, memset_wf|]. split.
  - apply tables_wf_zero; intros i Hi.
    + rewrite ld32_memset_out, ld32_memset_zero by lia. done.
    + rewrite ld32_memset_zero by lia. done.
  - intros x Hx. unfold table_area in Hx. change IDENTITY_TABLES with 32 in Hx.
    rewrite !memset_ld8_out by lia. done.
Qed.

(** Empty tables translate nothing. *)
Lemma clear_tables_empty m v :
  mem_wf m -> is_u32 v ->
  page_get_phys (clear_tables g_page_directory g_page_tables m) g_page_directory v = 0 /\
  user_accessible (clear_tables g_page_directory g_page_tables m) g_page_directory v = false.
Proof.
  intros Hm Hv. destruct (clear_tables_wf m Hm) as (_ & Hwf & _).
  destruct (boot_entry _ _ (il_tables L) _ v Hwf Hv) as [-> ->].
  change IDENTITY_MAP_BYTES with (32768 * 4096). unfold is_u32 in Hv.
  destruct (Z.ltb_spec v (32768 * 4096)) as [Hlt|]; cbn [andb]; [|done].
  unfold clear_tables. change IDENTITY_TABLES with 32. by rewrite ld32_memset_zero by mlia.
Qed.

(** The address [v] is mapped (to itself) after memory_init. *)
Definition mapped (total v : Z) : bool := (v <? Z.min IDENTITY_MAP_BYTES total) || user_page v.

Lemma align_up_aligned x : 0 <= x < 2 ^ 32 - 4096 -> x mod 4096 = 0 -> align_up_u32 x PAGE_SIZE = x.
Proof.
  intros Hx Hm. unfold PAGE_SIZE. rewrite (align_up_u32_pow2 12) by lia. change (2 ^ 12) with 4096.
  rewrite u32_small by lia. mlia.
Qed.

(** One range call in terms of a set of pages [inside]. *)
Lemma identity_effect size m :
  wf_tables m -> 0 <= size <= IDENTITY_MAP_BYTES -> size mod 4096 = 0 ->
  exists m', identity_map_range g_page_directory g_page_tables 0 size PAGE_WRITE m = Some m' /\ wf_tables m' /\
    forall v, is_u32 v ->
      page_get_phys m' g_page_directory v = (if v <? size then v else page_get_phys m g_page_directory v) /\
      user_accessible m' g_page_directory v = (if v <? size then false else user_accessible m g_page_directory v).
Proof.
  change IDENTITY_MAP_BYTES with (32768 * 4096). intros Hwf Hs Hm. unfold identity_map_range.
  destruct (Z.eqb_spec size 0) as [->|Hn].
  { exists m. split_and!; try done. intros v Hv. unfold is_u32 in Hv. by rewrite (proj2 (Z.ltb_ge v 0)) by lia. }
  rewrite (u32_small (0 + size)), (align_up_aligned (0 + size)) by (lia || mlia).
  rewrite (Z.add_0_l size).
  change IDENTITY_MAP_BYTES with (32768 * 4096).
  rewrite (proj2 (Z.ltb_ge (32768 * 4096) size)) by lia.
  destruct (map_range_effect _ _ (il_tables L) 0 size PAGE_WRITE m) as (m' & Hrun & Hwf' & Hv); try done; try lia.
  exists m'. split; [exact Hrun|]. split; [done|]. intros v Hv32. destruct (Hv v Hv32) as [-> ->].
  unfold is_u32 in Hv32. change (0 / 4096) with 0. rewrite (proj2 (Z.leb_le 0 (v / 4096))) by mlia.
  change IDENTITY_MAP_BYTES with (32768 * 4096). replace (Z.min (32768 * 4096) size) with size by lia. done.
Qed.

Lemma mark_effect a size m :
  wf_tables m -> 0 <= a -> 0 < size -> a + size <= IDENTITY_MAP_BYTES -> a mod 4096 = 0 -> size mod 4096 = 0 ->
  exists m', paging_mark_user_range g_page_directory g_page_tables a size m = Some m' /\ wf_tables m' /\
    forall v, is_u32 v ->
      let inside := (a <=? v) && (v <? a + size) in
      page_get_phys m' g_page_directory v = (if inside then v else page_get_phys m g_page_directory v) /\
      user_accessible m' g_page_directory v = (inside || user_accessible m g_page_directory v).
Proof.
  change IDENTITY_MAP_BYTES with (32768 * 4096). intros Hwf Ha Hs He Ham Hsm. unfold paging_mark_user_range.
  rewrite (proj2 (Z.eqb_neq size 0)), (u32_small (a + size)) by lia.
  rewrite (align_up_aligned (a + size)) by (lia || mlia).
  destruct (map_range_effect _ _ (il_tables L) a (a + size) (Z.lor PAGE_WRITE PAGE_USER) m)
    as (m' & Hrun & Hwf' & Hv); try done; try mlia.
  { unfold is_u32. lia. }
  exists m'. split; [exact Hrun|]. split; [done|]. intros v Hv32. destruct (Hv v Hv32) as [-> ->]. cbn zeta.
  change IDENTITY_MAP_BYTES with (32768 * 4096). unfold is_u32 in Hv32.
  replace ((a / 4096 <=? v / 4096) && (v <? Z.min (32768 * 4096) (a + size))) with ((a <=? v) && (v <? a + size)).
  { by destruct ((a <=? v) && (v <? a + size)). }
  apply eq_true_iff_eq. rewrite !andb_true_iff, !Z.leb_le, !Z.ltb_lt. mlia.
Qed.

Lemma range_frame start size flags m m' :
  mem_wf m -> is_u32 start ->
  identity_map_range g_page_directory g_page_tables start size flags m = Some m' -> mem_wf m' /\ same_outside tables m m'.
Proof.
  intros Hm Hs. unfold identity_map_range. case_cond; [intros; by simplify_eq|]. intros Hrun.
  refine (u32_for_inv _ (fun t => mem_wf t /\ same_outside tables m t) _ _ _ _ _ _ _ Hrun _ _); [by apply land_u32|done|].
  intros i t Hi _ [Ht St]. destruct (map_page_frame g_page_directory g_page_tables i flags t Hi Ht) as [? S'].
  split; [done|]. by etransitivity.
Qed.

#[local] Opaque paging_mark_user_range identity_map_range.

Lemma init_tables_steps total m m1 m2 m3 :
  identity_map_range g_page_directory g_page_tables 0 (Z.min IDENTITY_MAP_BYTES total) PAGE_WRITE m = Some m1 ->
  paging_mark_user_range g_page_directory g_page_tables 0x800000 (1024 * 1024) m1 = Some m2 ->
  paging_mark_user_range g_page_directory g_page_tables 0xBFF000 0x1000 m2 = Some m3 ->
  init_tables g_page_directory g_page_tables total m = Some m3.
Proof.
  intros E1 E2 E3. unfold init_tables.
  replace (if IDENTITY_MAP_BYTES <? total then IDENTITY_MAP_BYTES else total)
    with (Z.min IDENTITY_MAP_BYTES total) by (case_cond; lia).
  rewrite (bind_some _ _ _ E1). unfold Elf.USER_PROGRAM_BASE, Elf.USER_PROGRAM_MAX_SIZE.
  rewrite (bind_some _ _ _ E2).
  replace (USER_STACK_TOP - USER_STACK_SIZE) with 0xBFF000 by reflexivity. exact E3.
Qed.

Lemma init_tables_spec total m :
  wf_tables m -> 0 <= total -> total mod 4096 = 0 ->
  (forall v, is_u32 v -> page_get_phys m g_page_directory v = 0 /\ user_accessible m g_page_directory v = false) ->
  exists m', init_tables g_page_directory g_page_tables total m = Some m' /\ wf_tables m' /\
    forall v, is_u32 v ->
      page_get_phys m' g_page_directory v = (if mapped total v then v else 0) /\
      user_accessible m' g_page_directory v = user_page v.
Proof.
  intros Hwf Ht Htm H0.
  destruct (identity_effect (Z.min IDENTITY_MAP_BYTES total) m Hwf) as (m1 & R1 & Hw1 & E1);
    [change IDENTITY_MAP_BYTES with (32768 * 4096); lia|change IDENTITY_MAP_BYTES with (32768 * 4096); mlia|].
  destruct (mark_effect 0x800000 (1024 * 1024) m1 Hw1) as (m2 & R2 & Hw2 & E2);
    [lia|lia|vm_compute; discriminate|done|done|].
  destruct (mark_effect 0xBFF000 0x1000 m2 Hw2) as (m3 & R3 & Hw3 & E3);
    [lia|lia|vm_compute; discriminate|done|done|].
  exists m3. split; [by apply (init_tables_steps total m m1 m2)|]. split; [done|]. intros v Hv.
  destruct (E3 v Hv) as [-> ->]. destruct (E2 v Hv) as [-> ->]. destruct (E1 v Hv) as [-> ->].
  destruct (H0 v Hv) as [-> ->]. unfold mapped, user_page.
  change (0x800000 + 1024 * 1024) with 0x900000. change (0xBFF000 + 0x1000) with 0xC00000.
  generalize (v <? Z.min IDENTITY_MAP_BYTES total), ((0x800000 <=? v) && (v <? 0x900000)),
    ((0xBFF000 <=? v) && (v <? 0xC00000)). intros [] [] []; split; reflexivity.
Qed.

Lemma init_tables_frame total m m' :
  mem_wf m -> init_tables g_page_directory g_page_tables total m = Some m' -> mem_wf m' /\ same_outside tables m m'.
Proof.
  intros Hm. unfold init_tables.
  intros (m1 & E1 & (m2 & E2 & E3)%bind_Some)%bind_Some.
  apply range_frame in E1 as [Hm1 S1]; [|done|split; vm_compute; congruence].
  apply (mark_user_range_frame g_page_directory g_page_tables) in E2 as [Hm2 S2]; [|split; vm_compute; congruence|done].
  apply (mark_user_range_frame g_page_directory g_page_tables) in E3 as [Hm3 S3]; [|split; vm_compute; congruence|done].
  split; [done|]. by rewrite S1, S2.
Qed.

(** ** The whole of memory_init *)

Lemma has_mmap_same m m' mb :
  (forall x, mb <= x < mb + 52 -> ld8 m' x = ld8 m x) ->
  has_mmap m' mb = has_mmap m mb /\ mmap_length m' mb = mmap_length m mb /\ mmap_addr m' mb = mmap_addr m mb.
Proof.
  intros Hs. unfold has_mmap, mb_flags, mmap_length, mmap_addr.
  rewrite !(ld32_same m m') by (intros; apply Hs; lia). done.
Qed.

Lemma mmap_rep_same (P : Z -> Prop) m m' mb offset l :
  (forall x, mb <= x < mb + 52 -> ld8 m' x = ld8 m x) -> (forall x, P x -> ld8 m' x = ld8 m x) ->
  mmap_rep P m mb offset l -> mmap_rep P m' mb offset l.
Proof.
  intros Hmb HP. destruct (has_mmap_same m m' mb Hmb) as (_ & El & Ea).
  revert offset. induction l as [|e l IH]; intros offset; simpl; rewrite ?El, ?Ea; [done|].
  intros (H1 & H2 & H3 & H4 & H5). split_and!; try done; [|by apply IH].
  rewrite <- H2. unfold read_entry, me_size, me_addr_low, me_len_low, me_type.
  by rewrite !(ld32_same m m') by (intros; apply HP, H3; lia).
Qed.

Lemma boot_info_same (P : Z -> Prop) m m' mb_magic mb av :
  (forall x, mb <= x < mb + 52 -> P x) -> (forall x, P x -> ld8 m' x = ld8 m x) ->
  boot_info P m mb_magic mb av -> boot_info P m' mb_magic mb av.
Proof.
  intros Hmb HP. assert (Hmb' : forall x, mb <= x < mb + 52 -> ld8 m' x = ld8 m x) by auto.
  destruct (has_mmap_same m m' mb Hmb') as (Eh & _ & _). intros [l Hg Hne Hm Hr Hok|Hno].
  - apply bi_map; try done; [congruence|]. by apply (mmap_rep_same P m).
  - apply bi_no_map. by rewrite Eh.
Qed.

Lemma boot_info_mono (P Q : Z -> Prop) m mb_magic mb av :
  (forall x, P x -> Q x) -> boot_info P m mb_magic mb av -> boot_info Q m mb_magic mb av.
Proof.
  intros HPQ [l Hg Hne Hm Hr Hok|Hno]; [|by apply bi_no_map]. apply bi_map; try done.
  clear Hok. revert Hr. generalize 0. induction l as [|e l IH]; intros offset; cbn [mmap_rep]; [done|].
  intros (H1 & H2 & H3 & H4 & H5). split_and!; auto.
Qed.

Lemma detect_total P m mb_magic mb av :
  mem_wf m -> boot_info P m mb_magic mb av ->
  exists bytes, detect_memory_bytes m mb_magic mb = Some bytes /\ is_u32 bytes.
Proof.
  intros Hm Hbi. unfold detect_memory_bytes.
  destruct (negb (mb_magic =? MULTIBOOT_MAGIC) || (mb =? 0)) eqn:Eg.
  { eexists. split; [done|]. unfold is_u32. lia. }
  set (wo := if negb (Z.land (mb_flags m mb) 1 =? 0) then _ else _).
  assert (Hwo : is_u32 wo).
  { subst wo. case_cond; [|unfold is_u32; lia]. cbn zeta. case_cond; [auto with kernel|unfold is_u32; lia]. }
  clearbody wo. destruct Hbi as [l Hg Hne Hmm Hr Hok|Hno].
  - rewrite Hmm.
    match goal with |- context [mmap_loop _ _ _ _ ?b _] =>
      destruct (mmap_walk P m mb Hm (fun _ mx => is_u32 mx) (fun _ => True) b l 0) as (mx & Hrun & Hmx);
        [|exact Hr|by apply list.Forall_true|split; done|] end.
    + intros done a mx _ Hmx. eexists. split; [done|].
      destruct (me_type m a =? 1); [|done]. cbn zeta. destruct (mx <? _); auto with kernel.
    + rewrite (bind_some _ _ _ Hrun). eexists. split; [done|]. by case_match.
  - apply orb_false_iff in Eg as [E1 E2]. apply negb_false_iff in E1. rewrite E1, E2 in Hno. cbn in Hno.
    rewrite Hno. by exists wo.
Qed.

Lemma heap_init_frame h :
  same_outside (fun x => g_heap <= x < g_heap + Heap.HEAP_SIZE) (Heap.h_mem h) (Heap.h_mem (Heap.heap_init g_heap h)).
Proof.
  unfold Heap.heap_init. destruct (Heap.g_heap_ready h); [done|]. cbn [Heap.h_mem Heap.g_heap_head].
  change Heap.HEAP_SIZE with 524288.
  unfold Heap.set_prev, Heap.set_next, Heap.set_free, Heap.set_size, Heap.set_magic.
  repeat (etransitivity; [|apply same_outside_st32; lia]).
  etransitivity; [|apply same_outside_st8; lia].
  repeat (etransitivity; [|apply same_outside_st32; lia]). done.
Qed.

(** What memory_init may write. *)
Definition init_area (x : Z) : Prop := tables x \/ g_heap <= x < g_heap + Heap.HEAP_SIZE.

(** The state after memory_init. *)
Record ready (av : Z -> bool) (k : mm) : Prop := {
  rd_flag : g_paging_ready k = true;
  rd_cr3 : cr3 k = g_page_directory;
  rd_pg : Z.testbit (cr0 k) 31 = true;
  rd_frames : frames_are (g_total_memory_bytes (mm_pmm k)) (fun g => negb (av g) || reserved kernel_end g) (mm_pmm k);
  rd_tables : wf_tables (Heap.h_mem (mm_heap k));
  rd_phys v : is_u32 v ->
    page_get_phys (Heap.h_mem (mm_heap k)) g_page_directory v
    = if mapped (g_total_memory_bytes (mm_pmm k)) v then v else 0;
  rd_user v : is_u32 v -> user_accessible (Heap.h_mem (mm_heap k)) g_page_directory v = user_page v;
  rd_heap : Heap.client_inv g_heap (mm_heap k, [])
}.

(** Writes elsewhere keep the state. *)
Lemma ready_writes av k m' :
  ready av k -> mem_wf m' -> (forall x, init_area x -> ld8 m' x = ld8 (Heap.h_mem (mm_heap k)) x) ->
  ready av (mkMm (mm_pmm k) (Heap.with_mem (mm_heap k) m') (g_paging_ready k) (cr0 k) (cr3 k)).
Proof.
  intros [R1 R2 R3 R4 R5 R6 R7 R8] Hm Hs. pose proof (il_tables L) as LT.
  assert (Ht : forall x, tables x -> ld8 m' x = ld8 (Heap.h_mem (mm_heap k)) x) by (intros; apply Hs; by left).
  destruct (tables_wf_same _ _ LT (Heap.h_mem (mm_heap k)) m') as [Hw Ha]; [done|done|].
  split; cbn [mm_pmm mm_heap g_paging_ready cr0 cr3]; try done.
  - intros v Hv. rewrite <- R6 by done. cbn [Heap.with_mem Heap.h_mem].
    destruct (boot_entry _ _ LT m' v Hw Hv) as [-> _]. destruct (boot_entry _ _ LT _ v R5 Hv) as [-> _].
    destruct (Z.ltb_spec v IDENTITY_MAP_BYTES) as [Hlt|]; [|done]. cbn [andb].
    rewrite (ld32_same (Heap.h_mem (mm_heap k))); [done|]. intros i Hi. apply Ht. right. unfold is_u32 in Hv.
    change IDENTITY_MAP_BYTES with (32768 * 4096) in Hlt. change IDENTITY_TABLES with 32. mlia.
  - intros v Hv. cbn [Heap.with_mem Heap.h_mem]. rewrite Ha by done. by apply R7.
  - pose proof (Heap.heap_allocator_laws g_heap (il_heap L)) as HL.
    apply (@heap_inv_writes _ _ HL (mm_heap k) [] m' R8 Hm). intros x Hx _. apply Hs. by right.
Qed.

End Ready.

(** ** Properties *)

(** The steps of memory_init put together. *)
Lemma memory_init_ready' (g_page_directory g_page_tables g_heap kernel_end : Z)
    (mb_magic mb : Z) (av : Z -> bool) (k : mm) :
  init_layout g_page_directory g_page_tables g_heap kernel_end ->
  g_paging_ready k = false -> Heap.fresh (mm_heap k) ->
  (forall x, mb <= x < mb + 52 -> ~ table_area g_page_directory g_page_tables x) ->
  boot_info (fun x => ~ table_area g_page_directory g_page_tables x) (Heap.h_mem (mm_heap k)) mb_magic mb av ->
  exists k', memory_init g_page_directory g_page_tables g_heap kernel_end mb_magic mb k = Some k' /\
    ready g_page_directory g_page_tables g_heap kernel_end av k' /\
    (forall bytes, detect_memory_bytes (Heap.h_mem (mm_heap k)) mb_magic mb = Some bytes ->
       g_total_memory_bytes (mm_pmm k') = Z.min MAX_PHYS_MEM_BYTES ((bytes + 4095) / 4096 * 4096)) /\
    same_outside (init_area g_page_directory g_page_tables g_heap) (Heap.h_mem (mm_heap k)) (Heap.h_mem (mm_heap k')).
Proof.
  intros L Hp [Hfr Hm] Hmb Hbi. set (m := Heap.h_mem (mm_heap k)) in *.
  destruct (clear_tables_wf _ _ _ _ L m Hm) as (Hm1 & Hw1 & Hs1).
  destruct (detect_total _ m mb_magic mb av Hm Hbi) as (bytes & Hdet & Hbytes).
  set (m1 := clear_tables g_page_directory g_page_tables m) in *.
  assert (Hbi1 : boot_info (fun x => ~ table_area g_page_directory g_page_tables x) m1 mb_magic mb av).
  { by apply (boot_info_same _ m); [|intros; apply Hs1|]. }
  set (total := Z.min MAX_PHYS_MEM_BYTES ((bytes + 4095) / 4096 * 4096)).
  assert (Ht : 0 <= total <= MAX_PHYS_MEM_BYTES /\ total mod 4096 = 0).
  { subst total. change MAX_PHYS_MEM_BYTES with (131072 * 4096). unfold is_u32 in Hbytes. split; mlia. }
  destruct (il_kernel _ _ _ _ L) as [_ Hke]. destruct Ht as [Ht Htm].
  destruct (init_frames_spec kernel_end Hke _ m1 mb_magic mb av total
              (init_totals bytes (mm_pmm k)) Hm1 Hbi1 Ht Htm (init_totals_spec bytes _ Hbytes))
    as (s & Hframes & Hfa).
  destruct (init_tables_spec _ _ _ _ L total m1 Hw1 (proj1 Ht) Htm) as (m2 & Htab & Hw2 & Hv2).
  { intros v Hv. apply (clear_tables_empty _ _ _ _ L m v Hm Hv). }
  pose proof (fa_total _ _ _ Hfa) as Etot.
  unfold memory_init. rewrite Hp. fold m. rewrite (bind_some _ _ _ Hdet). cbv zeta. fold m1.
  rewrite (bind_some _ _ _ Hframes), Etot, (bind_some _ _ _ Htab).
  eexists. split; [reflexivity|]. unfold enable_paging. cbn [mm_pmm mm_heap g_paging_ready cr0 cr3].
  destruct (init_tables_frame _ _ total m1 m2 Hm1 Htab) as [Hm2 Hs2].
  set (h := Heap.with_mem (mm_heap k) m2).
  destruct (il_heap _ _ _ _ L) as [Hlow Hhigh Hal].
  destruct (tables_wf_same _ _ (il_tables _ _ _ _ L) m2 (Heap.h_mem (Heap.heap_init g_heap h))) as [Hw3 Ha3]; [|exact Hw2|].
  { intros x Hx. apply (heap_init_frame g_heap h). intros Hy. by apply (il_disj _ _ _ _ L x Hy). }
  split; [|split; [cbn [mm_pmm]; intros b Hb; rewrite Hdet in Hb; by simplify_eq|]].
  2: { intros x Hx. unfold init_area in Hx. rewrite (heap_init_frame g_heap h), Hs2, Hs1 by tauto. done. }
  split; cbn [mm_pmm mm_heap g_paging_ready cr0 cr3]; try done.
  - rewrite Z.lor_spec. by apply orb_true_r.
  - by rewrite Etot.
  - intros v Hv. rewrite Etot. destruct (Hv2 v Hv) as [<- _].
    destruct (boot_entry _ _ (il_tables _ _ _ _ L) _ v Hw3 Hv) as [-> _].
    destruct (boot_entry _ _ (il_tables _ _ _ _ L) m2 v Hw2 Hv) as [-> _].
    destruct (Z.ltb_spec v IDENTITY_MAP_BYTES) as [Hlt|]; [|done]. cbn [andb].
    rewrite (ld32_same m2); [done|]. intros i Hi. apply (heap_init_frame g_heap h).
    intros Hy. apply (il_disj _ _ _ _ L i Hy). right. unfold is_u32 in Hv.
    change IDENTITY_MAP_BYTES with (32768 * 4096) in Hlt. change IDENTITY_TABLES with 32. mlia.
  - intros v Hv. rewrite Ha3 by done. by apply Hv2.
  - by apply Heap.client_inv_init.
Qed.

(** C5: memory_init brings up the memory system.  It returns; paging is on
    with the kernel's page directory; a frame is in use exactly when it is not
    in an available region of the memory map or is one that the kernel keeps
    for itself; addresses of memory translate to themselves and only the user
    region and the user stack are open to ring 3; the heap is ready; and no
    memory outside the page tables and the heap has changed. *)
Theorem memory_init_ready (g_page_directory g_page_tables g_heap kernel_end : Z)
    (mb_magic mb : Z) (av : Z -> bool) (k : mm) :
  init_layout g_page_directory g_page_tables g_heap kernel_end ->
  g_paging_ready k = false -> Heap.fresh (mm_heap k) ->
  (forall x, mb <= x < mb + 52 -> ~ table_area g_page_directory g_page_tables x) ->
  boot_info (fun x => ~ table_area g_page_directory g_page_tables x) (Heap.h_mem (mm_heap k)) mb_magic mb av ->
  exists k', memory_init g_page_directory g_page_tables g_heap kernel_end mb_magic mb k = Some k' /\
    ready g_page_directory g_page_tables g_heap kernel_end av k' /\
    (forall bytes, detect_memory_bytes (Heap.h_mem (mm_heap k)) mb_magic mb = Some bytes ->
       g_total_memory_bytes (mm_pmm k') = Z.min MAX_PHYS_MEM_BYTES ((bytes + 4095) / 4096 * 4096)) /\
    same_outside (init_area g_page_directory g_page_tables g_heap) (Heap.h_mem (mm_heap k)) (Heap.h_mem (mm_heap k')).
Proof. apply memory_init_ready'. Qed.

(** The available frame of an entry, in its region. *)
Lemma available_place P m mb l g :
  mem_wf m -> mmap_rep P m mb 0 l -> whole_pages m mb l -> 256 <= g -> available l g = true ->
  exists a, In a (entry_places m mb 0 l) /\ ld32 m (a + 20) = 1 /\
    region_start m a <= g * 4096 /\ (g + 1) * 4096 <= region_end m a.
Proof.
  intros Hm Hr Hw Hg Hav. apply existsb_exists in Hav as (e & He & Hc).
  assert (Hp : forall off, mmap_rep P m mb off l -> exists a, In a (entry_places m mb off l) /\ read_entry m a = e).
  { clear Hr Hw Hc. induction l as [|e' l IH]; intros off; [done|]. cbn [mmap_rep entry_places In].
    intros (_ & Ee & _ & _ & Hr). destruct He as [->|He]; [by eexists; split; [left|]|].
    destruct (IH He _ Hr) as (a & Ha & Ea). exists a. split; [by right|done]. }
  destruct (Hp 0 Hr) as (a & Ha & <-). exists a. split; [done|].
  cbn [read_entry en_type en_len en_addr] in Hc. unfold me_type, me_len_low, me_addr_low in Hc.
  pose proof (ld32_u32 m (a + 4) Hm) as U4. pose proof (ld32_u32 m (a + 8) Hm) as U8.
  pose proof (ld32_u32 m (a + 12) Hm) as U12. pose proof (ld32_u32 m (a + 16) Hm) as U16. unfold is_u32 in *.
  assert (Ht : ld32 m (a + 20) = 1) by lia. split; [done|].
  specialize (Hw a Ha Ht). unfold region_end, region_start in *.
  destruct Hw as (E8 & E16 & M1 & M2); [lia|]. rewrite E8, E16, Z.mul_0_r, !Z.add_0_r in *.
  generalize dependent (ld32 m (a + 4)). generalize dependent (ld32 m (a + 12)). clear. intros n Un st. intros. split; mlia.
Qed.

(** C26: what the allocator hands out after memory_init is harmless.  From the
    cold start memory_init returns, and through every run of allocations and
    frees of the caller behind it no two frames that are held are the same and
    each of them is a frame that the memory map makes available, above the
    first megabyte and the kernel image, inside the memory that was found,
    outside the user region and the user stack, and mapped to itself out of
    reach of ring 3 (when it lies in the identity map).  When the available
    regions above the first megabyte lie below 4 GiB and consist of whole
    pages, each frame lies inside one of them; otherwise the frame may reach
    out of its region, as parts of pages are freed like pages and the upper
    halves of addresses and lengths are ignored. *)
Theorem boot_alloc_safe (g_page_directory g_page_tables g_heap kernel_end : Z)
    (mb_magic mb : Z) (av : Z -> bool) (k : mm) :
  init_layout g_page_directory g_page_tables g_heap kernel_end ->
  g_paging_ready k = false -> Heap.fresh (mm_heap k) ->
  (forall x, mb <= x < mb + 52 -> ~ table_area g_page_directory g_page_tables x) ->
  boot_info (fun x => ~ table_area g_page_directory g_page_tables x) (Heap.h_mem (mm_heap k)) mb_magic mb av ->
  exists k', memory_init g_page_directory g_page_tables g_heap kernel_end mb_magic mb k = Some k' /\
    forall s owned, rtc step (mm_pmm k', []) (s, owned) ->
      NoDup owned /\
      forall r, In r owned ->
        av (r / 4096) = true /\ r mod 4096 = 0 /\ 0x100000 <= r /\ kernel_end <= r /\
        r + 4096 <= g_total_memory_bytes (mm_pmm k') /\
        (r + 4096 <= 0x800000 \/ 0x900000 <= r) /\ r <> 0xBFF000 /\
        (r < IDENTITY_MAP_BYTES ->
         page_get_phys (Heap.h_mem (mm_heap k')) g_page_directory r = r /\
         user_accessible (Heap.h_mem (mm_heap k')) g_page_directory r = false) /\
        (forall l, av = available l ->
         mmap_rep (fun x => ~ table_area g_page_directory g_page_tables x) (Heap.h_mem (mm_heap k)) mb 0 l ->
         whole_pages (Heap.h_mem (mm_heap k)) mb l ->
         exists a, In a (entry_places (Heap.h_mem (mm_heap k)) mb 0 l) /\ ld32 (Heap.h_mem (mm_heap k)) (a + 20) = 1 /\
           region_start (Heap.h_mem (mm_heap k)) a <= r /\ r + 4096 <= region_end (Heap.h_mem (mm_heap k)) a).
Proof.
  intros L Hp Hfresh Hmb Hbi.
  destruct (memory_init_ready' g_page_directory g_page_tables g_heap kernel_end mb_magic mb av k L Hp Hfresh Hmb Hbi)
    as (k' & Hrun & R & _). exists k'. split; [done|]. intros s owned Hsteps.
  pose proof (rd_frames _ _ _ _ _ _ R) as [Hw _ Hu]. pose proof (wf_bytes _ Hw) as Hb. pose proof (wf_frames _ Hw) as Hfr.
  rewrite MAX_FRAMES_val in Hfr. unfold PAGE_SIZE in *.
  destruct (accounted_start (mm_pmm k') s owned Hw) as (_ & _ & Hnd & Hown & _); [|done|].
  { intros Hpos. rewrite Hu by lia. apply orb_true_r. }
  split; [done|]. intros r Hin. rewrite list.Forall_forall in Hown.
  destruct (Hown r) as (f & -> & Hf & Ht); [by apply list_elem_of_In|]. unfold PAGE_SIZE in *.
  rewrite Hu in Ht by lia. apply orb_false_iff in Ht as [Hav Hres]. apply negb_false_iff in Hav.
  unfold reserved in Hres. rewrite Z.div_mul by lia.
  assert (Hv : is_u32 (f * 4096)) by (unfold is_u32; lia).
  split; [done|]. split; [apply Z.mod_mul; lia|]. do 5 (split; [lia|]). split.
  - change IDENTITY_MAP_BYTES with (32768 * 4096). intros Hid.
    rewrite (rd_phys _ _ _ _ _ _ R), (rd_user _ _ _ _ _ _ R) by done.
    unfold mapped, user_page. change IDENTITY_MAP_BYTES with (32768 * 4096). split; [|lia].
    rewrite (proj2 (Z.ltb_lt (f * 4096) _)) by lia. done.
  - intros l -> Hr Hwp. replace (f * 4096 + 4096) with ((f + 1) * 4096) by lia.
    apply (available_place _ _ _ _ _ (proj2 Hfresh) Hr Hwp); [lia|done].
Qed.

(** The upper half of a region's address is ignored.  Whatever
    [addr_high] an entry of the memory map has, the same frames are freed: a
    region above 4 GiB is taken for the region with the same low address. *)
Theorem addr_high_ignored (m : mem) (entry v : Z) (s : pmm) :
  free_entry (st32 m (entry + 8) v) entry s = free_entry m entry s.
Proof.
  unfold free_entry, me_type, me_addr_low, me_len_low.
  by rewrite !ld32_st32_ne by lia.
Qed.

(** An available region that ends exactly at 4 GiB is lost: [start +
    size] wraps to 0 and no frame of it is freed. *)
Theorem region_to_4g_lost (m : mem) (entry : Z) (s : pmm) :
  mem_wf m -> wf s -> me_type m entry = 1 -> me_addr_low m entry + me_len_low m entry = 2 ^ 32 ->
  free_entry m entry s = Some s.
Proof.
  intros Hm Hw Hty He. unfold free_entry. rewrite Hty, Z.eqb_refl. case_cond; [|done].
  assert (Ha : is_u32 (me_addr_low m entry)) by (apply ld32_u32; done).
  pose proof (wf_bytes _ Hw) as Hb. pose proof (wf_frames _ Hw) as Hf. rewrite MAX_FRAMES_val in Hf.
  unfold is_u32, PAGE_SIZE in *. rewrite He. change (u32 (2 ^ 32)) with 0.
  rewrite (proj2 (Z.ltb_ge (g_total_memory_bytes s) 0)) by lia.
  unfold free_range. rewrite (proj2 (Z.eqb_neq _ 0)) by lia. unfold range_end. rewrite He.
  change (align_up_u32 (u32 (2 ^ 32)) PAGE_SIZE) with 0.
  rewrite (proj2 (Z.ltb_ge (g_total_memory_bytes s) 0)) by lia.
  assert (0 <= Z.land (me_addr_low m entry) 0xFFFFF000) by (apply land_u32; done).
  destruct (for_fuel _ _ _); cbn [u32_for]; by rewrite (proj2 (Z.ltb_ge _ 0)).
Qed.

(** ** Witnesses: a PC with 128 MiB and a two-entry memory map *)

Definition put32 (l : list (Z * Z)) (m : mem) : mem := foldr (fun p m => st32 m p.1 p.2) m l.

Lemma put32_wf l m : mem_wf m -> mem_wf (put32 l m).
Proof. intros Hm. induction l; simpl; auto with kernel. Qed.

Definition pc_mem : mem :=
  put32 [ (0x9000, 0x41); (0x902C, 48); (0x9030, 0x9100);
          (0x9100, 20); (0x9104, 0); (0x910C, 0x9FC00); (0x9114, 1);
          (0x9118, 20); (0x911C, 0x100000); (0x9124, 0x7F00000); (0x912C, 1) ] ∅.

Definition pc_map : list entry := [ mkEntry 20 0 0x9FC00 1; mkEntry 20 0x100000 0x7F00000 1 ].

Definition cold : mm := mkMm (mkPmm 0 0 []) (Heap.mkHeap pc_mem 0 false) false 0x11 0.

Lemma pc_layout : init_layout 0x300000 0x301000 Heap.heap_at 0x400000.
Proof.
  split.
  - split; vm_compute; intuition congruence.
  - apply Heap.heap_at_layout.
  - intros x. unfold table_area. change (4096 * IDENTITY_TABLES) with 0x20000.
    change Heap.heap_at with 0x200000. change Heap.HEAP_SIZE with 0x80000. lia.
  - lia.
Qed.

Lemma pc_boot_info :
  boot_info (fun x => ~ table_area 0x300000 0x301000 x) pc_mem MULTIBOOT_MAGIC 0x9000 (available pc_map).
Proof.
  assert (Hp : forall a, a = 0x9100 \/ a = 0x9118 -> forall x, a <= x < a + 24 -> ~ table_area 0x300000 0x301000 x).
  { intros a Ha x. unfold table_area. change (4096 * IDENTITY_TABLES) with 0x20000. lia. }
  apply bi_map; [reflexivity|lia|vm_compute; reflexivity| |].
  - cbn [mmap_rep pc_map en_size].
    split; [vm_compute; reflexivity|]. split; [vm_compute; reflexivity|].
    split; [apply Hp; left; vm_compute; reflexivity|]. split; [lia|].
    split; [vm_compute; reflexivity|]. split; [vm_compute; reflexivity|].
    split; [apply Hp; right; vm_compute; reflexivity|]. split; [lia|vm_compute; discriminate].
  - repeat constructor; vm_compute; congruence.
Qed.

Lemma cold_ready :
  exists k', memory_init 0x300000 0x301000 Heap.heap_at 0x400000 MULTIBOOT_MAGIC 0x9000 cold = Some k' /\
    ready 0x300000 0x301000 Heap.heap_at 0x400000 (available pc_map) k' /\
    g_total_memory_bytes (mm_pmm k') = 0x8000000.
Proof.
  destruct (memory_init_ready' 0x300000 0x301000 Heap.heap_at 0x400000 MULTIBOOT_MAGIC 0x9000
              (available pc_map) cold pc_layout) as (k' & Hrun & R & Ht & _);
    [done|split; [done|by apply put32_wf, mem_wf_empty]| |apply pc_boot_info|].
  - intros x. unfold table_area. change (4096 * IDENTITY_TABLES) with 0x20000. lia.
  - exists k'. split; [exact Hrun|]. split; [exact R|]. rewrite (Ht 0x8000000); [reflexivity|].
    vm_compute. reflexivity.
Qed.

Lemma memory_init_ready_witness :
  exists k', memory_init 0x300000 0x301000 Heap.heap_at 0x400000 MULTIBOOT_MAGIC 0x9000 cold = Some k' /\
    test_frame (mm_pmm k') 0x500 = false /\ test_frame (mm_pmm k') 0x800 = true.
Proof.
  destruct (memory_init_ready 0x300000 0x301000 Heap.heap_at 0x400000 MULTIBOOT_MAGIC 0x9000
              (available pc_map) cold pc_layout) as (k' & Hrun & R & Ht & _);
    [reflexivity|split; [reflexivity|apply put32_wf, mem_wf_empty]| |apply pc_boot_info|].
  - intros x. unfold table_area. change (4096 * IDENTITY_TABLES) with 0x20000. lia.
  - exists k'. split; [exact Hrun|].
    assert (E : g_total_memory_bytes (mm_pmm k') = 0x8000000)
      by (rewrite (Ht 0x8000000); [reflexivity|vm_compute; reflexivity]).
    pose proof (rd_frames _ _ _ _ _ _ R) as [Hw _ Hu]. pose proof (wf_bytes _ Hw) as Hb.
    unfold PAGE_SIZE in Hb. split; rewrite Hu by lia; vm_compute; reflexivity.
Defined.

(** The regions of this PC: the second one consists of whole pages. *)
Lemma pc_places : entry_places pc_mem 0x9000 0 pc_map = [0x9100; 0x9118].
Proof. vm_compute. reflexivity. Qed.

Lemma pc_whole_pages : whole_pages pc_mem 0x9000 pc_map.
Proof.
  intros a. rewrite pc_places. intros [<-|[<-|[]]] _ He; [vm_compute in He; discriminate|].
  split_and!; vm_compute; reflexivity.
Qed.

Lemma pc_rep : mmap_rep (fun x => ~ table_area 0x300000 0x301000 x) pc_mem 0x9000 0 pc_map.
Proof.
  assert (Hp : forall a, a = 0x9100 \/ a = 0x9118 -> forall x, a <= x < a + 24 -> ~ table_area 0x300000 0x301000 x).
  { intros a Ha x. unfold table_area. change (4096 * IDENTITY_TABLES) with 0x20000. lia. }
  cbn [mmap_rep pc_map en_size].
  split; [vm_compute; reflexivity|]. split; [vm_compute; reflexivity|].
  split; [apply Hp; left; vm_compute; reflexivity|]. split; [lia|].
  split; [vm_compute; reflexivity|]. split; [vm_compute; reflexivity|].
  split; [apply Hp; right; vm_compute; reflexivity|]. split; [lia|vm_compute; discriminate].
Qed.

(** The first allocation after memory_init succeeds, inside the second region. *)
Lemma boot_alloc_safe_witness :
  exists k', memory_init 0x300000 0x301000 Heap.heap_at 0x400000 MULTIBOOT_MAGIC 0x9000 cold = Some k' /\
    (pmm_alloc_frame (mm_pmm k')).1 <> 0 /\ 0x400000 <= (pmm_alloc_frame (mm_pmm k')).1 /\
    (pmm_alloc_frame (mm_pmm k')).1 + 4096 <= 0x8000000.
Proof.
  destruct cold_ready as (k' & Hrun & R & Ht). exists k'. split; [exact Hrun|].
  pose proof (rd_frames _ _ _ _ _ _ R) as [Hw _ Hu]. pose proof (wf_bytes _ Hw) as Hb. unfold PAGE_SIZE in Hb.
  destruct (pmm_alloc_frame (mm_pmm k')) as [r s'] eqn:Ea. cbn [fst].
  assert (Hr : r <> 0).
  { destruct (alloc_cases _ _ _ Hw Ea) as [(f & Hf & Hfree & _ & -> & _)|(Hall & _)].
    - intros E. assert (f = 0) as -> by (unfold PAGE_SIZE in E; lia).
      rewrite Hu in Hfree by lia. vm_compute in Hfree. discriminate.
    - specialize (Hall 0x500 ltac:(lia)). rewrite Hu in Hall by lia. vm_compute in Hall. discriminate. }
  split; [exact Hr|].
  destruct (boot_alloc_safe 0x300000 0x301000 Heap.heap_at 0x400000 MULTIBOOT_MAGIC 0x9000 (available pc_map) cold pc_layout)
    as (k2 & Hrun2 & Hall).
  - reflexivity.
  - split; [reflexivity|apply put32_wf, mem_wf_empty].
  - intros x. unfold table_area. change (4096 * IDENTITY_TABLES) with 0x20000. lia.
  - exact pc_boot_info.
  - rewrite Hrun in Hrun2. injection Hrun2 as <-.
    destruct (Hall s' [r]) as [_ Hown]; [by apply rtc_once, step_alloc|].
    destruct (Hown r (or_introl eq_refl)) as (_ & _ & _ & Hk & _ & _ & _ & _ & Hreg).
    split; [exact Hk|]. destruct (Hreg pc_map eq_refl pc_rep pc_whole_pages) as (a & Ha & _ & _ & He).
    change (Heap.h_mem (mm_heap cold)) with pc_mem in Ha, He. rewrite pc_places in Ha.
    assert (E1 : region_end pc_mem 0x9100 = 0x9FC00) by (vm_compute; reflexivity).
    assert (E2 : region_end pc_mem 0x9118 = 0x8000000) by (vm_compute; reflexivity).
    destruct Ha as [<-|[<-|[]]]; lia.
Defined.

Lemma region_to_4g_lost_witness :
  free_entry (put32 [(0x1004, 0x1000000); (0x100C, 0xFF000000); (0x1014, 1)] ∅) 0x1000 (full 0x8000000)
  = Some (full 0x8000000).
Proof.
  apply region_to_4g_lost; [apply put32_wf, mem_wf_empty| |vm_compute; reflexivity|vm_compute; reflexivity].
  apply full_spec; vm_compute; intuition congruence.
Defined.

End MemInit.
