(* ===== verification/Vga.v ===== *)
(** * The text console: arch/vga.c

    The 80x25 text screen at 0xB8000 as a list of 16-bit cells, the cursor
    and the current colour, and the writes to the ports of the CRT controller
    in order.  The abstract console at the end of the definitions is an
    unbounded transcript of rows; the screen is its window on the last 25. *)

From Stdlib Require Import ZifyBool.
From S2P Require Import Prelude.
Local Open Scope Z_scope.

Module Vga.

Definition VGA_WIDTH : Z := 80.
Definition VGA_HEIGHT : Z := 25.
Definition DEFAULT_COLOR : Z := 0x0F.
Definition COLOR_RED : Z := 4.
Definition COLOR_WHITE : Z := 15.

Record vga := mkVga {
  cursor_x : Z;
  cursor_y : Z;
  g_current_color : Z;
  video_mem : list Z;          (** cells of 16 bits, row by row *)
  port_log : list (Z * Z)      (** [outb(port, value)], in order *)
}.

Definition outb (port val : Z) (s : vga) : vga :=
  mkVga (cursor_x s) (cursor_y s) (g_current_color s) (video_mem s) (port_log s ++ [(port, u8 val)]).

Definition set_cursor (x y : Z) (s : vga) : vga :=
  mkVga x y (g_current_color s) (video_mem s) (port_log s).

Definition set_cell (i v : Z) (s : vga) : vga :=
  mkVga (cursor_x s) (cursor_y s) (g_current_color s) (setZ (video_mem s) i (u16 v)) (port_log s).

Definition set_color (c : Z) (s : vga) : vga :=
  mkVga (cursor_x s) (cursor_y s) (u8 c) (video_mem s) (port_log s).

Definition vga_set_color (fg bg : Z) (s : vga) : vga :=
  set_color (Z.lor (Z.shiftl bg 4) (Z.land fg 0x0F)) s.

Definition vga_reset_color (s : vga) : vga := set_color DEFAULT_COLOR s.

Definition vga_update_cursor (s : vga) : vga :=
  let pos := u16 (cursor_y s * VGA_WIDTH + cursor_x s) in
  let s := outb 0x3D4 0x0F s in
  let s := outb 0x3D5 (Z.land pos 0xFF) s in
  let s := outb 0x3D4 0x0E s in
  outb 0x3D5 (Z.land (Z.shiftr pos 8) 0xFF) s.

(** [for (int i = i0; i < i0 + n; i++) body i] *)
Fixpoint for_int (n : nat) (i : Z) (body : Z -> vga -> vga) (s : vga) : vga :=
  match n with
  | O => s
  | S n' => for_int n' (i + 1) body (body i s)
  end.

(** A blank in the current colour. *)
Definition blank (s : vga) : Z := Z.lor (Z.shiftl (g_current_color s) 8) 32.

Definition vga_scroll (s : vga) : vga :=
  let s := for_int (Z.to_nat ((VGA_HEIGHT - 1) * VGA_WIDTH)) 0
             (fun i s => set_cell i (getZ (video_mem s) (i + VGA_WIDTH)) s) s in
  let s := for_int (Z.to_nat VGA_WIDTH) ((VGA_HEIGHT - 1) * VGA_WIDTH)
             (fun i s => set_cell i (blank s) s) s in
  set_cursor (cursor_x s) (VGA_HEIGHT - 1) s.

Definition clear_screen (s : vga) : vga :=
  let s := for_int (Z.to_nat (VGA_HEIGHT * VGA_WIDTH)) 0 (fun i s => set_cell i (blank s) s) s in
  vga_update_cursor (set_cursor 0 0 s).

(** [c] is a [char]: -128..127. *)
Definition vga_putc (c : Z) (s : vga) : vga :=
  let s :=
    if c =? 10 then set_cursor 0 (cursor_y s + 1) s
    else if c =? 8 then
      if 0 <? cursor_x s then set_cursor (cursor_x s - 1) (cursor_y s) s else s
    else
      let offset := cursor_y s * VGA_WIDTH + cursor_x s in
      let s := set_cell offset (Z.lor (Z.shiftl (g_current_color s) 8) c) s in
      let s := set_cursor (cursor_x s + 1) (cursor_y s) s in
      if VGA_WIDTH <=? cursor_x s then set_cursor 0 (cursor_y s + 1) s else s in
  let s := if VGA_HEIGHT <=? cursor_y s then vga_scroll s else s in
  vga_update_cursor s.

(** The characters of a C string, up to its NUL. *)
Fixpoint vga_puts (str : list Z) (s : vga) : vga :=
  match str with
  | [] => s
  | c :: str' => if c =? 0 then s else vga_puts str' (vga_putc c s)
  end.

Definition hex_chars : list Z := [48; 49; 50; 51; 52; 53; 54; 55; 56; 57; 65; 66; 67; 68; 69; 70].

(** [for (int i = 28; i >= 0; i -= 4)]: eight digits. *)
Fixpoint print_hex_loop (n : nat) (i val : Z) (s : vga) : vga :=
  match n with
  | O => s
  | S n' => print_hex_loop n' (i - 4) val (vga_putc (getZ hex_chars (Z.land (Z.shiftr val i) 0xF)) s)
  end.

Definition vga_print_hex (val : Z) (s : vga) : vga := print_hex_loop 8 28 val s.

(** ** Invariant and the abstract console *)

Record wf (s : vga) : Prop := {
  wf_x : 0 <= cursor_x s < VGA_WIDTH;
  wf_y : 0 <= cursor_y s < VGA_HEIGHT;
  wf_color : is_u8 (g_current_color s);
  wf_cells : Z.of_nat (length (video_mem s)) = VGA_HEIGHT * VGA_WIDTH;
  wf_u16 j : 0 <= j -> 0 <= getZ (video_mem s) j < 2 ^ 16
}.

(** An unbounded transcript: rows from 0 on, the cursor, and the first row
    that is still visible. *)
Record console := mkConsole {
  page : Z -> Z -> Z;     (** row, column *)
  row : Z;
  col : Z;
  top : Z;
  color : Z
}.

Definition set_at {A} (f : Z -> Z -> A) (r c : Z) (v : A) : Z -> Z -> A :=
  fun r' c' => if (r' =? r) && (c' =? c) then v else f r' c'.

(** The next row; one that was never visible starts blank. *)
Definition new_line (t : console) : console :=
  if row t + 1 <? top t + VGA_HEIGHT then mkConsole (page t) (row t + 1) 0 (top t) (color t)
  else mkConsole (fun r c => if r =? row t + 1 then color t * 256 + 32 else page t r c)
         (row t + 1) 0 (top t + 1) (color t).

(** A character in the current colour; the code of a character above 127
    spills ones over the colour. *)
Definition cell_of (colr c : Z) : Z := if 0 <=? c then colr * 256 + c else 0xFF00 + (c + 256).

Definition put (c : Z) (t : console) : console :=
  if c =? 10 then new_line t
  else if c =? 8 then mkConsole (page t) (row t) (Z.max 0 (col t - 1)) (top t) (color t)
  else
    let t := mkConsole (set_at (page t) (row t) (col t) (cell_of (color t) c)) (row t) (col t + 1) (top t) (color t) in
    if VGA_WIDTH <=? col t then new_line t else t.

(** The screen shows the transcript from row [top] on. *)
Record shows (s : vga) (t : console) : Prop := {
  sh_x : cursor_x s = col t;
  sh_y : cursor_y s = row t - top t;
  sh_color : g_current_color s = color t;
  sh_cells r c : 0 <= r < VGA_HEIGHT -> 0 <= c < VGA_WIDTH ->
    getZ (video_mem s) (r * VGA_WIDTH + c) = page t (top t + r) c
}.

(** ** Lemmas *)

(** Arithmetic with the dimensions of the screen. *)
Ltac vga_lia := unfold VGA_HEIGHT, VGA_WIDTH in *; lia.

Lemma for_int_inv (P : Z -> vga -> Prop) body n : forall i s,
  P i s -> (forall j s, i <= j < i + Z.of_nat n -> P j s -> P (j + 1) (body j s)) ->
  P (i + Z.of_nat n) (for_int n i body s).
Proof.
  induction n as [|n IH]; intros i s H0 Hb; cbn [for_int].
  - by rewrite Z.add_0_r.
  - replace (i + Z.of_nat (S n)) with (i + 1 + Z.of_nat n) by lia.
    apply IH; [apply Hb; [lia|done]|]. intros j s' Hj. apply Hb. lia.
Qed.

Lemma cell_value colr c :
  is_u8 colr -> -128 <= c < 128 -> u16 (Z.lor (Z.shiftl colr 8) c) = cell_of colr c.
Proof.
  intros Hcol Hc. unfold is_u8, cell_of in *. rewrite Z.shiftl_mul_pow2 by lia. change (2 ^ 8) with 256 in *.
  destruct (Z.leb_spec 0 c).
  - rewrite (lor_disjoint_add _ _ 8) by (try (change (2 ^ 8) with 256; apply Z.mod_mul); lia).
    apply u16_small. lia.
  - assert (H256 : forallb (fun k => forallb (fun x => u16 (Z.lor (k * 256) x) =? 0xFF00 + (x + 256)) (seqZ (-128) 128))
                     (seqZ 0 256) = true) by (vm_compute; reflexivity).
    assert (H1 : colr ∈ seqZ 0 256) by (apply elem_of_seqZ; lia). apply list_elem_of_In in H1.
    assert (H2 : c ∈ seqZ (-128) 128) by (apply elem_of_seqZ; lia). apply list_elem_of_In in H2.
    rewrite forallb_forall in H256. specialize (H256 colr H1). rewrite forallb_forall in H256.
    specialize (H256 c H2).
    by apply Z.eqb_eq in H256.
Qed.

(** The whole screen: cell [r * 80 + c] is in range. *)
Lemma cell_index r c :
  0 <= r < VGA_HEIGHT -> 0 <= c < VGA_WIDTH -> 0 <= r * VGA_WIDTH + c < VGA_HEIGHT * VGA_WIDTH.
Proof. unfold VGA_HEIGHT, VGA_WIDTH. lia. Qed.

Lemma cell_split i :
  0 <= i < VGA_HEIGHT * VGA_WIDTH ->
  exists r c, i = r * VGA_WIDTH + c /\ 0 <= r < VGA_HEIGHT /\ 0 <= c < VGA_WIDTH.
Proof. unfold VGA_HEIGHT, VGA_WIDTH. intros Hi. exists (i / 80), (i mod 80). split_and!; mlia. Qed.

Definition same_but_cells (s s' : vga) : Prop :=
  cursor_x s' = cursor_x s /\ cursor_y s' = cursor_y s /\ g_current_color s' = g_current_color s /\
  port_log s' = port_log s /\ length (video_mem s') = length (video_mem s).

(** A loop that stores one cell per iteration: [value k] in cell [k], where
    the loop may read the cells that it has not reached yet. *)
Lemma fill_loop (body : Z -> vga -> vga) (value : Z -> Z) n i s :
  0 <= i -> i + Z.of_nat n <= Z.of_nat (length (video_mem s)) ->
  (forall k t, i <= k < i + Z.of_nat n -> same_but_cells s t ->
     (forall j, k <= j -> getZ (video_mem t) j = getZ (video_mem s) j) ->
     body k t = set_cell k (value k) t) ->
  let s' := for_int n i body s in
  same_but_cells s s' /\
  forall j, 0 <= j -> getZ (video_mem s') j
    = if (i <=? j) && (j <? i + Z.of_nat n) then u16 (value j) else getZ (video_mem s) j.
Proof.
  intros Hi Hlen Hb s'. subst s'.
  assert (H : (fun k t => same_but_cells s t /\ forall j, 0 <= j -> getZ (video_mem t) j
      = if (i <=? j) && (j <? k) then u16 (value j) else getZ (video_mem s) j) (i + Z.of_nat n) (for_int n i body s)).
  { apply (for_int_inv (fun k t => same_but_cells s t /\ forall j, 0 <= j -> getZ (video_mem t) j
      = if (i <=? j) && (j <? k) then u16 (value j) else getZ (video_mem s) j)).
    - split; [done|]. intros j Hj. by replace ((i <=? j) && (j <? i)) with false by lia.
    - intros k t Hk [Hs Hc]. rewrite (Hb k t Hk Hs).
      2: { intros j Hj. rewrite Hc by lia. by replace ((i <=? j) && (j <? k)) with false by lia. }
      destruct Hs as (? & ? & ? & ? & Hl). split.
      + unfold same_but_cells, set_cell. cbn. rewrite length_setZ. done.
      + intros j Hj. cbn [set_cell video_mem]. destruct (decide (j = k)) as [->|Hne].
        * rewrite getZ_setZ_eq by (unfold inrange; lia). by replace ((i <=? k) && (k <? k + 1)) with true by lia.
        * rewrite getZ_setZ_ne, Hc by lia. by replace ((i <=? j) && (j <? k + 1)) with ((i <=? j) && (j <? k)) by lia. }
  exact H.
Qed.

Lemma scroll_spec s :
  is_u8 (g_current_color s) -> Z.of_nat (length (video_mem s)) = VGA_HEIGHT * VGA_WIDTH ->
  let s' := vga_scroll s in
  cursor_x s' = cursor_x s /\ cursor_y s' = VGA_HEIGHT - 1 /\ g_current_color s' = g_current_color s /\
  port_log s' = port_log s /\ length (video_mem s') = length (video_mem s) /\
  forall j, 0 <= j < VGA_HEIGHT * VGA_WIDTH -> getZ (video_mem s') j
    = if j <? (VGA_HEIGHT - 1) * VGA_WIDTH then u16 (getZ (video_mem s) (j + VGA_WIDTH))
      else g_current_color s * 256 + 32.
Proof.
  intros Hcol Hl0. unfold vga_scroll.
  assert (N1 : Z.of_nat (Z.to_nat ((VGA_HEIGHT - 1) * VGA_WIDTH)) = (VGA_HEIGHT - 1) * VGA_WIDTH)
    by (apply Z2Nat.id; vm_compute; discriminate).
  assert (N2 : Z.of_nat (Z.to_nat VGA_WIDTH) = VGA_WIDTH) by (apply Z2Nat.id; vm_compute; discriminate).
  revert N1 N2. generalize (Z.to_nat ((VGA_HEIGHT - 1) * VGA_WIDTH)) (Z.to_nat VGA_WIDTH). intros n1 n2 N1 N2.
  unfold VGA_HEIGHT, VGA_WIDTH in *.
  destruct (fill_loop (fun i s => set_cell i (getZ (video_mem s) (i + 80)) s)
              (fun k => getZ (video_mem s) (k + 80)) n1 0 s) as [(Hx & Hy & Hc & Hp & Hl) H1]; [lia|lia| |].
  { intros k t Hk _ Hj. f_equal. apply Hj. lia. }
  set (s1 := for_int n1 0 _ s) in *. clearbody s1.
  destruct (fill_loop (fun i s => set_cell i (blank s) s) (fun _ => blank s1) n2 ((25 - 1) * 80) s1)
    as [(Hx2 & Hy2 & Hc2 & Hp2 & Hl2) H2]; [lia|lia| |].
  { intros k t Hk (_ & _ & E & _) _. f_equal. unfold blank. by rewrite E. }
  cbn [set_cursor cursor_x cursor_y g_current_color port_log video_mem]. split_and!; try congruence.
  intros j Hj. rewrite H2 by lia. unfold blank. rewrite Hc, cell_value by (done || lia).
  destruct (Z.ltb_spec j ((25 - 1) * 80)) as [Hlt|Hge].
  - replace (((25 - 1) * 80 <=? j) && (j <? (25 - 1) * 80 + Z.of_nat n2)) with false by lia.
    rewrite H1 by lia. by replace ((0 <=? j) && (j <? 0 + Z.of_nat n1)) with true by lia.
  - by replace (((25 - 1) * 80 <=? j) && (j <? (25 - 1) * 80 + Z.of_nat n2)) with true by lia.
Qed.

(** *** The hardware cursor *)

(** The CRT controller: the selected register, and registers 0x0F and 0x0E. *)
Definition crtc_write (w : Z * Z) (d : Z * Z * Z) : Z * Z * Z :=
  let '(idx, lo, hi) := d in
  if w.1 =? 0x3D4 then (w.2, lo, hi)
  else if w.1 =? 0x3D5 then
    if idx =? 0x0F then (idx, w.2, hi) else if idx =? 0x0E then (idx, lo, w.2) else d
  else d.

Definition hw_cursor (log : list (Z * Z)) : Z :=
  let '(_, lo, hi) := foldl (fun d w => crtc_write w d) (0, 0, 0) log in hi * 256 + lo.

Lemma update_cursor_spec s :
  wf s ->
  let s' := vga_update_cursor s in
  cursor_x s' = cursor_x s /\ cursor_y s' = cursor_y s /\ g_current_color s' = g_current_color s /\
  video_mem s' = video_mem s /\ hw_cursor (port_log s') = cursor_y s * VGA_WIDTH + cursor_x s.
Proof.
  intros [Hx Hy _ _ _]. unfold vga_update_cursor, outb.
  cbn [cursor_x cursor_y g_current_color video_mem port_log]. split_and!; try done.
  unfold VGA_WIDTH, VGA_HEIGHT in *. set (pos := cursor_y s * 80 + cursor_x s).
  assert (Hpos : 0 <= pos < 2000) by lia. rewrite (u16_small pos) by lia.
  unfold hw_cursor. rewrite !foldl_app. cbn [foldl].
  destruct (foldl _ _ (port_log s)) as [[idx lo] hi].
  change 0xFF with (2 ^ 8 - 1). rewrite !land_ones_mod, Z.shiftr_div_pow2 by lia. change (2 ^ 8) with 256.
  rewrite (u8_small (pos mod 256)), (u8_small (pos / 256 mod 256)) by mlia.
  change (u8 15) with 15. change (u8 14) with 14. cbn. mlia.
Qed.

Lemma update_cursor_shows s t : wf s -> shows s t -> wf (vga_update_cursor s) /\ shows (vga_update_cursor s) t.
Proof.
  intros Hwf [Hx Hy Hc Hm]. destruct (update_cursor_spec s Hwf) as (Ex & Ey & Ec & Em & _).
  destruct Hwf as [? ? ? ? ?].
  split; split; rewrite ?Ex, ?Ey, ?Ec, ?Em; done.
Qed.

(** *** Refinement *)

(** The end of [vga_putc] after a cursor that moved to the next row. *)
Definition advance (s : vga) : vga := if VGA_HEIGHT <=? cursor_y s then vga_scroll s else s.

Lemma new_line_refines s t :
  wf s -> shows s t ->
  let s' := advance (set_cursor 0 (cursor_y s + 1) s) in wf s' /\ shows s' (new_line t).
Proof.
  intros [Hx Hy Hcol Hlen Hu] [Sx Sy Sc Sm] s'. subst s'. unfold advance, new_line.
  cbn [set_cursor cursor_y]. unfold VGA_HEIGHT, VGA_WIDTH in *.
  destruct (Z.ltb_spec (row t + 1) (top t + 25)) as [Hlt|Hge].
  - rewrite (proj2 (Z.leb_gt 25 (cursor_y s + 1))) by lia. split; split; cbn; try done; vga_lia.
  - rewrite (proj2 (Z.leb_le 25 (cursor_y s + 1))) by lia.
    destruct (scroll_spec (set_cursor 0 (cursor_y s + 1) s)) as (E1 & E2 & E3 & _ & E5 & E6); [done|done|].
    set (s2 := vga_scroll _) in *. clearbody s2. cbn [set_cursor cursor_x cursor_y g_current_color video_mem] in *.
    unfold VGA_HEIGHT, VGA_WIDTH in *. unfold is_u8 in Hcol. split; split; rewrite ?E1, ?E2, ?E3, ?E5; cbn [page row col top color].
    + vga_lia.
    + vga_lia.
    + done.
    + done.
    + intros j Hj. destruct (decide (j < 25 * 80)).
      * rewrite E6 by lia. case_cond; [apply u16_range|lia].
      * unfold getZ. rewrite lookup_ge_None_2 by lia. simpl. lia.
    + done.
    + vga_lia.
    + done.
    + unfold VGA_HEIGHT, VGA_WIDTH. intros r c Hr Hc. rewrite E6 by lia. destruct (Z.ltb_spec (r * 80 + c) ((25 - 1) * 80)).
      * rewrite u16_small by (apply Hu; lia). replace (r * 80 + c + 80) with ((r + 1) * 80 + c) by lia.
        rewrite Sm by lia. replace (top t + (r + 1)) with (top t + 1 + r) by lia.
        by rewrite (proj2 (Z.eqb_neq (top t + 1 + r) (row t + 1))) by lia.
      * rewrite (proj2 (Z.eqb_eq (top t + 1 + r) (row t + 1))) by lia. by rewrite Sc.
Qed.

Lemma put_char_refines s t c :
  wf s -> shows s t -> -128 <= c < 128 ->
  let s' := set_cell (cursor_y s * VGA_WIDTH + cursor_x s) (Z.lor (Z.shiftl (g_current_color s) 8) c) s in
  wf s' /\ shows s' (mkConsole (set_at (page t) (row t) (col t) (cell_of (color t) c)) (row t) (col t) (top t) (color t)).
Proof.
  intros [Hx Hy Hcol Hlen Hu] [Sx Sy Sc Sm] Hc s'. subst s'. unfold set_cell.
  rewrite cell_value by done. unfold VGA_HEIGHT, VGA_WIDTH in *.
  assert (Hcell : 0 <= cell_of (g_current_color s) c < 2 ^ 16).
  { unfold cell_of, is_u8 in *. case_cond; lia. }
  split; split; cbn [cursor_x cursor_y g_current_color video_mem page row col top color]; try done.
  - by rewrite length_setZ.
  - intros j Hj. destruct (decide (j = cursor_y s * 80 + cursor_x s)) as [->|].
    + rewrite getZ_setZ_eq by (unfold inrange; lia). done.
    + rewrite getZ_setZ_ne by lia. by apply Hu.
  - unfold VGA_HEIGHT, VGA_WIDTH. intros r k Hr Hk. unfold set_at. destruct (decide (r = cursor_y s /\ k = cursor_x s)) as [[-> ->]|Hne].
    + rewrite getZ_setZ_eq by (unfold inrange; lia). rewrite Sc. by replace ((top t + cursor_y s =? row t) && (cursor_x s =? col t)) with true by lia.
    + rewrite getZ_setZ_ne by lia. rewrite Sm by done.
      by replace ((top t + r =? row t) && (k =? col t)) with false by lia.
Qed.

Lemma putc_refines s t c :
  wf s -> shows s t -> -128 <= c < 128 -> wf (vga_putc c s) /\ shows (vga_putc c s) (put c t).
Proof.
  intros Hwf Hsh Hc. unfold vga_putc, put.
  assert (Hstay : forall s1 t1, wf s1 -> shows s1 t1 ->
    wf (vga_update_cursor (advance s1)) /\ shows (vga_update_cursor (advance s1)) t1).
  { intros s1 t1 H1 H2. unfold advance. rewrite (proj2 (Z.leb_gt VGA_HEIGHT (cursor_y s1))) by apply H1.
    by apply update_cursor_shows. }
  fold (advance (if c =? 10 then set_cursor 0 (cursor_y s + 1) s else s)).
  destruct (c =? 10); [by apply update_cursor_shows; apply (new_line_refines s t)|].
  destruct (c =? 8).
  - apply Hstay; destruct Hwf, Hsh; case_cond; split; cbn; try done; vga_lia.
  - destruct (put_char_refines s t c Hwf Hsh Hc) as [H1 H2].
    set (s1 := set_cell _ _ s) in *. set (t1 := mkConsole _ (row t) (col t) _ _) in *.
    assert (Ex : cursor_x s1 = col t) by apply H2. clearbody s1. cbn [set_cursor cursor_x cursor_y col].
    replace (VGA_WIDTH <=? col t + 1) with (VGA_WIDTH <=? cursor_x s1 + 1) by (by rewrite Ex).
    destruct (Z.leb_spec VGA_WIDTH (cursor_x s1 + 1)) as [Hge|Hlt].
    + destruct (new_line_refines s1 t1 H1 H2) as [Ha Hb]. by apply update_cursor_shows.
    + apply Hstay; destruct H1, H2; split; cbn in *; try done; vga_lia.
Qed.

(** The part of a string that is printed. *)
Fixpoint c_string (str : list Z) : list Z :=
  match str with
  | [] => []
  | c :: str' => if c =? 0 then [] else c :: c_string str'
  end.

Lemma puts_refines str s t :
  wf s -> shows s t -> Forall (fun c => -128 <= c < 128) str ->
  wf (vga_puts str s) /\ shows (vga_puts str s) (foldl (fun t c => put c t) t (c_string str)).
Proof.
  intros Hwf Hsh Hstr. revert s t Hwf Hsh. induction Hstr as [|c str Hc Hstr IH]; intros s t Hwf Hsh; simpl; [done|].
  destruct (c =? 0); [done|]. destruct (putc_refines s t c Hwf Hsh Hc). by apply IH.
Qed.

(** *** Hexadecimal *)

Definition digit (d : Z) : Z := getZ hex_chars (Z.land d 0xF).

(** The low [n] hexadecimal digits of [v], most significant first. *)
Fixpoint hex_string (n : nat) (v : Z) : list Z :=
  match n with
  | O => []
  | S n' => digit (Z.shiftr v (4 * Z.of_nat n')) :: hex_string n' v
  end.

Definition digit_value (c : Z) : Z := if c <=? 57 then c - 48 else c - 55.
Definition parse_hex (str : list Z) : Z := foldl (fun acc c => acc * 16 + digit_value c) 0 str.

Lemma digit_facts d : digit_value (digit d) = d mod 16 /\ 48 <= digit d <= 70.
Proof.
  unfold digit. change 0xF with (2 ^ 4 - 1). rewrite land_ones_mod by lia. change (2 ^ 4) with 16.
  assert (Hd : 0 <= d mod 16 < 16) by mlia. generalize dependent (d mod 16). intros k Hk.
  assert (Hin : k ∈ seqZ 0 16) by (apply elem_of_seqZ; lia). apply list_elem_of_In in Hin.
  assert (Hall : forallb (fun k => (digit_value (getZ hex_chars k) =? k) && (48 <=? getZ hex_chars k) && (getZ hex_chars k <=? 70))
             (seqZ 0 16) = true) by reflexivity.
  rewrite forallb_forall in Hall. specialize (Hall k Hin). lia.
Qed.

Lemma parse_hex_string n v acc :
  0 <= v -> foldl (fun acc c => acc * 16 + digit_value c) acc (hex_string n v)
  = acc * 16 ^ Z.of_nat n + v mod 16 ^ Z.of_nat n.
Proof.
  intros Hv. revert acc. induction n as [|n IH]; intros acc.
  - simpl. rewrite Z.pow_0_r, Z.mod_1_r. lia.
  - cbn [hex_string foldl]. rewrite IH. destruct (digit_facts (Z.shiftr v (4 * Z.of_nat n))) as [-> _].
    rewrite Z.shiftr_div_pow2, Z.pow_mul_r by lia. change (2 ^ 4) with 16.
    rewrite Nat2Z.inj_succ, Z.pow_succ_r, (Z.mul_comm 16) by lia.
    rewrite (Z.rem_mul_r v (16 ^ Z.of_nat n) 16) by lia. lia.
Qed.

Lemma print_hex_loop_puts n v s :
  print_hex_loop n (4 * (Z.of_nat n - 1)) v s = vga_puts (hex_string n v) s.
Proof.
  revert s. induction n as [|n IH]; intros s; [done|]. cbn [print_hex_loop hex_string vga_puts].
  replace (4 * (Z.of_nat (S n) - 1)) with (4 * Z.of_nat n) by lia.
  fold (digit (Z.shiftr v (4 * Z.of_nat n))).
  destruct (digit_facts (Z.shiftr v (4 * Z.of_nat n))) as [_ Hd]. rewrite (proj2 (Z.eqb_neq _ 0)) by lia.
  replace (4 * Z.of_nat n - 4) with (4 * (Z.of_nat n - 1)) by lia. apply IH.
Qed.

(** [clear_screen], field by field. *)
Lemma clear_screen_spec (s : vga) :
  wf s ->
  let s' := clear_screen s in
  wf s' /\ cursor_x s' = 0 /\ cursor_y s' = 0 /\ hw_cursor (port_log s') = 0 /\ g_current_color s' = g_current_color s /\
  forall j, 0 <= j < VGA_HEIGHT * VGA_WIDTH -> getZ (video_mem s') j = g_current_color s * 256 + 32.
Proof.
  intros [Hx Hy Hcol Hlen Hu] s'. subst s'. unfold clear_screen.
  assert (N : Z.of_nat (Z.to_nat (VGA_HEIGHT * VGA_WIDTH)) = VGA_HEIGHT * VGA_WIDTH)
    by (apply Z2Nat.id; vm_compute; discriminate).
  revert N. generalize (Z.to_nat (VGA_HEIGHT * VGA_WIDTH)). intros n N. unfold VGA_HEIGHT, VGA_WIDTH in N, Hlen.
  destruct (fill_loop (fun i s => set_cell i (blank s) s) (fun _ => blank s) n 0 s) as [(Ex & Ey & Ec & Ep & El) H1]; [lia|lia| |].
  { intros k t Hk (_ & _ & E & _) _. f_equal. unfold blank. by rewrite E. }
  set (s1 := for_int n 0 _ s) in *. clearbody s1.
  assert (Hb : u16 (blank s) = g_current_color s * 256 + 32) by (apply (cell_value (g_current_color s) 32); [done|lia]).
  assert (Hw : wf (set_cursor 0 0 s1)).
  { unfold is_u8 in Hcol. split; cbn; rewrite ?Ec, ?El; try vga_lia.
    - done.
    - intros j Hj. rewrite H1, Hb by lia. case_cond; [lia|]. by apply Hu. }
  destruct (update_cursor_spec _ Hw) as (E1 & E2 & E3 & E4 & E5).
  split_and!; [|by rewrite E1|by rewrite E2|by rewrite E5|by rewrite E3|].
  - destruct Hw as [? ? ? ? ?]. split; rewrite ?E1, ?E2, ?E3, ?E4; done.
  - intros j Hj. rewrite E4. cbn [set_cursor video_mem]. unfold VGA_HEIGHT, VGA_WIDTH in Hj.
    rewrite H1, Hb by lia. by replace ((0 <=? j) && (j <? 0 + Z.of_nat n)) with true by lia.
Qed.

(** Strings without a NUL can be printed in pieces. *)
Definition no_nul (l : list Z) : bool := forallb (fun c => negb (c =? 0)) l.

Lemma vga_puts_app l1 l2 v : no_nul l1 = true -> vga_puts (l1 ++ l2) v = vga_puts l2 (vga_puts l1 v).
Proof.
  revert v. induction l1 as [|c l1 IH]; intros v; cbn [app no_nul forallb vga_puts]; [done|].
  destruct (c =? 0); [done|]. apply IH.
Qed.

(** Every screen shows some transcript, so that the operations keep it well
    formed. *)
Definition transcript_of (s : vga) : console :=
  mkConsole (fun r c => getZ (video_mem s) (r * VGA_WIDTH + c)) (cursor_y s) (cursor_x s) 0 (g_current_color s).

Lemma shows_transcript s : shows s (transcript_of s).
Proof. split; cbn; lia || done. Qed.

Lemma puts_wf str s : wf s -> Forall (fun c => -128 <= c < 128) str -> wf (vga_puts str s).
Proof. intros Hs Hstr. by apply (puts_refines str s (transcript_of s)); [|apply shows_transcript|]. Qed.

Lemma set_color_wf c s : wf s -> wf (set_color c s).
Proof. intros [Hx Hy Hc Hl Hu]. split; cbn; try done. apply u8_is_u8. Qed.

Lemma set_cell_wf i v s : 0 <= i < VGA_HEIGHT * VGA_WIDTH -> wf s -> wf (set_cell i v s).
Proof.
  intros Hi [Hx Hy Hc Hl Hu]. split; cbn; try done; [by rewrite length_setZ|]. intros j Hj.
  destruct (Z.eq_dec i j) as [<-|]; [|rewrite getZ_setZ_ne by lia; auto].
  rewrite getZ_setZ_eq by (unfold inrange; lia). apply Z.mod_pos_bound. lia.
Qed.

(** The interface of the console. *)
Inductive console_op :=
| Putc (c : Z) | Puts (str : list Z) | PrintHex (val : Z) | Clear | SetColor (fg bg : Z) | ResetColor.

Definition perform (s : vga) (op : console_op) : vga :=
  match op with
  | Putc c => vga_putc c s
  | Puts str => vga_puts str s
  | PrintHex val => vga_print_hex val s
  | Clear => clear_screen s
  | SetColor fg bg => vga_set_color fg bg s
  | ResetColor => vga_reset_color s
  end.

(** The arguments have their C types. *)
Definition op_typed (op : console_op) : Prop :=
  match op with
  | Putc c => -128 <= c < 128
  | Puts str => Forall (fun c => -128 <= c < 128) str
  | PrintHex val => is_u32 val
  | SetColor fg bg => is_u8 fg /\ is_u8 bg
  | _ => True
  end.

Lemma perform_wf op s : op_typed op -> wf s -> wf (perform s op).
Proof.
  destruct op as [c|str|val| |fg bg|]; cbn [op_typed perform]; intros Hop Hs.
  - by apply (putc_refines s (transcript_of s) c); [|apply shows_transcript|].
  - by apply puts_wf.
  - unfold vga_print_hex. rewrite (print_hex_loop_puts 8). apply puts_wf; [done|].
    generalize 8%nat as n. induction n as [|n IH]; cbn [hex_string]; constructor; [|done].
    destruct (digit_facts (Z.shiftr val (4 * Z.of_nat n))) as [_ Hd]. lia.
  - by apply clear_screen_spec.
  - by apply set_color_wf.
  - by apply set_color_wf.
Qed.

(** ** Properties *)

(** C32: the console is well typed: any sequence of calls with arguments of their C
    types leaves a screen of 25 rows of 80 cells of 16 bits, a cursor that is
    on it, and a colour of one byte. *)
Theorem console_well_typed (ops : list console_op) (s : vga) :
  wf s -> Forall op_typed ops -> wf (foldl perform s ops).
Proof. intros Hs Hops. revert s Hs. induction Hops as [|op ops Hop Hops IH]; intros s Hs; cbn [foldl]; [done|]. by apply IH, perform_wf. Qed.

(** C8: printing a string implements the abstract console: the screen stays
    well formed (every store hits one of its 2000 cells) and goes on showing
    the last 25 rows of the unbounded transcript, to which the characters up
    to the NUL are appended; scrolling is nothing but moving that window. *)
Theorem vga_puts_refines (str : list Z) (s : vga) (t : console) :
  wf s -> shows s t -> Forall (fun c => -128 <= c < 128) str ->
  wf (vga_puts str s) /\ shows (vga_puts str s) (foldl (fun t c => put c t) t (c_string str)).
Proof. apply puts_refines. Qed.

(** The hardware cursor follows: after every character the CRT
    controller holds the position of the software cursor, a cell of the
    screen. *)
Theorem hardware_cursor_follows (c : Z) (s : vga) :
  wf s -> -128 <= c < 128 ->
  let s' := vga_putc c s in
  hw_cursor (port_log s') = cursor_y s' * VGA_WIDTH + cursor_x s' /\
  0 <= hw_cursor (port_log s') < VGA_HEIGHT * VGA_WIDTH.
Proof.
  intros Hwf Hc s'.
  assert (Hsh : shows s (mkConsole (fun r c => getZ (video_mem s) (r * VGA_WIDTH + c)) (cursor_y s) (cursor_x s) 0 (g_current_color s))).
  { split; cbn; try done; lia. }
  destruct (putc_refines s _ c Hwf Hsh Hc) as [Hwf' _]. subst s'.
  assert (E : exists s1, wf s1 /\ vga_putc c s = vga_update_cursor s1).
  { eexists. split; [|reflexivity].
    match goal with |- wf ?x => assert (Hu : wf (vga_update_cursor x)) by exact Hwf';
      destruct Hu as [h1 h2 h3 h4 h5]; split; [exact h1|exact h2|exact h3|exact h4|exact h5] end. }
  destruct E as (s1 & Hw1 & ->). destruct (update_cursor_spec s1 Hw1) as (-> & -> & _ & _ & ->).
  split; [done|]. apply cell_index; apply Hw1.
Qed.

(** [vga_print_hex] prints the eight hexadecimal digits of the number,
    from which it can be read back. *)
Theorem print_hex_reads_back (v : Z) (s : vga) :
  is_u32 v ->
  exists str, vga_print_hex v s = vga_puts str s /\ length str = 8%nat /\ parse_hex str = v.
Proof.
  intros Hv. unfold is_u32 in Hv. exists (hex_string 8 v). split; [apply (print_hex_loop_puts 8)|]. split; [done|].
  unfold parse_hex. rewrite parse_hex_string by lia. change (16 ^ Z.of_nat 8) with (2 ^ 32).
  rewrite Z.mod_small by lia. lia.
Qed.

(** [clear_screen] fills the screen with blanks in the current colour
    and sends both cursors home. *)
Theorem clear_screen_blank (s : vga) :
  wf s ->
  let s' := clear_screen s in
  wf s' /\ cursor_x s' = 0 /\ cursor_y s' = 0 /\ hw_cursor (port_log s') = 0 /\
  forall j, 0 <= j < VGA_HEIGHT * VGA_WIDTH -> getZ (video_mem s') j = g_current_color s * 256 + 32.
Proof. intros Hwf s'. destruct (clear_screen_spec s Hwf) as (? & ? & ? & ? & _ & ?). subst s'. split_and!; assumption. Qed.

(** A character above 127 destroys its colour.  [char] is signed, so
    [(g_current_color << 8) | c] has all the bits of the attribute set: the
    character appears blinking white on white whatever the colour is. *)
Theorem high_char_loses_color (c : Z) (s : vga) :
  wf s -> -128 <= c < 0 -> cursor_x s < VGA_WIDTH - 1 ->
  getZ (video_mem (vga_putc c s)) (cursor_y s * VGA_WIDTH + cursor_x s) = 0xFF00 + (c + 256).
Proof.
  intros Hwf Hc Hx. pose proof Hwf as [Hx0 Hy Hcol Hlen Hu].
  unfold vga_putc. rewrite (proj2 (Z.eqb_neq c 10)), (proj2 (Z.eqb_neq c 8)) by lia.
  cbn [set_cursor set_cell cursor_x cursor_y].
  rewrite (proj2 (Z.leb_gt VGA_WIDTH (cursor_x s + 1))) by lia. cbn [set_cursor set_cell cursor_x cursor_y].
  rewrite (proj2 (Z.leb_gt VGA_HEIGHT (cursor_y s))) by lia.
  unfold vga_update_cursor, outb. cbn [set_cursor set_cell video_mem].
  rewrite getZ_setZ_eq by (unfold inrange; vga_lia). rewrite cell_value by (done || lia).
  unfold cell_of. by rewrite (proj2 (Z.leb_gt 0 c)) by lia.
Qed.

(** ** Witnesses *)

Definition screen0 : vga := mkVga 0 24 DEFAULT_COLOR (replicate 2000 0x0F20) [].

Lemma screen0_wf : wf screen0.
Proof.
  split; cbn [screen0 cursor_x cursor_y g_current_color video_mem]; try (unfold VGA_WIDTH, VGA_HEIGHT, is_u8, DEFAULT_COLOR; lia).
  - rewrite length_replicate. reflexivity.
  - intros j Hj. unfold getZ. destruct (_ !! _) as [v|] eqn:E; [|simpl; lia].
    apply lookup_replicate in E as [-> _]. simpl. lia.
Qed.

Definition console0 : console := mkConsole (fun _ _ => 0x0F20) 24 0 0 DEFAULT_COLOR.

Lemma screen0_shows : shows screen0 console0.
Proof.
  split; try done. intros r c Hr Hc. cbn [screen0 video_mem console0 page]. unfold getZ.
  rewrite lookup_replicate_2; [done|]. vga_lia.
Qed.

Lemma console_well_typed_witness : wf (foldl perform screen0 [SetColor 4 0; Puts [97]; Putc (-1); PrintHex 255; Clear; ResetColor]).
Proof.
  apply (console_well_typed [SetColor 4 0; Puts [97]; Putc (-1); PrintHex 255; Clear; ResetColor] screen0 screen0_wf).
  repeat constructor; cbn; unfold is_u8, is_u32; try lia.
Defined.

(** "ab", a new line, "c" on the bottom row. *)
Lemma vga_puts_refines_witness :
  getZ (video_mem (vga_puts [97; 98; 10; 99; 0] screen0)) (23 * 80 + 1) = 0x0F62 /\
  getZ (video_mem (vga_puts [97; 98; 10; 99; 0] screen0)) (24 * 80) = 0x0F63.
Proof.
  destruct (vga_puts_refines [97; 98; 10; 99; 0] screen0 console0 screen0_wf screen0_shows) as [_ [_ _ _ H]];
    [repeat constructor; lia|].
  split.
  - change (23 * 80 + 1) with (23 * VGA_WIDTH + 1). rewrite H by vga_lia. reflexivity.
  - change (24 * 80) with (24 * VGA_WIDTH + 0). rewrite H by vga_lia. reflexivity.
Defined.

Lemma hardware_cursor_follows_witness : hw_cursor (port_log (vga_putc 97 screen0)) = 24 * 80 + 1.
Proof.
  destruct (hardware_cursor_follows 97 screen0 screen0_wf) as [-> _]; [lia|]. reflexivity.
Defined.

Lemma print_hex_reads_back_witness :
  exists str, vga_print_hex 0xC0FFEE42 screen0 = vga_puts str screen0 /\ parse_hex str = 0xC0FFEE42.
Proof.
  destruct (print_hex_reads_back 0xC0FFEE42 screen0) as (str & H1 & _ & H2); [unfold is_u32; lia|].
  exists str. split; [exact H1|exact H2].
Defined.

Lemma clear_screen_blank_witness : getZ (video_mem (clear_screen (vga_set_color 15 4 screen0))) 1999 = 0x4F20.
Proof.
  assert (Hw : wf (vga_set_color 15 4 screen0)).
  { destruct screen0_wf as [? ? ? ? ?]. split; done. }
  destruct (clear_screen_blank (vga_set_color 15 4 screen0) Hw) as (_ & _ & _ & _ & H).
  rewrite H by vga_lia. reflexivity.
Defined.

Lemma high_char_loses_color_witness :
  getZ (video_mem (vga_putc (-1) screen0)) (24 * 80) = 0xFFFF.
Proof.
  change (24 * 80) with (cursor_y screen0 * VGA_WIDTH + cursor_x screen0).
  rewrite (high_char_loses_color (-1) screen0 screen0_wf); [reflexivity|lia|reflexivity].
Defined.

End Vga.
