(* ===== verification/Keyboard.v ===== *)
(** * The keyboard: arch/keyboard.c

    The scancode state machine of the interrupt handler, its two key maps, and
    the ring buffer between the handler and its readers.  The ring is shown to
    be a bounded queue, also when the interrupt comes in the middle of a
    [keyboard_buffer_pop]; typing a text puts exactly that text into it. *)

From Stdlib Require Import ZifyBool String.
From S2P Require Import Prelude.
Local Open Scope Z_scope.

Module Keyboard.

(** A [static const char[128]]: the missing elements are zero. *)
Definition pad (n : nat) (l : list Z) : list Z := l ++ replicate (n - length l) 0.

Definition scan_code_map_normal : list Z := pad 128
  [ 0; 0; 49; 50; 51; 52; 53; 54; 55; 56; 57; 48; 45; 61; 8;
    9; 113; 119; 101; 114; 116; 121; 117; 105; 111; 112; 91; 93; 10; 0;
    97; 115; 100; 102; 103; 104; 106; 107; 108; 59; 39; 96; 0; 92; 122;
    120; 99; 118; 98; 110; 109; 44; 46; 47; 0; 42; 0; 32; 0; 0;
    0; 0; 0; 0; 0; 0; 0; 0; 0; 0; 0; 55; 56; 57; 45;
    52; 53; 54; 43; 49; 50; 51; 48; 46 ].

Definition scan_code_map_shift : list Z := pad 128
  [ 0; 0; 33; 64; 35; 36; 37; 94; 38; 42; 40; 41; 95; 43; 8;
    9; 81; 87; 69; 82; 84; 89; 85; 73; 79; 80; 123; 125; 10; 0;
    65; 83; 68; 70; 71; 72; 74; 75; 76; 58; 34; 126; 0; 124; 90;
    88; 67; 86; 66; 78; 77; 60; 62; 63; 0; 42; 0; 32; 0; 0;
    0; 0; 0; 0; 0; 0; 0; 0; 0; 0; 0; 55; 56; 57; 45;
    52; 53; 54; 43; 49; 50; 51; 48; 46 ].

Definition KBD_BUF_SIZE : Z := 128.

(** The ring buffer. *)
Record ring := mkRing { head : Z; tail : Z; kbd_buffer : list Z }.

Definition keyboard_buffer_push (c : Z) (r : ring) : ring :=
  let next := (head r + 1) mod KBD_BUF_SIZE in
  if negb (next =? tail r) then mkRing next (tail r) (setZ (kbd_buffer r) (head r) c) else r.

Definition keyboard_buffer_pop (r : ring) : Z * ring :=
  if head r =? tail r then (0, r) else
  let c := getZ (kbd_buffer r) (tail r) in
  (c, mkRing (head r) ((tail r + 1) mod KBD_BUF_SIZE) (kbd_buffer r)).

(** The modifier flags and the keys that are down. *)
Record kbd := mkKbd {
  g_lshift_down : bool; g_rshift_down : bool;
  g_lctrl_down : bool; g_rctrl_down : bool;
  g_lalt_down : bool; g_ralt_down : bool;
  g_is_e0 : bool;
  g_key_down : list Z;
  buf : ring
}.

Definition set_lshift (v : bool) (k : kbd) : kbd :=
  mkKbd v (g_rshift_down k) (g_lctrl_down k) (g_rctrl_down k) (g_lalt_down k) (g_ralt_down k) (g_is_e0 k) (g_key_down k) (buf k).
Definition set_rshift (v : bool) (k : kbd) : kbd :=
  mkKbd (g_lshift_down k) v (g_lctrl_down k) (g_rctrl_down k) (g_lalt_down k) (g_ralt_down k) (g_is_e0 k) (g_key_down k) (buf k).
Definition set_lctrl (v : bool) (k : kbd) : kbd :=
  mkKbd (g_lshift_down k) (g_rshift_down k) v (g_rctrl_down k) (g_lalt_down k) (g_ralt_down k) (g_is_e0 k) (g_key_down k) (buf k).
Definition set_rctrl (v : bool) (k : kbd) : kbd :=
  mkKbd (g_lshift_down k) (g_rshift_down k) (g_lctrl_down k) v (g_lalt_down k) (g_ralt_down k) (g_is_e0 k) (g_key_down k) (buf k).
Definition set_lalt (v : bool) (k : kbd) : kbd :=
  mkKbd (g_lshift_down k) (g_rshift_down k) (g_lctrl_down k) (g_rctrl_down k) v (g_ralt_down k) (g_is_e0 k) (g_key_down k) (buf k).
Definition set_ralt (v : bool) (k : kbd) : kbd :=
  mkKbd (g_lshift_down k) (g_rshift_down k) (g_lctrl_down k) (g_rctrl_down k) (g_lalt_down k) v (g_is_e0 k) (g_key_down k) (buf k).
Definition set_e0 (v : bool) (k : kbd) : kbd :=
  mkKbd (g_lshift_down k) (g_rshift_down k) (g_lctrl_down k) (g_rctrl_down k) (g_lalt_down k) (g_ralt_down k) v (g_key_down k) (buf k).
Definition set_key (key v : Z) (k : kbd) : kbd :=
  mkKbd (g_lshift_down k) (g_rshift_down k) (g_lctrl_down k) (g_rctrl_down k) (g_lalt_down k) (g_ralt_down k) (g_is_e0 k)
    (setZ (g_key_down k) key v) (buf k).
Definition push (c : Z) (k : kbd) : kbd :=
  mkKbd (g_lshift_down k) (g_rshift_down k) (g_lctrl_down k) (g_rctrl_down k) (g_lalt_down k) (g_ralt_down k) (g_is_e0 k)
    (g_key_down k) (keyboard_buffer_push c (buf k)).

(** The character of a key under the modifiers. *)
Definition key_char (shift ctrl : bool) (scancode : Z) : Z :=
  let c := if shift then getZ scan_code_map_shift scancode else getZ scan_code_map_normal scancode in
  if ctrl && (97 <=? c) && (c <=? 122) then c - 97 + 1
  else if ctrl && (65 <=? c) && (c <=? 90) then c - 65 + 1
  else c.

(** After the prefix 0xE0: the arrows and the right-hand modifiers. *)
Definition extended_key (scancode : Z) (k : kbd) : kbd :=
  if scancode =? 0x48 then push 0x11 k
  else if scancode =? 0x50 then push 0x12 k
  else if scancode =? 0x4B then push 0x13 k
  else if scancode =? 0x4D then push 0x14 k
  else if scancode =? 0x1D then set_rctrl true k
  else if scancode =? 0x9D then set_rctrl false k
  else if scancode =? 0x38 then set_ralt true k
  else if scancode =? 0xB8 then set_ralt false k
  else k.

Definition plain_key (scancode : Z) (k : kbd) : kbd :=
  if scancode =? 0x2A then set_lshift true k
  else if scancode =? 0x36 then set_rshift true k
  else if scancode =? 0xAA then set_lshift false k
  else if scancode =? 0xB6 then set_rshift false k
  else if scancode =? 0x1D then set_lctrl true k
  else if scancode =? 0x9D then set_lctrl false k
  else if scancode =? 0x38 then set_lalt true k
  else if scancode =? 0xB8 then set_lalt false k
  else if scancode <? 0x80 then
    if getZ (g_key_down k) scancode =? 0 then
      let k := set_key scancode 1 k in
      let shift := g_lshift_down k || g_rshift_down k in
      let ctrl := g_lctrl_down k || g_rctrl_down k in
      let c := key_char shift ctrl scancode in
      if negb (c =? 0) then push c k else k
    else k
  else
    let key := scancode - 0x80 in
    if key <? 128 then set_key key 0 k else k.

(** The interrupt handler; [inb] gives the values that the two ports read,
    the result has the writes to ports (the end-of-interrupt). *)
Definition keyboard_handler (inb : Z -> Z) (k : kbd) : kbd * list (Z * Z) :=
  let status := inb 0x64 in
  let k :=
    if negb (Z.land status 0x01 =? 0) then
      let scancode := inb 0x60 in
      if scancode =? 0xE0 then set_e0 true k
      else if g_is_e0 k then extended_key scancode (set_e0 false k)
      else plain_key scancode k
    else k in
  (k, [(0x20, 0x20)]).

(** The interrupt of a key event: the status says that there is data. *)
Definition scan (scancode : Z) (k : kbd) : kbd :=
  (keyboard_handler (fun port => if port =? 0x64 then 1 else scancode) k).1.

(** ** The ring as a bounded queue *)

Record rep (r : ring) (q : list Z) : Prop := {
  rp_len : Z.of_nat (length (kbd_buffer r)) = KBD_BUF_SIZE;
  rp_tail : 0 <= tail r < KBD_BUF_SIZE;
  rp_cap : Z.of_nat (length q) < KBD_BUF_SIZE;
  rp_head : head r = (tail r + Z.of_nat (length q)) mod KBD_BUF_SIZE;
  rp_cells i : 0 <= i < Z.of_nat (length q) ->
    getZ (kbd_buffer r) ((tail r + i) mod KBD_BUF_SIZE) = getZ q i
}.

Definition q_push (c : Z) (q : list Z) : list Z :=
  if Z.of_nat (length q) <? KBD_BUF_SIZE - 1 then q ++ [c] else q.

Definition q_pop (q : list Z) : Z * list Z :=
  match q with [] => (0, []) | c :: q' => (c, q') end.

(** A reader and the interrupt handler together.  The reader may be stopped
    between any two accesses of [keyboard_buffer_pop] to the ring; the handler
    runs to its end. *)
Inductive reader := Idle | Checked | Loaded (c : Z).

Record world := mkWorld {
  w_ring : ring;
  w_reader : reader;
  accepted : list Z;     (** characters that the handler stored *)
  delivered : list Z     (** characters that pops have returned *)
}.

Inductive wstep : world -> world -> Prop :=
| ws_irq_stored r rd acc del c :
    keyboard_buffer_push c r <> r ->
    wstep (mkWorld r rd acc del) (mkWorld (keyboard_buffer_push c r) rd (acc ++ [c]) del)
| ws_irq_full r rd acc del c :
    keyboard_buffer_push c r = r -> wstep (mkWorld r rd acc del) (mkWorld r rd acc del)
| ws_empty r acc del :
    head r = tail r -> wstep (mkWorld r Idle acc del) (mkWorld r Idle acc del)
| ws_check r acc del :
    head r <> tail r -> wstep (mkWorld r Idle acc del) (mkWorld r Checked acc del)
| ws_load r acc del :
    wstep (mkWorld r Checked acc del) (mkWorld r (Loaded (getZ (kbd_buffer r) (tail r))) acc del)
| ws_return r acc del c :
    wstep (mkWorld r (Loaded c) acc del)
      (mkWorld (mkRing (head r) ((tail r + 1) mod KBD_BUF_SIZE) (kbd_buffer r)) Idle acc (del ++ [c])).

Definition empty_ring : ring := mkRing 0 0 (replicate 128 0).

(** ** Typing *)

(** The keyboard at rest: no modifier, no key down. *)
Record at_rest (k : kbd) : Prop := {
  ar_ls : g_lshift_down k = false; ar_rs : g_rshift_down k = false;
  ar_lc : g_lctrl_down k = false; ar_rc : g_rctrl_down k = false;
  ar_e0 : g_is_e0 k = false;
  ar_len : length (g_key_down k) = 128%nat;
  ar_keys i : 0 <= i -> getZ (g_key_down k) i = 0
}.

(** The keyboard itself, apart from the maps of the code: the keys of a US
    keyboard with the make codes of scancode set 1.  A row is the make code of
    its first key, the characters printed on its keys from left to right, and
    the characters that they give with shift. *)
Definition us_rows : list (Z * list Z * list Z) :=
  [ (0x02, chars "1234567890-=", chars "!@#$%^&*()_+");
    (0x0E, [8], []); (0x0F, [9], []);
    (0x10, chars "qwertyuiop[]", chars "QWERTYUIOP{}"); (0x1C, [10], []);
    (0x1E, chars "asdfghjkl;'`", chars "ASDFGHJKL:" ++ [34] ++ chars "~");
    (0x2B, chars "\", chars "|"); (0x2C, chars "zxcvbnm,./", chars "ZXCVBNM<>?"); (0x39, [32], []) ].

(** The key for a character: (needs shift, make code). *)
Definition row_keys (row : Z * list Z * list Z) : list (Z * (bool * Z)) :=
  let '(code, plain, shifted) := row in
  imap (fun i c => (c, (false, code + Z.of_nat i))) plain ++ imap (fun i c => (c, (true, code + Z.of_nat i))) shifted.

Definition us_key (c : Z) : option (bool * Z) :=
  snd <$> List.find (fun k => k.1 =? c) (flat_map row_keys us_rows).

(** The scancodes of pressing and releasing that key, with the left shift key
    held down where it is needed. *)
Definition keystrokes (c : Z) : list Z :=
  match us_key c with
  | Some (false, sc) => [sc; sc + 0x80]
  | Some (true, sc) => [0x2A; sc; sc + 0x80; 0xAA]
  | None => []
  end.

Definition type_text (text : list Z) (k : kbd) : kbd :=
  foldl (fun k sc => scan sc k) k (flat_map keystrokes text).

(** ** The ring *)

Lemma mod_128 a : 0 <= a < 256 -> a mod 128 = if a <? 128 then a else a - 128.
Proof. intros. case_cond; mlia. Qed.

Lemma rep_head_tail r q : rep r q -> 0 <= head r < KBD_BUF_SIZE /\ (head r = tail r <-> q = []).
Proof.
  intros [_ Ht Hc Hh _]. unfold KBD_BUF_SIZE in *. rewrite Hh, mod_128 by lia.
  split; [case_cond; lia|]. destruct q as [|c q]; cbn [length] in *; [split; [done|case_cond; lia]|].
  split; [case_cond; lia|done].
Qed.

Lemma getZ_app_l l1 l2 i : 0 <= i < Z.of_nat (length l1) -> getZ (l1 ++ l2) i = getZ l1 i.
Proof. intros. unfold getZ. by rewrite lookup_app_l by lia. Qed.

Lemma getZ_app_last l c : getZ (l ++ [c]) (Z.of_nat (length l)) = c.
Proof. unfold getZ. rewrite Nat2Z.id. by rewrite list_lookup_middle. Qed.

(** [keyboard_buffer_push] is [q_push]; it leaves the ring alone exactly when
    the queue is full. *)
Lemma push_refines r q c :
  rep r q -> rep (keyboard_buffer_push c r) (q_push c q) /\
  (keyboard_buffer_push c r = r <-> Z.of_nat (length q) = KBD_BUF_SIZE - 1).
Proof.
  intros Hrep. pose proof (rep_head_tail r q Hrep) as [Hh0 _]. pose proof Hrep as [Hlen Ht Hc Hh Hcell].
  unfold keyboard_buffer_push, q_push. unfold KBD_BUF_SIZE in *.
  assert (Hn : (head r + 1) mod 128 = tail r <-> Z.of_nat (length q) = 127).
  { rewrite Hh, (mod_128 (tail r + _)) by lia. rewrite mod_128 by (case_cond; lia).
    destruct (Z.ltb_spec (tail r + Z.of_nat (length q)) 128); repeat case_cond; lia. }
  destruct (Z.eqb_spec ((head r + 1) mod 128) (tail r)) as [E|E]; cbn [negb].
  - rewrite (proj2 (Z.ltb_ge _ (128 - 1))) by (apply Hn in E; lia). split; [done|]. by rewrite <- Hn.
  - assert (Hlt : Z.of_nat (length q) < 128 - 1) by (destruct (decide (Z.of_nat (length q) = 127)); [tauto|lia]).
    rewrite (proj2 (Z.ltb_lt _ (128 - 1))) by done. split.
    + split; cbn [head tail kbd_buffer]; unfold KBD_BUF_SIZE; rewrite ?length_setZ, ?length_app; cbn [length]; try done; try lia.
      * rewrite Hh, (mod_128 (tail r + Z.of_nat (length q))) by lia.
        rewrite (mod_128 (tail r + Z.of_nat (length q + 1))) by lia. rewrite mod_128 by (case_cond; lia).
        destruct (Z.ltb_spec (tail r + Z.of_nat (length q)) 128); repeat case_cond; lia.
      * intros i Hi. destruct (decide (i = Z.of_nat (length q))) as [->|Hne].
        -- rewrite <- Hh, getZ_app_last. apply getZ_setZ_eq. unfold inrange. lia.
        -- rewrite getZ_app_l by lia. rewrite <- Hcell by lia. apply getZ_setZ_ne; [lia|mlia|].
           rewrite Hh, !mod_128 by lia. repeat case_cond; lia.
    + split; [|lia]. intros Hr. exfalso. apply (f_equal head) in Hr. cbn in Hr. rewrite mod_128 in Hr by lia.
      destruct (Z.ltb_spec (head r + 1) 128); lia.
Qed.

Lemma pop_refines r q :
  rep r q ->
  (keyboard_buffer_pop r).1 = (q_pop q).1 /\ rep (keyboard_buffer_pop r).2 (q_pop q).2.
Proof.
  intros Hrep. pose proof (rep_head_tail r q Hrep) as [Hh0 Hemp]. pose proof Hrep as [Hlen Ht Hc Hh Hcell].
  unfold keyboard_buffer_pop. destruct (Z.eqb_spec (head r) (tail r)) as [E|E].
  - apply Hemp in E. by subst q.
  - destruct q as [|c q]; [exfalso; by apply E, Hemp|]. cbn [q_pop fst snd length] in *.
    unfold KBD_BUF_SIZE in *. split.
    + pose proof (Hcell 0 ltac:(lia)) as H0. rewrite Z.add_0_r, mod_128, (proj2 (Z.ltb_lt (tail r) 128)) in H0 by lia. done.
    + split; cbn [head tail kbd_buffer]; unfold KBD_BUF_SIZE; try done; try lia.
      * mlia.
      * rewrite Hh, (mod_128 (tail r + 1)), !mod_128 by (try case_cond; lia).
        destruct (Z.ltb_spec (tail r + 1) 128); rewrite ?mod_128 by lia; repeat case_cond; lia.
      * intros i Hi. pose proof (Hcell (i + 1) ltac:(lia)) as H1.
        replace (getZ (c :: q) (i + 1)) with (getZ q i) in H1.
        -- rewrite <- H1. f_equal. rewrite Z.add_mod_idemp_l by lia. f_equal. lia.
        -- unfold getZ. by replace (Z.to_nat (i + 1)) with (S (Z.to_nat i)) by lia.
Qed.

Lemma empty_ring_rep : rep empty_ring [].
Proof. split; try done; cbn [length]; lia. Qed.

(** *** The interrupted reader *)

Definition world_inv (w : world) : Prop :=
  exists q, rep (w_ring w) q /\ accepted w = delivered w ++ q /\
    match w_reader w with
    | Idle => True
    | Checked => q <> []
    | Loaded c => exists q', q = c :: q'
    end.

Lemma world_step_inv w w' : wstep w w' -> world_inv w -> world_inv w'.
Proof.
  intros Hs (q & Hrep & Hacc & Hrd). destruct Hs as [r rd acc del c Hne|r rd acc del c He|r acc del He|r acc del He|r acc del|r acc del c];
    cbn [w_ring w_reader accepted delivered] in *; subst acc.
  - destruct (push_refines r q c Hrep) as [Hrep' Hfull].
    assert (Hq : q_push c q = q ++ [c]).
    { unfold q_push. pose proof (rp_cap _ _ Hrep). case_cond; [done|]. exfalso. apply Hne, Hfull. lia. }
    rewrite Hq in Hrep'. exists (q ++ [c]). cbn. split; [done|]. rewrite app_assoc. split; [done|].
    destruct rd as [| |c0]; [done| |].
    + by destruct q.
    + destruct Hrd as (q' & ->). by exists (q' ++ [c]).
  - by exists q.
  - by exists q.
  - exists q. split_and!; try done. cbn. intros ->. apply He. by apply (rep_head_tail r []).
  - exists q. split_and!; try done. cbn. destruct q as [|c q]; [done|]. exists q. f_equal.
    pose proof Hrep as [_ Ht _ _ Hcell]. unfold KBD_BUF_SIZE in *.
    pose proof (Hcell 0 ltac:(cbn; lia)) as H0. rewrite Z.add_0_r, mod_128, (proj2 (Z.ltb_lt (tail r) 128)) in H0 by lia.
    by rewrite H0.
  - destruct Hrd as (q' & ->). exists q'. cbn. rewrite <- app_assoc. split_and!; try done.
    destruct (pop_refines r (c :: q') Hrep) as [_ Hrep']. unfold keyboard_buffer_pop in Hrep'.
    rewrite (proj2 (Z.eqb_neq (head r) (tail r))) in Hrep'; [done|].
    intros E. by apply (rep_head_tail r (c :: q')) in E.
Qed.

(** ** Keys *)

Lemma scan_plain sc k : sc <> 0xE0 -> g_is_e0 k = false -> scan sc k = plain_key sc k.
Proof.
  intros Hsc He.
  change (scan sc k) with (if sc =? 0xE0 then set_e0 true k
                           else if g_is_e0 k then extended_key sc (set_e0 false k) else plain_key sc k).
  by rewrite (proj2 (Z.eqb_neq sc 0xE0)), He by done.
Qed.

(** The keys that only produce a character. *)
Definition char_key (sc : Z) : bool :=
  (0 <=? sc) && (sc <? 0x80) && negb (sc =? 0x2A) && negb (sc =? 0x36) && negb (sc =? 0x1D) && negb (sc =? 0x38)
  && negb (sc =? 0x60).

Lemma scan_make sc k :
  char_key sc = true -> g_is_e0 k = false -> getZ (g_key_down k) sc = 0 ->
  scan sc k =
  let c := key_char (g_lshift_down k || g_rshift_down k) (g_lctrl_down k || g_rctrl_down k) sc in
  if negb (c =? 0) then push c (set_key sc 1 k) else set_key sc 1 k.
Proof.
  intros Hk He Hd. unfold char_key in Hk. rewrite scan_plain by (done || lia). unfold plain_key.
  rewrite Hd. rewrite (proj2 (Z.ltb_lt sc 0x80)) by lia.
  rewrite (proj2 (Z.eqb_neq sc 0x2A)), (proj2 (Z.eqb_neq sc 0x36)), (proj2 (Z.eqb_neq sc 0xAA)), (proj2 (Z.eqb_neq sc 0xB6)),
    (proj2 (Z.eqb_neq sc 0x1D)), (proj2 (Z.eqb_neq sc 0x9D)), (proj2 (Z.eqb_neq sc 0x38)), (proj2 (Z.eqb_neq sc 0xB8)) by lia.
  done.
Qed.

Lemma scan_repeat sc k :
  char_key sc = true -> g_is_e0 k = false -> getZ (g_key_down k) sc <> 0 -> scan sc k = k.
Proof.
  intros Hk He Hd. unfold char_key in Hk. rewrite scan_plain by (done || lia). unfold plain_key.
  rewrite (proj2 (Z.ltb_lt sc 0x80)) by lia.
  rewrite (proj2 (Z.eqb_neq sc 0x2A)), (proj2 (Z.eqb_neq sc 0x36)), (proj2 (Z.eqb_neq sc 0xAA)), (proj2 (Z.eqb_neq sc 0xB6)),
    (proj2 (Z.eqb_neq sc 0x1D)), (proj2 (Z.eqb_neq sc 0x9D)), (proj2 (Z.eqb_neq sc 0x38)), (proj2 (Z.eqb_neq sc 0xB8)) by lia.
  by rewrite (proj2 (Z.eqb_neq _ 0)).
Qed.

Lemma scan_break sc k : char_key sc = true -> g_is_e0 k = false -> scan (sc + 0x80) k = set_key sc 0 k.
Proof.
  intros Hk He. unfold char_key in Hk. rewrite scan_plain by (done || lia). unfold plain_key.
  rewrite (proj2 (Z.ltb_ge (sc + 0x80) 0x80)) by lia.
  rewrite (proj2 (Z.eqb_neq (sc + 0x80) 0x2A)), (proj2 (Z.eqb_neq (sc + 0x80) 0x36)), (proj2 (Z.eqb_neq (sc + 0x80) 0xAA)),
    (proj2 (Z.eqb_neq (sc + 0x80) 0xB6)), (proj2 (Z.eqb_neq (sc + 0x80) 0x1D)), (proj2 (Z.eqb_neq (sc + 0x80) 0x9D)),
    (proj2 (Z.eqb_neq (sc + 0x80) 0x38)), (proj2 (Z.eqb_neq (sc + 0x80) 0xB8)) by lia.
  replace (sc + 0x80 - 0x80) with sc by lia. by rewrite (proj2 (Z.ltb_lt sc 128)) by lia.
Qed.

(** The characters that can be typed: printable ASCII, tab, newline and
    backspace. *)
Definition typable (c : Z) : Prop := 32 <= c < 127 \/ c = 8 \/ c = 9 \/ c = 10.

Lemma us_key_ok c :
  typable c -> exists sh sc, us_key c = Some (sh, sc) /\ char_key sc = true /\ key_char sh false sc = c.
Proof.
  intros Hc.
  assert (Hall : forallb (fun c => match us_key c with
            | Some (sh, sc) => char_key sc && (key_char sh false sc =? c) | None => false end)
            (8 :: 9 :: 10 :: seqZ 32 95) = true) by (vm_compute; reflexivity).
  rewrite forallb_forall in Hall.
  assert (Hin : In c (8 :: 9 :: 10 :: seqZ 32 95)).
  { destruct Hc as [Hc|[->|[->| ->]]]; [|simpl; tauto..]. do 3 right. apply list_elem_of_In, elem_of_seqZ. lia. }
  specialize (Hall c Hin). destruct (us_key c) as [[sh sc]|]; [|done]. apply andb_true_iff in Hall as [H1 H2].
  exists sh, sc. split_and!; try done. lia.
Qed.

(** Pressing and releasing a character key. *)
Lemma stroke sc k q c (shift : bool) :
  char_key sc = true -> g_is_e0 k = false -> length (g_key_down k) = 128%nat ->
  (forall i, 0 <= i -> getZ (g_key_down k) i = 0) ->
  g_lshift_down k || g_rshift_down k = shift -> g_lctrl_down k = false -> g_rctrl_down k = false ->
  key_char shift false sc = c -> c <> 0 -> rep (buf k) q ->
  let k' := scan (sc + 0x80) (scan sc k) in
  rep (buf k') (q_push c q) /\ g_lshift_down k' = g_lshift_down k /\ g_rshift_down k' = g_rshift_down k /\
  g_lctrl_down k' = false /\ g_rctrl_down k' = false /\ g_is_e0 k' = false /\
  length (g_key_down k') = 128%nat /\ forall i, 0 <= i -> getZ (g_key_down k') i = 0.
Proof.
  intros Hk He Hlen Hdown Hsh Hlc Hrc Hch Hc Hrep k'. subst k'.
  rewrite (scan_make sc k) by (try done; apply Hdown; unfold char_key in Hk; lia). rewrite Hsh, Hlc, Hrc. cbn [orb]. rewrite Hch. rewrite (proj2 (Z.eqb_neq c 0)) by done.
  cbn [negb]. rewrite scan_break by done. cbn. rewrite !length_setZ. split_and!; try done.
  - by apply push_refines.
  - intros i Hi. unfold char_key in Hk. destruct (decide (i = sc)) as [->|Hne].
    + rewrite getZ_setZ_eq; [done|]. unfold inrange. rewrite length_setZ, Hlen. lia.
    + rewrite !getZ_setZ_ne by lia. by apply Hdown.
Qed.

Lemma type_char c k q :
  typable c -> at_rest k -> rep (buf k) q ->
  let k' := foldl (fun k sc => scan sc k) k (keystrokes c) in
  at_rest k' /\ rep (buf k') (q_push c q).
Proof.
  intros Hc [Hls Hrs Hlc Hrc He Hlen Hdown] Hrep k'. subst k'. unfold keystrokes.
  destruct (us_key_ok c Hc) as (sh & sc & -> & Hk & Hch).
  assert (Hc0 : c <> 0) by (unfold typable in Hc; lia).
  destruct sh; cbn [foldl].
  - rewrite (scan_plain 0x2A k) by done. change (plain_key 0x2A k) with (set_lshift true k).
    destruct (stroke sc (set_lshift true k) q c true) as (H1 & H2 & H3 & H4 & H5 & H6 & H7 & H8); try done.
    set (k1 := scan (sc + 0x80) _) in *. clearbody k1. cbn in H2, H3.
    rewrite (scan_plain 0xAA k1) by done. change (plain_key 0xAA k1) with (set_lshift false k1).
    split; [|done]. split; try done. cbn. by rewrite H3.
  - destruct (stroke sc k q c false) as (H1 & H2 & H3 & H4 & H5 & H6 & H7 & H8); try done.
    { by rewrite Hls, Hrs. }
    split; [|done]. split; try done; congruence.
Qed.

(** ** Properties *)

(** C15: the ring buffer implements a queue of 127 characters, also when it
    is read under interruption.  Whatever the interleaving of keyboard
    interrupts with the accesses of [keyboard_buffer_pop], the characters
    delivered so far, followed by the ones in the ring, are exactly the
    characters that were stored, in order: none is lost, doubled or swapped.
    (A character is not stored only when 127 are waiting.) *)
Theorem interrupted_reader_fifo (w : world) :
  rtc wstep (mkWorld empty_ring Idle [] []) w ->
  exists q, rep (w_ring w) q /\ accepted w = delivered w ++ q /\
    (forall c, keyboard_buffer_push c (w_ring w) = w_ring w <-> length q = 127%nat) /\
    (forall c, w_reader w = Loaded c -> exists q', q = c :: q').
Proof.
  intros Hrun.
  assert (Hinv : world_inv w).
  { eapply (rtc_ind_r world_inv); [| |exact Hrun].
    - exists []. split_and!; try done. apply empty_ring_rep.
    - intros w1 w2 _ Hs Hi. by eapply world_step_inv. }
  destruct Hinv as (q & Hrep & Hacc & Hrd). exists q. split_and!; try done.
  - intros c. destruct (push_refines (w_ring w) q c Hrep) as [_ ->]. unfold KBD_BUF_SIZE. lia.
  - intros c E. by rewrite E in Hrd.
Qed.

(** C27: typing a text of printable characters, tabs, newlines and backspaces on
    a US keyboard (pressing and releasing the key of each character, with shift
    where it is needed; the keys and their make codes are those of [us_rows],
    not of the code) puts exactly this text behind the characters that are
    waiting, as long as it fits, and leaves the keyboard at rest.  In
    particular both key maps agree with the keyboard on every printable
    character. *)
Theorem typing_reaches_the_reader (text : list Z) (k : kbd) (q : list Z) :
  at_rest k -> rep (buf k) q -> Forall typable text ->
  Z.of_nat (length q + length text) < KBD_BUF_SIZE ->
  at_rest (type_text text k) /\ rep (buf (type_text text k)) (q ++ text).
Proof.
  intros Hk Hrep Htext. revert k q Hk Hrep. unfold type_text.
  induction Htext as [|c text Hc Htext IH]; intros k q Hk Hrep Hlen; cbn [flat_map foldl length] in *.
  - by rewrite app_nil_r.
  - rewrite foldl_app. destruct (type_char c k q Hc Hk Hrep) as [Hk1 Hrep1].
    assert (Hq : q_push c q = q ++ [c]).
    { unfold q_push. by rewrite (proj2 (Z.ltb_lt _ (KBD_BUF_SIZE - 1))) by lia. }
    rewrite Hq in Hrep1. destruct (IH _ _ Hk1 Hrep1) as [Hk2 Hrep2].
    + rewrite length_app. cbn [length]. lia.
    + by rewrite <- app_assoc in Hrep2.
Qed.

(** A key that is held types once: after its first scancode, further
    make codes of the same key (the keyboard's auto-repeat) change nothing
    until it is released, and then it types again. *)
Theorem held_key_types_once (sc : Z) (n : nat) (k : kbd) (q : list Z) :
  char_key sc = true -> at_rest k -> rep (buf k) q ->
  let c := key_char false false sc in
  c <> 0 ->
  let held := Nat.iter n (scan sc) (scan sc k) in
  held = scan sc k /\ rep (buf held) (q_push c q) /\ at_rest (scan (sc + 0x80) held).
Proof.
  intros Hk Hr Hrep c Hc held. pose proof Hr as [Hls Hrs Hlc Hrc He Hlen Hdown].
  assert (Hs0 : 0 <= sc < 128) by (unfold char_key in Hk; lia).
  assert (E1 : scan sc k = push c (set_key sc 1 k)).
  { rewrite (scan_make sc k) by (try done; apply Hdown; lia). rewrite Hls, Hrs, Hlc, Hrc. cbn [orb]. fold c.
    by rewrite (proj2 (Z.eqb_neq c 0)). }
  assert (Hfix : scan sc (scan sc k) = scan sc k).
  { apply scan_repeat; [done|by rewrite E1|]. rewrite E1. cbn. rewrite getZ_setZ_eq; [done|]. unfold inrange. lia. }
  assert (Hh : held = scan sc k).
  { subst held. induction n as [|n IH]; [done|].
    change (scan sc (Nat.iter n (scan sc) (scan sc k)) = scan sc k). by rewrite IH. }
  split; [done|]. rewrite Hh. split.
  - rewrite E1. cbn. by apply push_refines.
  - rewrite scan_break by (done || by rewrite E1). rewrite E1. split; cbn; rewrite ?length_setZ; try done.
    intros i Hi. destruct (decide (i = sc)) as [->|Hne].
    + apply getZ_setZ_eq. unfold inrange. rewrite length_setZ. lia.
    + rewrite !getZ_setZ_ne by lia. by apply Hdown.
Qed.

(** A sequence of calls: [Some c] pushes, [None] pops; the results of the
    pops are collected. *)
Definition run_ring (ops : list (option Z)) (st : ring * list Z) : ring * list Z :=
  foldl (fun st op => match op with
    | Some c => (keyboard_buffer_push c st.1, st.2)
    | None => ((keyboard_buffer_pop st.1).2, st.2 ++ [(keyboard_buffer_pop st.1).1])
    end) st ops.

Definition run_queue (ops : list (option Z)) (st : list Z * list Z) : list Z * list Z :=
  foldl (fun st op => match op with
    | Some c => (q_push c st.1, st.2)
    | None => ((q_pop st.1).2, st.2 ++ [(q_pop st.1).1])
    end) st ops.

Lemma run_refines ops r q out :
  rep r q ->
  (run_ring ops (r, out)).2 = (run_queue ops (q, out)).2 /\
  rep (run_ring ops (r, out)).1 (run_queue ops (q, out)).1.
Proof.
  unfold run_ring, run_queue. revert r q out.
  induction ops as [|[c|] ops IH]; intros r q out Hrep; cbn [foldl fst snd]; [done| |].
  - apply IH. by apply push_refines.
  - destruct (pop_refines r q Hrep) as [-> Hrep']. by apply IH.
Qed.

(** On every sequence of calls, [keyboard_buffer_push] and
    [keyboard_buffer_pop] return what the bounded queue returns. *)
Theorem ring_refines_queue (ops : list (option Z)) :
  (run_ring ops (empty_ring, [])).2 = (run_queue ops ([], [])).2.
Proof. apply run_refines, empty_ring_rep. Qed.

(** ** Witnesses *)

Definition keyboard0 : kbd := mkKbd false false false false false false false (replicate 128 0) empty_ring.

Lemma keyboard0_rest : at_rest keyboard0.
Proof.
  split; try done. intros i Hi. cbn [keyboard0 g_key_down]. unfold getZ.
  destruct (_ !! _) as [v|] eqn:E; [|done]. by apply lookup_replicate in E as [-> _].
Qed.

(** "a" is stored while the reader has seen an empty ring, then read. *)
Lemma interrupted_reader_fifo_witness :
  exists q, accepted (mkWorld (keyboard_buffer_push 97 empty_ring) Checked [97] []) = [] ++ q.
Proof.
  destruct (interrupted_reader_fifo (mkWorld (keyboard_buffer_push 97 empty_ring) Checked [97] []))
    as (q & _ & Hacc & _).
  - eapply rtc_l; [apply (ws_irq_stored empty_ring Idle [] [] 97); by vm_compute|].
    eapply rtc_l; [apply ws_check; by vm_compute|]. constructor.
  - exists q. exact Hacc.
Defined.

(** "Hi!" *)
Lemma typing_reaches_the_reader_witness :
  at_rest (type_text [72; 105; 33] keyboard0) /\ rep (buf (type_text [72; 105; 33] keyboard0)) [72; 105; 33].
Proof.
  apply (typing_reaches_the_reader [72; 105; 33] keyboard0 [] keyboard0_rest empty_ring_rep).
  - repeat constructor; unfold typable; lia.
  - reflexivity.
Defined.

Lemma held_key_types_once_witness : rep (buf (Nat.iter 5 (scan 0x1E) (scan 0x1E keyboard0))) [97].
Proof.
  apply (held_key_types_once 0x1E 5 keyboard0 []);
    [reflexivity|apply keyboard0_rest|apply empty_ring_rep|vm_compute; discriminate].
Defined.

End Keyboard.
