(* ===== verification/Serial.v ===== *)
(** * The serial line, [print_hex] and [panic]

    arch/serial.c polls the line status register of COM1 before each byte; the
    values that the register shows are a parameter [lsr] of the model (the
    value of its n-th read), and a poll that is never satisfied is a run that
    never ends.  The debug output of include/debug.h, [print_hex] of
    src/kernel/main.c and [panic] of arch/panic.c are built on it. *)

From Stdlib Require Import ZifyBool String.
From S2P Require Import Prelude Vga.
Local Open Scope Z_scope.

Module Serial.
Import Vga.

Definition COM1 : Z := 0x3F8.

Record serial := mkSerial {
  lsr_reads : nat;              (** reads of the line status register so far *)
  com1_writes : list (Z * Z)    (** [outb(port, value)], in order *)
}.

Definition outb (port val : Z) (s : serial) : serial :=
  mkSerial (lsr_reads s) (com1_writes s ++ [(port, u8 val)]).

Definition serial_init (s : serial) : serial :=
  let s := outb (COM1 + 1) 0x00 s in
  let s := outb (COM1 + 3) 0x80 s in
  let s := outb (COM1 + 0) 0x03 s in
  let s := outb (COM1 + 1) 0x00 s in
  outb (COM1 + 3) 0x03 s.

Section Line.
Variable lsr : nat -> Z.

(** [while ((inb(0x3F8 + 5) & 0x20) == 0);] *)
Fixpoint serial_wait (fuel : nat) (s : serial) : option serial :=
  let v := lsr (lsr_reads s) in
  let s := mkSerial (S (lsr_reads s)) (com1_writes s) in
  if Z.land v 0x20 =? 0 then
    match fuel with O => None | S fuel' => serial_wait fuel' s end
  else Some s.

Definition serial_putc (fuel : nat) (c : Z) (s : serial) : option serial :=
  s ← serial_wait fuel s; Some (outb 0x3F8 c s).

(** The characters of a C string, up to its NUL. *)
Fixpoint serial_puts (fuel : nat) (str : list Z) (s : serial) : option serial :=
  match str with
  | [] => Some s
  | c :: str' => if c =? 0 then Some s else s ← serial_putc fuel c s; serial_puts fuel str' s
  end.

(** [print_hex]: the buffer is filled from the right. *)
Fixpoint print_hex_fill (n : nat) (i val : Z) (buf : list Z) : list Z :=
  match n with
  | O => buf
  | S n' => print_hex_fill n' (i - 1) (Z.shiftr val 4) (setZ buf i (getZ hex_chars (Z.land val 0x0F)))
  end.

Definition print_hex_buf (val : Z) : list Z :=
  let buf := replicate 11 0 in
  let buf := setZ buf 0 48 in
  let buf := setZ buf 1 120 in
  let buf := setZ buf 10 0 in
  print_hex_fill 8 9 val buf.

Definition print_hex (fuel : nat) (val : Z) (s : serial) : option serial :=
  serial_puts fuel (print_hex_buf val) s.

(** include/debug.h *)
Definition dbg_prefix (fuel : nat) (scope : list Z) (s : serial) : option serial :=
  s ← serial_puts fuel (chars "[") s; s ← serial_puts fuel scope s; serial_puts fuel (chars "] ") s.

Definition dbg_msg (fuel : nat) (scope msg : list Z) (s : serial) : option serial :=
  s ← dbg_prefix fuel scope s; s ← serial_puts fuel msg s; serial_puts fuel [10] s.

Definition dbg_hex (fuel : nat) (scope : list Z) (value : Z) (s : serial) : option serial :=
  s ← dbg_prefix fuel scope s; s ← print_hex fuel value s; serial_puts fuel [10] s.

Definition dbg_kv (fuel : nat) (scope key : list Z) (value : Z) (s : serial) : option serial :=
  s ← dbg_prefix fuel scope s; s ← serial_puts fuel key s; s ← serial_puts fuel (chars "=") s;
  s ← print_hex fuel value s; serial_puts fuel [10] s.

(** arch/panic.c: the state in which the machine is halted for good. *)
Definition panic (fuel : nat) (msg : list Z) (v : vga) (s : serial) : option (vga * serial) :=
  let v := vga_set_color COLOR_WHITE COLOR_RED v in
  let v := clear_screen v in
  let v := vga_puts (chars "!!! KERNEL PANIC !!!" ++ [10; 10]) v in
  s ← serial_puts fuel (chars "!!! KERNEL PANIC !!!" ++ [10]) s;
  let v := vga_puts (chars "Message: ") v in
  s ← serial_puts fuel (chars "Message:") s;
  let v := vga_puts msg v in
  s ← serial_puts fuel msg s;
  let v := vga_puts ([10; 10] ++ chars "System halted" ++ [10]) v in
  s ← serial_puts fuel ([10; 10] ++ chars "System halted" ++ [10]) s;
  Some (v, s).

(** ** Specification *)

(** The transmitter gets ready within [b] further reads, at any time. *)
Definition ready_within (b : nat) : Prop :=
  forall n, exists k, (k <= b)%nat /\ Z.land (lsr (n + k)%nat) 0x20 <> 0.

(** The bytes that the line has sent. *)
Definition sent (s : serial) : list Z :=
  List.map snd (List.filter (fun w => w.1 =? COM1) (com1_writes s)).

Definition bytes (str : list Z) : list Z := List.map u8 (c_string str).

(** ** Lemmas *)

Lemma serial_wait_ready b n s :
  (exists k, (k <= n)%nat /\ Z.land (lsr (lsr_reads s + k)%nat) 0x20 <> 0) -> (n <= b)%nat ->
  exists s', serial_wait b s = Some s' /\ com1_writes s' = com1_writes s.
Proof.
  revert n s. induction b as [|b IH]; intros n s (k & Hk & Hr) Hn; cbn [serial_wait].
  - assert (k = 0)%nat as -> by lia. rewrite Nat.add_0_r in Hr. rewrite (proj2 (Z.eqb_neq _ 0) Hr).
    by eexists.
  - destruct (Z.eqb_spec (Z.land (lsr (lsr_reads s)) 0x20) 0) as [E|E]; [|by eexists].
    destruct k as [|k]; [by rewrite Nat.add_0_r in Hr|].
    apply (IH (pred n) (mkSerial (S (lsr_reads s)) (com1_writes s))); [|lia].
    exists k. split; [lia|]. cbn [lsr_reads].
    by replace (S (lsr_reads s) + k)%nat with (lsr_reads s + S k)%nat by lia.
Qed.

Lemma sent_outb c s : sent (outb 0x3F8 c s) = sent s ++ [u8 c].
Proof.
  unfold sent, outb. cbn [com1_writes]. rewrite List.filter_app, List.map_app. done.
Qed.

Lemma serial_puts_sends b str s :
  ready_within b -> exists s', serial_puts b str s = Some s' /\ sent s' = sent s ++ bytes str.
Proof.
  intros Hr. revert s. unfold bytes. induction str as [|c str IH]; intros s; cbn [serial_puts c_string].
  - exists s. by rewrite app_nil_r.
  - destruct (c =? 0); [exists s; by rewrite app_nil_r|].
    destruct (serial_wait_ready b b s (Hr (lsr_reads s)) ltac:(lia)) as (s1 & Hw & Hs1).
    unfold serial_putc. rewrite Hw. cbn [mbind option_bind].
    destruct (IH (outb 0x3F8 c s1)) as (s' & -> & Hs'). exists s'. split; [done|].
    rewrite Hs', sent_outb, <- app_assoc. unfold sent. by rewrite Hs1.
Qed.

Lemma serial_wait_never fuel s :
  (forall n, (lsr_reads s <= n)%nat -> Z.land (lsr n) 0x20 = 0) -> serial_wait fuel s = None.
Proof.
  revert s. induction fuel as [|fuel IH]; intros s H; cbn [serial_wait]; rewrite (H (lsr_reads s)) by lia; [done|].
  apply IH. cbn [lsr_reads]. intros n Hn. apply H. lia.
Qed.

End Line.

(** The digits that end up in the buffer. *)
Lemma fill_spec v : print_hex_buf v = [48; 120] ++ hex_string 8 v ++ [0].
Proof.
  unfold print_hex_buf. cbn [print_hex_fill hex_string app]. unfold digit.
  rewrite !Z.shiftr_shiftr by lia. cbn. rewrite Z.shiftr_0_r. reflexivity.
Qed.

Lemma c_string_digits n v l : c_string (hex_string n v ++ l) = hex_string n v ++ c_string l.
Proof.
  induction n as [|n IH]; cbn [hex_string app c_string]; [done|].
  destruct (digit_facts (Z.shiftr v (4 * Z.of_nat n))) as [_ Hd]. rewrite (proj2 (Z.eqb_neq _ 0)) by lia. by rewrite IH.
Qed.

Lemma bytes_hex n v : bytes (hex_string n v) = hex_string n v.
Proof.
  unfold bytes. rewrite <- (app_nil_r (hex_string n v)) at 1. rewrite c_string_digits, app_nil_r.
  induction n as [|n IH]; cbn [hex_string List.map]; [done|].
  destruct (digit_facts (Z.shiftr v (4 * Z.of_nat n))) as [_ Hd]. by rewrite IH, u8_small by lia.
Qed.

Lemma print_hex_sends lsr b v s :
  ready_within lsr b -> is_u32 v ->
  exists s', print_hex lsr b v s = Some s' /\ sent s' = sent s ++ [48; 120] ++ hex_string 8 v /\
    length (hex_string 8 v) = 8%nat /\ parse_hex (hex_string 8 v) = v.
Proof.
  intros Hr Hv. unfold print_hex. rewrite fill_spec.
  destruct (serial_puts_sends lsr b ([48; 120] ++ hex_string 8 v ++ [0]) s Hr) as (s' & Hs & Hsent).
  exists s'. split; [done|]. split.
  - rewrite Hsent. f_equal. unfold bytes. cbn [app c_string Z.eqb List.map]. rewrite c_string_digits. cbn [c_string Z.eqb].
    rewrite app_nil_r. f_equal. f_equal. rewrite <- (bytes_hex 8 v) at 2. unfold bytes.
    rewrite <- (app_nil_r (hex_string 8 v)) at 2. by rewrite c_string_digits, app_nil_r.
  - split; [done|]. unfold is_u32 in Hv. unfold parse_hex. rewrite parse_hex_string by lia.
    change (16 ^ Z.of_nat 8) with (2 ^ 32). rewrite Z.mod_small by lia. lia.
Qed.

(** A line of debug output. *)
Lemma dbg_kv_sends lsr b scope key v s :
  ready_within lsr b -> is_u32 v ->
  exists s', dbg_kv lsr b scope key v s = Some s' /\
    sent s' = sent s ++ chars "[" ++ bytes scope ++ chars "] " ++ bytes key ++ chars "=" ++ [48; 120] ++ hex_string 8 v ++ [10].
Proof.
  intros Hr Hv. unfold dbg_kv, dbg_prefix.
  destruct (serial_puts_sends lsr b (chars "[") s Hr) as (s1 & -> & E1). cbn [mbind option_bind].
  destruct (serial_puts_sends lsr b scope s1 Hr) as (s2 & -> & E2). cbn [mbind option_bind].
  destruct (serial_puts_sends lsr b (chars "] ") s2 Hr) as (s3 & -> & E3). cbn [mbind option_bind].
  destruct (serial_puts_sends lsr b key s3 Hr) as (s4 & -> & E4). cbn [mbind option_bind].
  destruct (serial_puts_sends lsr b (chars "=") s4 Hr) as (s5 & -> & E5). cbn [mbind option_bind].
  destruct (print_hex_sends lsr b v s5 Hr Hv) as (s6 & -> & E6 & _). cbn [mbind option_bind].
  destruct (serial_puts_sends lsr b [10] s6 Hr) as (s7 & -> & E7).
  exists s7. split; [done|]. rewrite E7, E6, E5, E4, E3, E2, E1, <- !app_assoc. reflexivity.
Qed.

Lemma dbg_msg_sends lsr b scope msg s :
  ready_within lsr b ->
  exists s', dbg_msg lsr b scope msg s = Some s' /\
    sent s' = sent s ++ chars "[" ++ bytes scope ++ chars "] " ++ bytes msg ++ [10].
Proof.
  intros Hr. unfold dbg_msg, dbg_prefix.
  destruct (serial_puts_sends lsr b (chars "[") s Hr) as (s1 & -> & E1). cbn [mbind option_bind].
  destruct (serial_puts_sends lsr b scope s1 Hr) as (s2 & -> & E2). cbn [mbind option_bind].
  destruct (serial_puts_sends lsr b (chars "] ") s2 Hr) as (s3 & -> & E3). cbn [mbind option_bind].
  destruct (serial_puts_sends lsr b msg s3 Hr) as (s4 & -> & E4). cbn [mbind option_bind].
  destruct (serial_puts_sends lsr b [10] s4 Hr) as (s5 & -> & E5).
  exists s5. split; [done|]. rewrite E5, E4, E3, E2, E1, <- !app_assoc. reflexivity.
Qed.

Lemma chars_range l : forallb (fun c => (-128 <=? c) && (c <? 128)) l = true -> Forall (fun c => -128 <= c < 128) l.
Proof.
  intros H. apply list.Forall_forall. intros c Hc. rewrite forallb_forall in H.
  specialize (H c (proj1 (list_elem_of_In _ _) Hc)). lia.
Qed.

Lemma put_color str t : color (foldl (fun t c => put c t) t str) = color t.
Proof.
  revert t. induction str as [|c str IH]; intros t; cbn [foldl]; [done|]. rewrite IH.
  unfold put, new_line. repeat case_match; done.
Qed.

(** ** Properties *)

(** C35: [print_hex] sends "0x" and the eight digits of the number, from
    which it can be read back, whatever the line status register shows as long
    as the transmitter gets ready again and again; and when it never does, no
    call returns. *)
Theorem print_hex_on_the_wire (lsr : nat -> Z) (b : nat) (v : Z) (s : serial) :
  is_u32 v ->
  (ready_within lsr b ->
   exists s' ds, print_hex lsr b v s = Some s' /\ sent s' = sent s ++ [48; 120] ++ ds /\
     length ds = 8%nat /\ parse_hex ds = v) /\
  ((forall n, Z.land (lsr n) 0x20 = 0) -> forall fuel, print_hex lsr fuel v s = None).
Proof.
  intros Hv. split.
  - intros Hr. destruct (print_hex_sends lsr b v s Hr Hv) as (s' & H1 & H2 & H3 & H4).
    exists s', (hex_string 8 v). done.
  - intros Hn fuel. unfold print_hex. rewrite fill_spec. cbn [app serial_puts Z.eqb]. unfold serial_putc.
    by rewrite serial_wait_never by auto.
Qed.

(** [panic] ends with the message on a screen of its own and on the
    serial line: the screen shows the transcript of exactly the three lines
    printed on a cleared red screen. *)
Theorem panic_shows_message (lsr : nat -> Z) (b : nat) (msg : list Z) (v : vga) (s : serial) :
  ready_within lsr b -> wf v -> Forall (fun c => -128 <= c < 128) msg ->
  exists v' s', panic lsr b msg v s = Some (v', s') /\
    wf v' /\ g_current_color v' = 0x4F /\
    shows v' (foldl (fun t c => put c t) (mkConsole (fun _ _ => 0x4F20) 0 0 0 0x4F)
      (chars "!!! KERNEL PANIC !!!" ++ [10; 10] ++ chars "Message: " ++ c_string msg
       ++ [10; 10] ++ chars "System halted" ++ [10])) /\
    sent s' = sent s ++ chars "!!! KERNEL PANIC !!!" ++ [10] ++ chars "Message:" ++ bytes msg
              ++ [10; 10] ++ chars "System halted" ++ [10].
Proof.
  intros Hr Hv Hmsg. unfold panic.
  set (v1 := vga_set_color COLOR_WHITE COLOR_RED v).
  assert (Hv1 : wf v1) by (destruct Hv; by split).
  destruct (clear_screen_spec v1 Hv1) as (Hw & Hx & Hy & _ & Hc & Hcells).
  set (v2 := clear_screen v1) in *. clearbody v2. change (g_current_color v1) with 0x4F in Hc, Hcells.
  assert (Hsh : shows v2 (mkConsole (fun _ _ => 0x4F20) 0 0 0 0x4F)).
  { split; cbn [col row top color page]; try done; try lia. intros r c Hr0 Hc0. rewrite Hcells by (by apply cell_index). done. }
  set (t0 := mkConsole _ _ _ _ _) in *.
  destruct (puts_refines _ _ _ Hw Hsh (chars_range (chars "!!! KERNEL PANIC !!!" ++ [10; 10]) eq_refl)) as [Hw1 Hs1].
  destruct (puts_refines _ _ _ Hw1 Hs1 (chars_range (chars "Message: ") eq_refl)) as [Hw2 Hs2].
  destruct (puts_refines msg _ _ Hw2 Hs2 Hmsg) as [Hw3 Hs3].
  destruct (puts_refines _ _ _ Hw3 Hs3 (chars_range ([10; 10] ++ chars "System halted" ++ [10]) eq_refl)) as [Hw4 Hs4].
  destruct (serial_puts_sends lsr b (chars "!!! KERNEL PANIC !!!" ++ [10]) s Hr) as (s1 & -> & E1). cbn [mbind option_bind].
  destruct (serial_puts_sends lsr b (chars "Message:") s1 Hr) as (s2 & -> & E2). cbn [mbind option_bind].
  destruct (serial_puts_sends lsr b msg s2 Hr) as (s3 & -> & E3). cbn [mbind option_bind].
  destruct (serial_puts_sends lsr b ([10; 10] ++ chars "System halted" ++ [10]) s3 Hr) as (s4 & -> & E4). cbn [mbind option_bind].
  eexists _, s4. split; [reflexivity|]. split; [exact Hw4|]. split.
  - rewrite (sh_color _ _ Hs4). by rewrite !put_color.
  - split.
    + rewrite <- !foldl_app in Hs4. exact Hs4.
    + rewrite E4, E3, E2, E1. rewrite <- !app_assoc. reflexivity.
Qed.

(** ** Witnesses *)

(** A register that shows a free transmitter at every second read. *)
Definition lsr_sample (n : nat) : Z := if Nat.even n then 0x20 else 0x00.

Lemma lsr_sample_ready : ready_within lsr_sample 1.
Proof.
  intros n. destruct (Nat.even n) eqn:E.
  - exists 0%nat. unfold lsr_sample. rewrite Nat.add_0_r, E. split; [lia|done].
  - exists 1%nat. unfold lsr_sample. rewrite Nat.add_1_r, Nat.even_succ, <- Nat.negb_even, E. split; [lia|done].
Qed.

Lemma print_hex_on_the_wire_witness :
  exists s' ds, print_hex lsr_sample 1 0xDEADBEEF (mkSerial 0 []) = Some s' /\ parse_hex ds = 0xDEADBEEF.
Proof.
  destruct (print_hex_on_the_wire lsr_sample 1 0xDEADBEEF (mkSerial 0 [])) as [H _]; [unfold is_u32; lia|].
  destruct (H lsr_sample_ready) as (s' & ds & Hs & _ & _ & Hp). exists s', ds. split; [exact Hs|exact Hp].
Defined.

Lemma panic_shows_message_witness :
  exists v' s', panic lsr_sample 1 [98; 111; 111] screen0 (mkSerial 0 []) = Some (v', s') /\
    getZ (video_mem v') (2 * VGA_WIDTH + 9) = 0x4F62.
Proof.
  destruct (panic_shows_message lsr_sample 1 [98; 111; 111] screen0 (mkSerial 0 []) lsr_sample_ready screen0_wf)
    as (v' & s' & Hp & _ & _ & Hsh & _); [repeat constructor; lia|].
  exists v', s'. split; [exact Hp|]. rewrite (sh_cells _ _ Hsh 2 9) by vga_lia. vm_compute. reflexivity.
Defined.

End Serial.
