(* ===== verification/Traps.v ===== *)
(** * Descriptor tables, interrupt controller and exception handlers

    The GDT and the TSS (src/kernel/main.c), the IDT and the 8259 interrupt
    controllers (arch/idt.c), [generic_exception_handler] and
    [page_fault_handler].  The tables are arrays of the packed structs of the
    source; decoders written from the processor manuals say what the hardware
    makes of them. *)

From Stdlib Require Import ZifyBool String.
From S2P Require Import Prelude Cmem Vga Serial.
Local Open Scope Z_scope.

Module Traps.

(** ** The global descriptor table *)

Definition GDT_KERNEL_CODE : Z := 0x08.
Definition GDT_KERNEL_DATA : Z := 0x10.
Definition GDT_USER_CODE : Z := 0x1B.
Definition GDT_USER_DATA : Z := 0x23.
Definition GDT_TSS : Z := 0x28.

Record gdt_entry := mkGdtEntry {
  limit_low : Z; base_low : Z; base_middle : Z; access : Z; granularity : Z; base_high : Z
}.

Definition null_gdt_entry : gdt_entry := mkGdtEntry 0 0 0 0 0 0.

Definition gdt_set_gate (num : nat) (base limit acc gran : Z) (gdt : list gdt_entry) : list gdt_entry :=
  let e := {| base_low := u16 (Z.land base 0xFFFF);
              base_middle := u8 (Z.land (Z.shiftr base 16) 0xFF);
              base_high := u8 (Z.land (Z.shiftr base 24) 0xFF);
              limit_low := u16 (Z.land limit 0xFFFF);
              granularity := u8 (Z.lor (Z.land (Z.shiftr limit 16) 0x0F) (Z.land gran 0xF0));
              access := u8 acc |} in
  <[num := e]> gdt.

(** struct tss_entry at address [tss] *)
Definition sizeof_tss : Z := 104.
Definition tss_esp0 (m : mem) (tss : Z) : Z := ld32 m (tss + 4).
Definition tss_ss0 (m : mem) (tss : Z) : Z := ld32 m (tss + 8).
Definition tss_iomap_base (m : mem) (tss : Z) : Z := ld16 m (tss + 102).

(** The loop that clears the [sizeof(tss)] bytes of the TSS. *)
Fixpoint tss_clear (n : nat) (i tss : Z) (m : mem) : mem :=
  match n with
  | O => m
  | S n' => tss_clear n' (i + 1) tss (st8 m (tss + i) 0)
  end.

Definition tss_init (tss ss0 esp0 : Z) (st : mem * list gdt_entry) : mem * list gdt_entry :=
  let '(m, gdt) := st in
  let m := tss_clear (Z.to_nat sizeof_tss) 0 tss m in
  let m := st32 m (tss + 8) ss0 in
  let m := st32 m (tss + 4) esp0 in
  let m := st16 m (tss + 102) sizeof_tss in
  (m, gdt_set_gate 5 tss (sizeof_tss - 1) 0x89 0x00 gdt).

(** The descriptor-table registers and the task register. *)
Record cpu := mkCpu { gdtr : Z * Z; idtr : Z * Z; tr : Z }.

(** [gdt_init], with the two loads at its end: gdt_flush (arch/gdt_flush.s)
    and [ltr]. *)
Definition gdt_init (gdt_addr tss : Z) (st : mem * list gdt_entry * cpu) : mem * list gdt_entry * cpu :=
  let '(m, gdt, c) := st in
  let gdt := gdt_set_gate 0 0 0 0 0 gdt in
  let gdt := gdt_set_gate 1 0 0xFFFFFFFF 0x9A 0xCF gdt in
  let gdt := gdt_set_gate 2 0 0xFFFFFFFF 0x92 0xCF gdt in
  let gdt := gdt_set_gate 3 0 0xFFFFFFFF 0xFA 0xCF gdt in
  let gdt := gdt_set_gate 4 0 0xFFFFFFFF 0xF2 0xCF gdt in
  let '(m, gdt) := tss_init tss GDT_KERNEL_DATA 0x90000 (m, gdt) in
  (m, gdt, mkCpu (gdt_addr, 6 * 8 - 1) (idtr c) 0x28).

(** What the processor reads in a descriptor. *)
Definition seg_base (e : gdt_entry) : Z := base_low e + 2 ^ 16 * base_middle e + 2 ^ 24 * base_high e.
Definition seg_limit (e : gdt_entry) : Z := limit_low e + 2 ^ 16 * (granularity e mod 16).
Definition seg_dpl (e : gdt_entry) : Z := access e / 32 mod 4.
Definition seg_present (e : gdt_entry) : bool := Z.testbit (access e) 7.
Definition seg_system (e : gdt_entry) : bool := negb (Z.testbit (access e) 4).
Definition seg_code (e : gdt_entry) : bool := Z.testbit (access e) 3.
(** The last byte of the segment: the limit counts pages when bit 7 of the
    granularity is set. *)
Definition seg_last (e : gdt_entry) : Z :=
  if Z.testbit (granularity e) 7 then seg_limit e * 4096 + 4095 else seg_limit e.

(** The descriptor that a selector names. *)
Definition descriptor (gdt : list gdt_entry) (sel : Z) : gdt_entry :=
  default null_gdt_entry (gdt !! Z.to_nat (sel / 8)).

(** ** The interrupt descriptor table and the interrupt controllers *)

Record idt_entry := mkIdtEntry { base_lo : Z; sel : Z; always0 : Z; flags : Z; base_hi : Z }.

Definition null_idt_entry : idt_entry := mkIdtEntry 0 0 0 0 0.

Record platform := mkPlatform { idt : list idt_entry; pic_writes : list (Z * Z); the_cpu : cpu }.

Definition outb (port val : Z) (p : platform) : platform :=
  mkPlatform (idt p) (pic_writes p ++ [(port, u8 val)]) (the_cpu p).

Definition PIC1_COMMAND : Z := 0x20.
Definition PIC1_DATA : Z := 0x21.

Definition pic_remap (p : platform) : platform :=
  let p := outb PIC1_COMMAND 0x11 p in
  let p := outb 0xA0 0x11 p in
  let p := outb PIC1_DATA 0x20 p in
  let p := outb 0xA1 0x28 p in
  let p := outb PIC1_DATA 0x04 p in
  let p := outb 0xA1 0x02 p in
  let p := outb PIC1_DATA 0x01 p in
  let p := outb 0xA1 0x01 p in
  let p := outb PIC1_DATA 0xFF p in
  outb 0xA1 0xFF p.

Definition idt_set_gate (num : nat) (base selector fl : Z) (p : platform) : platform :=
  let e := {| base_lo := u16 (Z.land base 0xFFFF);
              base_hi := u16 (Z.land (Z.shiftr base 16) 0xFFFF);
              sel := u16 selector; always0 := 0; flags := u8 fl |} in
  mkPlatform (<[num := e]> (idt p)) (pic_writes p) (the_cpu p).

(** [for (int i = 0; i < 256; i++) idt_set_gate(i, 0, 0x08, 0)] *)
Fixpoint idt_clear (n i : nat) (p : platform) : platform :=
  match n with
  | O => p
  | S n' => idt_clear n' (S i) (idt_set_gate i 0 0x08 0 p)
  end.

(** The entry points in boot.s. *)
Record stubs := mkStubs {
  keyboard_handler_asm : Z; syscall_handler_asm : Z; page_fault_handler_asm : Z;
  isr_0 : Z; isr_7 : Z; isr_8 : Z; isr_10 : Z; isr_11 : Z; isr_12 : Z; isr_13 : Z
}.

Definition idt_init (idt_addr : Z) (e : stubs) (p : platform) : platform :=
  let p := idt_clear 256 0 p in
  let p := pic_remap p in
  let p := idt_set_gate 0x21 (keyboard_handler_asm e) 0x08 0x8E p in
  let p := idt_set_gate 0x80 (syscall_handler_asm e) 0x08 0xEE p in
  let p := idt_set_gate 0x0E (page_fault_handler_asm e) 0x08 0x8E p in
  let p := idt_set_gate 0x00 (isr_0 e) 0x08 0x8E p in
  let p := idt_set_gate 0x07 (isr_7 e) 0x08 0x8E p in
  let p := idt_set_gate 0x08 (isr_8 e) 0x08 0x8E p in
  let p := idt_set_gate 0x0A (isr_10 e) 0x08 0x8E p in
  let p := idt_set_gate 0x0B (isr_11 e) 0x08 0x8E p in
  let p := idt_set_gate 0x0C (isr_12 e) 0x08 0x8E p in
  let p := idt_set_gate 0x0D (isr_13 e) 0x08 0x8E p in
  let p := mkPlatform (idt p) (pic_writes p)
             (mkCpu (gdtr (the_cpu p)) (idt_addr, 8 * 256 - 1) (tr (the_cpu p))) in
  outb PIC1_DATA 0xFD p.

(** What the processor reads in a gate. *)
Definition gate_offset (e : idt_entry) : Z := base_lo e + 2 ^ 16 * base_hi e.
Definition gate_present (e : idt_entry) : bool := Z.testbit (flags e) 7.
Definition gate_dpl (e : idt_entry) : Z := flags e / 32 mod 4.
(** A 32-bit interrupt gate: it clears IF. *)
Definition gate_interrupt (e : idt_entry) : bool := flags e mod 16 =? 0xE.

(** An 8259: the four initialisation words, then mask writes. *)
Record pic := mkPic { icw : nat (** initialisation words still expected *); vector_base : Z; mask : Z }.

Definition pic_write (cmd : bool) (v : Z) (c : pic) : pic :=
  if cmd then (if Z.testbit v 4 then mkPic 3 (vector_base c) 0 else c)
  else match icw c with
       | 3%nat => mkPic 2 (v - v mod 8) (mask c)
       | 2%nat => mkPic 1 (vector_base c) (mask c)
       | 1%nat => mkPic 0 (vector_base c) (mask c)
       | _ => mkPic 0 (vector_base c) v
       end.

Definition pics (writes : list (Z * Z)) (c : pic * pic) : pic * pic :=
  foldl (fun c w =>
    if w.1 =? 0x20 then (pic_write true w.2 c.1, c.2)
    else if w.1 =? 0x21 then (pic_write false w.2 c.1, c.2)
    else if w.1 =? 0xA0 then (c.1, pic_write true w.2 c.2)
    else if w.1 =? 0xA1 then (c.1, pic_write false w.2 c.2)
    else c) c writes.

(** ** Exceptions *)

Definition names : list (list Z) :=
  [ chars "#DE Divide Error"; []; []; []; []; []; []; [];
    chars "#NM Device Not Available"; []; chars "#DF Double Fault";
    []; chars "#TS Invalid TSS"; chars "#NP Segment Not Present";
    chars "#SS Stack-Segment Fault"; chars "#GP General Protection Fault";
    chars "#PF Page Fault" ].

Definition exception_name (vector : Z) : list Z :=
  if vector <? 17 then default [] (names !! Z.to_nat vector) else chars "Unknown Exception".

(** [stack[13]] and [stack[14]] of the frame at [esp] *)
Definition exception_eip (m : mem) (esp : Z) : Z := ld32 m (esp + 4 * 13).
Definition exception_error_code (m : mem) (vector esp : Z) : Z :=
  if (10 <=? vector) && (vector <=? 14) then ld32 m (esp + 4 * 14) else 0.

Section Handlers.
Variable lsr : nat -> Z.

(** The screen and the serial line with which the machine stops. *)
Definition generic_exception_handler (fuel : nat) (m : mem) (vector esp : Z) (v : Vga.vga) (s : Serial.serial)
    : option (Vga.vga * Serial.serial) :=
  let eip := exception_eip m esp in
  let error_code := exception_error_code m vector esp in
  let name := exception_name vector in
  let v := Vga.vga_set_color Vga.COLOR_WHITE Vga.COLOR_RED v in
  let v := Vga.vga_puts ([10] ++ chars "!!! KERNEL EXCEPTION !!!" ++ [10]) v in
  let v := Vga.vga_puts (chars "Exception: ") v in
  let v := Vga.vga_puts name v in
  let v := Vga.vga_puts ([10] ++ chars "Vector: ") v in
  s ← Serial.print_hex lsr fuel vector s;
  let v := Vga.vga_puts ([10] ++ chars "EIP: ") v in
  s ← Serial.print_hex lsr fuel eip s;
  let v := Vga.vga_puts [10] v in
  let v := Vga.vga_reset_color v in
  s ← Serial.dbg_kv lsr fuel (chars "exception") (chars "vector") vector s;
  s ← Serial.dbg_kv lsr fuel (chars "exception") (chars "eip") eip s;
  s ← Serial.dbg_kv lsr fuel (chars "exception") (chars "error") error_code s;
  Some (v, s).

(** How page_fault_handler leaves: back to the shell on the kernel stack at
    [g_user_kernel_esp], or halted. *)
Inductive fault_exit := ToShell (esp : Z) | Halted.

(** struct page_fault_frame at address [frame] *)
Definition pf_error_code (m : mem) (frame : Z) : Z := ld32 m (frame + 48).
Definition pf_eip (m : mem) (frame : Z) : Z := ld32 m (frame + 52).

Definition page_fault_handler (fuel : nat) (m : mem) (cr2 frame g_user_kernel_esp : Z) (v : Vga.vga) (s : Serial.serial)
    : option (fault_exit * Vga.vga * Serial.serial) :=
  let err := pf_error_code m frame in
  let mm := chars "mm" in
  s ← Serial.dbg_kv lsr fuel mm (chars "cr2") cr2 s;
  s ← Serial.dbg_kv lsr fuel mm (chars "eip") (pf_eip m frame) s;
  s ← Serial.dbg_kv lsr fuel mm (chars "err") err s;
  if negb (Z.land err 4 =? 0) then
    let v := Vga.vga_set_color Vga.COLOR_WHITE Vga.COLOR_RED v in
    let v := Vga.vga_puts ([10] ++ chars "Program crashed: page fault at 0x") v in
    s ← Serial.print_hex lsr fuel cr2 s;
    let v := Vga.vga_puts (chars ", eip=0x") v in
    s ← Serial.print_hex lsr fuel (pf_eip m frame) s;
    let v := Vga.vga_puts [10] v in
    let v := Vga.vga_reset_color v in
    s ← Serial.dbg_msg lsr fuel mm (chars "user page fault, returning to kernel") s;
    Some (ToShell g_user_kernel_esp, v, s)
  else
    let v := Vga.vga_set_color Vga.COLOR_WHITE Vga.COLOR_RED v in
    let v := Vga.vga_puts ([10] ++ chars "Kernel page fault at 0x") v in
    s ← Serial.print_hex lsr fuel cr2 s;
    let v := Vga.vga_puts (chars ", eip=0x") v in
    s ← Serial.print_hex lsr fuel (pf_eip m frame) s;
    let v := Vga.vga_puts [10] v in
    let v := Vga.vga_reset_color v in
    s ← Serial.dbg_msg lsr fuel mm (chars "kernel page fault, halting") s;
    Some (Halted, v, s).

End Handlers.

(** The words on the stack when [generic_exception_handler] runs, from [esp]
    up: the macros ISR_NOERR and ISR_ERR of boot.s push the segment and the
    general registers on top of what the processor pushed. *)
Definition isr_frame (segs regs : list Z) (error : option Z) (eip cs eflags : Z) : list Z :=
  segs ++ regs ++ match error with Some e => [e] | None => [] end ++ [eip; cs; eflags].

(** The words [l] lie in memory from [a] on. *)
Definition words_at (m : mem) (a : Z) (l : list Z) : Prop :=
  forall i w, l !! i = Some w -> ld32 m (a + 4 * Z.of_nat i) = w.

(** ** Descriptors *)

Lemma bytes_of_base b : is_u32 b ->
  u16 (Z.land b 0xFFFF) = b mod 65536 /\ u8 (Z.land (Z.shiftr b 16) 0xFF) = b / 65536 mod 256 /\
  u8 (Z.land (Z.shiftr b 24) 0xFF) = b / 16777216 /\ u16 (Z.land (Z.shiftr b 16) 0xFFFF) = b / 65536.
Proof.
  unfold is_u32. intros Hb.
  change 0xFFFF with (2 ^ 16 - 1). change 0xFF with (2 ^ 8 - 1).
  rewrite !land_ones_mod, !Z.shiftr_div_pow2 by lia.
  change (2 ^ 16) with 65536. change (2 ^ 24) with 16777216. change (2 ^ 8) with 256.
  change (2 ^ 32) with 4294967296 in Hb.
  rewrite !u16_small, !u8_small by (change (2 ^ 16) with 65536; change (2 ^ 8) with 256; mlia).
  split_and!; mlia.
Qed.

(** The granularity byte: four limit bits and four flag bits. *)
Lemma gran_byte l g :
  0 <= l < 16 -> 0 <= g < 256 ->
  u8 (Z.lor (Z.land l 0x0F) (Z.land g 0xF0)) = l + g / 16 * 16.
Proof.
  intros Hl Hg. change 0x0F with (2 ^ 4 - 1). rewrite land_ones_mod by lia. change (2 ^ 4) with 16.
  rewrite Z.mod_small by lia.
  assert (Hall : forallb (fun g => Z.land g 0xF0 =? g / 16 * 16) (seqZ 0 256) = true) by (vm_compute; reflexivity).
  rewrite forallb_forall in Hall.
  assert (Hin : In g (seqZ 0 256)) by (apply list_elem_of_In, elem_of_seqZ; lia).
  specialize (Hall g Hin). apply Z.eqb_eq in Hall. rewrite Hall, Z.lor_comm.
  rewrite (lor_disjoint_add _ _ 4) by (change (2 ^ 4) with 16; try apply Z.mod_mul; lia).
  rewrite u8_small by mlia. lia.
Qed.

Lemma gate_entry num base limit acc gran gdt :
  (num < length gdt)%nat -> is_u32 base -> is_u32 limit -> is_u8 acc -> is_u8 gran ->
  exists e, gdt_set_gate num base limit acc gran gdt = <[num := e]> gdt /\
    seg_base e = base /\ seg_limit e = limit mod 2 ^ 20 /\ access e = acc /\ granularity e / 16 = gran / 16.
Proof.
  intros Hn Hb Hl Ha Hg. unfold gdt_set_gate. eexists. split; [reflexivity|].
  destruct (bytes_of_base base Hb) as (-> & -> & -> & _). destruct (bytes_of_base limit Hl) as (-> & _ & _ & _).
  unfold is_u8, is_u32 in *.
  assert (E : Z.land (Z.shiftr limit 16) 0x0F = Z.land (limit / 65536 mod 16) 0x0F).
  { change 0x0F with (2 ^ 4 - 1). rewrite !land_ones_mod, Z.shiftr_div_pow2 by lia. by rewrite Z.mod_mod. }
  rewrite E, gran_byte by mlia. unfold seg_base, seg_limit.
  cbn [base_low base_middle base_high limit_low granularity access].
  change (2 ^ 16) with 65536. change (2 ^ 24) with 16777216. change (2 ^ 20) with 1048576.
  change (2 ^ 32) with 4294967296 in *. change (2 ^ 8) with 256 in *.
  rewrite u8_small by done. split_and!; mlia.
Qed.

Lemma tss_clear_ld8 n i tss m a :
  ld8 (tss_clear n i tss m) a = if (tss + i <=? a) && (a <? tss + i + Z.of_nat n) then 0 else ld8 m a.
Proof.
  revert i m. induction n as [|n IH]; intros i m; cbn [tss_clear].
  - by replace ((tss + i <=? a) && (a <? tss + i + Z.of_nat 0)) with false by lia.
  - rewrite IH, ld8_st8. change (u8 0) with 0.
    destruct (Z.eqb_spec (tss + i) a) as [<-|Hne].
    + replace ((tss + (i + 1) <=? tss + i) && _) with false by lia.
      by replace ((tss + i <=? tss + i) && (tss + i <? tss + i + Z.of_nat (S n))) with true by lia.
    + replace ((tss + (i + 1) <=? a) && (a <? tss + (i + 1) + Z.of_nat n))
        with ((tss + i <=? a) && (a <? tss + i + Z.of_nat (S n))) by lia. done.
Qed.

Lemma tss_init_wf tss ss0 esp0 m gdt : mem_wf m -> mem_wf (tss_init tss ss0 esp0 (m, gdt)).1.
Proof.
  intros Hm. unfold tss_init. cbn [fst]. apply st16_wf, st32_wf, st32_wf. generalize (Z.to_nat sizeof_tss), 0. intros n.
  revert m Hm. induction n as [|n IH]; intros m Hm i; cbn [tss_clear]; [done|]. by apply IH, st8_wf.
Qed.

(** ** Gates *)

Lemma idt_clear_spec n i p :
  (i + n <= length (idt p))%nat ->
  length (idt (idt_clear n i p)) = length (idt p) /\ pic_writes (idt_clear n i p) = pic_writes p /\
  the_cpu (idt_clear n i p) = the_cpu p /\
  forall j, idt (idt_clear n i p) !! j =
    if (decide (i <= j < i + n)%nat) then Some (mkIdtEntry 0 0x08 0 0 0) else idt p !! j.
Proof.
  revert i p. induction n as [|n IH]; intros i p Hl; cbn [idt_clear].
  - split_and!; try done. intros j. by rewrite decide_False by lia.
  - destruct (IH (S i) (idt_set_gate i 0 0x08 0 p)) as (H1 & H2 & H3 & H4).
    { cbn. rewrite length_insert. lia. }
    cbn [idt_set_gate idt pic_writes the_cpu] in *. rewrite length_insert in H1. split_and!; try done.
    intros j. rewrite H4. destruct (decide (j = i)) as [->|Hne].
    + rewrite decide_False, decide_True by lia. rewrite list_lookup_insert_eq by lia. done.
    + rewrite list_lookup_insert_ne by done. destruct (decide (S i <= j < S i + n)%nat).
      * by rewrite decide_True by lia.
      * by rewrite decide_False by lia.
Qed.

Lemma idt_cleared p : length (idt p) = 256%nat -> idt (idt_clear 256 0 p) = replicate 256 (mkIdtEntry 0 0x08 0 0 0).
Proof.
  intros Hl. destruct (idt_clear_spec 256 0 p) as (H1 & _ & _ & H4); [lia|].
  apply list_eq. intros j. rewrite H4. destruct (decide (0 <= j < 0 + 256)%nat).
  - by rewrite lookup_replicate_2 by lia.
  - rewrite lookup_ge_None_2 by lia. symmetry. apply lookup_replicate_None. lia.
Qed.

(** The vectors with a handler: its entry point, and whether ring 3 may call
    it. *)
Definition handlers (e : stubs) : list (nat * (Z * bool)) :=
  [ (0x00%nat, (isr_0 e, false)); (0x07%nat, (isr_7 e, false)); (0x08%nat, (isr_8 e, false));
    (0x0A%nat, (isr_10 e, false)); (0x0B%nat, (isr_11 e, false)); (0x0C%nat, (isr_12 e, false));
    (0x0D%nat, (isr_13 e, false)); (0x0E%nat, (page_fault_handler_asm e, false));
    (0x21%nat, (keyboard_handler_asm e, false)); (0x80%nat, (syscall_handler_asm e, true)) ].

Definition handler_of (e : stubs) (j : nat) : option (Z * bool) :=
  option_map snd (List.find (fun h => (h.1 =? j)%nat) (handlers e)).

Definition stubs_u32 (e : stubs) : Prop :=
  Forall is_u32 [ keyboard_handler_asm e; syscall_handler_asm e; page_fault_handler_asm e; isr_0 e; isr_7 e; isr_8 e;
                  isr_10 e; isr_11 e; isr_12 e; isr_13 e ].

Definition gate_entry_of (base : Z) (user : bool) : idt_entry :=
  mkIdtEntry (u16 (Z.land base 0xFFFF)) 0x08 0 (if user then 0xEE else 0x8E) (u16 (Z.land (Z.shiftr base 16) 0xFFFF)).

Lemma idt_init_entries idt_addr e p j :
  length (idt p) = 256%nat -> (j < 256)%nat ->
  idt (idt_init idt_addr e p) !! j =
  Some match handler_of e j with
       | Some (base, user) => gate_entry_of base user
       | None => mkIdtEntry 0 0x08 0 0 0
       end.
Proof.
  intros Hl Hj. unfold idt_init. cbn [idt outb idt_set_gate pic_remap the_cpu pic_writes].
  rewrite idt_cleared by done.
  assert (Hr : (j < length (replicate 256 (mkIdtEntry 0 0x08 0 0 0)))%nat) by (by rewrite length_replicate).
  do 256 (destruct j as [|j]; [reflexivity|]). lia.
Qed.

Lemma gate_entry_decode base user :
  is_u32 base ->
  let g := gate_entry_of base user in
  gate_offset g = base /\ gate_present g = true /\ gate_interrupt g = true /\
  gate_dpl g = (if user then 3 else 0) /\ sel g = GDT_KERNEL_CODE.
Proof.
  intros Hb g. subst g. unfold gate_entry_of, gate_offset. cbn [base_lo base_hi sel].
  destruct (bytes_of_base base Hb) as (-> & _ & _ & ->). unfold is_u32 in Hb.
  split; [change (2 ^ 16) with 65536; mlia|]. by destruct user.
Qed.

Lemma handler_in e j h : handler_of e j = Some h -> In (j, h) (handlers e).
Proof.
  unfold handler_of. destruct (List.find _ _) as [[j' h']|] eqn:E; [|done]. intros [= <-].
  apply List.find_some in E as [Hin Heq]. apply Nat.eqb_eq in Heq. simpl in Heq. by subst j'.
Qed.

Lemma handler_u32 e j base user : stubs_u32 e -> handler_of e j = Some (base, user) -> is_u32 base.
Proof.
  unfold stubs_u32. rewrite list.Forall_forall. intros Hs Hh%handler_in. apply Hs.
  apply list_elem_of_In. simpl in *. intuition (simplify_eq; tauto).
Qed.

Lemma handler_user e j base user : handler_of e j = Some (base, user) -> user = bool_decide (j = 0x80%nat).
Proof.
  intros Hh%handler_in. simpl in Hh. intuition (simplify_eq; by vm_compute).
Qed.

(** The writes of idt_init to the interrupt controllers. *)
Lemma idt_init_pics idt_addr e p c :
  length (idt p) = 256%nat ->
  let c' := pics (pic_writes (idt_init idt_addr e p)) c in
  c' = (mkPic 0 0x20 0xFD, mkPic 0 0x28 0xFF).
Proof.
  intros Hl c'. subst c'. unfold idt_init. cbn [outb idt_set_gate pic_remap pic_writes].
  destruct (idt_clear_spec 256 0 p) as (_ & -> & _ & _); [lia|].
  unfold pics. rewrite !foldl_app. destruct (foldl _ c (pic_writes p)) as [c1 c2]. reflexivity.
Qed.

(** The only line that the two masks leave open. *)
Lemma open_irq irq : 0 <= irq < 16 ->
  ((if irq <? 8 then Z.testbit 0xFD irq else Z.testbit 0xFF (irq - 8)) = false <-> irq = 1).
Proof.
  intros Hi.
  assert (Hall : forallb (fun irq => eqb (negb (if irq <? 8 then Z.testbit 0xFD irq else Z.testbit 0xFF (irq - 8))) (irq =? 1))
            (seqZ 0 16) = true) by reflexivity.
  rewrite forallb_forall in Hall.
  assert (Hin : In irq (seqZ 0 16)) by (apply list_elem_of_In, elem_of_seqZ; lia).
  specialize (Hall irq Hin). apply eqb_prop in Hall. revert Hall. generalize (if irq <? 8 then Z.testbit 0xFD irq else Z.testbit 0xFF (irq - 8)).
  intros b Hb. destruct (Z.eqb_spec irq 1), b; simpl in Hb; split; congruence.
Qed.

(** *** Texts on the screen *)

(** The screen after a page fault. *)
Definition fault_text (user : bool) : list Z :=
  [10] ++ (if user then chars "Program crashed: page fault at 0x" else chars "Kernel page fault at 0x")
  ++ chars ", eip=0x" ++ [10].

Definition fault_screen (user : bool) (v : Vga.vga) : Vga.vga :=
  Vga.vga_reset_color (Vga.vga_puts (fault_text user) (Vga.vga_set_color Vga.COLOR_WHITE Vga.COLOR_RED v)).

Definition exception_text (vector : Z) : list Z :=
  [10] ++ chars "!!! KERNEL EXCEPTION !!!" ++ [10] ++ chars "Exception: " ++ exception_name vector
  ++ [10] ++ chars "Vector: " ++ [10] ++ chars "EIP: " ++ [10].

Lemma names_no_nul vector : Vga.no_nul (exception_name vector) = true.
Proof.
  unfold exception_name. case_match; [|reflexivity].
  assert (Hall : Forall (fun n => Vga.no_nul n = true) names) by (repeat constructor).
  destruct (names !! _) as [n|] eqn:E; [|done]. simpl. by eapply (Forall_lookup_1 _ _ _ _ Hall).
Qed.

(** The bit of the error code that the handler tests. *)
Lemma user_bit x : negb (Z.land x 4 =? 0) = Z.testbit x 2.
Proof.
  change 4 with (2 ^ 2). destruct (Z.testbit x 2) eqn:Et.
  - apply negb_true_iff, Z.eqb_neq. intros E0. apply (f_equal (fun z => Z.testbit z 2)) in E0.
    rewrite Z.land_spec, Et in E0. discriminate.
  - apply negb_false_iff, Z.eqb_eq. apply Z.bits_inj'. intros i Hi. rewrite Z.land_spec, Z.pow2_bits_eqb, Z.bits_0 by lia.
    destruct (Z.eqb_spec 2 i) as [<-|]; [by rewrite Et|by rewrite andb_false_r].
Qed.

(** ** Properties *)

(** [gdt_set_gate] encodes a descriptor: the processor reads back the
    base, the low 20 bits of the limit, the access byte and the flags, and the
    other descriptors are as before. *)
Theorem gdt_gate_roundtrip (num : nat) (base limit acc gran : Z) (gdt : list gdt_entry) :
  (num < length gdt)%nat -> is_u32 base -> is_u32 limit -> is_u8 acc -> is_u8 gran ->
  let gdt' := gdt_set_gate num base limit acc gran gdt in
  (exists e, gdt' !! num = Some e /\ seg_base e = base /\ seg_limit e = limit mod 2 ^ 20 /\
     access e = acc /\ granularity e / 16 = gran / 16) /\
  forall i, i <> num -> gdt' !! i = gdt !! i.
Proof.
  intros Hn Hb Hl Ha Hg gdt'. subst gdt'.
  destruct (gate_entry num base limit acc gran gdt) as (e & -> & He); try done. split.
  - exists e. by rewrite list_lookup_insert_eq.
  - intros i Hi. by rewrite list_lookup_insert_ne.
Qed.

(** [gdt_init] sets up flat protection.  The selectors that the kernel
    uses name present descriptors that span all 4 GiB, with the privilege that
    their requestor bits claim (0 for the kernel's, 3 for the user's); the task
    register names the TSS, of exactly its 104 bytes, which sends an interrupt
    in ring 3 to the kernel stack at 0x90000 and allows no port to ring 3; and
    no memory outside the TSS is written. *)
Theorem gdt_init_protects (gdt_addr tss : Z) (m : mem) (gdt : list gdt_entry) (c : cpu) :
  length gdt = 6%nat -> is_u32 tss ->
  let '(m', gdt', c') := gdt_init gdt_addr tss (m, gdt, c) in
  (forall sel, sel ∈ [GDT_KERNEL_CODE; GDT_KERNEL_DATA; GDT_USER_CODE; GDT_USER_DATA] ->
     let d := descriptor gdt' sel in
     seg_present d = true /\ seg_system d = false /\ seg_base d = 0 /\ seg_last d = 2 ^ 32 - 1 /\
     seg_dpl d = sel mod 4 /\ seg_code d = (sel =? GDT_KERNEL_CODE) || (sel =? GDT_USER_CODE)) /\
  (let d := descriptor gdt' (tr c') in
   seg_present d = true /\ seg_system d = true /\ seg_base d = tss /\ seg_last d = sizeof_tss - 1) /\
  gdtr c' = (gdt_addr, 47) /\
  tss_ss0 m' tss = GDT_KERNEL_DATA /\ tss_esp0 m' tss = 0x90000 /\ sizeof_tss <= tss_iomap_base m' tss /\
  (forall a, tss <= a < tss + 104 -> ~ (tss + 4 <= a < tss + 12) -> ~ (tss + 102 <= a) -> ld8 m' a = 0) /\
  same_outside (fun a => tss <= a < tss + 104) m m'.
Proof.
  intros Hl Ht.
  destruct gdt as [|g0 [|g1 [|g2 [|g3 [|g4 [|g5 [|]]]]]]]; try done. clear Hl.
  unfold gdt_init, tss_init. cbn zeta.
  set (m1 := tss_clear (Z.to_nat sizeof_tss) 0 tss m).
  assert (Hm1 : forall a, ld8 m1 a = if (tss <=? a) && (a <? tss + 104) then 0 else ld8 m a).
  { intros a. subst m1. rewrite tss_clear_ld8. change (Z.of_nat (Z.to_nat sizeof_tss)) with 104. by rewrite !Z.add_0_r. }
  clearbody m1. set (g := gdt_set_gate 4 _ _ _ _ _). assert (Hg : length g = 6%nat) by done.
  destruct (gate_entry 5 tss (sizeof_tss - 1) 0x89 0 g) as (e & He & E1 & E2 & E3 & E4);
    [by rewrite Hg; lia|done|unfold is_u32, sizeof_tss; lia|unfold is_u8; lia|unfold is_u8; lia|].
  rewrite He. cbn [tr gdtr]. split; [|split; [|split; [done|split; [|split; [|split; [|split]]]]]].
  - intros sl Hin. unfold descriptor.
    assert (Hsel : sl = 0x08 \/ sl = 0x10 \/ sl = 0x1B \/ sl = 0x23) by (rewrite !elem_of_cons, elem_of_nil in Hin; unfold GDT_KERNEL_CODE, GDT_KERNEL_DATA, GDT_USER_CODE, GDT_USER_DATA in Hin; tauto).
    destruct Hsel as [->|[->|[->| ->]]]; vm_compute; repeat split.
  - assert (Hd : descriptor (<[5%nat := e]> g) 0x28 = e).
    { unfold descriptor. change (Z.to_nat (0x28 / 8)) with 5%nat. by rewrite list_lookup_insert_eq by (rewrite Hg; lia). }
    rewrite Hd. cbn zeta. unfold seg_present, seg_system, seg_last. rewrite E3, E1, E2.
    assert (Hb : Z.testbit (granularity e) 7 = false).
    { assert (Hgr : 0 <= granularity e < 16) by (change (0 / 16) with 0 in E4; mlia).
      apply (testbit_high _ 4); lia. }
    rewrite Hb. split_and!; reflexivity.
  - unfold tss_ss0, GDT_KERNEL_DATA. rewrite (ld32_same (st32 m1 (tss + 8) 0x10)).
    + apply ld32_st32_eq. unfold is_u32. lia.
    + intros i Hi. by rewrite ld8_st16_ne, ld8_st32_ne by lia.
  - unfold tss_esp0. rewrite (ld32_same (st32 (st32 m1 (tss + 8) GDT_KERNEL_DATA) (tss + 4) 0x90000)).
    + apply ld32_st32_eq. unfold is_u32. lia.
    + intros i Hi. by rewrite ld8_st16_ne by lia.
  - unfold tss_iomap_base. rewrite ld16_st16_eq; unfold sizeof_tss; lia.
  - intros a Ha H1 H2. rewrite ld8_st16_ne, !ld8_st32_ne, Hm1 by lia.
    by replace ((tss <=? a) && (a <? tss + 104)) with true by lia.
  - intros a Ha. rewrite ld8_st16_ne, !ld8_st32_ne, Hm1 by lia.
    by replace ((tss <=? a) && (a <? tss + 104)) with false by lia.
Qed.

(** [idt_init] opens exactly the intended doors.  A vector has a present
    gate exactly when the kernel has a handler for it, at that handler's
    address, entered through the kernel's code segment with interrupts off,
    and only the gate of system calls can be used from ring 3. *)
Theorem idt_init_gates (idt_addr : Z) (e : stubs) (p : platform) (j : nat) :
  length (idt p) = 256%nat -> stubs_u32 e -> (j < 256)%nat ->
  exists g, idt (idt_init idt_addr e p) !! j = Some g /\
    match handler_of e j with
    | None => gate_present g = false
    | Some (base, user) =>
        gate_present g = true /\ gate_offset g = base /\ sel g = GDT_KERNEL_CODE /\ gate_interrupt g = true /\
        gate_dpl g = (if decide (j = 0x80%nat) then 3 else 0)
    end.
Proof.
  intros Hl He Hj. eexists. split; [by apply idt_init_entries|].
  destruct (handler_of e j) as [[base user]|] eqn:Eh; [|done].
  destruct (gate_entry_decode base user) as (E1 & E2 & E3 & E4 & E5); [by eapply handler_u32|].
  split_and!; try done. rewrite E4, (handler_user e j base user Eh). by case_decide; case_bool_decide.
Qed.

(** C33: after [idt_init] the only hardware interrupt that can come is the
    keyboard's, and it has a handler: the controllers are at vectors 0x20 and
    0x28, every line but IRQ 1 is masked, and the vector of every open line
    has a present gate. *)
Theorem open_interrupts_have_handlers (idt_addr : Z) (e : stubs) (p : platform) (c : pic * pic) (irq : Z) :
  length (idt p) = 256%nat -> stubs_u32 e -> 0 <= irq < 16 ->
  let p' := idt_init idt_addr e p in
  let '(master, slave) := pics (pic_writes p') c in
  let masked := if irq <? 8 then Z.testbit (mask master) irq else Z.testbit (mask slave) (irq - 8) in
  let vector := if irq <? 8 then vector_base master + irq else vector_base slave + (irq - 8) in
  (masked = false <-> irq = 1) /\
  (masked = false -> exists g, idt p' !! Z.to_nat vector = Some g /\ gate_present g = true /\
     gate_offset g = keyboard_handler_asm e).
Proof.
  intros Hl He Hi p'. pose proof (idt_init_pics idt_addr e p c Hl) as Hp. cbn zeta in Hp. fold p' in Hp. rewrite Hp.
  cbn [mask vector_base].
  pose proof (open_irq irq Hi) as Hm.
  split; [exact Hm|]. intros Hmask. apply Hm in Hmask. subst irq.
  eexists. split; [apply idt_init_entries; [done|vm_compute; lia]|].
  change (handler_of e (Z.to_nat (32 + 1))) with (Some (keyboard_handler_asm e, false)).
  destruct (gate_entry_decode (keyboard_handler_asm e) false) as (E1 & E2 & _); [|done].
  by apply (handler_u32 e 0x21 _ false).
Qed.

(** What a page fault sends over the serial line. *)
Definition fault_log (user : bool) (cr2 eip err : Z) : list Z :=
  chars "[mm] cr2=0x" ++ Vga.hex_string 8 cr2 ++ [10] ++
  chars "[mm] eip=0x" ++ Vga.hex_string 8 eip ++ [10] ++
  chars "[mm] err=0x" ++ Vga.hex_string 8 err ++ [10] ++
  chars "0x" ++ Vga.hex_string 8 cr2 ++ chars "0x" ++ Vga.hex_string 8 eip ++
  (if user then chars "[mm] user page fault, returning to kernel" else chars "[mm] kernel page fault, halting") ++ [10].

(** C34: the handler of page faults takes the right exit.  A fault in ring 3
    goes back to the shell on the kernel's stack, a fault in the kernel halts
    the machine.  The serial line reports the faulting address, the address of
    the instruction and the error code, each with its eight hexadecimal digits,
    in this order.  But the screen does not: the two numbers of the message go
    to the serial line only ([print_hex] does not write to the screen), so what
    is shown is the same for every fault. *)
Theorem page_fault_exit (lsr : nat -> Z) (b : nat) (m : mem) (cr2 frame kesp : Z) (v : Vga.vga) (s : Serial.serial) :
  Serial.ready_within lsr b -> mem_wf m -> is_u32 cr2 ->
  let err := ld32 m (frame + 4 * 12) in
  let eip := ld32 m (frame + 4 * 13) in
  let user := Z.testbit err 2 in
  exists s',
    page_fault_handler lsr b m cr2 frame kesp v s
    = Some (if user then ToShell kesp else Halted, fault_screen user v, s') /\
    Serial.sent s' = Serial.sent s ++ fault_log user cr2 eip err /\
    Vga.parse_hex (Vga.hex_string 8 cr2) = cr2 /\ Vga.parse_hex (Vga.hex_string 8 eip) = eip /\
    Vga.parse_hex (Vga.hex_string 8 err) = err.
Proof.
  intros Hr Hm Hc. cbv zeta. unfold page_fault_handler, fault_screen, fault_text.
  change (frame + 4 * 12) with (frame + 48). change (frame + 4 * 13) with (frame + 52).
  fold (pf_error_code m frame). fold (pf_eip m frame).
  assert (He : is_u32 (pf_eip m frame)) by (by apply ld32_u32).
  assert (Hx : is_u32 (pf_error_code m frame)) by (by apply ld32_u32).
  destruct (Serial.dbg_kv_sends lsr b (chars "mm") (chars "cr2") cr2 s Hr Hc) as (s1 & -> & E1). cbn [mbind option_bind].
  destruct (Serial.dbg_kv_sends lsr b (chars "mm") (chars "eip") (pf_eip m frame) s1 Hr He) as (s2 & -> & E2). cbn [mbind option_bind].
  destruct (Serial.dbg_kv_sends lsr b (chars "mm") (chars "err") (pf_error_code m frame) s2 Hr Hx) as (s3 & -> & E3). cbn [mbind option_bind].
  rewrite user_bit. destruct (Serial.print_hex_sends lsr b cr2 s3 Hr Hc) as (s4 & H4 & E4 & _ & Hp).
  destruct (Serial.print_hex_sends lsr b (pf_eip m frame) s4 Hr He) as (s5 & H5 & E5 & _ & Hpe).
  destruct (Serial.print_hex_sends lsr b (pf_error_code m frame) s4 Hr Hx) as (_ & _ & _ & _ & Hpx).
  destruct (Z.testbit (pf_error_code m frame) 2); rewrite H4; cbn [mbind option_bind]; rewrite H5; cbn [mbind option_bind].
  - destruct (Serial.dbg_msg_sends lsr b (chars "mm") (chars "user page fault, returning to kernel") s5 Hr) as (s6 & -> & E6).
    cbn [mbind option_bind]. rewrite !Vga.vga_puts_app by reflexivity. exists s6. split; [reflexivity|]. split; [|done].
    rewrite E6, E5, E4, E3, E2, E1. unfold fault_log. rewrite <- !app_assoc. reflexivity.
  - destruct (Serial.dbg_msg_sends lsr b (chars "mm") (chars "kernel page fault, halting") s5 Hr) as (s6 & -> & E6).
    cbn [mbind option_bind]. rewrite !Vga.vga_puts_app by reflexivity. exists s6. split; [reflexivity|]. split; [|done].
    rewrite E6, E5, E4, E3, E2, E1. unfold fault_log. rewrite <- !app_assoc. reflexivity.
Qed.

(** The exception handler misreads its frame.  [stack[13]] is EIP only
    when the processor pushed an error code; for the vectors without one (0
    and 7) the EIP that is reported is CS, and for the others the reported
    error code is CS. *)
Theorem exception_frame_misread (m : mem) (esp : Z) (segs regs : list Z) (error : option Z) (eip cs eflags : Z) :
  length segs = 4%nat -> length regs = 8%nat ->
  words_at m esp (isr_frame segs regs error eip cs eflags) ->
  match error with
  | None => exception_eip m esp = cs
  | Some _ => exception_eip m esp = eip /\
      forall vector, 10 <= vector <= 14 -> exception_error_code m vector esp = cs
  end.
Proof.
  intros Hs Hr Hw.
  destruct segs as [|a0 [|a1 [|a2 [|a3 [|]]]]]; try done.
  destruct regs as [|r0 [|r1 [|r2 [|r3 [|r4 [|r5 [|r6 [|r7 [|]]]]]]]]]; try done.
  unfold exception_eip, exception_error_code. destruct error as [e|].
  - split; [by apply (Hw 13%nat)|]. intros vector Hv.
    rewrite (proj2 (Z.leb_le 10 vector)), (proj2 (Z.leb_le vector 14)) by lia. by apply (Hw 14%nat).
  - by apply (Hw 13%nat).
Qed.

(** The table of exception names is shifted: a double fault (8) is shown
    as "Device Not Available", an invalid TSS (10) as "Double Fault", a stack
    fault (12) as "Invalid TSS", a general protection fault (13) as "Segment
    Not Present", and vectors 7 and 11 without a name. *)
Theorem exception_names_shifted :
  List.map exception_name [7; 8; 10; 11; 12; 13] =
  [ []; chars "#NM Device Not Available"; chars "#DF Double Fault"; [];
    chars "#TS Invalid TSS"; chars "#NP Segment Not Present" ].
Proof. reflexivity. Qed.

(** An exception stops the machine with the error screen for its vector,
    and with vector and EIP on the serial line; the screen has none of the
    numbers. *)
Theorem exception_screen (lsr : nat -> Z) (b : nat) (m : mem) (vector esp : Z) (v : Vga.vga) (s : Serial.serial) :
  Serial.ready_within lsr b -> mem_wf m -> is_u32 vector ->
  exists s' rest,
    generic_exception_handler lsr b m vector esp v s
    = Some (Vga.vga_reset_color (Vga.vga_puts (exception_text vector) (Vga.vga_set_color Vga.COLOR_WHITE Vga.COLOR_RED v)), s') /\
    Serial.sent s' = Serial.sent s ++ chars "0x" ++ Vga.hex_string 8 vector ++ chars "0x"
                     ++ Vga.hex_string 8 (exception_eip m esp) ++ rest.
Proof.
  intros Hr Hm Hv. unfold generic_exception_handler, exception_text.
  assert (He : is_u32 (exception_eip m esp)) by (by apply ld32_u32).
  assert (Hx : is_u32 (exception_error_code m vector esp)).
  { unfold exception_error_code. case_match; [by apply ld32_u32|unfold is_u32; lia]. }
  destruct (Serial.print_hex_sends lsr b vector s Hr Hv) as (s1 & -> & E1 & _). cbn [mbind option_bind].
  destruct (Serial.print_hex_sends lsr b (exception_eip m esp) s1 Hr He) as (s2 & -> & E2 & _). cbn [mbind option_bind].
  destruct (Serial.dbg_kv_sends lsr b (chars "exception") (chars "vector") vector s2 Hr Hv) as (s3 & -> & E3). cbn [mbind option_bind].
  destruct (Serial.dbg_kv_sends lsr b (chars "exception") (chars "eip") (exception_eip m esp) s3 Hr He) as (s4 & -> & E4). cbn [mbind option_bind].
  destruct (Serial.dbg_kv_sends lsr b (chars "exception") (chars "error") (exception_error_code m vector esp) s4 Hr Hx)
    as (s5 & -> & E5). cbn [mbind option_bind].
  rewrite !Vga.vga_puts_app by (reflexivity || apply names_no_nul). eexists s5, _. split; [reflexivity|].
  rewrite E5, E4, E3, E2, E1, <- !app_assoc. reflexivity.
Qed.

(** ** Witnesses *)

Definition boot_platform : platform := mkPlatform (replicate 256 null_idt_entry) [] (mkCpu (0, 0) (0, 0) 0).
Definition boot_stubs : stubs :=
  mkStubs 0x100100 0x100140 0x100180 0x1001C0 0x100200 0x100240 0x100280 0x1002C0 0x100300 0x100340.

Lemma boot_stubs_u32 : stubs_u32 boot_stubs.
Proof. unfold stubs_u32. repeat constructor; vm_compute; congruence. Qed.

Lemma gdt_gate_roundtrip_witness :
  exists e, gdt_set_gate 5 0x12345678 103 0x89 0 (replicate 6 null_gdt_entry) !! 5%nat = Some e /\ seg_base e = 0x12345678.
Proof.
  destruct (gdt_gate_roundtrip 5 0x12345678 103 0x89 0 (replicate 6 null_gdt_entry)) as [(e & He & Hb & _) _];
    [vm_compute; lia|unfold is_u32; lia|unfold is_u32; lia|unfold is_u8; lia|unfold is_u8; lia|].
  exists e. split; [exact He|exact Hb].
Defined.

Lemma gdt_init_protects_witness :
  let '(m', gdt', c') := gdt_init 0x200000 0x200040 (∅, replicate 6 null_gdt_entry, mkCpu (0, 0) (0, 0) 0) in
  seg_dpl (descriptor gdt' GDT_USER_CODE) = 3 /\ tss_esp0 m' 0x200040 = 0x90000.
Proof.
  pose proof (gdt_init_protects 0x200000 0x200040 ∅ (replicate 6 null_gdt_entry) (mkCpu (0, 0) (0, 0) 0)
                eq_refl ltac:(unfold is_u32; lia)) as H.
  destruct (gdt_init _ _ _) as [[m' gdt'] c']. destruct H as (H1 & _ & _ & _ & H2 & _). split; [|exact H2].
  destruct (H1 GDT_USER_CODE ltac:(repeat constructor)) as (_ & _ & _ & _ & H & _). exact H.
Defined.

Lemma idt_init_gates_witness :
  exists g, idt (idt_init 0x300000 boot_stubs boot_platform) !! 0x80%nat = Some g /\ gate_dpl g = 3.
Proof.
  destruct (idt_init_gates 0x300000 boot_stubs boot_platform 0x80 eq_refl boot_stubs_u32) as (g & Hg & H);
    [lia|]. exists g. split; [exact Hg|]. apply H.
Defined.

Lemma open_interrupts_have_handlers_witness :
  exists g, idt (idt_init 0x300000 boot_stubs boot_platform) !! 0x21%nat = Some g /\ gate_offset g = 0x100100.
Proof.
  pose proof (open_interrupts_have_handlers 0x300000 boot_stubs boot_platform (mkPic 0 8 0, mkPic 0 0x70 0) 1
    eq_refl boot_stubs_u32 ltac:(lia)) as H. cbv zeta in H.
  rewrite (idt_init_pics 0x300000 boot_stubs boot_platform (mkPic 0 8 0, mkPic 0 0x70 0) eq_refl) in H.
  destruct H as [_ H]. destruct (H eq_refl) as (g & Hg & _ & Ho). exists g. split; [exact Hg|exact Ho].
Defined.

Lemma page_fault_exit_witness :
  exists s', page_fault_handler Serial.lsr_sample 1 (st32 ∅ 0x90030 7) 0xDEAD000 0x90000 0x8FFF0 Vga.screen0 (Serial.mkSerial 0 [])
    = Some (ToShell 0x8FFF0, fault_screen true Vga.screen0, s') /\
    take 19 (Serial.sent s') = chars "[mm] cr2=0x0DEAD000".
Proof.
  destruct (page_fault_exit Serial.lsr_sample 1 (st32 ∅ 0x90030 7) 0xDEAD000 0x90000 0x8FFF0 Vga.screen0 (Serial.mkSerial 0 [])
    Serial.lsr_sample_ready) as (s' & H & Hs & _); [auto with kernel|unfold is_u32; lia|].
  exists s'. assert (E : Z.testbit (ld32 (st32 ∅ 0x90030 7) (0x90000 + 4 * 12)) 2 = true) by (vm_compute; reflexivity).
  rewrite E in H, Hs. split; [exact H|]. rewrite Hs. vm_compute. reflexivity.
Defined.

(** A frame without an error code. *)
Definition de_stack : mem := st32 (st32 (st32 ∅ 0x30 0x101234) 0x34 0x08) 0x38 0x202.

Lemma exception_frame_misread_witness : exception_eip de_stack 0 = 0x08.
Proof.
  apply (exception_frame_misread de_stack 0 [0; 0; 0; 0] [0; 0; 0; 0; 0; 0; 0; 0] None 0x101234 0x08 0x202 eq_refl eq_refl).
  intros i w Hi. do 15 (destruct i as [|i]; [injection Hi as <-; vm_compute; reflexivity|]). discriminate.
Defined.

Lemma exception_screen_witness :
  exists v' s', generic_exception_handler Serial.lsr_sample 1 de_stack 0 0 Vga.screen0 (Serial.mkSerial 0 []) = Some (v', s').
Proof.
  destruct (exception_screen Serial.lsr_sample 1 de_stack 0 0 Vga.screen0 (Serial.mkSerial 0 []) Serial.lsr_sample_ready)
    as (s' & rest & H & _); [unfold de_stack; auto with kernel|unfold is_u32; lia|].
  eexists _, s'. exact H.
Defined.

End Traps.
