(* ===== verification/Dir.v ===== *)
(** * Directories and paths: arch/ext2_lookup.c, arch/path.c, arch/ext2_ls.c,
      arch/ext2_cat.c, arch/ext2_cd.c

    The three functions that read directories share their loops over blocks and
    entries, which are written once ([walk_dir]) with what they do on an entry
    as a parameter.  They run on a heap (they allocate the indirect block) and
    on a disk, both behind their interfaces.  A string argument is the list of
    its characters; arch/string.c is not in the repository, so that strcmp,
    strncmp and strlen are the interface [KString]. *)

From Stdlib Require Import ZifyBool String.
From S2P Require Import Prelude Cmem Alloc Block Ext2 Vga Heap.
Local Open Scope Z_scope.

(** string.h, with the behaviour that the C standard gives to these functions;
    a list stands for the characters from the pointer on, as far as they are
    known. *)
Class KString := {
  strcmp : list Z -> list Z -> Z;
  strncmp : list Z -> list Z -> Z -> Z;
  strlen : list Z -> Z
}.

Class KStringLaws `{KString} : Prop := {
  strcmp_eq a b : strcmp a b = 0 <-> Vga.c_string a = Vga.c_string b;
  strncmp_eq a b n : 0 <= n ->
    strncmp a b n = 0 <->
    take (Z.to_nat n) (Vga.c_string a ++ [0]) = take (Z.to_nat n) (Vga.c_string b ++ [0]);
  strlen_eq a : strlen a = Z.of_nat (length (Vga.c_string a))
}.

Module Dir.
Import Ext2.

(** [struct ext2_dir_entry_2] at address [e]. *)
Definition de_inode (m : mem) (e : Z) : Z := ld32 m e.
Definition de_rec_len (m : mem) (e : Z) : Z := ld16 m (e + 4).
Definition de_name_len (m : mem) (e : Z) : Z := ld8 m (e + 6).
Definition de_file_type (m : mem) (e : Z) : Z := ld8 m (e + 7).
Definition de_name (m : mem) (e : Z) : list Z :=
  List.map (fun i => char_val (ld8 m (e + 8 + i))) (seqZ 0 (de_name_len m e)).

(** The loop over the entries of the block at [buf], from [offset] on; [act]
    is the body of the innermost [if], its flag a jump out of both loops. *)
Fixpoint scan_block {S} (fuel : nat) (bs : Z) (act : mem -> Z -> S -> S * bool) (m : mem) (buf offset : Z) (s : S)
  : option (S * bool) :=
  if offset <? bs then
    match fuel with
    | O => None
    | Datatypes.S fuel' =>
        let e := buf + offset in
        if (de_rec_len m e =? 0) || (bs <? de_rec_len m e) then Some (s, false)
        else
          let '(s, stop) :=
            if negb (de_inode m e =? 0) && (0 <? de_name_len m e) then act m e s else (s, false) in
          if stop then Some (s, true) else scan_block fuel' bs act m buf (u32 (offset + de_rec_len m e)) s
    end
  else Some (s, false).

Section Directories.
Context {H : Type} `{Allocator H} {D : Type} `{BlockDevice D} `{KString}.

(** The globals, and what a function has of its own: its local inode and its
    static block buffer.  Every function has its own [dir_env]; they agree on
    the first four fields. *)
Record dir_env := mkDirEnv {
  fs : fs_runtime;
  safe_inode_buf : Z;
  g_sb : Z;
  fs_gdt : Z;
  inode : Z;           (** the local [struct ext2_inode] *)
  dir_block_buf : Z
}.

Variable env : dir_env.
Abbreviation bs := (g_block_size (fs env)).

(** A function on memory and disk, run on the heap's memory. *)
Definition on_mem (f : mem -> D -> option (mem * D)) (h : H) (d : D) : option (H * D) :=
  '(m, d) ← f (heap_mem h) d; Some (set_heap_mem h m, d).

Definition get_inode (num : Z) (h : H) (d : D) : option (H * D) :=
  on_mem (read_inode (safe_inode_buf env) (fs env) num (g_sb env) (fs_gdt env) (inode env)) h d.

Definition is_directory (h : H) : bool := Z.land (i_mode (heap_mem h) (inode env)) 0xF000 =? 0x4000.

(** The block of the [blk]-th part of the directory: [None] is a [break].  The
    indirect block is read into the heap when it is first needed. *)
Definition dir_block (blk indirect_buf : Z) (h : H) (d : D) : option (option Z * Z * H * D) :=
  if blk <? 12 then Some (Some (i_block (heap_mem h) (inode env) blk), indirect_buf, h, d)
  else if i_block (heap_mem h) (inode env) 12 =? 0 then Some (None, indirect_buf, h, d)
  else
    '(indirect_buf, h, d) ←
      (if indirect_buf =? 0 then
         '(p, h) ← kmalloc bs h;
         if p =? 0 then Some (p, h, d)
         else '(h, d) ← on_mem (read_fs_block (fs env) (i_block (heap_mem h) (inode env) 12) p) h d; Some (p, h, d)
       else Some (indirect_buf, h, d));
    if indirect_buf =? 0 then Some (None, indirect_buf, h, d)
    else
      let idx := blk - 12 in
      if bs / 4 <=? idx then Some (None, indirect_buf, h, d)
      else Some (Some (ld32 (heap_mem h) (indirect_buf + 4 * idx)), indirect_buf, h, d).

(** The loop over the blocks, [n] of them left. *)
Fixpoint walk_blocks {S} (n : nat) (act : mem -> Z -> S -> S * bool) (blk indirect_buf : Z) (h : H) (d : D) (s : S)
  : option (S * Z * H * D) :=
  match n with
  | O => Some (s, indirect_buf, h, d)
  | Datatypes.S n' =>
      '(block, indirect_buf, h, d) ← dir_block blk indirect_buf h d;
      match block with
      | None => Some (s, indirect_buf, h, d)
      | Some block_id =>
          if block_id =? 0 then walk_blocks n' act (blk + 1) indirect_buf h d s
          else
            '(h, d) ← on_mem (read_fs_block (fs env) block_id (dir_block_buf env)) h d;
            '(s, stop) ← scan_block (Z.to_nat bs) bs act (heap_mem h) (dir_block_buf env) 0 s;
            if (stop : bool) then Some (s, indirect_buf, h, d)
            else walk_blocks n' act (blk + 1) indirect_buf h d s
      end
  end.

(** From the directory's inode, which has been read, to the end. *)
Definition walk_dir {S} (act : mem -> Z -> S -> S * bool) (s : S) (h : H) (d : D) : option (S * H * D) :=
  if bs =? 0 then None
  else
    let block_count := u32 (u32 (i_size (heap_mem h) (inode env) + bs) - 1) / bs in
    '(s, indirect_buf, h, d) ← walk_blocks (Z.to_nat block_count) act 0 0 h d s;
    Some (s, if indirect_buf =? 0 then h else kfree indirect_buf h, d).

(** [ext2_lookup]: the name is copied behind a NUL and compared. *)
Definition lookup_act (name : list Z) (m : mem) (e result : Z) : Z * bool :=
  if strcmp (de_name m e ++ [0]) name =? 0 then (de_inode m e, true) else (result, false).

Definition ext2_lookup (dir_inode_num : Z) (name : list Z) (h : H) (d : D) : option (Z * H * D) :=
  '(h, d) ← get_inode dir_inode_num h d;
  if negb (is_directory h) then Some (0, h, d)
  else walk_dir (lookup_act name) 0 h d.

(** [find_inode_in_dir]: the name is compared in place. *)
Definition find_act (name : list Z) (m : mem) (e result : Z) : Z * bool :=
  if (strncmp (de_name m e) name (de_name_len m e) =? 0) && (de_name_len m e =? strlen name)
  then (de_inode m e, true) else (result, false).

Definition find_inode_in_dir (parent_inode : Z) (name : list Z) (h : H) (d : D) : option (Z * H * D) :=
  '(h, d) ← get_inode parent_inode h d;
  if negb (is_directory h) then Some (0, h, d)
  else walk_dir (find_act name) 0 h d.

(** [ext2_ls], on the screen; [mounted] says that [fs_gdt] is set. *)
Definition ls_act (m : mem) (e : Z) (v : Vga.vga) : Vga.vga * bool :=
  let v := Vga.vga_puts (if de_file_type m e =? 2 then chars "<DIR> " else chars "      ") v in
  let v := Vga.vga_puts (de_name m e ++ [0]) v in
  (Vga.vga_puts [10] v, false).

Definition ext2_ls (mounted : bool) (dir_inode_num : Z) (v : Vga.vga) (h : H) (d : D) : option (Vga.vga * H * D) :=
  if negb mounted then Some (Vga.vga_puts (chars "Error: File system GDT not initialized." ++ [10]) v, h, d)
  else
    '(h, d) ← get_inode dir_inode_num h d;
    if negb (is_directory h) then Some (Vga.vga_puts (chars "Error: Inode is not a directory." ++ [10]) v, h, d)
    else walk_dir ls_act v h d.

(** [resolve_path]: a component of at most [n] characters, and what follows. *)
Fixpoint split_component (n : nat) (path : list Z) : list Z * list Z :=
  match n, path with
  | Datatypes.S n', c :: path' =>
      if c =? 47 then ([], path)
      else let '(name, rest) := split_component n' path' in (c :: name, rest)
  | _, _ => ([], path)
  end.

Definition skip_slash (path : list Z) : list Z :=
  match path with c :: path' => if c =? 47 then path' else path | [] => [] end.

(** The main loop; it takes at least one character from the path in each round,
    so that the length of the path is enough fuel. *)
Fixpoint resolve_loop (fuel : nat) (path : list Z) (current_inode : Z) (h : H) (d : D) : option (Z * H * D) :=
  match path with
  | [] => Some (current_inode, h, d)
  | _ =>
      match fuel with
      | O => None
      | Datatypes.S fuel' =>
          let '(name, rest) := split_component 31 path in
          let rest := skip_slash rest in
          '(current_inode, h, d) ← find_inode_in_dir current_inode name h d;
          if current_inode =? 0 then Some (0, h, d)
          else resolve_loop fuel' rest current_inode h d
      end
  end.

Definition resolve_path (path : list Z) (h : H) (d : D) : option (Z * H * D) :=
  match path with
  | [] => Some (0, h, d)
  | _ =>
      if strcmp path [47] =? 0 then Some (2, h, d)
      else let path := skip_slash path in resolve_loop (length path) path 2 h d
  end.

End Directories.

(** The environment of another function: its own inode and block buffer, with
    the file system and [read_inode]'s static buffer shared. *)
Definition sub_env (env : dir_env) (inode_at buf : Z) : dir_env :=
  mkDirEnv (fs env) (safe_inode_buf env) (g_sb env) (fs_gdt env) inode_at buf.

(** ** The directory on the disk *)

Record dentry := mkDentry { d_inode : Z; d_type : Z; d_name : list Z }.

Definition entry_at (m : mem) (e : Z) : dentry := mkDentry (de_inode m e) (de_file_type m e) (de_name m e).

(** The entries in use of the block with the bytes [src], from [off] on. *)
Fixpoint entries (fuel : nat) (bs : Z) (src : Z -> Z) (off : Z) : list dentry :=
  match fuel with
  | O => []
  | S fuel' =>
      let len := le16 src (off + 4) in
      if (off <? bs) && negb ((len =? 0) || (bs <? len)) then
        let rest := entries fuel' bs src (off + len) in
        if negb (le32 src off =? 0) && (0 <? src (off + 6)) then
          mkDentry (le32 src off) (src (off + 7))
            (List.map (fun i => char_val (src (off + 8 + i))) (seqZ 0 (src (off + 6)))) :: rest
        else rest
      else []
  end.

(** Every entry lies inside the block, with its name. *)
Fixpoint entries_ok (fuel : nat) (bs : Z) (src : Z -> Z) (off : Z) : bool :=
  match fuel with
  | O => true
  | S fuel' =>
      let len := le16 src (off + 4) in
      if off <? bs then
        (off + 8 + src (off + 6) <=? bs) &&
        (if (len =? 0) || (bs <? len) then true else entries_ok fuel' bs src (off + len))
      else true
  end.

(** A loop over entries with a body that can stop it. *)
Fixpoint run_until {S} (f : dentry -> S -> S * bool) (l : list dentry) (s : S) : S * bool :=
  match l with
  | [] => (s, false)
  | x :: l' => let '(s, stop) := f x s in if stop then (s, true) else run_until f l' s
  end.

Lemma run_until_app {S} (f : dentry -> S -> S * bool) l1 l2 s :
  run_until f (l1 ++ l2) s =
  let '(s1, stop) := run_until f l1 s in if stop then (s1, true) else run_until f l2 s1.
Proof.
  revert s. induction l1 as [|x l1 IH]; intros s; cbn [app run_until]; [done|].
  destruct (f x s) as [s1 [|]]; [done|apply IH].
Qed.

(** Reads of a copied block. *)
Section Copied.
Variables (m : mem) (buf bs : Z) (src : Z -> Z).
Hypothesis Hsrc : forall i, 0 <= i < bs -> ld8 m (buf + i) = src i.

Lemma copied_ld32 off : 0 <= off -> off + 4 <= bs -> ld32 m (buf + off) = le32 src off.
Proof. intros H0 H1. unfold ld32, le32. rewrite <- !Z.add_assoc, !Hsrc by lia. done. Qed.

Lemma copied_ld16 off : 0 <= off -> off + 2 <= bs -> ld16 m (buf + off) = le16 src off.
Proof. intros H0 H1. unfold ld16, le16. rewrite <- !Z.add_assoc, !Hsrc by lia. done. Qed.

Lemma copied_entry off :
  0 <= off -> off + 8 + src (off + 6) <= bs -> 0 <= src (off + 6) ->
  de_rec_len m (buf + off) = le16 src (off + 4) /\
  de_name_len m (buf + off) = src (off + 6) /\
  entry_at m (buf + off) = mkDentry (le32 src off) (src (off + 7))
    (List.map (fun i => char_val (src (off + 8 + i))) (seqZ 0 (src (off + 6)))).
Proof.
  intros H0 H1 H2.
  assert (En : de_name_len m (buf + off) = src (off + 6)) by (unfold de_name_len; rewrite <- Z.add_assoc, Hsrc by lia; done).
  split; [|split; [done|]].
  - unfold de_rec_len. rewrite <- Z.add_assoc. apply copied_ld16; lia.
  - unfold entry_at, de_inode, de_file_type, de_name. rewrite En. f_equal.
    + apply copied_ld32; lia.
    + rewrite <- Z.add_assoc, Hsrc by lia. done.
    + apply map_ext_in. intros i Hi. apply list_elem_of_In, elem_of_seqZ in Hi.
      rewrite <- !Z.add_assoc, Hsrc by lia. done.
Qed.

Hypothesis Hbyte : forall i, is_u8 (src i).

Lemma scan_block_spec {S} (act : mem -> Z -> S -> S * bool) (f : dentry -> S -> S * bool) fuel off s :
  mem_wf m -> (forall m e s, mem_wf m -> act m e s = f (entry_at m e) s) ->
  bs <= 2 ^ 16 -> 0 <= off -> bs - off <= Z.of_nat fuel -> entries_ok fuel bs src off = true ->
  scan_block fuel bs act m buf off s = Some (run_until f (entries fuel bs src off) s).
Proof.
  intros Hm Hact Hbs. revert off s. induction fuel as [|fuel IH]; intros off s H0 Hf Hok; cbn [scan_block entries entries_ok] in *.
  - by rewrite (proj2 (Z.ltb_ge off bs)) by lia.
  - destruct (Z.ltb_spec off bs) as [Hlt|]; cbn [andb] in *; [|done].
    apply andb_true_iff in Hok as [Hin Hok]. apply Z.leb_le in Hin.
    pose proof (Hbyte (off + 6)) as H6. unfold is_u8 in H6.
    destruct (copied_entry off) as (Er & En & Ee); [lia|lia|lia|]. rewrite Er, En.
    assert (Hrec : 0 <= le16 src (off + 4)).
    { unfold le16. pose proof (Hbyte (off + 4)). pose proof (Hbyte (off + 4 + 1)). unfold is_u8 in *. lia. }
    destruct ((le16 src (off + 4) =? 0) || (bs <? le16 src (off + 4))) eqn:Eb; cbn [negb]; [done|].
    assert (Hrest : forall s, scan_block fuel bs act m buf (u32 (off + le16 src (off + 4))) s
                    = Some (run_until f (entries fuel bs src (off + le16 src (off + 4))) s)).
    { intros s1. rewrite u32_small by lia. apply IH; [lia|lia|done]. }
    unfold de_inode. rewrite copied_ld32 by lia.
    destruct (negb (le32 src off =? 0) && (0 <? src (off + 6))) eqn:Eu.
    + rewrite Hact, Ee by done. cbn [run_until]. destruct (f _ s) as [s1 [|]]; [done|apply Hrest].
    + apply Hrest.
Qed.
End Copied.

Lemma le32_shift src x y : le32 (fun i => src (x + i)) y = le32 src (x + y).
Proof. unfold le32. by rewrite !Z.add_assoc. Qed.

(** ** Walking a directory *)

Section Walk.
Context {H : Type} `{HA : Allocator H} `{!AllocatorLaws H} {D : Type} `{HB : BlockDevice D} `{!BlockDeviceLaws D}.
Variable env : dir_env.
Variable disk : Z -> Z.
(** What the superblock and the group descriptor in memory say. *)
Variables inodes table : Z.
Abbreviation g := (fs env).
Abbreviation bs := (g_block_size g).
Abbreviation isz := (g_inode_size g).
Abbreviation pos := (inode_pos g table).

(** What directory functions write. *)
Definition dir_area (a : Z) : Prop :=
  safe_inode_buf env <= a < safe_inode_buf env + bs \/ inode env <= a < inode env + isz \/
  dir_block_buf env <= a < dir_block_buf env + bs \/ heap_area a.

Record dir_layout : Prop := {
  dl_fs : fs_ok g;
  dl_safe : 0 < safe_inode_buf env /\ safe_inode_buf env + bs <= 2 ^ 32;
  dl_buf : 0 < dir_block_buf env /\ dir_block_buf env + bs <= 2 ^ 32;
  dl_inode_safe : inode env + isz <= safe_inode_buf env \/ safe_inode_buf env + bs <= inode env;
  dl_inode_buf : inode env + isz <= dir_block_buf env \/ dir_block_buf env + bs <= inode env;
  dl_heap : forall a, heap_area a ->
    ~ (safe_inode_buf env <= a < safe_inode_buf env + bs) /\ ~ (inode env <= a < inode env + isz) /\
    ~ (dir_block_buf env <= a < dir_block_buf env + bs);
  dl_sb : forall a, g_sb env <= a < g_sb env + 4 \/ fs_gdt env + 8 <= a < fs_gdt env + 12 -> ~ dir_area a
}.

Hypothesis L : dir_layout.

(** The blocks of the heap are the same again. *)
Definition same_blocks (h h' : H) : Prop := forall l, heap_blocks h l -> heap_blocks h' l.

(** The state between calls. *)
Record ready (h : H) (d : D) (owned : list (Z * Z)) : Prop := {
  rd_heap : heap_inv h owned;
  rd_disk : holds disk d;
  rd_count : s_inodes_count (heap_mem h) (g_sb env) = inodes;
  rd_table : bg_inode_table (heap_mem h) (fs_gdt env) = table
}.

(** An inode that [read_inode] can fetch. *)
Definition valid_inode (num : Z) : Prop :=
  1 <= num <= inodes /\ table + (num - 1) / (bs / isz) <= 0x100000.

Definition has_inode (num : Z) (h : H) : Prop :=
  forall i, 0 <= i < isz -> ld8 (heap_mem h) (inode env + i) = part g disk (pos num + i).

Lemma ready_frame h d owned m' d' :
  ready h d owned -> holds disk d' -> heap_inv (set_heap_mem h m') owned -> same_outside dir_area (heap_mem h) m' ->
  ready (set_heap_mem h m') d' owned.
Proof.
  intros [R1 R2 R3 R4] Hd Hi Hs. split; [done|done| |]; rewrite heap_mem_set.
  - rewrite <- R3. apply ld32_same. intros i Hii. apply Hs, (dl_sb L). by left.
  - rewrite <- R4. apply ld32_same. intros i Hii. apply Hs, (dl_sb L). right. lia.
Qed.

Lemma fs_facts : bs <= 4096 /\ 1024 <= bs /\ 128 <= isz /\ isz <= bs.
Proof.
  destruct (isz_blocks g (dl_fs L)) as (k & Ek & Hk & _). pose proof (fo_isz g (dl_fs L)).
  assert (1024 <= bs <= 4096) by (destruct (fo_bs g (dl_fs L)); lia). nia.
Qed.

Lemma get_inode_ok num h d owned :
  ready h d owned -> valid_inode num ->
  exists h' d', get_inode env num h d = Some (h', d') /\ ready h' d' owned /\ has_inode num h' /\
    same_outside dir_area (heap_mem h) (heap_mem h') /\ same_blocks h h'.
Proof.
  intros R [Hn Ht]. pose proof R as [R1 R2 R3 R4]. unfold get_inode, on_mem.
  destruct (read_inode_ok g disk (dl_fs L) (safe_inode_buf env) (g_sb env) (fs_gdt env) (inode env) (dl_safe L)
    (dl_inode_safe L) num (heap_mem h) d) as (m' & d' & E & Hd' & Hm' & Hi & Hs); try done.
  { by apply (heap_inv_wf h owned). } { by rewrite R3. } { by rewrite R4. }
  rewrite (bind_some _ _ _ E). rewrite R4 in Hi.
  assert (Hs' : same_outside dir_area (heap_mem h) m').
  { eapply same_outside_mono; [|exact Hs]. unfold inode_area, dir_area. tauto. }
  assert (Hh : forall x, heap_area x -> ld8 m' x = ld8 (heap_mem h) x).
  { intros x Hx. apply Hs. unfold inode_area. destruct (dl_heap L x Hx). tauto. }
  exists (set_heap_mem h m'), d'. split; [done|]. unfold has_inode. rewrite heap_mem_set.
  split; [|split; [done|split; [done|]]].
  - apply (ready_frame h d); try done. by apply heap_inv_outside.
  - intros l Hl. by apply (blocks_outside h owned).
Qed.

(** Reading a block into the static buffer. *)
Lemma read_dir_block num id h d owned :
  ready h d owned -> has_inode num h -> 0 <= id <= 0x100000 ->
  exists h' d', on_mem (read_fs_block g id (dir_block_buf env)) h d = Some (h', d') /\ ready h' d' owned /\
    has_inode num h' /\ filled (part g disk) (id * bs) (dir_block_buf env) bs (heap_mem h) (heap_mem h') /\
    same_blocks h h'.
Proof.
  intros R Hi Hid. pose proof R as [R1 R2 _ _]. destruct (dl_buf L) as [B1 B2]. unfold on_mem.
  destruct (read_fs_block_ok g disk (dl_fs L) id (dir_block_buf env) (heap_mem h) d) as (m' & d' & E & Hd' & Hf); try done; [lia|].
  rewrite (bind_some _ _ _ E). exists (set_heap_mem h m'), d'. split; [done|].
  assert (Hw : mem_wf m').
  { eapply filled_wf; [exact Hf|intros y; apply (holds_bytes disk d R2)|by apply (heap_inv_wf h owned)]. }
  assert (Hh : forall x, heap_area x -> ld8 m' x = ld8 (heap_mem h) x).
  { intros x Hx. apply (filled_out _ _ _ _ _ _ _ Hf). destruct (dl_heap L x Hx). lia. }
  unfold has_inode. rewrite heap_mem_set. split; [|split; [|split; [done|]]].
  - apply (ready_frame h d); try done; [by apply heap_inv_outside|].
    intros a Ha. apply (filled_out _ _ _ _ _ _ _ Hf). unfold dir_area in Ha. lia.
  - intros i Hii. rewrite (filled_out _ _ _ _ _ _ _ Hf) by (destruct (dl_inode_buf L); lia). by apply Hi.
  - intros l Hl. by apply (blocks_outside h owned).
Qed.

Lemma dir_block_area id h h' : filled (part g disk) (id * bs) (dir_block_buf env) bs (heap_mem h) (heap_mem h') ->
  same_outside dir_area (heap_mem h) (heap_mem h').
Proof. intros Hf a Ha. apply (filled_out _ _ _ _ _ _ _ Hf). unfold dir_area in Ha. lia. Qed.

(** The indirect block in its heap block [ib], or not yet read; [l] are the
    blocks of the heap without it. *)
Definition with_indirect (ib : Z) (owned : list (Z * Z)) : list (Z * Z) := if ib =? 0 then owned else (ib, bs) :: owned.

Record walking (num : Z) (owned : list (Z * Z)) (l : list (Z * bool)) (ib : Z) (h : H) (d : D) : Prop := {
  wk_ready : ready h d (with_indirect ib owned);
  wk_inode : has_inode num h;
  wk_indirect : ib <> 0 -> forall i, 0 <= i < bs -> ld8 (heap_mem h) (ib + i) = part g disk (indirect_of g disk (pos num) * bs + i);
  wk_blocks : if ib =? 0 then heap_blocks h l
    else fits bs l = true /\ exists l', heap_blocks h l' /\ forall h2, heap_blocks h2 l' -> heap_blocks (kfree ib h2) l
}.

(** Reading the indirect block into the new heap block [p]. *)
Lemma read_indirect num owned l l' p h h1 d :
  ready h1 d (with_indirect p owned) -> has_inode num h1 -> p <> 0 -> 0 <= indirect_of g disk (pos num) <= 0x100000 ->
  same_outside dir_area (heap_mem h) (heap_mem h1) ->
  (p =? 0) = negb (fits bs l) -> heap_blocks h1 l' -> (forall h2, heap_blocks h2 l' -> heap_blocks (kfree p h2) l) ->
  exists h' d', on_mem (read_fs_block g (i_block (heap_mem h1) (inode env) 12) p) h1 d = Some (h', d') /\
    walking num owned l p h' d' /\ same_outside dir_area (heap_mem h) (heap_mem h').
Proof.
  intros R1 Hi1 Hp Hind Hs1 Hfit Hl' Hback. pose proof fs_facts as F. pose proof (rd_disk _ _ _ R1) as R2.
  destruct (inode_fields g disk (dl_fs L) (inode env) (pos num) (heap_mem h1) Hi1) as (_ & -> & _).
  pose proof (rd_heap _ _ _ R1) as Hinv. unfold on_mem, with_indirect in *. rewrite (proj2 (Z.eqb_neq p 0) Hp) in *.
  destruct (heap_region h1 _ p bs Hinv) as (P1 & P2 & P3); [by left|].
  destruct (read_fs_block_ok g disk (dl_fs L) (indirect_of g disk (pos num)) p (heap_mem h1) d) as (m' & d' & E' & Hd' & Hf); try done; [lia|lia|].
  rewrite (bind_some _ _ _ E'). exists (set_heap_mem h1 m'), d'. split; [done|].
  assert (Hw : mem_wf m').
  { eapply filled_wf; [exact Hf|intros y; apply (holds_bytes disk d R2)|by apply (heap_inv_wf h1 _ Hinv)]. }
  assert (Hout : forall x, heap_area x -> ~ (p <= x < p + bs) -> ld8 m' x = ld8 (heap_mem h1) x).
  { intros x _ Hx. apply (filled_out _ _ _ _ _ _ _ Hf). lia. }
  assert (Hsm : same_outside dir_area (heap_mem h1) m').
  { intros a Ha. apply (filled_out _ _ _ _ _ _ _ Hf). destruct (decide (p <= a < p + bs)) as [Hin|]; [|lia].
    exfalso. apply Ha. unfold dir_area. do 3 right. by apply P3. }
  split; [|rewrite heap_mem_set; by transitivity (heap_mem h1)]. split.
  - unfold with_indirect. rewrite (proj2 (Z.eqb_neq p 0) Hp). apply (ready_frame h1 d); try done. by apply heap_inv_write.
  - intros i Hii. rewrite heap_mem_set, (filled_out _ _ _ _ _ _ _ Hf); [by apply Hi1|].
    destruct (decide (p <= inode env + i < p + bs)) as [Hin|]; [|lia]. destruct (dl_heap L _ (P3 _ Hin)). lia.
  - intros _ i Hii. rewrite heap_mem_set. by apply (filled_in _ _ _ _ _ _ _ Hf).
  - rewrite (proj2 (Z.eqb_neq p 0) Hp). split; [by symmetry in Hfit; apply negb_false_iff in Hfit|].
    exists l'. split; [|done]. by apply (blocks_write h1 p bs owned).
Qed.

(** Allocating the indirect block and reading it. *)
Lemma fetch_indirect num owned l h d :
  walking num owned l 0 h d -> 0 <= indirect_of g disk (pos num) <= 0x100000 ->
  exists p h1, kmalloc bs h = Some (p, h1) /\
    (p = 0 -> fits bs l = false /\ walking num owned l 0 h1 d /\ same_outside dir_area (heap_mem h) (heap_mem h1)) /\
    (p <> 0 -> exists h' d', on_mem (read_fs_block g (i_block (heap_mem h1) (inode env) 12) p) h1 d = Some (h', d') /\
       walking num owned l p h' d' /\ same_outside dir_area (heap_mem h) (heap_mem h')).
Proof.
  intros [R Hi _ Hl] Hind. cbn [with_indirect Z.eqb] in R, Hl. pose proof R as [R1 R2 R3 R4]. pose proof fs_facts as F.
  assert (Hreq : 0 < bs <= max_request) by (unfold max_request; lia).
  destruct (kmalloc_ok h owned bs R1 Hreq) as (p & h1 & E & Hinv & Hs).
  destruct (kmalloc_fits h owned l bs p h1 R1 Hl Hreq E) as [Hfit Hsame].
  assert (Hs1 : same_outside dir_area (heap_mem h) (heap_mem h1)).
  { eapply same_outside_mono; [|exact Hs]. unfold dir_area. tauto. }
  assert (Hi1 : has_inode num h1).
  { intros i Hii. rewrite Hs; [by apply Hi|]. intros Hx. destruct (dl_heap L _ Hx). lia. }
  assert (R1' : ready h1 d (with_indirect p owned)).
  { split; [done|done| |].
    - rewrite <- R3. apply ld32_same. intros i Hii. apply Hs1, (dl_sb L). by left.
    - rewrite <- R4. apply ld32_same. intros i Hii. apply Hs1, (dl_sb L). right. lia. }
  exists p, h1. split; [done|]. split.
  - intros ->. split; [by apply negb_true_iff|]. split; [|done]. split; [done|done|done|by apply Hsame].
  - intros Hp. destruct (kfree_restores h owned l bs p h1 R1 Hl Hreq E Hp) as (l' & Hl' & Hback).
    by apply (read_indirect num owned l l' p h h1 d).
Qed.

(** The directory can be read: its blocks are on the partition and well
    formed. *)
Abbreviation block_src p := (fun i => part g disk (p * bs + i)).

Record dir_ok (num : Z) : Prop := {
  do_valid : valid_inode num;
  do_blocks : forall b, 0 <= b < loadable g disk (pos num) ->
    file_ptr g disk (pos num) b <= 0x100000 /\
    entries_ok (Z.to_nat bs) bs (block_src (file_ptr g disk (pos num) b)) 0 = true;
  do_indirect : 12 < file_blocks g disk (pos num) -> indirect_of g disk (pos num) <= 0x100000
}.

(** The entries of block [b], and of the blocks from [lo] on, [k] of them. *)
Definition block_entries (num b : Z) : list dentry :=
  let p := file_ptr g disk (pos num) b in
  if p =? 0 then [] else entries (Z.to_nat bs) bs (block_src p) 0.

Definition listing (num lo k : Z) : list dentry := concat (List.map (block_entries num) (seqZ lo k)).

Lemma listing_cons num lo k : 0 < k -> listing num lo k = block_entries num lo ++ listing num (lo + 1) (k - 1).
Proof. intros Hk. unfold listing. by rewrite seqZ_cons by lia. Qed.

Lemma listing_nil num lo : listing num lo 0 = [].
Proof. done. Qed.

(** The blocks that are read: those with a pointer, but only the first twelve
    when the heap has no room for the indirect block.  (None of a directory of
    more than 4 GiB less a block: the sum in the count of blocks wraps.) *)
Definition pointed (room : bool) (num : Z) : Z :=
  if room then loadable g disk (pos num) else Z.min 12 (loadable g disk (pos num)).
Definition reach (room : bool) (num : Z) : Z := if size_wraps g disk (pos num) then 0 else pointed room num.

(** A block of the directory: the next pointer, or a [break] behind the last
    block or at the twelfth when the heap refuses. *)
Lemma dir_block_ok num owned l blk ib h d :
  walking num owned l ib h d -> dir_ok num -> 0 <= blk < file_blocks g disk (pos num) ->
  (blk <= 12 \/ ib <> 0) ->
  exists block ib' h' d', dir_block env blk ib h d = Some (block, ib', h', d') /\ walking num owned l ib' h' d' /\
    same_outside dir_area (heap_mem h) (heap_mem h') /\
    match block with
    | Some p => blk < loadable g disk (pos num) /\ p = file_ptr g disk (pos num) blk /\ (blk < 12 \/ ib' <> 0)
    | None => loadable g disk (pos num) <= blk \/ blk = 12 /\ fits bs l = false
    end.
Proof.
  intros W Hok Hblk Hib. pose proof W as [R Hi Hind _]. pose proof fs_facts as F.
  destruct (inode_fields g disk (dl_fs L) (inode env) (pos num) (heap_mem h) Hi) as (_ & E12 & Ept).
  pose proof (max_blocks_range g disk (dl_fs L) (pos num)) as Hmax. unfold dir_block, loadable.
  destruct (Z.ltb_spec blk 12) as [Hlt|Hge].
  { exists (Some (i_block (heap_mem h) (inode env) blk)), ib, h, d. split; [done|]. split; [done|]. split; [done|].
    split; [lia|]. split; [apply Ept; lia|by left]. }
  rewrite E12. unfold max_blocks in *. destruct (Z.eqb_spec (indirect_of g disk (pos num)) 0) as [E0|E0].
  { exists None, ib, h, d. split; [done|]. split; [done|]. split; [done|]. left. lia. }
  assert (Hlast : forall ib' h' d', ib' <> 0 -> walking num owned l ib' h' d' -> same_outside dir_area (heap_mem h) (heap_mem h') ->
    exists block ib'' h'' d'',
      (if ib' =? 0 then Some (None, ib', h', d')
       else if bs / 4 <=? blk - 12 then Some (None, ib', h', d')
            else Some (Some (ld32 (heap_mem h') (ib' + 4 * (blk - 12))), ib', h', d')) = Some (block, ib'', h'', d'') /\
      walking num owned l ib'' h'' d'' /\ same_outside dir_area (heap_mem h) (heap_mem h'') /\
      match block with
      | Some p => blk < Z.min (file_blocks g disk (pos num)) (12 + bs / 4) /\ p = file_ptr g disk (pos num) blk /\ (blk < 12 \/ ib'' <> 0)
      | None => Z.min (file_blocks g disk (pos num)) (12 + bs / 4) <= blk \/ blk = 12 /\ fits bs l = false
      end).
  { intros ib' h' d' Hne W' Hs'. rewrite (proj2 (Z.eqb_neq ib' 0) Hne). destruct (Z.leb_spec (bs / 4) (blk - 12)) as [Hle|Hgt].
    - exists None, ib', h', d'. split; [done|]. split; [done|]. split; [done|]. left. lia.
    - eexists _, ib', h', d'. split; [reflexivity|]. split; [done|]. split; [done|]. split; [lia|]. split; [|by right].
      unfold file_ptr. rewrite (proj2 (Z.ltb_ge blk 12)) by lia.
      assert (bs / 4 * 4 <= bs) by (rewrite Z.mul_comm; apply Z.mul_div_le; lia).
      rewrite <- le32_shift. apply (copied_ld32 (heap_mem h') ib' bs); [by apply W'|lia|lia]. }
  destruct (Z.eqb_spec ib 0) as [->|Hne].
  - destruct (fetch_indirect num owned l h d W) as (p & h1 & Ek & Hno & Hyes).
    { split; [apply le32_u32; intros y; apply (holds_bytes disk d (rd_disk _ _ _ R))|]. apply (do_indirect num Hok). lia. }
    rewrite (bind_some _ _ _ Ek). destruct (Z.eqb_spec p 0) as [Ep|Ep].
    + destruct (Hno Ep) as (Hfit & W1 & Hs1). subst p. exists None, 0, h1, d. split; [done|]. split; [done|]. split; [done|]. right. lia.
    + destruct (Hyes Ep) as (h2 & d2 & E2 & W2 & Hs2). rewrite (bind_some _ _ _ E2). cbn [mbind option_bind].
      by apply Hlast.
  - cbn [mbind option_bind]. by apply Hlast.
Qed.

(** What [act] does to entries as they are in memory. *)
Definition acts_as {S} (act : mem -> Z -> S -> S * bool) (f : dentry -> S -> S * bool) : Prop :=
  forall m e s, mem_wf m -> act m e s = f (entry_at m e) s.

(** A block that is not a hole: read, and scanned by any body. *)
Lemma scan_step num owned l blk ib h d :
  walking num owned l ib h d -> dir_ok num -> 0 <= blk < loadable g disk (pos num) ->
  file_ptr g disk (pos num) blk <> 0 ->
  exists h' d', on_mem (read_fs_block g (file_ptr g disk (pos num) blk) (dir_block_buf env)) h d = Some (h', d') /\
    walking num owned l ib h' d' /\ same_outside dir_area (heap_mem h) (heap_mem h') /\
    forall S (act : mem -> Z -> S -> S * bool) f s, acts_as act f ->
      scan_block (Z.to_nat bs) bs act (heap_mem h') (dir_block_buf env) 0 s = Some (run_until f (block_entries num blk) s).
Proof.
  intros [R1 Hi1 Hind1 Hl1] Hok Hblk Ep. pose proof fs_facts as F. set (p := file_ptr g disk (pos num) blk) in *.
  destruct (do_blocks num Hok blk Hblk) as [Hp Hent]. fold p in Hp, Hent.
  assert (Hpu : 0 <= p) by (apply (file_ptr_u32 g disk d _ blk (rd_disk _ _ _ R1))).
  destruct (read_dir_block num p h d _ R1 Hi1) as (h2 & d2 & E2 & R2 & Hi2 & Hf & Hbl); [lia|].
  exists h2, d2. split; [done|]. split; [|split; [by apply (dir_block_area p)|]].
  - split; [done|done| |destruct (ib =? 0); [by apply Hbl|]; destruct Hl1 as (? & l' & Hl' & ?); split; [done|exists l'; auto]].
    intros Hne i Hii. rewrite <- (Hind1 Hne i Hii). apply (filled_out _ _ _ _ _ _ _ Hf).
    unfold with_indirect in R1. rewrite (proj2 (Z.eqb_neq ib 0) Hne) in R1.
    destruct (heap_region h _ ib bs (rd_heap _ _ _ R1)) as (_ & _ & P3); [by left|].
    destruct (dl_heap L (ib + i)) as (_ & _ & P4); [apply P3; lia|lia].
  - intros S act f s Hact.
    rewrite (scan_block_spec (heap_mem h2) (dir_block_buf env) bs (block_src p)) with (f := f); try done; try lia.
    + unfold block_entries. fold p. by rewrite (proj2 (Z.eqb_neq p 0) Ep).
    + intros i Hii. by apply (filled_in _ _ _ _ _ _ _ Hf).
    + intros i. apply (holds_bytes disk d2 (rd_disk _ _ _ R2)).
    + by apply (heap_inv_wf h2 _ (rd_heap _ _ _ R2)).
Qed.

Lemma walk_blocks_ok {S} (act : mem -> Z -> S -> S * bool) (f : dentry -> S -> S * bool) num owned l n :
  acts_as act f -> dir_ok num ->
  forall blk ib h d s,
  walking num owned l ib h d -> 0 <= blk -> blk + Z.of_nat n = file_blocks g disk (pos num) -> (blk <= 12 \/ ib <> 0) ->
  exists ib' h' d', walk_blocks env n act blk ib h d s
    = Some ((run_until f (listing num blk (Z.max blk (pointed (fits bs l) num) - blk)) s).1, ib', h', d') /\
    walking num owned l ib' h' d' /\ same_outside dir_area (heap_mem h) (heap_mem h').
Proof.
  intros Hact Hok. pose proof fs_facts as F. induction n as [|n IH]; intros blk ib h d s W Hblk Hn Hib; cbn [walk_blocks].
  - exists ib, h, d. replace (Z.max _ _ - blk) with 0 by (unfold pointed, loadable; case_match; lia). done.
  - destruct (dir_block_ok num owned l blk ib h d W Hok) as ([p|] & ib1 & h1 & d1 & E1 & W1 & Hs1 & Hb); [lia|done| |];
      rewrite (bind_some _ _ _ E1).
    2: { exists ib1, h1, d1. replace (Z.max _ _ - blk) with 0; [done|]. unfold pointed.
         destruct Hb as [Hb|[-> ->]]; [case_match|]; lia. }
    destruct Hb as (Hlt & -> & Hib1). set (p := file_ptr g disk (pos num) blk). set (k := Z.max blk _).
    assert (Hk : k = Z.max (blk + 1) (pointed (fits bs l) num) /\ blk + 1 <= k).
    { subst k. unfold pointed. destruct Hib1 as [Hib1|Hib1]; [case_match; lia|].
      destruct W1 as [_ _ _ Hfit]. rewrite (proj2 (Z.eqb_neq _ 0) Hib1) in Hfit. destruct Hfit as [-> _]. lia. }
    destruct Hk as [Ek Hk1]. clearbody k.
    assert (Hcons : run_until f (listing num blk (k - blk)) s =
      let '(s1, stop) := run_until f (block_entries num blk) s in
      if stop then (s1, true) else run_until f (listing num (blk + 1) (k - (blk + 1))) s1).
    { rewrite listing_cons, run_until_app by lia. by replace (k - blk - 1) with (k - (blk + 1)) by lia. }
    rewrite Hcons. clear Hcons. destruct (Z.eqb_spec p 0) as [Ep|Ep].
    { destruct (IH (blk + 1) ib1 h1 d1 s W1) as (ib2 & h2 & d2 & E2 & W2 & Hs2); [lia|lia|lia|].
      exists ib2, h2, d2. rewrite E2, Ek. unfold block_entries. fold p. rewrite Ep. cbn [Z.eqb run_until].
      split; [done|]. split; [done|]. by transitivity (heap_mem h1). }
    destruct (scan_step num owned l blk ib1 h1 d1 W1 Hok) as (h2 & d2 & E2 & W2 & Hs2 & Hscan); [lia|done|].
    rewrite (bind_some _ _ _ E2). rewrite (bind_some _ _ _ (Hscan S act f s Hact)).
    destruct (run_until f (block_entries num blk) s) as [s1 [|]] eqn:Er.
    + exists ib1, h2, d2. split; [done|]. split; [done|]. by transitivity (heap_mem h1).
    + destruct (IH (blk + 1) ib1 h2 d2 s1 W2) as (ib3 & h3 & d3 & E3 & W3 & Hs3); [lia|lia|lia|].
      exists ib3, h3, d3. rewrite E3, Ek.
      split; [done|]. split; [done|]. transitivity (heap_mem h1); [done|by transitivity (heap_mem h2)].
Qed.

(** Behind the loop: the indirect block is given back. *)
Lemma walk_end num owned l ib h d :
  walking num owned l ib h d ->
  let h' := if ib =? 0 then h else kfree ib h in
  ready h' d owned /\ same_outside dir_area (heap_mem h) (heap_mem h') /\ heap_blocks h' l.
Proof.
  intros [R Hi _ Hl]. unfold with_indirect in R. destruct (Z.eqb_spec ib 0) as [->|Hne]; [done|].
  destruct R as [I1 I2 I3 I4], Hl as (_ & l' & Hl' & Hback). destruct (kfree_ok h ib bs owned I1) as [If Hsf].
  assert (Hsa : same_outside dir_area (heap_mem h) (heap_mem (kfree ib h))).
  { eapply same_outside_mono; [|exact Hsf]. unfold dir_area. tauto. }
  split; [|split; [done|by apply Hback]]. split; [done|done| |].
  - rewrite <- I3. apply ld32_same. intros i Hii. apply Hsa, (dl_sb L). by left.
  - rewrite <- I4. apply ld32_same. intros i Hii. apply Hsa, (dl_sb L). right. lia.
Qed.

(** The functions on a whole directory: [f] on the entries of the blocks that
    are read. *)
Lemma walk_dir_ok {S} (act : mem -> Z -> S -> S * bool) (f : dentry -> S -> S * bool) num owned h d s :
  acts_as act f -> dir_ok num -> ready h d owned -> has_inode num h ->
  exists h' d', walk_dir env act s h d = Some ((run_until f (listing num 0 (reach (has_room bs h) num)) s).1, h', d') /\
    ready h' d' owned /\ same_outside dir_area (heap_mem h) (heap_mem h') /\ same_blocks h h'.
Proof.
  intros Hact Hok R Hi. pose proof fs_facts as F. unfold walk_dir. rewrite (proj2 (Z.eqb_neq bs 0)) by lia.
  destruct (inode_fields g disk (dl_fs L) (inode env) (pos num) (heap_mem h) Hi) as (-> & _ & _).
  assert (Hsz : is_u32 (file_size g disk (pos num))).
  { apply le32_u32. intros y. apply (holds_bytes disk d (rd_disk _ _ _ R)). }
  rewrite (total_blocks g disk (dl_fs L) (pos num) Hsz). unfold is_u32 in Hsz.
  assert (Hb : 0 <= file_blocks g disk (pos num)) by (apply Z.div_pos; lia).
  unfold reach. destruct (size_wraps g disk (pos num)) eqn:Ew.
  { exists h, d. split; [done|]. split; [done|]. split; [done|]. by intros l. }
  assert (Hreach : forall room : bool, 0 <= pointed room num).
  { intros room. pose proof (max_blocks_range g disk (dl_fs L) (pos num)). unfold pointed, loadable. case_match; lia. }
  assert (Hany : forall l, heap_blocks h l -> exists h' d',
    ('(s, indirect_buf, h, d) ← walk_blocks env (Z.to_nat (file_blocks g disk (pos num))) act 0 0 h d s;
     Some (s, if indirect_buf =? 0 then h else kfree indirect_buf h, d))
    = Some ((run_until f (listing num 0 (pointed (has_room bs h) num)) s).1, h', d') /\
    ready h' d' owned /\ same_outside dir_area (heap_mem h) (heap_mem h') /\ heap_blocks h' l).
  { intros l Hl. assert (W : walking num owned l 0 h d) by by split.
    destruct (walk_blocks_ok act f num owned l (Z.to_nat (file_blocks g disk (pos num))) Hact Hok 0 0 h d s W)
      as (ib & h1 & d1 & E & W1 & Hs1); [lia|lia|lia|].
    rewrite (bind_some _ _ _ E), (has_room_blocks h owned l bs (rd_heap _ _ _ R) Hl), Z.sub_0_r, Z.max_r
      by (done || (unfold max_request; lia)).
    destruct (walk_end num owned l ib h1 d1 W1) as (R2 & Hs2 & Hl2).
    eexists _, d1. split; [done|]. split; [done|]. split; [by transitivity (heap_mem h1)|done]. }
  destruct (heap_blocks_exist h owned (rd_heap _ _ _ R)) as [l0 Hl0].
  destruct (Hany l0 Hl0) as (h' & d' & E & R' & Hs & _). exists h', d'. split; [done|]. split; [done|]. split; [done|].
  intros l Hl. destruct (Hany l Hl) as (h2 & d2 & E2 & _ & _ & Hl2). rewrite E in E2. by simplify_eq.
Qed.

(** *** Looking up a name *)

Definition is_dir (num : Z) : bool := Z.land (le16 (part g disk) (pos num)) 0xF000 =? 0x4000.

Lemma is_directory_ok num h : has_inode num h -> is_directory env h = is_dir num.
Proof.
  intros Hi. pose proof fs_facts as F. unfold is_directory, is_dir, i_mode, ld16, le16.
  rewrite <- (Z.add_0_r (inode env)) at 1. by rewrite !Hi, Z.add_0_r by lia.
Qed.

(** The inode of the first entry with that name; 0 when there is none. *)
Definition first_named (name : list Z) (l : list dentry) : Z :=
  default 0 (d_inode <$> List.find (fun x => bool_decide (d_name x = name)) l).

(** A directory whose names are names: without NUL characters. *)
Definition names_ok (num : Z) : Prop :=
  forall b x, 0 <= b < loadable g disk (pos num) -> In x (block_entries num b) -> Forall (fun c => c <> 0) (d_name x).

(** An inode that can be looked into: a well-formed directory, or no directory
    at all. *)
Definition node_ok (num : Z) : Prop := valid_inode num /\ (is_dir num = true -> dir_ok num /\ names_ok num).

Lemma listing_names num k x :
  names_ok num -> k <= Z.max 0 (loadable g disk (pos num)) -> In x (listing num 0 k) -> Forall (fun c => c <> 0) (d_name x).
Proof.
  intros Hn Hk Hx. apply in_concat in Hx as (l & Hl & Hx). apply in_map_iff in Hl as (b & <- & Hb).
  apply list_elem_of_In, elem_of_seqZ in Hb. apply (Hn b); [lia|done].
Qed.

Lemma run_until_find (p : dentry -> bool) l (s : Z) :
  (run_until (fun x r => if p x then (d_inode x, true) else (r, false)) l s).1 = default s (d_inode <$> List.find p l).
Proof. revert s. induction l as [|x l IH]; intros s; cbn [run_until List.find]; [done|]. destruct (p x); [done|apply IH]. Qed.

(** What a lookup finds: the first entry with the name in the blocks that are
    read, 0 without one and in anything that is no directory. *)
Definition child (room : bool) (num : Z) (name : list Z) : Z :=
  if is_dir num then first_named name (listing num 0 (reach room num)) else 0.

Context `{HK : KString} `{!KStringLaws}.

Lemma c_string_id l : Forall (fun c => c <> 0) l -> Vga.c_string l = l.
Proof. induction 1 as [|c l Hc Hl IH]; cbn [Vga.c_string]; [done|]. by rewrite (proj2 (Z.eqb_neq c 0) Hc), IH. Qed.

Lemma c_string_nul l : Forall (fun c => c <> 0) l -> Vga.c_string (l ++ [0]) = l.
Proof. induction 1 as [|c l Hc Hl IH]; cbn [app Vga.c_string]; [done|]. by rewrite (proj2 (Z.eqb_neq c 0) Hc), IH. Qed.

(** Both comparisons decide equality of names. *)
Lemma strcmp_names l name :
  Forall (fun c => c <> 0) l -> Forall (fun c => c <> 0) name ->
  (strcmp (l ++ [0]) name =? 0) = bool_decide (l = name).
Proof.
  intros Hl Hn. pose proof (strcmp_eq (l ++ [0]) name) as E. rewrite c_string_nul, c_string_id in E by done.
  case_bool_decide as Hd; [by apply Z.eqb_eq, E|]. apply Z.eqb_neq. by rewrite E.
Qed.

Lemma strncmp_names l name :
  Forall (fun c => c <> 0) l -> Forall (fun c => c <> 0) name ->
  (strncmp l name (Z.of_nat (length l)) =? 0) && (Z.of_nat (length l) =? strlen name) = bool_decide (l = name).
Proof.
  intros Hl Hn. rewrite strlen_eq. pose proof (strncmp_eq l name (Z.of_nat (length l)) ltac:(lia)) as E.
  rewrite !c_string_id, Nat2Z.id in * by done. rewrite take_app_length in E.
  case_bool_decide as Hd.
  - subst l. rewrite (proj2 (Z.eqb_eq _ 0)); [by rewrite Z.eqb_refl|]. apply E. by rewrite take_app_length.
  - apply andb_false_iff. destruct (decide (length l = length name)) as [El|El].
    + left. apply Z.eqb_neq. rewrite E. rewrite El, take_app_length. done.
    + right. apply Z.eqb_neq. lia.
Qed.

Lemma find_named (p : dentry -> bool) name l :
  (forall x, In x l -> p x = bool_decide (d_name x = name)) ->
  (run_until (fun x r => if p x then (d_inode x, true) else (r, false)) l 0).1 = first_named name l.
Proof. intros Hp. rewrite run_until_find. unfold first_named. by rewrite (find_ext_in _ (fun x => bool_decide (d_name x = name))). Qed.

Lemma reach_le room num : reach room num <= Z.max 0 (loadable g disk (pos num)).
Proof.
  unfold reach, pointed. repeat case_match; lia.
Qed.

(** The whole directory, and when it is read to its end. *)
Definition directory (num : Z) : list dentry := listing num 0 (file_blocks g disk (pos num)).

Definition readable (room : bool) (num : Z) : Prop :=
  file_blocks g disk (pos num) <= (if room then max_blocks g disk (pos num) else 12).

Lemma readable_reach room num : readable room num -> listing num 0 (reach room num) = directory num.
Proof.
  pose proof (max_blocks_range g disk (dl_fs L) (pos num)) as Hmax. intros Hr. unfold directory. f_equal.
  pose proof fs_facts as F. unfold readable, reach, pointed, loadable in *.
  assert (Hw : size_wraps g disk (pos num) = false).
  { unfold size_wraps. apply Z.ltb_ge. assert (Hf : file_blocks g disk (pos num) <= 12 + bs / 4) by (destruct room; lia).
    assert (bs / 4 <= 1024) by (apply Z.div_le_upper_bound; lia).
    assert (Hd : file_size g disk (pos num) + bs - 1 < 1037 * bs); [|nia].
    apply Z.lt_le_trans with ((file_blocks g disk (pos num) + 1) * bs); [|nia]. unfold file_blocks.
    pose proof (Z.mul_succ_div_gt (file_size g disk (pos num) + bs - 1) bs). lia. }
  rewrite Hw. destruct room; lia.
Qed.

Lemma same_blocks_room h h' owned owned' :
  heap_inv h owned -> heap_inv h' owned' -> same_blocks h h' -> has_room bs h' = has_room bs h.
Proof.
  intros Hi Hi' Hb. pose proof fs_facts as F. destruct (heap_blocks_exist h owned Hi) as [l Hl].
  rewrite (has_room_blocks h owned l bs), (has_room_blocks h' owned' l bs) by (auto || (unfold max_request; lia)). done.
Qed.

(** A lookup with any comparison that decides equality of names. *)
Lemma lookup_ok (act : mem -> Z -> Z -> Z * bool) (p : dentry -> bool) num name h d owned :
  acts_as act (fun x r => if p x then (d_inode x, true) else (r, false)) ->
  (forall x, Forall (fun c => c <> 0) (d_name x) -> p x = bool_decide (d_name x = name)) ->
  node_ok num -> ready h d owned ->
  exists h' d',
    ('(h, d) ← get_inode env num h d; if negb (is_directory env h) then Some (0, h, d) else walk_dir env act 0 h d)
    = Some (child (has_room bs h) num name, h', d') /\ ready h' d' owned /\
    same_outside dir_area (heap_mem h) (heap_mem h') /\ same_blocks h h'.
Proof.
  intros Hact Hp [Hv Hok] R. destruct (get_inode_ok num h d owned R Hv) as (h1 & d1 & E1 & R1 & Hi1 & Hs1 & Hb1).
  rewrite (bind_some _ _ _ E1). rewrite (is_directory_ok num h1 Hi1). unfold child.
  rewrite <- (same_blocks_room h h1 owned owned) by (done || apply R || apply R1).
  destruct (is_dir num); cbn [negb].
  - destruct (Hok eq_refl) as [Hdir Hnames].
    destruct (walk_dir_ok act (fun x r => if p x then (d_inode x, true) else (r, false)) num owned h1 d1 0)
      as (h' & d' & E2 & R2 & Hs2 & Hb2); try done.
    exists h', d'. split; [|split; [done|split; [by transitivity (heap_mem h1)|intros l Hl; by apply Hb2, Hb1]]].
    rewrite E2. do 3 f_equal. apply find_named. intros x Hx. apply Hp. apply (listing_names num _ x Hnames (reach_le _ num) Hx).
  - by exists h1, d1.
Qed.

Lemma lookup_acts name : acts_as (lookup_act name)
  (fun x r => if strcmp (d_name x ++ [0]) name =? 0 then (d_inode x, true) else (r, false)).
Proof. done. Qed.

Lemma ext2_lookup_ok num name h d owned :
  Forall (fun c => c <> 0) name -> node_ok num -> ready h d owned ->
  exists h' d', ext2_lookup env num name h d = Some (child (has_room bs h) num name, h', d') /\ ready h' d' owned /\
    same_outside dir_area (heap_mem h) (heap_mem h') /\ same_blocks h h'.
Proof.
  intros Hn. apply (lookup_ok (lookup_act name) (fun x => strcmp (d_name x ++ [0]) name =? 0)); [apply lookup_acts|].
  intros x Hx. by apply strcmp_names.
Qed.

Lemma length_de_name m e : mem_wf m -> Z.of_nat (length (de_name m e)) = de_name_len m e.
Proof.
  intros Hm. unfold de_name. rewrite length_map, length_seqZ. pose proof (Hm (e + 6)) as Hb.
  unfold de_name_len, is_u8 in *. lia.
Qed.

Abbreviation same_name name := (fun x => (strncmp (d_name x) name (Z.of_nat (length (d_name x))) =? 0)
                                      && (Z.of_nat (length (d_name x)) =? strlen name)).

Lemma find_acts name : acts_as (find_act name) (fun x r => if same_name name x then (d_inode x, true) else (r, false)).
Proof. intros m e r Hm. unfold find_act, entry_at. cbn [d_name d_inode]. by rewrite length_de_name. Qed.

Lemma find_inode_in_dir_ok num name h d owned :
  Forall (fun c => c <> 0) name -> node_ok num -> ready h d owned ->
  exists h' d', find_inode_in_dir env num name h d = Some (child (has_room bs h) num name, h', d') /\ ready h' d' owned /\
    same_outside dir_area (heap_mem h) (heap_mem h') /\ same_blocks h h'.
Proof.
  intros Hn. apply (lookup_ok (find_act name) (same_name name)); [apply find_acts|].
  intros x Hx. by apply strncmp_names.
Qed.

(** *** Paths *)

Fixpoint walk_tree (room : bool) (num : Z) (comps : list (list Z)) : Z :=
  match comps with
  | [] => num
  | c :: comps' => let next := child room num c in if next =? 0 then 0 else walk_tree room next comps'
  end.

(** The nodes on the way can be looked into. *)
Fixpoint way_ok (room : bool) (num : Z) (comps : list (list Z)) : Prop :=
  match comps with
  | [] => True
  | c :: comps' => node_ok num /\ (child room num c <> 0 -> way_ok room (child room num c) comps')
  end.

(** The parts of a text between slashes, at least one. *)
Fixpoint segments (path : list Z) : list (list Z) :=
  match path with
  | [] => [[]]
  | c :: path' =>
      if c =? 47 then [] :: segments path'
      else match segments path' with seg :: segs => (c :: seg) :: segs | [] => [[c]] end
  end.

(** A text cut every 31 characters. *)
Definition chunks (seg : list Z) : list (list Z) :=
  List.map (fun k => take 31 (drop (31 * k) seg)) (seq 0 (Nat.max 1 ((length seg + 30) / 31))).

(** The names that a path is looked up by: a slash in front and one at the
    end do not count, and a name of more than 31 characters is cut. *)
Definition drop_empty_last (segs : list (list Z)) : list (list Z) :=
  if decide (list.last segs = Some []) then removelast segs else segs.
Definition names_of (text : list Z) : list (list Z) := concat (List.map chunks (drop_empty_last (segments text))).
Definition pieces (path : list Z) : list (list Z) :=
  names_of (match path with 47 :: path' => path' | _ => path end).

(** A component that the code takes as one, and the text of a path. *)
Definition component (c : list Z) : Prop :=
  c <> [] /\ (length c <= 31)%nat /\ Forall (fun x => x <> 0 /\ x <> 47) c.

Fixpoint join (comps : list (list Z)) : list Z :=
  match comps with
  | [] => []
  | [c] => c
  | c :: comps' => c ++ 47 :: join comps'
  end.

Lemma split_component_spec n c rest :
  (length c <= n)%nat -> Forall (fun x => x <> 0 /\ x <> 47) c -> (rest = [] \/ exists r, rest = 47 :: r) ->
  split_component n (c ++ rest) = (c, rest).
Proof.
  intros Hn Hc Hr. revert n Hn. induction Hc as [|x c [_ Hx] Hc IH]; intros n Hn; cbn [app length] in *.
  - destruct Hr as [->|[r ->]]; by destruct n.
  - destruct n as [|n]; [lia|]. cbn [split_component]. rewrite (proj2 (Z.eqb_neq x 47) Hx), IH by lia. done.
Qed.

(** A component that is too long, up to the lookup of its first [n] characters. *)
Lemma split_component_long n c rest :
  (n <= length c)%nat -> Forall (fun x => x <> 47) c -> split_component n (c ++ rest) = (take n c, drop n c ++ rest).
Proof.
  revert c. induction n as [|n IH]; intros c Hn Hc; [done|]. destruct c as [|x c]; cbn [length] in *; [lia|].
  inversion Hc as [|? ? Hx Hc']; subst. cbn [app split_component take drop].
  rewrite (proj2 (Z.eqb_neq x 47) Hx), IH by (done || lia). done.
Qed.

(** A text is its first segment and what follows it. *)
Lemma first_segment text :
  exists seg rest, text = seg ++ rest /\ Forall (fun x => x <> 47) seg /\ (rest = [] \/ exists r, rest = 47 :: r).
Proof.
  induction text as [|c text (seg & rest & -> & Hs & Hr)].
  - exists [], []. split; [done|]. split; [done|by left].
  - destruct (decide (c = 47)) as [->|Hc].
    + exists [], (47 :: seg ++ rest). split; [done|]. split; [done|right; by eexists].
    + exists (c :: seg), rest. split; [done|]. split; [by constructor|done].
Qed.

Lemma segments_cons seg rest :
  Forall (fun x => x <> 47) seg ->
  segments (seg ++ 47 :: rest) = seg :: segments rest /\ segments seg = [seg].
Proof.
  induction 1 as [|c seg Hc Hs [IH1 IH2]]; [done|]. cbn [app segments]. rewrite (proj2 (Z.eqb_neq c 47) Hc).
  by rewrite IH1, IH2.
Qed.

Lemma segments_nonempty text : segments text <> [].
Proof.
  destruct (first_segment text) as (seg & rest & -> & Hs & [-> | [r ->]]).
  - by rewrite app_nil_r, (proj2 (segments_cons seg [] Hs)).
  - by rewrite (proj1 (segments_cons seg r Hs)).
Qed.

Lemma names_of_segment seg rest :
  Forall (fun x => x <> 47) seg -> (rest = [] \/ exists r, rest = 47 :: r) -> seg ++ rest <> [] ->
  names_of (seg ++ rest) = chunks seg ++ names_of (skip_slash rest).
Proof.
  intros Hs Hr Hne. unfold names_of, drop_empty_last. destruct Hr as [-> | [r ->]].
  - rewrite app_nil_r in *. destruct (segments_cons seg [] Hs) as [_ ->]. cbn [skip_slash segments].
    rewrite decide_False by (cbn; congruence). rewrite decide_True by done. cbn [List.map concat removelast]. done.
  - destruct (segments_cons seg r Hs) as [-> _]. cbn [skip_slash Z.eqb Pos.eqb]. pose proof (segments_nonempty r) as Hn.
    destruct (segments r) as [|x segs]; [done|]. change (list.last (seg :: x :: segs)) with (list.last (x :: segs)).
    case_decide; reflexivity.
Qed.

Lemma chunks_short seg : (length seg <= 31)%nat -> chunks seg = [seg].
Proof.
  intros Hl. unfold chunks. assert ((length seg + 30) / 31 <= 1)%nat by (apply Nat.lt_succ_r, Nat.Div0.div_lt_upper_bound; lia).
  replace (Nat.max 1 _) with 1%nat by lia. cbn [seq List.map]. by rewrite Nat.mul_0_r, drop_0, take_ge.
Qed.

Lemma chunks_long seg : (31 < length seg)%nat -> chunks seg = take 31 seg :: chunks (drop 31 seg).
Proof.
  intros Hl. unfold chunks. rewrite length_drop.
  replace (length seg + 30)%nat with (length seg - 31 + 30 + 1 * 31)%nat at 1 by lia. rewrite Nat.div_add by done.
  assert (1 <= (length seg - 31 + 30) / 31)%nat by (apply Nat.div_le_lower_bound; lia).
  rewrite Nat.add_1_r, !Nat.max_r by lia. cbn [seq List.map]. rewrite Nat.mul_0_r, drop_0. f_equal.
  rewrite <- seq_shift, map_map. apply map_ext. intros k. rewrite drop_drop. do 2 f_equal. lia.
Qed.

(** One round of the loop takes one name. *)
Lemma names_of_step text :
  text <> [] -> Forall (fun x => x <> 0) text ->
  let '(name, rest) := split_component 31 text in
  names_of text = name :: names_of (skip_slash rest) /\ Forall (fun x => x <> 0) name /\
  Forall (fun x => x <> 0) (skip_slash rest) /\ (length (skip_slash rest) < length text)%nat.
Proof.
  intros Hne Hnz. destruct (first_segment text) as (seg & rest & -> & Hs & Hr). rewrite names_of_segment by done.
  apply Forall_app in Hnz as [Hs0 Hr0]. rewrite !length_app.
  assert (Hsk : Forall (fun x => x <> 0) (skip_slash rest) /\ (length (skip_slash rest) <= length rest)%nat /\
                (seg = [] -> length (skip_slash rest) < length rest)%nat).
  { destruct Hr as [-> | [r ->]]; [split; [done|]; split; [done|]; by intros ->|]. inversion Hr0. cbn. split; [done|lia]. }
  destruct Hsk as (Hsk0 & Hsk1 & Hsk2). destruct (decide (length seg <= 31)%nat) as [Hl|Hl].
  - rewrite split_component_spec; [|lia| |done].
    2: { rewrite list.Forall_forall in *. intros x Hx. split; [by apply Hs0|by apply Hs]. }
    rewrite chunks_short by done. split; [done|]. split; [done|]. split; [done|]. destruct seg; [by apply Hsk2|cbn [length]; lia].
  - rewrite split_component_long by (done || lia). rewrite chunks_long by lia.
    assert (E : skip_slash (drop 31 seg ++ rest) = drop 31 seg ++ rest).
    { pose proof (Forall_drop _ 31 _ Hs) as Hd. destruct (drop 31 seg) as [|x l] eqn:Ed.
      - apply (f_equal length) in Ed. rewrite length_drop in Ed. cbn in Ed. lia.
      - inversion Hd as [|? ? Hx _]. cbn [app skip_slash]. by rewrite (proj2 (Z.eqb_neq x 47) Hx). }
    rewrite E, names_of_segment; [|by apply Forall_drop|done|].
    + split; [done|]. split; [by apply Forall_take|]. split; [apply Forall_app; by split; [apply Forall_drop|]|].
      rewrite length_app, length_drop. lia.
    + intros Hx. apply (f_equal length) in Hx. rewrite length_app, length_drop in Hx. cbn in Hx. lia.
Qed.

Lemma names_of_nil : names_of [] = [].
Proof. done. Qed.

Lemma resolve_loop_ok room fuel text num h d owned :
  Forall (fun x => x <> 0) text -> way_ok room num (names_of text) -> ready h d owned -> has_room bs h = room ->
  (length text <= fuel)%nat ->
  exists h' d', resolve_loop env fuel text num h d = Some (walk_tree room num (names_of text), h', d') /\ ready h' d' owned /\
    same_outside dir_area (heap_mem h) (heap_mem h') /\ same_blocks h h'.
Proof.
  revert text num h d. induction fuel as [|fuel IH]; intros text num h d Hnz Hw R Hroom Hf;
    (destruct text as [|x text]; [exists h, d; do 3 (split; [done|]); by intros l|]); [cbn [length] in Hf; lia|].
  cbn [resolve_loop].
  pose proof (names_of_step (x :: text) ltac:(done) Hnz) as Hstep.
  destruct (split_component 31 (x :: text)) as [name rest]. destruct Hstep as (En & Hn0 & Hr0 & Hlen). rewrite En in Hw |- *.
  cbn [way_ok walk_tree] in *. destruct Hw as [Hok Hnext].
  destruct (find_inode_in_dir_ok num name h d owned Hn0 Hok R) as (h1 & d1 & E1 & R1 & Hs1 & Hb1).
  rewrite (bind_some _ _ _ E1), Hroom. destruct (Z.eqb_spec (child room num name) 0) as [E0|E0]; [by exists h1, d1|].
  destruct (IH (skip_slash rest) (child room num name) h1 d1 Hr0 (Hnext E0) R1) as (h2 & d2 & E2 & R2 & Hs2 & Hb2).
  { rewrite <- Hroom. apply (same_blocks_room h h1 owned owned); [apply R|apply R1|done]. }
  { cbn [length] in *. lia. }
  exists h2, d2. split; [done|]. split; [done|]. split; [by transitivity (heap_mem h1)|]. intros l Hl. by apply Hb2, Hb1.
Qed.

(** Components one after the other, with or without a slash in front. *)
Lemma join_nonempty c comps : component c -> exists x l, join (c :: comps) = x :: l /\ x <> 47 /\ x <> 0.
Proof.
  intros (Hne & _ & Hc). destruct c as [|x c]; [done|]. inversion Hc as [|? ? [Hx0 Hx47] _].
  destruct comps; cbn [join app]; by eexists x, _.
Qed.

Lemma join_chars comps : Forall component comps -> Forall (fun x => x <> 0) (join comps).
Proof.
  induction 1 as [|c comps (_ & _ & Hc) Hcs IH]; [constructor|].
  assert (Hc0 : Forall (fun x => x <> 0) c) by (eapply list.Forall_impl; [exact Hc|]; intros x [? _]; done).
  destruct comps as [|c2 comps]; cbn [join]; [done|]. apply Forall_app. split; [done|]. constructor; [done|apply IH].
Qed.

Lemma names_of_join comps : Forall component comps -> names_of (join comps) = comps.
Proof.
  induction 1 as [|c comps (Hne & Hlen & Hc) Hcs IH]; [done|].
  assert (Hc47 : Forall (fun x => x <> 47) c) by (eapply list.Forall_impl; [exact Hc|]; intros x [_ ?]; done).
  destruct comps as [|c2 comps].
  - cbn [join]. rewrite <- (app_nil_r c) at 1. rewrite names_of_segment, chunks_short by (rewrite ?app_nil_r; auto). done.
  - change (join (c :: c2 :: comps)) with (c ++ 47 :: join (c2 :: comps)).
    rewrite names_of_segment, chunks_short by (done || (right; by eexists) || by destruct c).
    cbn [skip_slash Z.eqb Pos.eqb]. by rewrite IH.
Qed.

Lemma pieces_join comps : Forall component comps -> pieces (47 :: join comps) = comps /\ pieces (join comps) = comps.
Proof.
  intros Hc. unfold pieces. split; [by apply names_of_join|]. destruct comps as [|c comps]; [done|].
  destruct (join_nonempty c comps) as (x & l & Ej & Hx & _); [by inversion Hc|]. rewrite <- (names_of_join _ Hc) at 2.
  rewrite Ej. f_equal. repeat (done || case_match).
Qed.

Lemma no_empty_name num k : first_named [] (listing num 0 k) = 0.
Proof.
  assert (Hne : forall x, In x (listing num 0 k) -> d_name x <> []).
  { intros x Hx. apply in_concat in Hx as (l & Hl & Hx). apply in_map_iff in Hl as (b & <- & _).
    unfold block_entries in Hx. case_match; [done|]. revert Hx. generalize (block_src (file_ptr g disk (pos num) b)). intros src.
    generalize 0 as off. induction (Z.to_nat bs) as [|fuel IH]; intros off; cbn [entries]; [done|].
    case_match; [|done]. case_match eqn:Eu; [|apply IH]. intros [<-|Hin]; [|by eapply IH].
    apply andb_true_iff in Eu as [_ Hl%Z.ltb_lt]. cbn [d_name]. rewrite seqZ_cons by lia. done. }
  unfold first_named. destruct (List.find _ _) as [x|] eqn:E; [|done]. apply find_some in E as [Hin Hd].
  apply bool_decide_eq_true in Hd. by destruct (Hne x Hin).
Qed.

End Walk.

(** ** Properties *)

Section Properties.
Context {H : Type} `{HA : Allocator H} `{!AllocatorLaws H} {D : Type} `{HB : BlockDevice D} `{!BlockDeviceLaws D}
  `{HK : KString} `{!KStringLaws}.
Variable env : dir_env.
Variable disk : Z -> Z.
Variables inodes table : Z.
Abbreviation g := (fs env).
Abbreviation bs := (g_block_size g).
Abbreviation pos := (inode_pos g table).
Hypothesis L : dir_layout env.

Lemma ready_sub i b h d owned :
  ready env disk inodes table h d owned <-> ready (sub_env env i b) disk inodes table h d owned.
Proof. split; intros [R1 R2 R3 R4]; by split. Qed.

Lemma node_sub i b num : node_ok env disk inodes table num -> node_ok (sub_env env i b) disk inodes table num.
Proof. intros [Hv Hd]. split; [done|]. intros E. destruct (Hd E) as [[D1 D2 D3] Hn]. by split. Qed.

Lemma resolve_path_end h d owned :
  ready env disk inodes table h d owned ->
  exists h' d', Some (2, h, d) = Some (walk_tree env disk table (has_room bs h) 2 (pieces [47]), h', d') /\
    ready env disk inodes table h' d' owned /\ same_outside (dir_area env) (heap_mem h) (heap_mem h') /\ same_blocks h h'.
Proof. exists h, d. do 3 (split; [done|]). by intros l. Qed.

Lemma walk_tree_empty room num comps : In [] comps -> walk_tree env disk table room num comps = 0.
Proof.
  revert num. induction comps as [|c comps IH]; intros num; [done|]. cbn [walk_tree]. intros [->|Hin].
  - assert (E : child env disk table room num [] = 0) by (unfold child; rewrite no_empty_name; by case_match). by rewrite E.
  - case_match; [done|by apply IH].
Qed.

(** C9: a lookup finds the first entry with the name.  For a directory whose
    blocks are well formed (or anything that is no directory) [ext2_lookup]
    returns, gives back the heap block of the indirect block, writes only its
    buffers and the heap, and its result is the inode of the first entry with
    that name in the blocks that are read, or 0.  All blocks with a pointer are
    read, the twelve direct ones only when the heap has no room for the
    indirect block; so for a directory of at most 12 blocks, or of at most
    12 + bs / 4 blocks when there is room, this is the first entry of the whole
    directory. *)
Theorem lookup_finds_first (num : Z) (name : list Z) (h : H) (d : D) (owned : list (Z * Z)) :
  Forall (fun c => c <> 0) name -> node_ok env disk inodes table num -> ready env disk inodes table h d owned ->
  exists r h' d', ext2_lookup env num name h d = Some (r, h', d') /\ ready env disk inodes table h' d' owned /\
    same_outside (dir_area env) (heap_mem h) (heap_mem h') /\
    r = (if is_dir env disk table num then
           first_named name (listing env disk table num 0
             (reach env disk table (has_room bs h) num))
         else 0) /\
    (is_dir env disk table num = true ->
     file_blocks g disk (pos num) <= (if has_room bs h then max_blocks g disk (pos num) else 12) ->
     r = first_named name (directory env disk table num)).
Proof.
  intros Hn Hnode R. destruct (ext2_lookup_ok env disk inodes table L num name h d owned Hn Hnode R) as (h' & d' & E & R' & Hs & _).
  eexists _, h', d'. split; [exact E|]. split; [done|]. split; [done|]. split; [done|]. intros Hd Hr. unfold child.
  by rewrite Hd, (readable_reach env disk table L).
Qed.

(** C28: the two copies of the lookup are equivalent: [ext2_lookup] of
    ext2_lookup.c, which copies the name and uses strcmp, and
    [find_inode_in_dir] of path.c, which compares in place with strncmp and
    strlen, each with its own inode and its own static block buffer, give the
    same result on the same heap and disk.  Both leave the blocks of the heap
    as they were, and memory differs only in the buffers of the two and inside
    the heap. *)
Theorem lookups_equivalent (inode_at buf num : Z) (name : list Z) (h : H) (d : D) (owned : list (Z * Z)) :
  dir_layout (sub_env env inode_at buf) ->
  Forall (fun c => c <> 0) name -> node_ok env disk inodes table num -> ready env disk inodes table h d owned ->
  exists r h1 d1 h2 d2,
    ext2_lookup env num name h d = Some (r, h1, d1) /\
    find_inode_in_dir (sub_env env inode_at buf) num name h d = Some (r, h2, d2) /\
    ready env disk inodes table h1 d1 owned /\ ready env disk inodes table h2 d2 owned /\
    (forall l, heap_blocks h l -> heap_blocks h1 l /\ heap_blocks h2 l) /\
    (forall a, ~ dir_area env a -> ~ dir_area (sub_env env inode_at buf) a -> ld8 (heap_mem h1) a = ld8 (heap_mem h2) a).
Proof.
  intros L2 Hn Hnode R.
  destruct (ext2_lookup_ok env disk inodes table L num name h d owned Hn Hnode R) as (h1 & d1 & E1 & R1 & Hs1 & Hb1).
  destruct (find_inode_in_dir_ok (sub_env env inode_at buf) disk inodes table L2 num name h d owned Hn)
    as (h2 & d2 & E2 & R2 & Hs2 & Hb2); [by apply node_sub|by apply ready_sub|].
  eexists _, h1, d1, h2, d2. split; [exact E1|]. split; [exact E2|]. split; [done|]. split; [by apply ready_sub in R2|].
  split; [by split; [apply Hb1|apply Hb2]|]. intros a Ha1 Ha2. by rewrite Hs1, Hs2.
Qed.

Lemma resolve_path_ok (path : list Z) (h : H) (d : D) (owned : list (Z * Z)) :
  Forall (fun c => c <> 0) path -> way_ok env disk inodes table (has_room bs h) 2 (pieces path) ->
  ready env disk inodes table h d owned ->
  exists h' d', resolve_path env path h d
    = Some (if decide (path = []) then 0 else walk_tree env disk table (has_room bs h) 2 (pieces path), h', d') /\
    ready env disk inodes table h' d' owned /\ same_outside (dir_area env) (heap_mem h) (heap_mem h') /\ same_blocks h h'.
Proof.
  intros Hnz Hw R. destruct path as [|x path]; [exists h, d; rewrite decide_True by done; do 3 (split; [done|]); by intros l|].
  rewrite decide_False by done. unfold resolve_path.
  assert (Hp : pieces (x :: path) = names_of (skip_slash (x :: path))).
  { unfold pieces. cbn [skip_slash]. destruct (Z.eqb_spec x 47) as [->|Hx]; [done|]. f_equal. repeat (done || case_match). }
  destruct (Z.eqb_spec (strcmp (x :: path) [47]) 0) as [E|E].
  - rewrite strcmp_eq, !c_string_id in E by (done || by repeat constructor). rewrite E in *. by apply (resolve_path_end h d).
  - rewrite Hp in *. apply (resolve_loop_ok env disk inodes table L); try done.
    unfold skip_slash. inversion Hnz; subst. by case_match.
Qed.

(** C18: [resolve_path] walks the tree, on every path.  The names of a path
    ([pieces]) are its parts between slashes, without a slash in front and
    without one at the end, and a part of more than 31 characters counts as
    several names.  [resolve_path] returns: 0 for the empty path, otherwise the
    inode that the lookups of these names, one after the other from the root
    on, lead to (a relative path does not start at the working directory), and
    0 when one of them fails; an empty name ("//") always does.  So the path of
    the components [comps], each of 1 to 31 characters, leads where the
    components lead, with or without a slash in front. *)
Theorem resolve_path_walks (path : list Z) (h : H) (d : D) (owned : list (Z * Z)) :
  Forall (fun c => c <> 0) path -> way_ok env disk inodes table (has_room bs h) 2 (pieces path) ->
  ready env disk inodes table h d owned ->
  (exists h' d', resolve_path env path h d
    = Some (if decide (path = []) then 0 else walk_tree env disk table (has_room bs h) 2 (pieces path), h', d') /\
    ready env disk inodes table h' d' owned /\ same_outside (dir_area env) (heap_mem h) (heap_mem h')) /\
  (In [] (pieces path) -> walk_tree env disk table (has_room bs h) 2 (pieces path) = 0) /\
  (forall comps, Forall component comps -> path = 47 :: join comps \/ path = join comps -> pieces path = comps).
Proof.
  intros Hnz Hw R. split; [|split].
  - destruct (resolve_path_ok path h d owned Hnz Hw R) as (h' & d' & E & R' & Hs & _). by exists h', d'.
  - apply walk_tree_empty.
  - intros comps Hc [-> | ->]; by apply pieces_join.
Qed.

(** Paths that [resolve_path] gets wrong.  An empty name ("//") is looked up and
    never found; and a name of more than 31 characters is cut: its first 31
    characters are looked up, so that an existing file is not found. *)
Theorem resolve_path_rejects (name rest : list Z) (h : H) (d : D) (owned : list (Z * Z)) :
  node_ok env disk inodes table 2 -> ready env disk inodes table h d owned ->
  (Forall (fun c => c <> 0) rest -> exists h' d', resolve_path env (47 :: 47 :: rest) h d = Some (0, h', d')) /\
  ((31 < length name)%nat -> Forall (fun c => c <> 0 /\ c <> 47) name ->
   child env disk table (has_room bs h) 2 (take 31 name) = 0 ->
   exists h' d', resolve_path env (47 :: name) h d = Some (0, h', d')).
Proof.
  intros Hok R.
  assert (Hfirst : forall path n ns, Forall (fun c => c <> 0) path -> pieces path = n :: ns ->
    child env disk table (has_room bs h) 2 n = 0 -> exists h' d', resolve_path env path h d = Some (0, h', d')).
  { intros path n ns Hnz Hp Hc. destruct (resolve_path_ok path h d owned Hnz) as (h' & d' & E & _); [|done|].
    - rewrite Hp. cbn [way_ok]. split; [done|]. by intros [].
    - exists h', d'. rewrite E, Hp. cbn [walk_tree]. rewrite Hc. by case_decide. }
  split.
  - intros Hnz. apply (Hfirst _ [] (names_of rest)); [by repeat constructor| |].
    + change (pieces (47 :: 47 :: rest)) with (names_of ([] ++ 47 :: rest)).
      rewrite names_of_segment, chunks_short by (done || apply Forall_nil_2 || (right; by eexists) || (cbn; lia)). done.
    + unfold child. rewrite no_empty_name. by case_match.
  - intros Hlen Hch Hchild. assert (Hn47 : Forall (fun c => c <> 47) name) by (eapply list.Forall_impl; [exact Hch|]; intros ? [_ ?]; done).
    apply (Hfirst _ (take 31 name) (chunks (drop 31 name))); [|change (pieces (47 :: name)) with (names_of name)|done].
    + constructor; [done|]. eapply list.Forall_impl; [exact Hch|]; intros ? [? _]; done.
    + rewrite <- (app_nil_r name) at 1. rewrite names_of_segment, chunks_long
        by (rewrite ?app_nil_r; done || by left || (intros ->; cbn in Hlen; lia)).
      cbn [skip_slash]. by rewrite names_of_nil, app_nil_r.
Qed.

(** The line of an entry. *)
Definition ls_line (x : dentry) : list Z :=
  (if d_type x =? 2 then chars "<DIR> " else chars "      ") ++ d_name x ++ [10].

Lemma ext2_ls_ok (num : Z) (v : Vga.vga) (h : H) (d : D) (owned : list (Z * Z)) :
  node_ok env disk inodes table num -> ready env disk inodes table h d owned ->
  exists v' h' d', ext2_ls env true num v h d = Some (v', h', d') /\ ready env disk inodes table h' d' owned /\
    v' = (if is_dir env disk table num then
            foldl (fun v x => Vga.vga_puts (ls_line x) v) v (listing env disk table num 0
              (reach env disk table (has_room bs h) num))
          else Vga.vga_puts (chars "Error: Inode is not a directory." ++ [10]) v).
Proof.
  intros [Hv Hok] R. unfold ext2_ls. cbn [negb].
  destruct (get_inode_ok env disk inodes table L num h d owned R Hv) as (h1 & d1 & E1 & R1 & Hi1 & _ & Hb1).
  rewrite (bind_some _ _ _ E1), (is_directory_ok env disk table L num h1 Hi1).
  destruct (is_dir env disk table num); cbn [negb]; [|by eexists _, h1, d1].
  destruct (Hok eq_refl) as [Hdir Hnames].
  destruct (walk_dir_ok env disk inodes table L ls_act
    (fun x v => (Vga.vga_puts [10] (Vga.vga_puts (d_name x ++ [0]) (Vga.vga_puts (if d_type x =? 2 then chars "<DIR> " else chars "      ") v)), false))
    num owned h1 d1 v) as (h' & d' & E2 & R2 & _ & _); try done.
  rewrite (same_blocks_room env L h h1 owned owned) in E2 by (done || apply R || apply R1).
  eexists _, h', d'. split; [exact E2|]. split; [done|]. clear E2.
  set (k := reach _ _ _ _ _).
  assert (Hl : forall x, In x (listing env disk table num 0 k) -> Forall (fun c => c <> 0) (d_name x)).
  { intros x. apply (listing_names env disk table num k x Hnames), (reach_le env disk table). }
  revert v Hl. induction (listing env disk table num 0 k) as [|x l IH]; intros v Hl; cbn [run_until foldl fst]; [done|].
  rewrite IH by (intros y Hy; apply Hl; by right). f_equal. unfold ls_line.
  assert (Hn : Vga.no_nul (d_name x) = true).
  { apply forallb_forall. intros c Hc. specialize (Hl x (or_introl eq_refl)). rewrite List.Forall_forall in Hl.
    apply negb_true_iff, Z.eqb_neq, (Hl c Hc). }
  rewrite !Vga.vga_puts_app by (done || by destruct (d_type x =? 2)). done.
Qed.

(** C29: [ext2_ls] shows the directory: one line for each entry in use of the
    blocks that are read, in the order of the disk, with "<DIR>" before
    directories; for anything else it shows an error.  All blocks with a
    pointer are read (only the twelve direct ones when the heap has no room for
    the indirect block), so that a directory of at most 12 blocks, or of at
    most 12 + bs / 4 blocks when there is room, is shown whole. *)
Theorem ls_shows_listing (num : Z) (v : Vga.vga) (h : H) (d : D) (owned : list (Z * Z)) :
  node_ok env disk inodes table num -> ready env disk inodes table h d owned ->
  exists v' h' d', ext2_ls env true num v h d = Some (v', h', d') /\ ready env disk inodes table h' d' owned /\
    v' = (if is_dir env disk table num then
            foldl (fun v x => Vga.vga_puts (ls_line x) v) v (listing env disk table num 0
              (reach env disk table (has_room bs h) num))
          else Vga.vga_puts (chars "Error: Inode is not a directory." ++ [10]) v) /\
    (is_dir env disk table num = true ->
     file_blocks g disk (pos num) <= (if has_room bs h then max_blocks g disk (pos num) else 12) ->
     v' = foldl (fun v x => Vga.vga_puts (ls_line x) v) v (directory env disk table num)).
Proof.
  intros Hnode R. destruct (ext2_ls_ok num v h d owned Hnode R) as (v' & h' & d' & E & R' & Ev).
  exists v', h', d'. do 3 (split; [done|]). intros Hd Hr. rewrite Ev, Hd.
  by rewrite (readable_reach env disk table L).
Qed.

End Properties.

(** ** Witnesses: a root directory with two entries *)

#[local] Instance c_strings : KString := {|
  strcmp := fun a b => if bool_decide (Vga.c_string a = Vga.c_string b) then 0 else 1;
  strncmp := fun a b n =>
    if bool_decide (take (Z.to_nat n) (Vga.c_string a ++ [0]) = take (Z.to_nat n) (Vga.c_string b ++ [0])) then 0 else 1;
  strlen := fun a => Z.of_nat (length (Vga.c_string a))
|}.

#[local] Instance c_strings_laws : KStringLaws.
Proof. split; intros; cbn; try case_bool_decide; done. Qed.

#[local] Instance dir_heap : Allocator Heap.heap := Heap.heap_allocator Heap.heap_at.
#[local] Instance dir_heap_laws : AllocatorLaws Heap.heap := Heap.heap_allocator_laws Heap.heap_at Heap.heap_at_layout.
#[local] Existing Instance ram_device.
#[local] Existing Instance ram_device_laws.

(** The image of Ext2.v with the block of the root directory: "." and "hi",
    which is inode 12. *)
Definition dir_image : mem :=
  let ino := 5 * 1024 + 128 in
  let m := st32 (st32 small_image (ino + 4) 1024) (ino + 40) 21 in
  poke (21 * 1024) ([2; 0; 0; 0; 12; 0; 1; 2; 46; 0; 0; 0] ++ [12; 0; 0; 0; 0xF4; 3; 2; 1; 104; 105]) m.

Definition dir_disk : Z -> Z := ld8 dir_image.
Definition root_env : dir_env := mkDirEnv small_fs 0x40000 0x20000 0x30000 0x50000 0x60000.
Definition root_heap : Heap.heap :=
  set_heap_mem Heap.ready_heap (st32 (st32 (heap_mem Heap.ready_heap) 0x20000 16) 0x30008 5).

Lemma dir_holds : holds dir_disk dir_image.
Proof. split; [|done]. apply poke_wf. apply st32_wf, st32_wf. apply small_holds. Qed.

Lemma root_layout : dir_layout root_env.
Proof.
  split; try (cbn; lia).
  - exact small_fs_ok.
  - cbn. intros a Ha. change Heap.heap_at with 0x200000 in Ha. change Heap.HEAP_SIZE with 0x80000 in Ha. lia.
  - cbn. intros a Ha. unfold dir_area. cbn. change Heap.heap_at with 0x200000. change Heap.HEAP_SIZE with 0x80000. lia.
Qed.

Lemma root_ready : ready root_env dir_disk 16 5 root_heap dir_image [].
Proof.
  assert (Hi : heap_inv Heap.ready_heap []).
  { destruct Heap.heap_at_layout as [Hlow Hhigh _]. destruct Heap.fresh_heap_fresh as [Hr Hm].
    exact (Heap.client_inv_init Heap.heap_at Heap.fresh_heap Hr Hm). }
  split.
  - apply heap_inv_outside; [exact Hi| |].
    + apply st32_wf, st32_wf. exact (heap_inv_wf _ _ Hi).
    + intros x Hx. cbn in Hx. change Heap.heap_at with 0x200000 in Hx. change Heap.HEAP_SIZE with 0x80000 in Hx.
      by rewrite !ld8_st32_ne by lia.
  - exact dir_holds.
  - unfold root_heap, s_inodes_count. rewrite heap_mem_set. cbn [g_sb root_env].
    rewrite ld32_st32_ne by lia. apply ld32_st32_eq. unfold is_u32. lia.
  - unfold root_heap, bg_inode_table. rewrite heap_mem_set. cbn [fs_gdt root_env]. apply ld32_st32_eq. unfold is_u32. lia.
Qed.

Lemma root_loadable : loadable small_fs dir_disk (inode_pos small_fs 5 2) = 1.
Proof. vm_compute. reflexivity. Qed.

Lemma root_listing : listing root_env dir_disk 5 2 0 1 = [mkDentry 2 2 [46]; mkDentry 12 1 [104; 105]].
Proof. vm_compute. reflexivity. Qed.

Lemma root_node : node_ok root_env dir_disk 16 5 2.
Proof.
  split; [split; vm_compute; [split|]; congruence|]. intros _. split.
  - split.
    + split; vm_compute; [split|]; congruence.
    + intros b Hb. change (0 <= b < loadable small_fs dir_disk (inode_pos small_fs 5 2)) in Hb. rewrite root_loadable in Hb.
      assert (b = 0) as -> by lia. split; vm_compute; [congruence|reflexivity].
    + intros Hx. vm_compute in Hx. discriminate.
  - intros b x Hb. change (0 <= b < loadable small_fs dir_disk (inode_pos small_fs 5 2)) in Hb. rewrite root_loadable in Hb.
    assert (b = 0) as -> by lia. assert (E : block_entries root_env dir_disk 5 2 0 = [mkDentry 2 2 [46]; mkDentry 12 1 [104; 105]])
      by (vm_compute; reflexivity).
    rewrite E. intros [<-|[<-|[]]]; repeat constructor; done.
Qed.

(** One block, read with and without room for an indirect one. *)
Lemma root_reach room : reach root_env dir_disk 5 room 2 = 1.
Proof.
  assert (Ew : size_wraps small_fs dir_disk (inode_pos small_fs 5 2) = false) by (vm_compute; reflexivity).
  unfold reach, pointed. change (size_wraps _ _ _) with (size_wraps small_fs dir_disk (inode_pos small_fs 5 2)). rewrite Ew.
  change (loadable _ _ _) with (loadable small_fs dir_disk (inode_pos small_fs 5 2)). rewrite root_loadable. by destruct room.
Qed.

(** What the root directory's two names lead to. *)
Lemma root_child room name :
  child root_env dir_disk 5 room 2 name = first_named name [mkDentry 2 2 [46]; mkDentry 12 1 [104; 105]].
Proof.
  unfold child. assert (Ed : is_dir root_env dir_disk 5 2 = true) by (vm_compute; reflexivity).
  by rewrite Ed, root_reach, root_listing.
Qed.

Lemma apart_layout i b : 0x51000 <= i <= 0x58000 -> 0x62000 <= b <= 0x68000 -> dir_layout (sub_env root_env i b).
Proof.
  intros Hi Hb. split; try (cbn; lia).
  - exact small_fs_ok.
  - cbn. intros a Ha. change Heap.heap_at with 0x200000 in Ha. change Heap.HEAP_SIZE with 0x80000 in Ha. lia.
  - cbn. intros a Ha. unfold dir_area. cbn. change Heap.heap_at with 0x200000. change Heap.HEAP_SIZE with 0x80000. lia.
Qed.

Lemma root_is_dir : is_dir root_env dir_disk 5 2 = true.
Proof. vm_compute. reflexivity. Qed.

Lemma root_blocks : file_blocks (fs root_env) dir_disk (inode_pos (fs root_env) 5 2) = 1.
Proof. vm_compute. reflexivity. Qed.

Lemma root_max : max_blocks (fs root_env) dir_disk (inode_pos (fs root_env) 5 2) = 12.
Proof. vm_compute. reflexivity. Qed.

Lemma root_directory : directory root_env dir_disk 5 2 = [mkDentry 2 2 [46]; mkDentry 12 1 [104; 105]].
Proof. vm_compute. reflexivity. Qed.

Lemma lookup_finds_first_witness :
  exists h' d', ext2_lookup root_env 2 [104; 105] root_heap dir_image = Some (12, h', d').
Proof.
  destruct (lookup_finds_first root_env dir_disk 16 5 root_layout 2 [104; 105] root_heap dir_image []
    ltac:(repeat constructor; done) root_node root_ready) as (r & h' & d' & E & _ & _ & _ & Hr).
  exists h', d'. rewrite E, Hr, root_directory; [reflexivity|exact root_is_dir|].
  rewrite root_blocks, root_max. by destruct (has_room _ _).
Defined.

Lemma lookups_equivalent_witness :
  exists r h1 d1 h2 d2, ext2_lookup root_env 2 [46] root_heap dir_image = Some (r, h1, d1) /\
    find_inode_in_dir (sub_env root_env 0x51000 0x62000) 2 [46] root_heap dir_image = Some (r, h2, d2).
Proof.
  destruct (lookups_equivalent root_env dir_disk 16 5 root_layout 0x51000 0x62000 2 [46] root_heap dir_image [])
    as (r & h1 & d1 & h2 & d2 & E1 & E2 & _); [apply apart_layout; lia|repeat constructor; done|exact root_node|exact root_ready|].
  exists r, h1, d1, h2, d2. split; [exact E1|exact E2].
Defined.

(** "/hi/" with a slash at the end, which does not count. *)
Lemma resolve_path_walks_witness :
  exists h' d', resolve_path root_env [47; 104; 105; 47] root_heap dir_image = Some (12, h', d').
Proof.
  assert (Ep : pieces [47; 104; 105; 47] = [[104; 105]]) by (vm_compute; reflexivity).
  destruct (resolve_path_walks root_env dir_disk 16 5 root_layout [47; 104; 105; 47] root_heap dir_image [])
    as [(h' & d' & E & _) _].
  - repeat constructor; done.
  - rewrite Ep. split; [exact root_node|]. intros _. exact I.
  - exact root_ready.
  - exists h', d'. rewrite E, Ep, decide_False by done. cbn [walk_tree]. by rewrite root_child.
Defined.

Lemma resolve_path_rejects_witness :
  exists h' d', resolve_path root_env [47; 47; 104; 105] root_heap dir_image = Some (0, h', d').
Proof.
  destruct (resolve_path_rejects root_env dir_disk 16 5 root_layout [] [104; 105] root_heap dir_image [])
    as [E _]; [exact root_node|exact root_ready|apply E; repeat constructor; done].
Defined.

Lemma ls_shows_listing_witness :
  exists v' h' d', ext2_ls root_env true 2 Vga.screen0 root_heap dir_image = Some (v', h', d') /\
    v' = Vga.vga_puts (chars "      hi" ++ [10]) (Vga.vga_puts (chars "<DIR> ." ++ [10]) Vga.screen0).
Proof.
  destruct (ls_shows_listing root_env dir_disk 16 5 root_layout 2 Vga.screen0 root_heap dir_image [] root_node root_ready)
    as (v' & h' & d' & E & _ & _ & Hv). exists v', h', d'. split; [exact E|].
  rewrite Hv, root_directory; [reflexivity|exact root_is_dir|]. rewrite root_blocks, root_max. by destruct (has_room _ _).
Defined.

End Dir.
