(* ===== verification/Files.v ===== *)
(** * Showing a file and changing the directory: arch/ext2_cat.c, arch/ext2_cd.c

    [ext2_cat] prints a file on the console of Vga.v; [ext2_cd] keeps the
    inode of the working directory and its path, a text in the 128 bytes of
    [g_cwd_path], which lives in memory so that a path that is too long shows
    where it goes.  The debug output on the serial line is left out. *)

From Stdlib Require Import ZifyBool String.
From S2P Require Import Prelude Cmem Alloc Block Ext2 Vga Dir Heap.
Local Open Scope Z_scope.

Module Files.
Import Ext2 Dir.

Section Commands.
Context {H : Type} `{HA : Allocator H} {D : Type} `{HB : BlockDevice D} `{HK : KString}.

(** The environment of [ext2_lookup], and that of the command itself: its own
    [struct ext2_inode] and its static block buffer. *)
Variables env own : dir_env.
Abbreviation bs := (g_block_size (fs own)).

(** *** arch/ext2_cat.c *)

(** The loop that prints [n] bytes of a buffer. *)
Definition put_bytes (m : mem) (buf n : Z) (v : Vga.vga) : Vga.vga :=
  foldl (fun v j => Vga.vga_putc (char_val (ld8 m (buf + j))) v) v (seqZ 0 n).

(** One block: skipped when it is a hole. *)
Definition cat_block (block_id size_remaining : Z) (v : Vga.vga) (h : H) (d : D) : option (Z * Vga.vga * H * D) :=
  let n := if size_remaining <? bs then size_remaining else bs in
  if block_id =? 0 then Some (size_remaining - n, v, h, d)
  else
    '(h, d) ← on_mem (read_fs_block (fs own) block_id (dir_block_buf own)) h d;
    Some (size_remaining - n, put_bytes (heap_mem h) (dir_block_buf own) n v, h, d).

(** Both loops: block [i] is found at [ptrs + 4 * i]; [n] blocks are left.  The
    result is the number of bytes still to be printed. *)
Fixpoint cat_blocks (n : nat) (ptrs i size_remaining : Z) (v : Vga.vga) (h : H) (d : D) : option (Z * Vga.vga * H * D) :=
  match n with
  | O => Some (size_remaining, v, h, d)
  | S n' =>
      if 0 <? size_remaining then
        '(size_remaining, v, h, d) ← cat_block (ld32 (heap_mem h) (ptrs + 4 * i)) size_remaining v h d;
        cat_blocks n' ptrs (i + 1) size_remaining v h d
      else Some (size_remaining, v, h, d)
  end.

(** The contents, from the inode in memory on, with the static buffer for the
    indirect block. *)
Definition cat_contents (indirect_buf : Z) (v : Vga.vga) (h : H) (d : D) : option (Vga.vga * H * D) :=
  let size := i_size (heap_mem h) (inode own) in
  if size =? 0 then Some (v, h, d)
  else
    '(size_remaining, v, h, d) ← cat_blocks 12 (inode own + 40) 0 size v h d;
    '(v, h, d) ←
      (if (0 <? size_remaining) && negb (i_block (heap_mem h) (inode own) 12 =? 0) then
         '(h, d) ← on_mem (read_fs_block (fs own) (i_block (heap_mem h) (inode own) 12) indirect_buf) h d;
         '(_, v, h, d) ← cat_blocks (Z.to_nat (bs / 4)) indirect_buf 0 size_remaining v h d;
         Some (v, h, d)
       else Some (v, h, d));
    Some (Vga.vga_putc 10 v, h, d).

Definition file_type (h : H) : Z := Z.land (i_mode (heap_mem h) (inode own)) 0xF000.

Definition say (text : string) (v : Vga.vga) : Vga.vga := Vga.vga_puts (chars text ++ [10]) v.

Definition ext2_cat (indirect_buf cwd_inode : Z) (filename : list Z) (v : Vga.vga) (h : H) (d : D)
  : option (Vga.vga * H * D) :=
  match filename with
  | [] => Some (say "cat: Missing filename." v, h, d)
  | _ =>
      '(file_inode_num, h, d) ← ext2_lookup env cwd_inode filename h d;
      if file_inode_num =? 0 then Some (say "cat: File not found." v, h, d)
      else
        '(h, d) ← get_inode own file_inode_num h d;
        if file_type h =? 0x4000 then Some (say "cat: Cannot cat a directory." v, h, d)
        else if negb (file_type h =? 0x8000) then Some (say "cat: Not a regular file." v, h, d)
        else cat_contents indirect_buf v h d
  end.

(** *** arch/ext2_cd.c *)

(** [while (s[len] != 0) len++;] *)
Fixpoint text_len (fuel : nat) (m : mem) (s len : Z) : option Z :=
  if ld8 m (s + len) =? 0 then Some len
  else match fuel with O => None | S fuel' => text_len fuel' m s (len + 1) end.

(** [for (i = 0; i < len; i++) if (s[i] == '/') last_slash = i;] *)
Fixpoint last_slash_loop (n : nat) (m : mem) (s i last_slash : Z) : Z :=
  match n with
  | O => last_slash
  | S n' => last_slash_loop n' m s (i + 1) (if ld8 m (s + i) =? 47 then i else last_slash)
  end.

(** The path text behind a change to [path]. *)
Definition update_path (fuel : nat) (g_cwd_path : Z) (path : list Z) (m : mem) : option mem :=
  if strcmp path [46] =? 0 then Some m
  else
    len ← text_len fuel m g_cwd_path 0;
    if strcmp path [46; 46] =? 0 then
      let last_slash := last_slash_loop (Z.to_nat len) m g_cwd_path 0 (-1) in
      Some (if 0 <? last_slash then st8 m (g_cwd_path + last_slash) 0
            else if (last_slash =? 0) && (1 <? len) then st8 m (g_cwd_path + 1) 0 else m)
    else if (len =? 1) && (ld8 m g_cwd_path =? 47) then
      Some (poke (g_cwd_path + 1) (path ++ [0]) m)
    else Some (poke (g_cwd_path + len + 1) (path ++ [0]) (st8 m (g_cwd_path + len) 47)).

(** [ext2_cd], with [internal_id] of [g_cwd_node] before and behind the call. *)
Definition ext2_cd (fuel : nat) (g_cwd_path cwd_inode : Z) (path : list Z) (v : Vga.vga) (h : H) (d : D)
  : option (Z * Vga.vga * H * D) :=
  match path with
  | [] => Some (cwd_inode, v, h, d)
  | _ =>
      '(target_inode, h, d) ← ext2_lookup env cwd_inode path h d;
      if target_inode =? 0 then Some (cwd_inode, say "cd: No such directory." v, h, d)
      else
        '(h, d) ← get_inode own target_inode h d;
        if negb (file_type h =? 0x4000) then Some (cwd_inode, say "cd: Not a directory." v, h, d)
        else
          m ← update_path fuel g_cwd_path path (heap_mem h);
          Some (target_inode, v, set_heap_mem h m, d)
  end.

End Commands.

(** ** Showing a file *)

Definition put_chars (v : Vga.vga) (l : list Z) : Vga.vga := foldl (fun v c => Vga.vga_putc c v) v l.

Lemma put_chars_app v l1 l2 : put_chars v (l1 ++ l2) = put_chars (put_chars v l1) l2.
Proof. apply foldl_app. Qed.

Lemma put_bytes_chars m buf n v : put_bytes m buf n v = put_chars v (List.map (fun j => char_val (ld8 m (buf + j))) (seqZ 0 n)).
Proof. unfold put_bytes, put_chars. revert v. induction (seqZ 0 n) as [|x l IH]; intros v; cbn; [done|apply IH]. Qed.

Section Cat.
Context {H : Type} `{HA : Allocator H} `{!AllocatorLaws H} {D : Type} `{HB : BlockDevice D} `{!BlockDeviceLaws D}.
Variable own : dir_env.
Variable disk : Z -> Z.
Variables inodes table : Z.
Abbreviation bs := (g_block_size (fs own)).
Abbreviation pos := (inode_pos (fs own) table).
Hypothesis L : dir_layout own.

(** The text of a file, with the zero bytes of its holes. *)
Definition file_char (num i : Z) : Z := char_val (file_byte (fs own) disk (pos num) i).
Definition file_text (num : Z) : list Z := List.map (file_char num) (seqZ 0 (file_size (fs own) disk (pos num))).

(** The character [i] lies in a hole; no character does, and the direct blocks
    and the indirect one reach to the end of the file. *)
Definition in_hole (num i : Z) : bool := file_ptr (fs own) disk (pos num) (i / bs) =? 0.
Definition complete (num : Z) : Prop :=
  file_size (fs own) disk (pos num) <= max_blocks (fs own) disk (pos num) * bs /\
  forall i, 0 <= i < file_size (fs own) disk (pos num) -> in_hole num i = false.

(** What can be seen of a file: its characters up to the last block that the
    inode and the indirect block have a pointer for, those in holes left out. *)
Definition cat_text (num : Z) : list Z :=
  List.map (file_char num) (List.filter (fun i => negb (in_hole num i))
    (seqZ 0 (Z.min (file_size (fs own) disk (pos num)) (max_blocks (fs own) disk (pos num) * bs)))).

Lemma filter_all {A} (p : A -> bool) l : (forall x, In x l -> p x = true) -> List.filter p l = l.
Proof.
  induction l as [|x l IH]; intros Hp; cbn [List.filter]; [done|].
  rewrite (Hp x) by by left. rewrite IH; [done|]. intros y Hy. apply Hp. by right.
Qed.

Lemma filter_none {A} (p : A -> bool) l : (forall x, In x l -> p x = false) -> List.filter p l = [].
Proof.
  induction l as [|x l IH]; intros Hp; cbn [List.filter]; [done|].
  rewrite (Hp x) by by left. apply IH. intros y Hy. apply Hp. by right.
Qed.

(** A complete file is shown whole. *)
Lemma cat_text_complete num : complete num -> cat_text num = file_text num.
Proof.
  intros [Hs Hh]. unfold cat_text, file_text. rewrite Z.min_l by done. f_equal. apply filter_all.
  intros i Hi. apply list_elem_of_In, elem_of_seqZ in Hi. by rewrite Hh.
Qed.

(** The same, block by block. *)
Definition cat_bytes (num b : Z) : list Z :=
  let p := file_ptr (fs own) disk (pos num) b in
  if p =? 0 then []
  else List.map (fun i => char_val (part (fs own) disk (p * bs + i))) (seqZ 0 (Z.min bs (file_size (fs own) disk (pos num) - b * bs))).

Lemma block_chars num b n :
  0 <= b -> 0 <= n <= bs ->
  List.map (file_char num) (List.filter (fun i => negb (in_hole num i)) (seqZ (b * bs) n)) =
  if file_ptr (fs own) disk (pos num) b =? 0 then []
  else List.map (fun i => char_val (part (fs own) disk (file_ptr (fs own) disk (pos num) b * bs + i))) (seqZ 0 n).
Proof.
  intros Hb Hn. pose proof (fs_facts own L) as F.
  assert (Hdiv : forall i, 0 <= i < bs -> (b * bs + i) / bs = b /\ (b * bs + i) mod bs = i).
  { intros i Hi. split; [rewrite Z.div_add_l, Z.div_small by lia; lia|]. rewrite Z.add_comm, Z.mod_add, Z.mod_small by lia. done. }
  assert (Hseq : seqZ (b * bs) n = List.map (Z.add (b * bs)) (seqZ 0 n)).
  { rewrite <- (Z.add_0_r (b * bs)) at 1. symmetry. apply fmap_add_seqZ. }
  assert (Hhole : forall i, In i (seqZ (b * bs) n) -> in_hole num i = (file_ptr (fs own) disk (pos num) b =? 0)).
  { intros i Hi. rewrite Hseq in Hi. apply in_map_iff in Hi as (j & <- & Hj). apply list_elem_of_In, elem_of_seqZ in Hj.
    unfold in_hole. by rewrite (proj1 (Hdiv j ltac:(lia))). }
  destruct (Z.eqb_spec (file_ptr (fs own) disk (pos num) b) 0) as [E|E].
  - rewrite filter_none; [done|]. intros i Hi. by rewrite (Hhole i Hi).
  - rewrite filter_all, Hseq, map_map by (intros i Hi; by rewrite (Hhole i Hi)). apply map_ext_in.
    intros i Hi. apply list_elem_of_In, elem_of_seqZ in Hi. destruct (Hdiv i ltac:(lia)) as [E1 E2].
    unfold file_char, file_byte, block_byte. by rewrite E1, E2, (proj2 (Z.eqb_neq _ 0) E).
Qed.

Lemma blocks_text num n :
  0 <= file_size (fs own) disk (pos num) ->
  concat (List.map (cat_bytes num) (seqZ 0 (Z.of_nat n))) =
  List.map (file_char num) (List.filter (fun i => negb (in_hole num i))
    (seqZ 0 (Z.min (file_size (fs own) disk (pos num)) (Z.of_nat n * bs)))).
Proof.
  intros Hsz. pose proof (fs_facts own L) as F. set (size := file_size _ _ _) in *. induction n as [|n IH].
  { rewrite Z.mul_0_l, Z.min_r by lia. done. }
  rewrite seqZ_S, map_app, concat_app, IH, Z.add_0_l. clear IH. cbn [List.map concat]. rewrite app_nil_r.
  replace (Z.of_nat (S n) * bs) with (Z.of_nat n * bs + bs) by lia.
  destruct (Z.le_gt_cases size (Z.of_nat n * bs)) as [Hle|Hgt].
  - rewrite !Z.min_l by lia. unfold cat_bytes. fold size. rewrite (seqZ_nil 0 (Z.min bs (size - Z.of_nat n * bs))) by lia.
    case_match; cbn [List.map]; by rewrite app_nil_r.
  - replace (Z.min size (Z.of_nat n * bs + bs)) with (Z.of_nat n * bs + Z.min bs (size - Z.of_nat n * bs)) by lia.
    rewrite (Z.min_r size), seqZ_app, filter_app, map_app, Z.add_0_l, block_chars by nia. done.
Qed.

Lemma cat_text_blocks num :
  0 <= file_size (fs own) disk (pos num) ->
  cat_text num = concat (List.map (cat_bytes num) (seqZ 0 (max_blocks (fs own) disk (pos num)))).
Proof.
  intros Hsz. pose proof (max_blocks_range (fs own) disk (dl_fs own L) (pos num)).
  rewrite <- (Z2Nat.id (max_blocks (fs own) disk (pos num))), blocks_text, Z2Nat.id by lia. done.
Qed.

(** The bytes that are left at block [b]. *)
Definition left_at (num b : Z) : Z := Z.max 0 (file_size (fs own) disk (pos num) - b * bs).

Lemma cat_block_ok num b h d owned v :
  ready own disk inodes table h d owned -> has_inode own disk table num h -> 0 < left_at num b ->
  0 <= file_ptr (fs own) disk (pos num) b <= 0x100000 ->
  exists h' d', cat_block own (file_ptr (fs own) disk (pos num) b) (left_at num b) v h d
    = Some (left_at num (b + 1), put_chars v (cat_bytes num b), h', d') /\
    ready own disk inodes table h' d' owned /\ has_inode own disk table num h' /\
    same_outside (fun a => dir_block_buf own <= a < dir_block_buf own + bs) (heap_mem h) (heap_mem h').
Proof.
  intros R Hi Hleft Hp. pose proof (fs_facts own L) as F. unfold cat_block, cat_bytes.
  set (p := file_ptr _ _ _ b) in *. set (S := file_size _ _ _) in *.
  assert (En : (if left_at num b <? bs then left_at num b else bs) = Z.min bs (S - b * bs)).
  { unfold left_at in *. fold S in Hleft |- *. destruct (Z.ltb_spec (Z.max 0 (S - b * bs)) bs); lia. }
  assert (El : left_at num b - Z.min bs (S - b * bs) = left_at num (b + 1)).
  { unfold left_at in *. fold S in Hleft |- *. lia. }
  rewrite En, El. destruct (Z.eqb_spec p 0) as [E0|E0]; [by exists h, d|].
  destruct (read_dir_block own disk inodes table L num p h d owned R Hi Hp) as (h' & d' & E & R' & Hi' & Hf & _).
  rewrite (bind_some _ _ _ E). exists h', d'. split; [|split; [done|split; [done|by apply filled_same in Hf]]].
  rewrite put_bytes_chars, (map_ext_in _ (fun i => char_val (part (fs own) disk (p * bs + i)))); [done|].
  intros i Hii. apply list_elem_of_In, elem_of_seqZ in Hii. by rewrite (filled_in _ _ _ _ _ _ _ Hf) by lia.
Qed.

(** Behind the end of the file there is nothing. *)
Lemma past_end_block num lo b : left_at num lo <= 0 -> lo <= b -> left_at num b = 0 /\ cat_bytes num b = [].
Proof.
  intros Hl Hb. pose proof (fs_facts own L) as F. unfold left_at in *.
  assert (file_size (fs own) disk (pos num) - b * bs <= 0) by nia. split; [lia|].
  unfold cat_bytes. case_match; [done|]. by rewrite seqZ_nil by lia.
Qed.

Lemma past_end num lo l : left_at num lo <= 0 -> (forall b, In b l -> lo <= b) -> concat (List.map (cat_bytes num) l) = [].
Proof.
  intros Hl. induction l as [|b l IH]; intros Hall; [done|]. cbn [List.map concat].
  rewrite (proj2 (past_end_block num lo b Hl (Hall b (or_introl eq_refl)))), IH; [done|]. intros b' Hb'. apply Hall. by right.
Qed.

(** A loop over [n] blocks, the [i]-th pointer being the one of block
    [o + i]. *)
Lemma cat_blocks_ok num o n ptrs i h d owned v :
  ready own disk inodes table h d owned -> has_inode own disk table num h ->
  ptrs + 4 * (i + Z.of_nat n) <= dir_block_buf own \/ dir_block_buf own + bs <= ptrs + 4 * i ->
  (forall j, i <= j < i + Z.of_nat n -> ld32 (heap_mem h) (ptrs + 4 * j) = file_ptr (fs own) disk (pos num) (o + j)) ->
  (forall j, i <= j < i + Z.of_nat n -> 0 < left_at num (o + j) -> 0 <= file_ptr (fs own) disk (pos num) (o + j) <= 0x100000) ->
  exists h' d', cat_blocks own n ptrs i (left_at num (o + i)) v h d
    = Some (left_at num (o + i + Z.of_nat n), put_chars v (concat (List.map (cat_bytes num) (seqZ (o + i) (Z.of_nat n)))), h', d') /\
    ready own disk inodes table h' d' owned /\ has_inode own disk table num h' /\
    same_outside (fun a => dir_block_buf own <= a < dir_block_buf own + bs) (heap_mem h) (heap_mem h').
Proof.
  pose proof (fs_facts own L) as F. revert i h d v. induction n as [|n IH]; intros i h d v R Hi Hdis Hptr Hp; cbn [cat_blocks].
  - exists h, d. rewrite Z.add_0_r. done.
  - rewrite seqZ_cons by lia. replace (Z.pred (Z.of_nat (S n))) with (Z.of_nat n) by lia. cbn [List.map concat].
    destruct (Z.ltb_spec 0 (left_at num (o + i))) as [Hl|Hl].
    + destruct (cat_block_ok num (o + i) h d owned v R Hi Hl) as (h1 & d1 & E & R1 & Hi1 & Hs1); [apply Hp; lia|].
      rewrite Hptr by lia. rewrite (bind_some _ _ _ E).
      destruct (IH (i + 1) h1 d1 (put_chars v (cat_bytes num (o + i))) R1 Hi1) as (h2 & d2 & E2 & R2 & Hi2 & Hs2).
      * lia.
      * intros j Hj. rewrite (ld32_same (heap_mem h)); [apply Hptr; lia|]. intros x Hx. apply Hs1. lia.
      * intros j Hj. apply Hp. lia.
      * exists h2, d2. replace (o + i + 1) with (o + (i + 1)) by lia. rewrite E2.
        split; [|split; [done|split; [done|by transitivity (heap_mem h1)]]].
        rewrite put_chars_app. replace (Z.succ (o + i)) with (o + (i + 1)) by lia.
        by replace (o + (i + 1) + Z.of_nat n) with (o + i + Z.of_nat (S n)) by lia.
    + exists h, d. split; [|done].
      destruct (past_end_block num (o + i) (o + i) Hl) as [E0 Ec0]; [lia|].
      destruct (past_end_block num (o + i) (o + i + Z.of_nat (S n)) Hl) as [E1 _]; [lia|]. rewrite E0, E1, Ec0.
      cbn [app]. rewrite (past_end num (o + i)); [done|done|]. intros b Hb. apply list_elem_of_In, elem_of_seqZ in Hb. lia.
Qed.

(** What [cat_contents] needs of the file and of the indirect buffer. *)
Definition indirect_env (indirect_buf : Z) : dir_env :=
  mkDirEnv (fs own) (safe_inode_buf own) (g_sb own) (fs_gdt own) (inode own) indirect_buf.

Record file_ok (num : Z) : Prop := {
  fk_valid : valid_inode own inodes table num;
  fk_blocks : forall b, 0 <= b < loadable (fs own) disk (pos num) -> file_ptr (fs own) disk (pos num) b <= 0x100000;
  fk_indirect : indirect_of (fs own) disk (pos num) <= 0x100000
}.

Lemma left_block num b : dir_layout own -> 0 <= b -> 0 < left_at num b -> b < file_blocks (fs own) disk (pos num).
Proof.
  intros _ Hb Hl. pose proof (fs_facts own L) as F. unfold left_at, file_blocks in *.
  apply Z.lt_le_trans with (b + 1); [lia|]. apply Z.div_le_lower_bound; lia.
Qed.

Lemma cat_contents_ok indirect_buf num h d owned v :
  dir_layout (indirect_env indirect_buf) -> indirect_buf + bs <= dir_block_buf own \/ dir_block_buf own + bs <= indirect_buf ->
  file_ok num -> ready own disk inodes table h d owned -> has_inode own disk table num h ->
  exists h' d', cat_contents own indirect_buf v h d
    = Some (if file_size (fs own) disk (pos num) =? 0 then v else Vga.vga_putc 10 (put_chars v (cat_text num)), h', d') /\
    ready own disk inodes table h' d' owned.
Proof.
  intros L2 Hapart Hk R Hi. pose proof (fs_facts own L) as F. unfold cat_contents.
  pose proof (holds_bytes disk d (rd_disk _ _ _ _ _ _ _ R)) as Hbyte.
  assert (Hfp : forall b, is_u32 (file_ptr (fs own) disk (pos num) b)) by (intros b; apply (file_ptr_u32 _ _ d), (rd_disk _ _ _ _ _ _ _ R)).
  destruct (inode_fields (fs own) disk (dl_fs own L) (inode own) (pos num) (heap_mem h) Hi) as (-> & _ & Hptr).
  assert (Hsz : is_u32 (file_size (fs own) disk (pos num))) by (apply le32_u32; intros y; apply Hbyte). unfold is_u32 in Hsz.
  destruct (Z.eqb_spec (file_size (fs own) disk (pos num)) 0) as [E0|E0]; [by exists h, d|].
  assert (Hmax : 12 <= max_blocks (fs own) disk (pos num)) by (apply max_blocks_range, (dl_fs own L)).
  assert (Hblk : forall b, 0 <= b < max_blocks (fs own) disk (pos num) -> 0 < left_at num b -> 0 <= file_ptr (fs own) disk (pos num) b <= 0x100000).
  { intros b Hb Hl. split; [apply Hfp|]. apply (fk_blocks num Hk). pose proof (left_block num b L ltac:(lia) Hl). unfold loadable. lia. }
  destruct (cat_blocks_ok num 0 12 (inode own + 40) 0 h d owned v R Hi) as (h1 & d1 & E1 & R1 & Hi1 & Hs1).
  { pose proof (dl_inode_buf own L). lia. } { intros j Hj. apply Hptr. lia. } { intros j Hj. apply Hblk. lia. }
  replace (file_size (fs own) disk (pos num)) with (left_at num (0 + 0)) by (unfold left_at; lia).
  rewrite (bind_some _ _ _ E1). change (0 + 0 + Z.of_nat 12) with 12. change (0 + 0) with 0. change (Z.of_nat 12) with 12.
  set (v1 := put_chars v _). destruct (inode_fields (fs own) disk (dl_fs own L) (inode own) (pos num) (heap_mem h1) Hi1) as (_ & E12 & _).
  rewrite E12, cat_text_blocks by lia. unfold max_blocks in *. destruct (Z.eqb_spec (indirect_of (fs own) disk (pos num)) 0) as [Ei|Ei].
  { rewrite andb_false_r. cbn [mbind option_bind]. by exists h1, d1. }
  set (m := bs / 4) in *. assert (Hm4 : m * 4 <= bs) by (rewrite Z.mul_comm; apply Z.mul_div_le; lia).
  rewrite (seqZ_app 0 12 m), map_app, concat_app, put_chars_app by lia. fold v1. rewrite Z.add_0_l.
  destruct (Z.ltb_spec 0 (left_at num 12)) as [Hl|Hl]; cbn [negb andb].
  - destruct (read_dir_block (indirect_env indirect_buf) disk inodes table L2 num (indirect_of (fs own) disk (pos num)) h1 d1 owned)
      as (h2 & d2 & E2 & R2 & Hi2 & Hf2 & _).
    { destruct R1. by split. } { exact Hi1. } { split; [apply le32_u32; intros y; apply Hbyte|apply (fk_indirect num Hk)]. }
    rewrite (bind_some _ _ _ E2). cbn [indirect_env dir_block_buf fs] in Hf2.
    destruct (cat_blocks_ok num 12 (Z.to_nat m) indirect_buf 0 h2 d2 owned v1) as (h3 & d3 & E3 & R3 & _);
      rewrite ?Z2Nat.id by lia.
    { destruct R2. by split. } { exact Hi2. } { lia. }
    { intros j Hj. rewrite (copied_ld32 _ _ bs (fun i => part (fs own) disk (indirect_of (fs own) disk (pos num) * bs + i)));
        [|intros i Hii; by apply (filled_in _ _ _ _ _ _ _ Hf2)|lia|lia].
      rewrite le32_shift. unfold file_ptr. rewrite (proj2 (Z.ltb_ge (12 + j) 12)) by lia. f_equal. lia. }
    { intros j Hj. apply Hblk. lia. }
    rewrite Z2Nat.id, !Z.add_0_r in E3 by lia. rewrite (bind_some _ _ _ E3). cbn [mbind option_bind]. by exists h3, d3.
  - cbn [mbind option_bind]. exists h1, d1. split; [|done]. do 4 f_equal.
    rewrite (past_end num 12); [done|lia|]. intros b Hb. apply list_elem_of_In, elem_of_seqZ in Hb. lia.
Qed.

End Cat.

(** ** The path text *)

(** Memory holds the text [l] at [a], with its NUL. *)
Definition text_at (m : mem) (a : Z) (l : list Z) : Prop :=
  (forall i, 0 <= i < Z.of_nat (length l) -> ld8 m (a + i) = u8 (getZ l i)) /\
  ld8 m (a + Z.of_nat (length l)) = 0 /\ Forall (fun c => u8 c <> 0) l.

(** A character of a name, and a name. *)
Definition path_char (c : Z) : Prop := -128 <= c < 128 /\ c <> 0 /\ c <> 47.
Definition dir_name (c : list Z) : Prop := c <> [] /\ Forall path_char c.

Lemma path_char_u8 c : path_char c -> u8 c <> 0 /\ u8 c <> 47.
Proof. intros (Hr & H0 & H47). unfold u8. change (2 ^ 8) with 256. mlia. Qed.

Lemma text_len_ok fuel m a l k :
  text_at m a l -> 0 <= k <= Z.of_nat (length l) -> Z.of_nat (length l) - k <= Z.of_nat fuel ->
  text_len fuel m a k = Some (Z.of_nat (length l)).
Proof.
  intros (Hb & H0 & Hn). revert k. induction fuel as [|fuel IH]; intros k Hk Hf; cbn [text_len].
  - assert (k = Z.of_nat (length l)) as -> by lia. by rewrite H0.
  - destruct (decide (k = Z.of_nat (length l))) as [->|Hne]; [by rewrite H0|].
    rewrite Hb by lia. destruct (Z.eqb_spec (u8 (getZ l k)) 0) as [E|_]; [|apply IH; lia].
    exfalso. unfold getZ in E. destruct (l !! Z.to_nat k) as [c|] eqn:El; [|apply lookup_ge_None in El; lia].
    rewrite Forall_lookup in Hn. by apply (Hn _ _ El).
Qed.

Lemma last_slash_none n m a i last :
  (forall j, i <= j < i + Z.of_nat n -> ld8 m (a + j) <> 47) -> last_slash_loop n m a i last = last.
Proof.
  revert i last. induction n as [|n IH]; intros i last Hj; cbn [last_slash_loop]; [done|].
  rewrite (proj2 (Z.eqb_neq _ 47)) by (apply Hj; lia). apply IH. intros j Hjj. apply Hj. lia.
Qed.

Lemma last_slash_at n m a i last k :
  i <= k < i + Z.of_nat n -> ld8 m (a + k) = 47 -> (forall j, k < j < i + Z.of_nat n -> ld8 m (a + j) <> 47) ->
  last_slash_loop n m a i last = k.
Proof.
  revert i last. induction n as [|n IH]; intros i last Hk Hs Hj; [lia|]. cbn [last_slash_loop].
  destruct (decide (i = k)) as [->|Hne].
  - rewrite Hs. cbn [Z.eqb Pos.eqb]. apply last_slash_none. intros j Hjj. apply Hj. lia.
  - apply IH; [lia|done|]. intros j Hjj. apply Hj. lia.
Qed.

(** Cutting a text, and writing behind it. *)
Lemma text_cut m a l1 l2 : text_at m a (l1 ++ l2) -> text_at (st8 m (a + Z.of_nat (length l1)) 0) a l1.
Proof.
  intros (Hb & _ & Hn). rewrite length_app in Hb. apply Forall_app in Hn as [Hn _]. split; [|split; [|done]].
  - intros i Hi. rewrite ld8_st8_ne, Hb by lia. unfold getZ. by rewrite lookup_app_l by lia.
  - by rewrite ld8_st8_eq.
Qed.

Lemma text_write m m' a l1 l2 :
  text_at m a l1 -> Forall (fun c => u8 c <> 0) l2 ->
  (forall i, 0 <= i < Z.of_nat (length l1) -> ld8 m' (a + i) = ld8 m (a + i)) ->
  (forall i, 0 <= i < Z.of_nat (length l2) -> ld8 m' (a + Z.of_nat (length l1) + i) = u8 (getZ l2 i)) ->
  ld8 m' (a + Z.of_nat (length (l1 ++ l2))) = 0 ->
  text_at m' a (l1 ++ l2).
Proof.
  intros (Hb & _ & Hn) Hn2 H1 H2 H0. split; [|split; [done|by apply Forall_app]]. intros i Hi. rewrite length_app in Hi.
  destruct (decide (i < Z.of_nat (length l1))) as [Hlt|Hge].
  - rewrite H1, Hb by lia. unfold getZ. by rewrite lookup_app_l by lia.
  - replace (a + i) with (a + Z.of_nat (length l1) + (i - Z.of_nat (length l1))) by lia. rewrite H2 by lia. unfold getZ.
    rewrite lookup_app_r by lia. do 3 f_equal. lia.
Qed.

Lemma join_snoc comps c : comps <> [] -> join (comps ++ [c]) = join comps ++ 47 :: c.
Proof.
  induction comps as [|x comps IH]; intros Hne; [done|]. destruct comps as [|y comps]; [done|].
  change (join ((x :: y :: comps) ++ [c])) with (x ++ 47 :: join ((y :: comps) ++ [c])).
  change (join (x :: y :: comps)) with (x ++ 47 :: join (y :: comps)). rewrite IH by done. by rewrite <- app_assoc.
Qed.

Definition path_text (comps : list (list Z)) : list Z := 47 :: join comps.

Lemma path_text_snoc comps c : path_text (comps ++ [c]) = match comps with [] => [47] | _ => path_text comps ++ [47] end ++ c.
Proof.
  destruct comps as [|x comps]; [done|]. unfold path_text. rewrite join_snoc by done. cbn [app]. by rewrite <- app_assoc.
Qed.

Section Paths.
Context `{HK : KString} `{!KStringLaws}.

Lemma strcmp_name name l : Forall (fun c => c <> 0) name -> Forall (fun c => c <> 0) l -> (strcmp name l =? 0) = bool_decide (name = l).
Proof.
  intros Hn Hl. pose proof (strcmp_eq name l) as E. rewrite !c_string_id in E by done.
  case_bool_decide; [by apply Z.eqb_eq, E|]. apply Z.eqb_neq. by rewrite E.
Qed.

Lemma name_chars name : dir_name name -> Forall (fun c => c <> 0) name /\ Forall (fun c => u8 c <> 0 /\ u8 c <> 47) name.
Proof.
  intros [_ Hn]. split; (eapply list.Forall_impl; [exact Hn|]); intros c Hc; [apply Hc|by apply path_char_u8].
Qed.

(** Going down to [name]. *)
Lemma update_down fuel cwd comps name m :
  dir_name name -> name <> [46] -> name <> [46; 46] -> text_at m cwd (path_text comps) ->
  Forall dir_name comps -> (length (path_text comps) <= fuel)%nat ->
  exists m', update_path fuel cwd name m = Some m' /\ text_at m' cwd (path_text (comps ++ [name])) /\
    same_outside (fun a => cwd <= a <= cwd + Z.of_nat (length (path_text (comps ++ [name])))) m m'.
Proof.
  intros Hname H1 H2 Ht Hc Hf. destruct (name_chars name Hname) as [Hn0 Hnu].
  assert (Hnu0 : Forall (fun c => u8 c <> 0) name) by (eapply list.Forall_impl; [exact Hnu|]; intros c [? _]; done).
  unfold update_path. rewrite !strcmp_name by (done || by repeat constructor).
  rewrite (bool_decide_eq_false_2 _ H1), (bool_decide_eq_false_2 _ H2).
  rewrite (text_len_ok fuel m cwd (path_text comps) 0 Ht) by lia. cbn [mbind option_bind].
  rewrite path_text_snoc. destruct comps as [|c comps].
  - cbn [path_text join length Z.of_nat Pos.of_succ_nat Z.eqb Pos.eqb andb]. pose proof (proj1 Ht 0) as Hb.
    cbn [path_text join length] in Hb. rewrite Z.add_0_r in Hb. rewrite Hb by lia. cbn [getZ Z.eqb andb].
    change (u8 (getZ [47] 0) =? 47) with true. cbn iota. eexists. split; [reflexivity|]. split.
    + apply (text_write m); try done.
      * intros i Hi. cbn [length] in Hi. rewrite poke_ld8. case_cond; [lia|done].
      * intros i Hi. cbn [length]. rewrite poke_ld8, length_app. cbn [length].
        replace ((cwd + 1 <=? cwd + Z.of_nat 1 + i) && _) with true by lia. f_equal. unfold getZ.
        rewrite lookup_app_l by lia. do 2 f_equal. lia.
      * rewrite poke_ld8, !length_app. cbn [length]. replace ((cwd + 1 <=? _) && _) with true by lia.
        unfold getZ. rewrite lookup_app_r by lia. by replace (Z.to_nat _ - length name)%nat with 0%nat by lia.
    + intros a Ha. rewrite poke_ld8, length_app in *. cbn [length] in *. case_cond; [lia|done].
  - set (l := path_text (c :: comps)) in *. set (n := Z.of_nat (length l)).
    assert (Hn2 : 2 <= n).
    { subst n l. destruct (Forall_inv Hc) as [Hcne _]. unfold path_text. destruct c; [done|]. destruct comps; cbn [join app length]; lia. }
    rewrite (proj2 (Z.eqb_neq n 1)) by lia. cbn [andb]. eexists. split; [reflexivity|]. rewrite <- app_assoc. split.
    + apply (text_write m); try done.
      * by constructor.
      * intros i Hi. rewrite poke_ld8. case_cond; [lia|]. apply ld8_st8_ne. lia.
      * intros i Hi. cbn [app length] in Hi. fold n. rewrite poke_ld8, length_app. cbn [length].
        destruct (decide (i = 0)) as [->|Hne].
        -- case_cond; [lia|]. by rewrite Z.add_0_r, ld8_st8_eq.
        -- replace ((cwd + n + 1 <=? cwd + n + i) && _) with true by lia. f_equal. cbn [app]. unfold getZ.
           rewrite lookup_app_l by lia. by replace (Z.to_nat i) with (S (Z.to_nat (cwd + n + i - (cwd + n + 1)))) by lia.
      * rewrite poke_ld8, !length_app. cbn [length]. replace ((cwd + n + 1 <=? _) && _) with true by lia.
        unfold getZ. rewrite lookup_app_r by lia. by replace (Z.to_nat _ - length name)%nat with 0%nat by lia.
    + intros a Ha. rewrite !length_app in Ha. cbn [length app] in Ha. rewrite poke_ld8, length_app. cbn [length].
      case_cond; [lia|]. apply ld8_st8_ne. lia.
Qed.

(** Going up. *)
Lemma update_up fuel cwd comps m :
  text_at m cwd (path_text comps) -> Forall dir_name comps -> (length (path_text comps) <= fuel)%nat ->
  exists m', update_path fuel cwd [46; 46] m = Some m' /\ text_at m' cwd (path_text (removelast comps)) /\
    same_outside (fun a => cwd <= a <= cwd + Z.of_nat (length (path_text comps))) m m'.
Proof.
  intros Ht Hc Hf. unfold update_path. rewrite !strcmp_name by (by repeat constructor).
  cbn [bool_decide decide_rel]. rewrite (text_len_ok fuel m cwd (path_text comps) 0 Ht) by lia.
  change (bool_decide ([46; 46] = [46])) with false. change (bool_decide ([46; 46] = [46; 46])) with true. cbn [mbind option_bind].
  rewrite Nat2Z.id. destruct comps as [|x comps] using rev_ind.
  - cbn [path_text join length removelast last_slash_loop] in *. destruct Ht as (Hb & H0 & Hn).
    change (Z.of_nat 1) with 1 in *. rewrite (Hb 0) by (cbn; lia). change (u8 (getZ [47] 0) =? 47) with true. cbn.
    exists m. split; [done|]. split; [by split|done].
  - rewrite removelast_last. apply Forall_app in Hc as [Hc Hx]. inversion Hx as [|? ? Hxn _]; subst.
    destruct (name_chars x Hxn) as [_ Hxu]. destruct Hxn as [Hxne _]. rewrite path_text_snoc in *.
    assert (E : exists l, match comps with [] => [47] | _ :: _ => path_text comps ++ [47] end = l ++ [47] /\
                 path_text comps = match comps with [] => [47] | _ => l end /\ (comps = [] -> l = []) /\ (comps <> [] -> l <> [])).
    { destruct comps; [by exists []|]. exists (path_text (l :: comps)). done. }
    destruct E as (l & El & Et & Hl0 & Hl1). rewrite El in *. rewrite <- app_assoc in *. cbn [app] in *.
    assert (Hlast : last_slash_loop (length (l ++ 47 :: x)) m cwd 0 (-1) = Z.of_nat (length l)).
    { destruct Ht as (Hb & _ & _). rewrite length_app in *. cbn [length] in *. apply last_slash_at; [lia| |].
      - rewrite Hb by lia. unfold getZ. rewrite lookup_app_r by lia. by replace (Z.to_nat _ - length l)%nat with 0%nat by lia.
      - intros j Hj. rewrite Hb by lia. unfold getZ. rewrite lookup_app_r by lia.
        replace (Z.to_nat j - length l)%nat with (S (Z.to_nat (j - Z.of_nat (length l) - 1))) by lia. cbn [lookup list_lookup].
        destruct (x !! Z.to_nat (j - Z.of_nat (length l) - 1)) as [y|] eqn:Ey; [|done]. cbn [default from_option].
        rewrite Forall_lookup in Hxu. apply (Hxu _ _ Ey). }
    rewrite Hlast. rewrite length_app in *. cbn [length] in *. assert (Hlx : (0 < length x)%nat) by (destruct x; [done|cbn [length]; lia]).
    destruct comps as [|y comps].
    + rewrite (Hl0 eq_refl) in *. cbn [length app] in *. replace (0 <? Z.of_nat 0) with false by lia.
      replace ((Z.of_nat 0 =? 0) && (1 <? _)) with true by lia. eexists. split; [reflexivity|]. split; [by apply (text_cut m cwd [47] x)|].
      intros a Ha. apply ld8_st8_ne. lia.
    + assert (Hll : (0 < length l)%nat) by (specialize (Hl1 ltac:(done)); destruct l; [done|cbn [length]; lia]).
      replace (0 <? Z.of_nat (length l)) with true by lia. eexists. split; [reflexivity|]. rewrite Et. split; [by apply (text_cut m cwd l (47 :: x))|].
      intros a Ha. apply ld8_st8_ne. lia.
Qed.

End Paths.

(** ** The properties *)

Section Properties.
Context {H : Type} `{HA : Allocator H} `{!AllocatorLaws H} {D : Type} `{HB : BlockDevice D} `{!BlockDeviceLaws D}
  `{HK : KString} `{!KStringLaws}.
Variable env : dir_env.
Variables inode_at buf : Z.
Variable disk : Z -> Z.
Variables inodes table : Z.
Abbreviation own := (sub_env env inode_at buf).
Abbreviation pos := (inode_pos (fs env) table).
Hypothesis L : dir_layout env.
Hypothesis Lown : dir_layout own.

(** The type bits of inode [num]. *)
Definition kind_of (num : Z) : Z := Z.land (le16 (part (fs env) disk) (pos num)) 0xF000.

Lemma ready_own h d owned : ready env disk inodes table h d owned <-> ready own disk inodes table h d owned.
Proof. split; intros [R1 R2 R3 R4]; by split. Qed.

(** Both commands look the name up and fetch the inode that they find. *)
Lemma fetch_named r h d owned :
  ready env disk inodes table h d owned -> valid_inode env inodes table r ->
  exists h' d', get_inode own r h d = Some (h', d') /\ ready own disk inodes table h' d' owned /\
    has_inode own disk table r h' /\ file_type own h' = kind_of r /\ same_outside (dir_area own) (heap_mem h) (heap_mem h').
Proof.
  intros R Hv. apply ready_own in R. destruct (get_inode_ok own disk inodes table Lown r h d owned R Hv) as (h' & d' & E & R' & Hi & Hs & _).
  exists h', d'. split; [done|]. split; [done|]. split; [done|]. split; [|done]. pose proof (fs_facts own Lown) as F.
  unfold file_type, kind_of, i_mode, ld16, le16. cbn [sub_env fs] in F. f_equal.
  rewrite <- (Z.add_0_r (inode own)) at 1. by rewrite !Hi, Z.add_0_r by (cbn [sub_env fs]; lia).
Qed.

Lemma ext2_cat_ok (indirect_buf cwd_inode : Z) (filename : list Z) (v : Vga.vga) (h : H) (d : D) (owned : list (Z * Z)) :
  dir_layout (indirect_env own indirect_buf) ->
  indirect_buf + g_block_size (fs env) <= buf \/ buf + g_block_size (fs env) <= indirect_buf ->
  filename <> [] -> Forall (fun c => c <> 0) filename -> node_ok env disk inodes table cwd_inode ->
  ready env disk inodes table h d owned ->
  let r := child env disk table (has_room (g_block_size (fs env)) h) cwd_inode filename in
  (r <> 0 -> valid_inode env inodes table r) ->
  (kind_of r = 0x8000 -> file_ok own disk inodes table r) ->
  exists v' h' d', ext2_cat env own indirect_buf cwd_inode filename v h d = Some (v', h', d') /\
    ready env disk inodes table h' d' owned /\
    v' = (if r =? 0 then say "cat: File not found." v
          else if kind_of r =? 0x4000 then say "cat: Cannot cat a directory." v
          else if negb (kind_of r =? 0x8000) then say "cat: Not a regular file." v
          else if file_size (fs env) disk (pos r) =? 0 then v
          else Vga.vga_putc 10 (put_chars v (cat_text own disk table r))).
Proof.
  intros Lind Hap Hne Hn Hnode R r Hv Hf.
  destruct (ext2_lookup_ok env disk inodes table L cwd_inode filename h d owned Hn Hnode R) as (h1 & d1 & E1 & R1 & _).
  fold r in E1. unfold ext2_cat. destruct filename as [|x name]; [done|]. rewrite (bind_some _ _ _ E1). clear E1.
  destruct (Z.eqb_spec r 0) as [E0|E0]; [by eexists _, h1, d1|].
  destruct (fetch_named r h1 d1 owned R1 (Hv E0)) as (h2 & d2 & E2 & R2 & Hi & Ek & _). rewrite (bind_some _ _ _ E2), Ek. clear E2.
  pose proof (proj2 (ready_own h2 d2 owned) R2) as R2'.
  destruct (kind_of r =? 0x4000); [by eexists _, h2, d2|].
  destruct (Z.eqb_spec (kind_of r) 0x8000) as [E8|_]; cbn [negb]; [|by eexists _, h2, d2].
  destruct (cat_contents_ok own disk inodes table Lown indirect_buf r h2 d2 owned v) as (h3 & d3 & E3 & R3);
    [done|done|by apply Hf|done|done|].
  eexists _, h3, d3. split; [exact E3|]. split; [by apply ready_own|done].
Qed.

(** C19: [ext2_cat] shows the file that the name leads to.  A file without holes
    that is not larger than the direct blocks and the indirect one is printed
    whole ([file_text]), with a newline behind it.  Of any other regular file
    the console shows what lies in these blocks, in order ([cat_text]): the
    zero bytes of holes are left out, and the rest of a larger file, without a
    message.  Nothing at all is printed for an empty file, and for a missing
    name, a directory or any other inode the message that fits. *)
Theorem cat_shows_file (indirect_buf cwd_inode : Z) (filename : list Z) (v : Vga.vga) (h : H) (d : D) (owned : list (Z * Z)) :
  dir_layout (indirect_env own indirect_buf) ->
  indirect_buf + g_block_size (fs env) <= buf \/ buf + g_block_size (fs env) <= indirect_buf ->
  filename <> [] -> Forall (fun c => c <> 0) filename -> node_ok env disk inodes table cwd_inode ->
  ready env disk inodes table h d owned ->
  let r := child env disk table (has_room (g_block_size (fs env)) h) cwd_inode filename in
  (r <> 0 -> valid_inode env inodes table r) ->
  (kind_of r = 0x8000 -> file_ok own disk inodes table r) ->
  exists v' h' d', ext2_cat env own indirect_buf cwd_inode filename v h d = Some (v', h', d') /\
    ready env disk inodes table h' d' owned /\
    v' = (if r =? 0 then say "cat: File not found." v
          else if kind_of r =? 0x4000 then say "cat: Cannot cat a directory." v
          else if negb (kind_of r =? 0x8000) then say "cat: Not a regular file." v
          else if file_size (fs env) disk (pos r) =? 0 then v
          else Vga.vga_putc 10 (put_chars v (cat_text own disk table r))) /\
    (r <> 0 -> kind_of r = 0x8000 -> file_size (fs env) disk (pos r) <> 0 -> complete own disk table r ->
     v' = Vga.vga_putc 10 (put_chars v (file_text own disk table r))).
Proof.
  intros Lind Hap Hne Hn Hnode R r Hv Hf.
  destruct (ext2_cat_ok indirect_buf cwd_inode filename v h d owned Lind Hap Hne Hn Hnode R Hv Hf) as (v' & h' & d' & E & R' & Ev).
  exists v', h', d'. do 3 (split; [done|]). fold r in Ev. intros E0%Z.eqb_neq Ek Es%Z.eqb_neq Hc.
  by rewrite Ev, E0, Ek, Es, cat_text_complete.
Qed.

Lemma update_path_wf fuel cwd path m m' : mem_wf m -> update_path fuel cwd path m = Some m' -> mem_wf m'.
Proof.
  intros Hm. unfold update_path. case_match; [by intros [= <-]|]. destruct (text_len _ _ _ _) as [len|]; [|done]. cbn [mbind option_bind].
  repeat case_match; intros [= <-]; try apply poke_wf; try apply st8_wf; done.
Qed.

(** The components of the path behind a [cd]. *)
Definition cd_comps (comps : list (list Z)) (path : list Z) : list (list Z) :=
  if decide (path = [46]) then comps else if decide (path = [46; 46]) then removelast comps else comps ++ [path].

Lemma update_path_ok fuel cwd comps path m :
  dir_name path -> text_at m cwd (path_text comps) -> Forall dir_name comps -> (length (path_text comps) <= fuel)%nat ->
  exists m', update_path fuel cwd path m = Some m' /\ text_at m' cwd (path_text (cd_comps comps path)) /\
    same_outside (fun a => cwd <= a <= cwd + Z.of_nat (Nat.max (length (path_text comps)) (length (path_text (cd_comps comps path))))) m m'.
Proof.
  intros Hp Ht Hc Hf. unfold cd_comps. case_decide as E1; [|case_decide as E2].
  - subst. exists m. unfold update_path. rewrite strcmp_name by (by repeat constructor). done.
  - subst. destruct (update_up fuel cwd comps m Ht Hc Hf) as (m' & E & Ht' & Hs). exists m'. split; [done|]. split; [done|].
    eapply same_outside_mono; [|exact Hs]. cbn. lia.
  - destruct (update_down fuel cwd comps path m Hp E1 E2 Ht Hc Hf) as (m' & E & Ht' & Hs). exists m'. split; [done|]. split; [done|].
    eapply same_outside_mono; [|exact Hs]. cbn. lia.
Qed.

(** C20: [ext2_cd] moves to the directory that the name leads to, and the path text
    follows: "." leaves it, ".." takes the last component off (and leaves "/"),
    any other name is put behind it, as long as the text fits into the 128
    bytes of [g_cwd_path]; a missing name and a file change neither. *)
Theorem cd_moves (fuel : nat) (g_cwd_path cwd_inode : Z) (comps : list (list Z)) (path : list Z) (v : Vga.vga) (h : H) (d : D)
    (owned : list (Z * Z)) :
  (forall a, g_cwd_path <= a < g_cwd_path + 128 -> ~ dir_area env a /\ ~ dir_area own a /\ ~ heap_area a /\
     ~ (g_sb env <= a < g_sb env + 4) /\ ~ (fs_gdt env + 8 <= a < fs_gdt env + 12)) ->
  dir_name path -> Forall dir_name comps -> text_at (heap_mem h) g_cwd_path (path_text comps) ->
  (length (path_text comps) < 128)%nat -> (length (path_text (cd_comps comps path)) < 128)%nat -> (128 <= fuel)%nat ->
  node_ok env disk inodes table cwd_inode -> ready env disk inodes table h d owned ->
  let r := child env disk table (has_room (g_block_size (fs env)) h) cwd_inode path in
  (r <> 0 -> valid_inode env inodes table r) ->
  exists v' h' d',
    let found := negb (r =? 0) && (kind_of r =? 0x4000) in
    ext2_cd env own fuel g_cwd_path cwd_inode path v h d = Some (if found then r else cwd_inode, v', h', d') /\
    ready env disk inodes table h' d' owned /\
    text_at (heap_mem h') g_cwd_path (path_text (if found then cd_comps comps path else comps)) /\
    v' = (if r =? 0 then say "cd: No such directory." v else if found then v else say "cd: Not a directory." v).
Proof.
  intros Hout Hp Hc Ht Hl1 Hl2 Hfuel Hnode R r Hv. destruct (name_chars path Hp) as [Hn0 _].
  destruct (ext2_lookup_ok env disk inodes table L cwd_inode path h d owned Hn0 Hnode R) as (h1 & d1 & E1 & R1 & Hs1 & _).
  fold r in E1. unfold ext2_cd. destruct path as [|x name]; [by destruct Hp|]. rewrite (bind_some _ _ _ E1). clear E1.
  assert (Hkeep : forall m m' l, (length l < 128)%nat -> (forall a, g_cwd_path <= a < g_cwd_path + 128 -> ld8 m' a = ld8 m a) ->
            text_at m g_cwd_path l -> text_at m' g_cwd_path l).
  { intros m m' l Hl Hs (T1 & T2 & T3). split; [|split; [|done]].
    - intros i Hi. by rewrite Hs, T1 by lia.
    - by rewrite Hs by lia. }
  assert (Ht1 : text_at (heap_mem h1) g_cwd_path (path_text comps)).
  { apply (Hkeep (heap_mem h)); [done| |done]. intros a Ha. apply Hs1. by apply Hout. }
  destruct (Z.eqb_spec r 0) as [E0|E0]; cbn [negb andb]; [by eexists _, h1, d1|].
  destruct (fetch_named r h1 d1 owned R1 (Hv E0)) as (h2 & d2 & E2 & R2 & Hi & Ek & Hs2). rewrite (bind_some _ _ _ E2), Ek. clear E2.
  pose proof (proj2 (ready_own h2 d2 owned) R2) as R2'.
  assert (Ht2 : text_at (heap_mem h2) g_cwd_path (path_text comps)).
  { apply (Hkeep (heap_mem h1)); [done| |done]. intros a Ha. apply Hs2. by apply Hout. }
  destruct (kind_of r =? 0x4000); cbn [negb]; [|by eexists _, h2, d2].
  destruct (update_path_ok fuel g_cwd_path comps (x :: name) (heap_mem h2)) as (m & E3 & Ht3 & Hs3); [done..|lia|].
  rewrite (bind_some _ _ _ E3). eexists _, _, d2. split; [reflexivity|]. rewrite heap_mem_set. split; [|done].
  destruct R2' as [Q1 Q2 Q3 Q4].
  assert (Hsame : forall a, ~ (g_cwd_path <= a < g_cwd_path + 128) -> ld8 m a = ld8 (heap_mem h2) a).
  { intros a Ha. apply Hs3. lia. }
  split; [|done| |]; rewrite ?heap_mem_set.
  - apply heap_inv_outside; [done| |].
    + exact (update_path_wf _ _ _ _ _ (heap_inv_wf _ _ Q1) E3).
    + intros a Ha. apply Hsame. intros Hin. by destruct (Hout a Hin) as (_ & _ & Hh & _).
  - rewrite <- Q3. apply ld32_same. intros i Hii. apply Hsame. intros Hin. by destruct (Hout i Hin) as (_ & _ & _ & Hg & _).
  - rewrite <- Q4. apply ld32_same. intros i Hii. apply Hsame. intros Hin. destruct (Hout i Hin) as (_ & _ & _ & _ & Hg). lia.
Qed.

End Properties.

(** A path that does not fit is written past the end of [g_cwd_path]: the
    component goes down to whatever follows the 128 bytes, no length is
    compared with the size of the array. *)
Theorem cd_path_overruns `{HK : KString} `{!KStringLaws} (fuel : nat) (g_cwd_path : Z) (comps : list (list Z)) (path : list Z) (m : mem) :
  dir_name path -> path <> [46] -> path <> [46; 46] -> text_at m g_cwd_path (path_text comps) -> Forall dir_name comps ->
  (length (path_text comps) <= fuel)%nat -> (128 < length (path_text (comps ++ [path])))%nat ->
  exists m', update_path fuel g_cwd_path path m = Some m' /\
    ld8 m' (g_cwd_path + 128) = u8 (getZ (path_text (comps ++ [path])) 128).
Proof.
  intros Hp H1 H2 Ht Hc Hf Hlen. destruct (update_down fuel g_cwd_path comps path m Hp H1 H2 Ht Hc Hf) as (m' & E & (Hb & _) & _).
  exists m'. split; [done|]. apply Hb. lia.
Qed.

(** ** Witnesses: in the root directory of Dir.v *)

#[local] Existing Instances c_strings c_strings_laws dir_heap dir_heap_laws ram_device ram_device_laws.

Lemma cat_shows_file_witness :
  exists v' h' d', ext2_cat root_env (sub_env root_env 0x51000 0x62000) 0x64000 2 [104; 105] Vga.screen0 root_heap dir_image
    = Some (v', h', d') /\
    v' = Vga.vga_putc 10 (put_chars Vga.screen0 (cat_text (sub_env root_env 0x51000 0x62000) dir_disk 5 12)).
Proof.
  assert (Hkind : kind_of root_env dir_disk 5 12 = 0x8000) by (vm_compute; reflexivity).
  assert (Hr : child root_env dir_disk 5 (has_room (g_block_size (fs root_env)) root_heap) 2 [104; 105] = 12) by (by rewrite root_child).
  destruct (cat_shows_file root_env 0x51000 0x62000 dir_disk 16 5 root_layout (apart_layout 0x51000 0x62000 ltac:(lia) ltac:(lia))
    0x64000 2 [104; 105] Vga.screen0 root_heap dir_image []) as (v' & h' & d' & E & _ & Hv' & _).
  - apply (apart_layout 0x51000 0x64000); lia.
  - cbn. lia.
  - done.
  - repeat constructor; done.
  - exact root_node.
  - exact root_ready.
  - intros _. rewrite Hr. vm_compute. repeat split; congruence.
  - intros _. rewrite Hr. split.
    + vm_compute. repeat split; congruence.
    + intros b Hb. change (loadable _ _ _) with (loadable small_fs dir_disk (inode_pos small_fs 5 12)) in Hb.
      assert (E : loadable small_fs dir_disk (inode_pos small_fs 5 12) = 2) by (vm_compute; reflexivity). rewrite E in Hb.
      assert (Hc : b = 0 \/ b = 1) by lia. destruct Hc as [-> | ->]; vm_compute; congruence.
    + vm_compute. congruence.
  - exists v', h', d'. split; [exact E|]. rewrite Hv', Hr, Hkind.
    assert (Es : file_size (fs root_env) dir_disk (inode_pos (fs root_env) 5 12) = 1030) by (vm_compute; reflexivity).
    rewrite Es. reflexivity.
Defined.

(** The root heap with the path "/" at 0x70000. *)
Definition cd_heap : Heap.heap := set_heap_mem root_heap (st8 (st8 (heap_mem root_heap) 0x70000 47) 0x70001 0).

Lemma cd_ready : ready root_env dir_disk 16 5 cd_heap dir_image [].
Proof.
  destruct root_ready as [R1 R2 R3 R4]. split; unfold cd_heap; rewrite ?heap_mem_set.
  - apply heap_inv_outside; [exact R1|apply st8_wf, st8_wf, (heap_inv_wf _ _ R1)|].
    intros x Hx. cbn in Hx. change Heap.heap_at with 0x200000 in Hx. change Heap.HEAP_SIZE with 0x80000 in Hx. by rewrite !ld8_st8_ne by lia.
  - exact R2.
  - rewrite <- R3. apply ld32_same. intros i Hi. cbn in Hi. by rewrite !ld8_st8_ne by lia.
  - rewrite <- R4. apply ld32_same. intros i Hi. cbn in Hi. by rewrite !ld8_st8_ne by lia.
Qed.

Lemma cd_path_text : text_at (heap_mem cd_heap) 0x70000 (path_text []).
Proof.
  unfold cd_heap. rewrite heap_mem_set. split; [|split].
  - intros i Hi. cbn in Hi. assert (i = 0) as -> by lia. rewrite ld8_st8_ne, Z.add_0_r, ld8_st8_eq by lia. reflexivity.
  - change (0x70000 + Z.of_nat (length (path_text []))) with 0x70001. by rewrite ld8_st8_eq.
  - repeat constructor; done.
Qed.

Lemma cd_moves_witness :
  exists h' d', ext2_cd root_env (sub_env root_env 0x51000 0x62000) 128 0x70000 2 [104; 105] Vga.screen0 cd_heap dir_image
    = Some (2, say "cd: Not a directory." Vga.screen0, h', d').
Proof.
  assert (Hkind : kind_of root_env dir_disk 5 12 = 0x8000) by (vm_compute; reflexivity).
  assert (Hr : child root_env dir_disk 5 (has_room (g_block_size (fs root_env)) cd_heap) 2 [104; 105] = 12) by (by rewrite root_child).
  destruct (cd_moves root_env 0x51000 0x62000 dir_disk 16 5 root_layout (apart_layout 0x51000 0x62000 ltac:(lia) ltac:(lia))
    128 0x70000 2 [] [104; 105] Vga.screen0 cd_heap dir_image []) as (v' & h' & d' & E & _ & _ & Hv').
  - intros a Ha. unfold dir_area. cbn. change Heap.heap_at with 0x200000. change Heap.HEAP_SIZE with 0x80000. lia.
  - split; [done|]. repeat constructor; done || lia.
  - constructor.
  - exact cd_path_text.
  - cbn. lia.
  - vm_compute. lia.
  - lia.
  - exact root_node.
  - exact cd_ready.
  - intros _. rewrite Hr. vm_compute. repeat split; congruence.
  - exists h', d'. clear - E Hv' Hr Hkind. rewrite Hr, Hkind in E, Hv'.
    destruct (12 =? 0) eqn:E0; [discriminate E0|]. destruct (0x8000 =? 0x4000) eqn:E1; [discriminate E1|].
    rewrite Hv' in E. exact E.
Defined.

Lemma cd_path_overruns_witness :
  exists m', update_path 128 0x70000 (replicate 128 97) (heap_mem cd_heap) = Some m' /\ ld8 m' (0x70000 + 128) = 97.
Proof.
  apply (cd_path_overruns 128 0x70000 [] (replicate 128 97) (heap_mem cd_heap)).
  - split; [done|]. apply Forall_replicate. split; lia.
  - done.
  - done.
  - exact cd_path_text.
  - constructor.
  - cbn. lia.
  - vm_compute. lia.
Defined.

End Files.
