(* ===== verification/Syscall.v ===== *)
(** * System calls: [c_syscall_handler] in src/kernel/main.c

    The handler works on the registers that the stub in boot.s has saved, on
    memory (user and kernel memory are one address space), on the console of
    Vga.v, the serial line of Serial.v and the keyboard ring of Keyboard.v.
    [hlt] waits for an interrupt: with the interrupt flag off it never
    returns, and the gate of vector 0x80 and the [cli] of the stub turn the
    flag off.

    The pointers of a program are used unchecked.  The keyboard ring, the
    screen and the variables of the console are state of their own here, so
    that a pointer to the kernel image or to the video memory is an outcome of
    its own ([Kernel_address]): there the model ends, and the theorems say when
    it is reached. *)

From Stdlib Require Import ZifyBool String.
From S2P Require Import Prelude Cmem Vga Keyboard Serial Traps Dir.
Local Open Scope Z_scope.

Module Syscall.

Definition SYS_WRITE : Z := 1.
Definition SYS_CLEAR : Z := 2.
Definition SYS_EXIT : Z := 3.
Definition SYS_READ : Z := 4.
Definition SYS_READ_RAW : Z := 5.

(** The saved registers. *)
Record syscall_regs := mkRegs {
  es : Z; ds : Z; edi : Z; esi : Z; ebp : Z; esp_dummy : Z; ebx : Z; edx : Z; ecx : Z; eax : Z;
  eip : Z; cs : Z; eflags : Z; user_esp : Z; user_ss : Z
}.

Definition set_eax (v : Z) (r : syscall_regs) : syscall_regs :=
  mkRegs (es r) (ds r) (edi r) (esi r) (ebp r) (esp_dummy r) (ebx r) (edx r) (ecx r) v
    (eip r) (cs r) (eflags r) (user_esp r) (user_ss r).

(** What the handler works on; [halts] counts the [hlt]s so far. *)
Record kernel := mkKernel {
  k_mem : mem; screen : Vga.vga; line : Serial.serial; keys : Keyboard.ring; halts : nat
}.

Definition set_mem (m : mem) (k : kernel) : kernel := mkKernel m (screen k) (line k) (keys k) (halts k).
Definition set_screen (v : Vga.vga) (k : kernel) : kernel := mkKernel (k_mem k) v (line k) (keys k) (halts k).
Definition set_line (s : Serial.serial) (k : kernel) : kernel := mkKernel (k_mem k) (screen k) s (keys k) (halts k).
Definition set_keys (r : Keyboard.ring) (k : kernel) : kernel := mkKernel (k_mem k) (screen k) (line k) r (halts k).

Inductive outcome :=
| Returned (r : syscall_regs) (k : kernel)   (** back to user mode *)
| Exited (status : Z) (k : kernel)           (** [task_exit] and [schedule], which are not in the repository *)
| Kernel_address (a : Z) (k : kernel).       (** a pointer of the program has led to the kernel's own memory *)

(** The memory that the rest of [kernel] lives in: the image, which linker.ld
    puts between 1 MiB and [kernel_end] (with the ring, the variables of the
    console and the stacks), and the 80 * 25 cells of the screen. *)
Definition kernel_owns (kernel_end a : Z) : bool :=
  ((0x100000 <=? a) && (a <? kernel_end)) || ((0xB8000 <=? a) && (a <? 0xB8000 + 2 * 80 * 25)).

(** A part of the handler: it ends, or an access reaches the kernel. *)
Inductive run (A : Type) :=
| Done (x : A) (k : kernel)
| Reached (a : Z) (k : kernel).
#[global] Arguments Done {A} x k.
#[global] Arguments Reached {A} a k.

Section Handler.
Context `{KString}.
Variable kernel_end : Z.                      (** the end of the image *)
Variable lsr : nat -> Z.                      (** the line status, read by read *)
Variable if_flag : bool.                      (** the interrupt flag in the handler *)
Variable irq : nat -> Keyboard.ring -> Keyboard.ring.   (** the interrupts during the [n]-th [hlt] *)
Variable fuel : nat.

Definition hlt (k : kernel) : option kernel :=
  if if_flag then Some (mkKernel (k_mem k) (screen k) (line k) (irq (halts k) (keys k)) (S (halts k))) else None.

(** A C string in memory: its characters, without the NUL. *)
Fixpoint mem_string (n : nat) (m : mem) (a : Z) : option (list Z) :=
  let c := char_val (ld8 m a) in
  if c =? 0 then Some []
  else match n with O => None | S n' => l ← mem_string n' m (u32 (a + 1)); Some (c :: l) end.

(** [for (i = 0; i < len; i++) { serial_putc(buf[i]); vga_putc(buf[i]); }] *)
Fixpoint write_loop (n : nat) (buf i : Z) (k : kernel) : option (run unit) :=
  match n with
  | O => Some (Done () k)
  | S n' =>
      let a := u32 (buf + i) in
      if kernel_owns kernel_end a then Some (Reached a k)
      else
        let c := char_val (ld8 (k_mem k) a) in
        s ← Serial.serial_putc lsr fuel c (line k);
        write_loop n' buf (i + 1) (set_screen (Vga.vga_putc c (screen k)) (set_line s k))
  end.

(** The same for a string of the program; on the right the address in the
    kernel that it runs into. *)
Fixpoint user_string (n : nat) (m : mem) (a : Z) : option (list Z + Z) :=
  if kernel_owns kernel_end a then Some (inr a)
  else
    let c := char_val (ld8 m a) in
    if c =? 0 then Some (inl [])
    else
      match n with
      | O => None
      | S n' => t ← user_string n' m (u32 (a + 1)); Some (match t with inl l => inl (c :: l) | inr a => inr a end)
      end.

(** [do { c = keyboard_buffer_pop(); if (c == 0) hlt; } while (c == 0);] *)
Fixpoint read_key (n : nat) (k : kernel) : option (Z * kernel) :=
  let '(c, r) := Keyboard.keyboard_buffer_pop (keys k) in
  let k := set_keys r k in
  if c =? 0 then
    k ← hlt k;
    match n with O => None | S n' => read_key n' k end
  else Some (c, k).

(** The loop of SYS_READ with room for [n] more characters. *)
Fixpoint read_loop (n : nat) (buf count : Z) (k : kernel) : option (run Z) :=
  match n with
  | O => Some (Done count k)
  | S n' =>
      '(c, k) ← read_key fuel k;
      let a := u32 (buf + count) in
      if kernel_owns kernel_end a then Some (Reached a k)
      else
        let k := set_mem (st8 (k_mem k) a c) k in
        if c =? 10 then Some (Done (count + 1) k) else read_loop n' buf (count + 1) k
  end.

(** SYS_WRITE, with its old form for a pointer in ebx. *)
Definition sys_write (r : syscall_regs) (k : kernel) : option (run Z) :=
  if (ecx r =? 0) && (edx r =? 0) then
    if negb (ebx r =? 0) then
      text ← user_string fuel (k_mem k) (ebx r);
      match text with
      | inl str =>
          s ← Serial.serial_puts lsr fuel str (line k);
          Some (Done (u32 (strlen str)) (set_screen (Vga.vga_puts str (screen k)) (set_line s k)))
      | inr a => Some (Reached a k)
      end
    else Some (Done 0 k)
  else if negb (ebx r =? 1) && negb (ebx r =? 2) then Some (Done (u32 (-1)) k)
  else
    x ← write_loop (Z.to_nat (edx r)) (ecx r) 0 k;
    Some (match x with Done _ k => Done (edx r) k | Reached a k => Reached a k end).

(** The result of a part goes to eax. *)
Definition give (r : syscall_regs) (x : run Z) : outcome :=
  match x with Done v k => Returned (set_eax v r) k | Reached a k => Kernel_address a k end.

Definition c_syscall_handler (r : syscall_regs) (k : kernel) : option outcome :=
  let syscall_num := eax r in
  if syscall_num =? SYS_WRITE then x ← sys_write r k; Some (give r x)
  else if syscall_num =? SYS_CLEAR then Some (Returned (set_eax 0 r) (set_screen (Vga.clear_screen (screen k)) k))
  else if syscall_num =? SYS_EXIT then Some (Exited (ebx r) k)
  else if syscall_num =? SYS_READ_RAW then '(c, k) ← read_key fuel k; Some (Returned (set_eax (u8 c) r) k)
  else if syscall_num =? SYS_READ then
    x ← read_loop (Z.to_nat (edx r)) (ecx r) 0 k; Some (give r x)
  else
    s ← Serial.dbg_kv lsr fuel (chars "syscall") (chars "unknown") syscall_num (line k);
    Some (Returned (set_eax (u32 (-1)) r) (set_line s k)).

End Handler.

(** ** Lemmas *)

(** The bytes of user memory that a write is about. *)
Definition user_text (m : mem) (buf n : Z) : list Z := List.map (fun i => char_val (ld8 m (u32 (buf + i)))) (seqZ 0 n).

Definition put_all (l : list Z) (v : Vga.vga) : Vga.vga := foldl (fun v c => Vga.vga_putc c v) v l.

(** [n] bytes from [buf] on are not the kernel's. *)
Definition not_kernel (kernel_end buf n : Z) : Prop := forall i, 0 <= i < n -> kernel_owns kernel_end (u32 (buf + i)) = false.

Section Facts.
Context `{HK : KString}.
Variable kernel_end : Z.
Variable lsr : nat -> Z.
Variable if_flag : bool.
Variable irq : nat -> Keyboard.ring -> Keyboard.ring.
Variable fuel : nat.

Lemma serial_putc_sends c s :
  Serial.ready_within lsr fuel -> exists s', Serial.serial_putc lsr fuel c s = Some s' /\ Serial.sent s' = Serial.sent s ++ [u8 c].
Proof.
  intros Hr. destruct (Serial.serial_wait_ready lsr fuel fuel s (Hr (Serial.lsr_reads s)) ltac:(lia)) as (s1 & Hw & Hs1).
  unfold Serial.serial_putc. rewrite (bind_some _ _ _ Hw). eexists. split; [done|]. rewrite Serial.sent_outb. unfold Serial.sent. by rewrite Hs1.
Qed.

Lemma write_loop_ok n buf i k :
  Serial.ready_within lsr fuel -> (forall j, i <= j < i + Z.of_nat n -> kernel_owns kernel_end (u32 (buf + j)) = false) ->
  exists s, write_loop kernel_end lsr fuel n buf i k
    = Some (Done () (set_screen (put_all (List.map (fun j => char_val (ld8 (k_mem k) (u32 (buf + j)))) (seqZ i (Z.of_nat n))) (screen k)) (set_line s k))) /\
    Serial.sent s = Serial.sent (line k) ++ List.map u8 (List.map (fun j => char_val (ld8 (k_mem k) (u32 (buf + j)))) (seqZ i (Z.of_nat n))).
Proof.
  intros Hr. revert i k. induction n as [|n IH]; intros i k Hown; cbn [write_loop].
  - exists (line k). rewrite app_nil_r. by destruct k.
  - rewrite seqZ_cons by lia. replace (Z.pred (Z.of_nat (S n))) with (Z.of_nat n) by lia. cbn [List.map].
    rewrite Hown by lia. set (c := char_val _). destruct (serial_putc_sends c (line k) Hr) as (s1 & E1 & Hs1). rewrite (bind_some _ _ _ E1).
    destruct (IH (i + 1) (set_screen (Vga.vga_putc c (screen k)) (set_line s1 k))) as (s & -> & Hs); [intros j Hj; apply Hown; lia|].
    exists s. cbn [set_screen set_line k_mem screen line] in *. split; [done|]. rewrite Hs, Hs1, <- app_assoc. done.
Qed.

(** Reading a key. *)
Lemma read_key_some n k c q :
  Keyboard.rep (keys k) (c :: q) -> c <> 0 ->
  exists r, read_key if_flag irq n k = Some (c, set_keys r k) /\ Keyboard.rep r q.
Proof.
  intros Hr Hc. destruct (Keyboard.pop_refines (keys k) (c :: q) Hr) as [E Hr'].
  destruct (Keyboard.keyboard_buffer_pop (keys k)) as [c' r] eqn:Ep. cbn [fst snd Keyboard.q_pop] in *. subst c'.
  exists r. split; [|done]. destruct n; cbn [read_key]; rewrite Ep; by rewrite (proj2 (Z.eqb_neq c 0)).
Qed.

(** With interrupts off nothing ever fills an empty ring. *)
Lemma read_key_none n k : if_flag = false -> Keyboard.rep (keys k) [] -> read_key if_flag irq n k = None.
Proof.
  intros -> Hr. destruct (Keyboard.pop_refines (keys k) [] Hr) as [E _].
  destruct (Keyboard.keyboard_buffer_pop (keys k)) as [c' r] eqn:Ep. cbn [fst Keyboard.q_pop] in E. subst c'.
  destruct n; cbn [read_key]; by rewrite Ep.
Qed.

(** What a read of at most [n] characters takes from the queue; [None]: it
    needs more keys. *)
Fixpoint line_of (n : nat) (q : list Z) : option (list Z * list Z) :=
  match n with
  | O => Some ([], q)
  | S n' =>
      match q with
      | [] => None
      | c :: q' => if c =? 10 then Some ([10], q') else '(l, rest) ← line_of n' q'; Some (c :: l, rest)
      end
  end.

Lemma line_of_app n q l rest : line_of n q = Some (l, rest) -> q = l ++ rest /\ (length l <= n)%nat.
Proof.
  revert q l rest. induction n as [|n IH]; intros q l rest; cbn [line_of]; [by intros [= <- <-]|].
  destruct q as [|c q]; [done|]. destruct (Z.eqb_spec c 10) as [->|_]; [intros [= <- <-]; cbn; split; [done|lia]|].
  destruct (line_of n q) as [[l1 r1]|] eqn:E; [|done]. intros [= <- <-]. destruct (IH _ _ _ E) as [-> ?]. cbn. split; [done|lia].
Qed.

Lemma read_loop_some n buf count k q l rest :
  Keyboard.rep (keys k) q -> Forall (fun c => c <> 0) q -> line_of n q = Some (l, rest) ->
  0 <= buf -> 0 <= count -> buf + count + Z.of_nat n <= 2 ^ 32 ->
  not_kernel kernel_end (buf + count) (Z.of_nat (length l)) ->
  exists m r, read_loop kernel_end if_flag irq fuel n buf count k
      = Some (Done (count + Z.of_nat (length l)) (set_mem m (set_keys r k))) /\
    Keyboard.rep r rest /\
    (forall i, 0 <= i < Z.of_nat (length l) -> ld8 m (buf + count + i) = u8 (getZ l i)) /\
    same_outside (fun a => buf + count <= a < buf + count + Z.of_nat (length l)) (k_mem k) m.
Proof.
  revert count k q l rest. induction n as [|n IH]; intros count k q l rest Hr Hq; cbn [line_of read_loop].
  - intros [= <- <-] H1 H2 H3 _. exists (k_mem k), (keys k). rewrite Z.add_0_r. split; [by destruct k|]. split; [done|]. split; [cbn [length]; lia|done].
  - destruct q as [|c q]; [done|]. inversion Hq as [|? ? Hc Hq']; subst. destruct (read_key_some fuel k c q Hr Hc) as (r & E & Hr').
    rewrite (bind_some _ _ _ E). cbv beta iota zeta. cbn [set_keys k_mem]. destruct (Z.eqb_spec c 10) as [->|Hne].
    + intros [= <- <-] H1 H2 H3 Hown. specialize (Hown 0). rewrite Z.add_0_r in Hown. rewrite Hown by (cbn [length]; lia).
      exists (st8 (k_mem k) (u32 (buf + count)) 10), r. rewrite u32_small by lia. split; [done|]. split; [done|]. split.
      * intros i Hi. cbn [length] in Hi. assert (i = 0) as -> by lia. by rewrite Z.add_0_r, ld8_st8_eq.
      * intros a Ha. cbn [length] in Ha. apply ld8_st8_ne. lia.
    + destruct (line_of n q) as [[l1 r1]|] eqn:El; [|done]. intros [= <- <-] H1 H2 H3 Hown. cbn [length] in Hown.
      pose proof (Hown 0 ltac:(lia)) as Hown0. rewrite Z.add_0_r in Hown0. rewrite Hown0, u32_small by lia.
      destruct (IH (count + 1) (set_mem (st8 (k_mem k) (buf + count) c) (set_keys r k)) q l1 r1) as (m & r2 & -> & Hr2 & Hm & Hs); try done; try lia.
      { intros i Hi. replace (buf + (count + 1) + i) with (buf + count + (i + 1)) by lia. apply Hown. lia. }
      exists m, r2. cbn [set_mem set_keys k_mem screen line keys halts length] in *. split; [do 2 f_equal; lia|]. split; [done|]. split.
      * intros i Hi. destruct (decide (i = 0)) as [->|Hi0].
        -- rewrite Z.add_0_r, Hs, ld8_st8_eq by lia. done.
        -- replace (buf + count + i) with (buf + (count + 1) + (i - 1)) by lia. rewrite Hm by lia. unfold getZ.
           by replace (Z.to_nat i) with (S (Z.to_nat (i - 1))) by lia.
      * intros a Ha. rewrite Hs by lia. apply ld8_st8_ne. lia.
Qed.

(** A read whose buffer runs into the kernel gets there. *)
Lemma read_loop_reached n buf count k q l rest j :
  Keyboard.rep (keys k) q -> Forall (fun c => c <> 0) q -> line_of n q = Some (l, rest) ->
  0 <= j < Z.of_nat (length l) -> not_kernel kernel_end (buf + count) j ->
  kernel_owns kernel_end (u32 (buf + count + j)) = true ->
  exists k', read_loop kernel_end if_flag irq fuel n buf count k = Some (Reached (u32 (buf + count + j)) k').
Proof.
  revert count k q l rest j. induction n as [|n IH]; intros count k q l rest j Hr Hq; cbn [line_of read_loop].
  - intros [= <- <-] Hj. cbn [length] in Hj. lia.
  - destruct q as [|c q]; [done|]. inversion Hq as [|? ? Hc Hq']; subst. destruct (read_key_some fuel k c q Hr Hc) as (r & E & Hr').
    rewrite (bind_some _ _ _ E). cbv beta iota zeta. intros El Hj Hfree Hown. destruct (decide (j = 0)) as [->|Hj0].
    { rewrite Z.add_0_r in Hown |- *. rewrite Hown. by eexists. }
    pose proof (Hfree 0 ltac:(lia)) as H0. rewrite Z.add_0_r in H0. rewrite H0. destruct (c =? 10).
    { injection El as <- <-. cbn [length] in Hj. lia. }
    destruct (line_of n q) as [[l1 r1]|] eqn:El1; [|done]. injection El as <- <-. cbn [length] in Hj.
    destruct (IH (count + 1) (set_mem (st8 (k_mem (set_keys r k)) (u32 (buf + count)) c) (set_keys r k)) q l1 r1 (j - 1)) as (k' & E'); try done; try lia.
    + intros i Hi. replace (buf + (count + 1) + i) with (buf + count + (i + 1)) by lia. apply Hfree. lia.
    + by replace (buf + (count + 1) + (j - 1)) with (buf + count + j) by lia.
    + exists k'. by replace (buf + count + j) with (buf + (count + 1) + (j - 1)) by lia.
Qed.

Lemma read_loop_none n buf count k q :
  if_flag = false -> Keyboard.rep (keys k) q -> Forall (fun c => c <> 0) q -> line_of n q = None ->
  not_kernel kernel_end (buf + count) (Z.of_nat (length q)) ->
  read_loop kernel_end if_flag irq fuel n buf count k = None.
Proof.
  intros Hif. revert count k q. induction n as [|n IH]; intros count k q Hr Hq; cbn [line_of read_loop]; [done|].
  destruct q as [|c q]; [by rewrite (read_key_none fuel k Hif Hr)|]. apply Forall_cons_1 in Hq as [Hc Hq'].
  destruct (read_key_some fuel k c q Hr Hc) as (r & E & Hr'). rewrite (bind_some _ _ _ E). destruct (c =? 10); [done|].
  destruct (line_of n q) as [[l1 r1]|] eqn:El; [done|]. intros _ Hown. cbn [length] in Hown.
  pose proof (Hown 0 ltac:(lia)) as Hown0. rewrite Z.add_0_r in Hown0. rewrite Hown0. apply (IH (count + 1) _ q); try done.
  intros i Hi. replace (buf + (count + 1) + i) with (buf + count + (i + 1)) by lia. apply Hown. lia.
Qed.

End Facts.

(** ** The properties *)

(** The gate clears the interrupt flag: what the handler runs with. *)
Definition handler_if (g : Traps.idt_entry) : bool := negb (Traps.gate_interrupt g).

Section Properties.
Context `{HK : KString}.
Variable kernel_end : Z.
Variable lsr : nat -> Z.
Variable if_flag : bool.
Variable irq : nat -> Keyboard.ring -> Keyboard.ring.
Variable fuel : nat.
Abbreviation handler := (c_syscall_handler kernel_end lsr if_flag irq fuel).

(** SYS_WRITE to file 1 or 2 shows the bytes of a buffer outside the kernel, in
    their order, on the screen and on the serial line, NULs included, and
    returns their number; memory and keyboard are left alone.  Any other file
    is refused with -1 and nothing is shown. *)
Theorem sys_write_shows (r : syscall_regs) (k : kernel) :
  eax r = SYS_WRITE -> ecx r <> 0 -> is_u32 (edx r) -> Serial.ready_within lsr fuel ->
  (ebx r = 1 \/ ebx r = 2 -> not_kernel kernel_end (ecx r) (edx r) ->
   exists s, handler r k = Some (Returned (set_eax (edx r) r)
       (set_screen (put_all (user_text (k_mem k) (ecx r) (edx r)) (screen k)) (set_line s k))) /\
     Serial.sent s = Serial.sent (line k) ++ List.map u8 (user_text (k_mem k) (ecx r) (edx r))) /\
  (ebx r <> 1 -> ebx r <> 2 -> handler r k = Some (Returned (set_eax (2 ^ 32 - 1) r) k)).
Proof.
  intros Hn Hc Hd Hr. unfold c_syscall_handler, sys_write. rewrite Hn. cbn [Z.eqb SYS_WRITE Pos.eqb].
  rewrite (proj2 (Z.eqb_neq (ecx r) 0) Hc). cbn [andb]. unfold is_u32 in Hd. split.
  - intros Hb Hown. replace (negb (ebx r =? 1) && negb (ebx r =? 2)) with false by lia.
    destruct (write_loop_ok kernel_end lsr fuel (Z.to_nat (edx r)) (ecx r) 0 k Hr) as (s & E & Hs).
    { intros j Hj. apply Hown. lia. }
    rewrite Z2Nat.id in * by lia. exists s. rewrite (bind_some _ _ _ E). done.
  - intros H1 H2. replace (negb (ebx r =? 1) && negb (ebx r =? 2)) with true by lia. done.
Qed.

(** C30: SYS_READ delivers one line, the newline included, or as many characters as
    there is room for, whichever is less, at the address that the program gave
    and nowhere else; the rest stays in the keyboard buffer.  This holds when
    no byte that is stored belongs to the kernel (its image, with the keyboard
    buffer, or the screen).  The address is not checked: when it leads to the
    kernel, the handler goes on to write there ([Kernel_address], at the first
    such byte). *)
Theorem sys_read_delivers (r : syscall_regs) (k : kernel) (q l rest : list Z) :
  eax r = SYS_READ -> Keyboard.rep (keys k) q -> Forall (fun c => c <> 0) q ->
  0 <= ecx r -> 0 <= edx r -> ecx r + edx r <= 2 ^ 32 -> line_of (Z.to_nat (edx r)) q = Some (l, rest) ->
  q = l ++ rest /\ Z.of_nat (length l) <= edx r /\
  ((forall i, 0 <= i < Z.of_nat (length l) -> kernel_owns kernel_end (ecx r + i) = false) ->
   exists m kr, handler r k = Some (Returned (set_eax (Z.of_nat (length l)) r) (set_mem m (set_keys kr k))) /\
     Keyboard.rep kr rest /\
     (forall i, 0 <= i < Z.of_nat (length l) -> ld8 m (ecx r + i) = u8 (getZ l i)) /\
     same_outside (fun a => ecx r <= a < ecx r + Z.of_nat (length l)) (k_mem k) m) /\
  (forall j, 0 <= j < Z.of_nat (length l) -> kernel_owns kernel_end (ecx r + j) = true ->
   (forall i, 0 <= i < j -> kernel_owns kernel_end (ecx r + i) = false) ->
   exists k', handler r k = Some (Kernel_address (ecx r + j) k')).
Proof.
  intros Hn Hr Hq H1 H2 H3 Hl. destruct (line_of_app _ _ _ _ Hl) as [Eq Hlen]. split; [done|]. split; [lia|].
  unfold c_syscall_handler. rewrite Hn. cbn [Z.eqb SYS_WRITE SYS_CLEAR SYS_EXIT SYS_READ_RAW SYS_READ Pos.eqb]. split.
  - intros Hown.
    destruct (read_loop_some kernel_end if_flag irq fuel (Z.to_nat (edx r)) (ecx r) 0 k q l rest) as (m & kr & E & Hr' & Hm & Hs); try done; try lia.
    { intros i Hi. rewrite Z.add_0_r, u32_small by lia. by apply Hown. }
    exists m, kr. rewrite (bind_some _ _ _ E), Z.add_0_l. split; [done|]. rewrite Z.add_0_r in Hm, Hs. done.
  - intros j Hj Hown Hfree.
    destruct (read_loop_reached kernel_end if_flag irq fuel (Z.to_nat (edx r)) (ecx r) 0 k q l rest j) as (k' & E); try done.
    { intros i Hi. rewrite Z.add_0_r, u32_small by lia. by apply Hfree. }
    { rewrite Z.add_0_r, u32_small by lia. done. }
    rewrite Z.add_0_r, u32_small in E by lia. exists k'. by rewrite (bind_some _ _ _ E).
Qed.

End Properties.

(** C36: a program that waits for a key stops the machine.  The gate that [idt_init]
    installs for system calls turns interrupts off, so that the [hlt] in the
    handler is not followed by a keyboard interrupt: with too few keys in the
    buffer neither read call ever returns, whatever the user types.  (The
    characters that SYS_READ stores before it waits are stored outside the
    kernel; see C30 for a buffer inside it.) *)
Theorem waiting_read_freezes `{HK : KString} (kernel_end : Z) (lsr : nat -> Z) (irq : nat -> Keyboard.ring -> Keyboard.ring)
    (idt_addr : Z) (e : Traps.stubs) (p : Traps.platform) (r : syscall_regs) (k : kernel) (q : list Z) :
  length (Traps.idt p) = 256%nat -> Traps.stubs_u32 e ->
  Keyboard.rep (keys k) q -> Forall (fun c => c <> 0) q ->
  eax r = SYS_READ_RAW /\ q = [] \/
  eax r = SYS_READ /\ line_of (Z.to_nat (edx r)) q = None /\ not_kernel kernel_end (ecx r) (Z.of_nat (length q)) ->
  exists g, Traps.idt (Traps.idt_init idt_addr e p) !! 0x80%nat = Some g /\
    forall fuel, c_syscall_handler kernel_end lsr (handler_if g) irq fuel r k = None.
Proof.
  intros Hl He Hr Hq Hcase. exists (Traps.gate_entry_of (Traps.syscall_handler_asm e) true).
  assert (Eh : Traps.handler_of e 0x80 = Some (Traps.syscall_handler_asm e, true)) by reflexivity.
  split; [by rewrite Traps.idt_init_entries, Eh by (done || lia)|]. intros fuel.
  assert (Hf : handler_if (Traps.gate_entry_of (Traps.syscall_handler_asm e) true) = false).
  { unfold handler_if. destruct (Traps.gate_entry_decode (Traps.syscall_handler_asm e) true) as (_ & _ & -> & _); [|done].
    by apply (Traps.handler_u32 e 0x80 _ true). }
  rewrite Hf. unfold c_syscall_handler. destruct Hcase as [[-> ->]|(-> & El & Hown)];
    cbn [Z.eqb SYS_WRITE SYS_CLEAR SYS_EXIT SYS_READ_RAW SYS_READ Pos.eqb].
  - by rewrite (read_key_none false irq fuel k).
  - rewrite (read_loop_none kernel_end false irq fuel _ _ _ k q); [done..|]. by rewrite Z.add_0_r.
Qed.

(** ** Witnesses *)

#[local] Existing Instance Dir.c_strings.

Definition user_regs (a b c d : Z) : syscall_regs := mkRegs 0x23 0x23 0 0 0 0 b d c a 0x1000000 0x1B 0x202 0x2000000 0x23.

(** The ring after typing [hi] and Enter. *)
Definition hi_ring : Keyboard.ring := Keyboard.mkRing 3 0 ([104; 105; 10] ++ replicate 125 0).

Lemma hi_ring_rep : Keyboard.rep hi_ring [104; 105; 10].
Proof.
  split; [reflexivity|unfold Keyboard.KBD_BUF_SIZE; cbn; lia|unfold Keyboard.KBD_BUF_SIZE; cbn; lia|reflexivity|].
  cbn [length]. intros i Hi. assert (Hc : i = 0 \/ i = 1 \/ i = 2) by lia. by destruct Hc as [-> | [-> | ->]].
Qed.

Definition user_kernel (r : Keyboard.ring) : kernel :=
  mkKernel (poke 0x1000100 [104; 105] ∅) Vga.screen0 (Serial.mkSerial 0 []) r 0.

Lemma sys_write_shows_witness :
  exists s, c_syscall_handler 0x200000 Serial.lsr_sample false (fun _ r => r) 1 (user_regs 1 1 0x1000100 2) (user_kernel hi_ring)
    = Some (Returned (set_eax 2 (user_regs 1 1 0x1000100 2))
        (set_screen (put_all (user_text (k_mem (user_kernel hi_ring)) 0x1000100 2) Vga.screen0) (set_line s (user_kernel hi_ring)))) /\
    Serial.sent s = [104; 105].
Proof.
  destruct (sys_write_shows 0x200000 Serial.lsr_sample false (fun _ r => r) 1 (user_regs 1 1 0x1000100 2) (user_kernel hi_ring))
    as [H _]; [reflexivity|discriminate|unfold is_u32; cbn; lia|exact Serial.lsr_sample_ready|].
  destruct H as (s & E & Hs); [by left| |].
  { intros i Hi. cbn [ecx edx user_regs] in *. rewrite u32_small by lia. unfold kernel_owns. lia. }
  exists s. split; [exact E|]. rewrite Hs. vm_compute. reflexivity.
Defined.

Lemma sys_read_delivers_witness :
  exists m kr, c_syscall_handler 0x200000 Serial.lsr_sample false (fun _ r => r) 1 (user_regs 4 0 0x1000200 64) (user_kernel hi_ring)
    = Some (Returned (set_eax 3 (user_regs 4 0 0x1000200 64)) (set_mem m (set_keys kr (user_kernel hi_ring)))) /\
    ld8 m 0x1000201 = 105.
Proof.
  destruct (sys_read_delivers 0x200000 Serial.lsr_sample false (fun _ r => r) 1 (user_regs 4 0 0x1000200 64) (user_kernel hi_ring)
    [104; 105; 10] [104; 105; 10] []) as (_ & _ & Hout & _).
  - reflexivity.
  - exact hi_ring_rep.
  - repeat constructor; discriminate.
  - cbn. lia.
  - cbn. lia.
  - cbn. lia.
  - reflexivity.
  - destruct Hout as (m & kr & E & _ & Hm & _).
    { intros i Hi. cbn [ecx user_regs length] in *. unfold kernel_owns. lia. }
    exists m, kr. split; [exact E|]. apply (Hm 1). cbn. lia.
Defined.

Lemma waiting_read_freezes_witness :
  exists g, Traps.idt (Traps.idt_init 0x300000 Traps.boot_stubs Traps.boot_platform) !! 0x80%nat = Some g /\
    forall fuel, c_syscall_handler 0x200000 Serial.lsr_sample (handler_if g) (fun _ r => r) fuel (user_regs 5 0 0 0)
                   (user_kernel Keyboard.empty_ring) = None.
Proof.
  apply (waiting_read_freezes 0x200000 Serial.lsr_sample (fun _ r => r) 0x300000 Traps.boot_stubs Traps.boot_platform
           (user_regs 5 0 0 0) (user_kernel Keyboard.empty_ring) []).
  - reflexivity.
  - exact Traps.boot_stubs_u32.
  - exact Keyboard.empty_ring_rep.
  - constructor.
  - left. done.
Defined.

End Syscall.
