(* ===== verification/Lines.v ===== *)
(** * Line buffers: what the two shells share

    Both shells, user/shell.c and the kernel's in src/kernel/main.c, keep a
    line in a char array with a cursor, move its tail by one place with the
    same loops, and keep their histories as arrays of lines that they shift
    down.  The loops and their effect on the array are here. *)

From Stdlib Require Import ZifyBool.
From S2P Require Import Prelude Vga Keyboard.
Local Open Scope Z_scope.

Module Lines.

Definition len {A} (l : list A) : Z := Z.of_nat (length l).

(** The array from index [i] on. *)
Definition from (i : Z) (l : list Z) : list Z := drop (Z.to_nat i) l.

(** [strcpy(b, t)] *)
Definition strcpy (b t : list Z) : list Z := t ++ [0] ++ drop (length t + 1) b.

(** [for (i = k; n > 0; n--, i--) b[i] = b[i - 1];] and
    [for (i = k; n > 0; n--, i++) b[i] = b[i + 1];] *)
Fixpoint move_right (n : nat) (i : Z) (b : list Z) : list Z :=
  match n with O => b | S n' => move_right n' (i - 1) (setZ b i (getZ b (i - 1))) end.
Fixpoint move_left (n : nat) (i : Z) (b : list Z) : list Z :=
  match n with O => b | S n' => move_left n' (i + 1) (setZ b i (getZ b (i + 1))) end.

(** [for (; n > 0; n--, k++) strcpy(a[k], a[k + 1]);] *)
Fixpoint shift_down (n k : nat) (a : list (list Z)) : list (list Z) :=
  match n with
  | O => a
  | S n' => shift_down n' (S k) (<[k := default [] (a !! S k)]> a)
  end.

(** ** Lemmas *)

(** A character of a text, and a text. *)
Definition char_ok (c : Z) : Prop := -128 <= c < 128 /\ c <> 0.

Lemma text_nonzero t : Forall char_ok t -> Forall (fun c => c <> 0) t.
Proof. intros Ht. eapply list.Forall_impl; [exact Ht|]. by intros c [_ Hc]. Qed.

Lemma len_app {A} (l1 l2 : list A) : len (l1 ++ l2) = len l1 + len l2.
Proof. unfold len. rewrite length_app. lia. Qed.

Lemma len_cons {A} (x : A) l : len (x :: l) = 1 + len l.
Proof. unfold len. cbn [length]. lia. Qed.

Lemma len_snoc {A} l (x : A) : len (l ++ [x]) = len l + 1.
Proof. unfold len. rewrite length_app. cbn [length]. lia. Qed.

Lemma len_nonneg {A} (l : list A) : 0 <= len l.
Proof. unfold len. lia. Qed.

Lemma c_string_text t rest : Forall (fun c => c <> 0) t -> Vga.c_string (t ++ 0 :: rest) = t.
Proof.
  induction t as [|c t IH]; intros Ht; [done|]. apply Forall_cons_1 in Ht as [Hc Ht]. cbn.
  rewrite (proj2 (Z.eqb_neq c 0) Hc). by rewrite IH.
Qed.

Lemma getZ_app_r l1 l2 i : Z.of_nat (length l1) <= i -> getZ (l1 ++ l2) i = getZ l2 (i - Z.of_nat (length l1)).
Proof. intros Hi. unfold getZ. rewrite lookup_app_r by lia. do 2 f_equal. lia. Qed.

Lemma getZ_drop l n i : 0 <= i -> getZ (drop n l) i = getZ l (i + Z.of_nat n).
Proof. intros Hi. unfold getZ. rewrite lookup_drop. do 2 f_equal. lia. Qed.

Lemma getZ_cons c l i : getZ (c :: l) i = if i <=? 0 then c else getZ l (i - 1).
Proof.
  unfold getZ. destruct (Z.leb_spec i 0) as [Hi|Hi]; [by replace (Z.to_nat i) with 0%nat by lia|].
  by replace (Z.to_nat i) with (S (Z.to_nat (i - 1))) by lia.
Qed.

(** The array holds the text [t]. *)
Definition holds_text (b t : list Z) : Prop := forall i, 0 <= i < len t -> getZ b i = getZ t i.

Lemma holds_text_string b t :
  holds_text b t -> Forall (fun c => c <> 0) t -> len t < len b -> getZ b (len t) = 0 -> Vga.c_string b = t.
Proof.
  unfold holds_text, len. revert b. induction t as [|c t IH]; intros b Hb Ht Hl H0; (destruct b as [|x b]; [cbn in Hl; lia|]).
  - change (x = 0) in H0. by subst x.
  - apply Forall_cons_1 in Ht as [Hc Ht]. pose proof (Hb 0 ltac:(cbn [length]; lia)) as Hx. change (x = c) in Hx. subst x.
    cbn [Vga.c_string length] in *. rewrite (proj2 (Z.eqb_neq c 0) Hc). f_equal. apply IH; [|done|lia|].
    + intros i Hi. specialize (Hb (i + 1) ltac:(lia)). rewrite !getZ_cons in Hb. replace (i + 1 <=? 0) with false in Hb by lia.
      by replace (i + 1 - 1) with i in Hb by lia.
    + rewrite getZ_cons in H0. replace (Z.of_nat (S (length t)) <=? 0) with false in H0 by lia.
      by replace (Z.of_nat (S (length t)) - 1) with (Z.of_nat (length t)) in H0 by lia.
Qed.

Lemma length_move_right n i b : length (move_right n i b) = length b.
Proof. revert i b. induction n as [|n IH]; intros i b; [done|]. cbn. by rewrite IH, length_setZ. Qed.

Lemma length_move_left n i b : length (move_left n i b) = length b.
Proof. revert i b. induction n as [|n IH]; intros i b; [done|]. cbn. by rewrite IH, length_setZ. Qed.

Lemma getZ_move_right n i b j :
  Z.of_nat n <= i < len b -> 0 <= j ->
  getZ (move_right n i b) j = if (i - Z.of_nat n <? j) && (j <=? i) then getZ b (j - 1) else getZ b j.
Proof.
  unfold len. revert i b. induction n as [|n IH]; intros i b Hn Hj; cbn [move_right].
  - by replace ((i - Z.of_nat 0 <? j) && (j <=? i)) with false by lia.
  - rewrite IH by (rewrite ?length_setZ; lia). destruct (decide (j = i)) as [->|Hne].
    + replace ((i - 1 - Z.of_nat n <? i) && (i <=? i - 1)) with false by lia.
      replace ((i - Z.of_nat (S n) <? i) && (i <=? i)) with true by lia. apply getZ_setZ_eq. unfold inrange. lia.
    + rewrite (getZ_setZ_ne b i j) by lia.
      replace ((i - 1 - Z.of_nat n <? j) && (j <=? i - 1)) with ((i - Z.of_nat (S n) <? j) && (j <=? i)) by lia.
      case_cond; [apply getZ_setZ_ne; lia|done].
Qed.

Lemma getZ_move_left n i b j :
  0 <= i -> i + Z.of_nat n < len b -> 0 <= j ->
  getZ (move_left n i b) j = if (i <=? j) && (j <? i + Z.of_nat n) then getZ b (j + 1) else getZ b j.
Proof.
  unfold len. revert i b. induction n as [|n IH]; intros i b Hi Hn Hj; cbn [move_left].
  - by replace ((i <=? j) && (j <? i + Z.of_nat 0)) with false by lia.
  - rewrite IH by (rewrite ?length_setZ; lia). destruct (decide (j = i)) as [->|Hne].
    + replace ((i + 1 <=? i) && (i <? i + 1 + Z.of_nat n)) with false by lia.
      replace ((i <=? i) && (i <? i + Z.of_nat (S n))) with true by lia. apply getZ_setZ_eq. unfold inrange. lia.
    + replace ((i + 1 <=? j) && (j <? i + 1 + Z.of_nat n)) with ((i <=? j) && (j <? i + Z.of_nat (S n))) by lia.
      rewrite (getZ_setZ_ne b i j) by lia. case_cond; [apply getZ_setZ_ne; lia|done].
Qed.

(** Taking out the character in front of [a], and putting one there. *)
Lemma delete_at b l x a :
  holds_text b (l ++ x :: a) -> len (l ++ x :: a) <= len b ->
  holds_text (move_left (Z.to_nat (len a)) (len l) b) (l ++ a) /\
  forall j, len (l ++ a) <= j -> getZ (move_left (Z.to_nat (len a)) (len l) b) j = getZ b j.
Proof.
  intros Hb Hl. unfold holds_text, len in *. rewrite !length_app in *. cbn [length] in *.
  assert (Hget : forall j, 0 <= j -> getZ (move_left (Z.to_nat (Z.of_nat (length a))) (Z.of_nat (length l)) b) j =
            if (Z.of_nat (length l) <=? j) && (j <? Z.of_nat (length l) + Z.of_nat (length a)) then getZ b (j + 1) else getZ b j).
  { intros j Hj. rewrite getZ_move_left by (unfold len; lia). by rewrite Nat2Z.id. }
  split.
  - intros i Hi. rewrite Hget by lia. case_cond.
    + rewrite Hb by lia. rewrite !getZ_app_r by lia. rewrite getZ_cons. replace (i + 1 - Z.of_nat (length l) <=? 0) with false by lia. f_equal. lia.
    + rewrite Hb by lia. by rewrite !Keyboard.getZ_app_l by lia.
  - intros j Hj. rewrite Hget by lia. by replace ((_ <=? j) && _) with false by lia.
Qed.

Lemma insert_at b l a c :
  holds_text b (l ++ a) -> len (l ++ a) < len b ->
  holds_text (setZ (move_right (Z.to_nat (len a)) (len (l ++ a)) b) (len l) c) (l ++ c :: a) /\
  forall j, len (l ++ a) < j -> getZ (setZ (move_right (Z.to_nat (len a)) (len (l ++ a)) b) (len l) c) j = getZ b j.
Proof.
  intros Hb Hl. unfold holds_text, len in *. rewrite !length_app in *. cbn [length] in *.
  set (p := Z.of_nat (length l)) in *. set (n := Z.of_nat (length a)) in *.
  replace (Z.of_nat (length l + length a)) with (p + n) in * by lia.
  assert (Hget : forall j, 0 <= j -> getZ (setZ (move_right (Z.to_nat n) (p + n) b) p c) j =
            if j =? p then c else if (p <? j) && (j <=? p + n) then getZ b (j - 1) else getZ b j).
  { intros j Hj. destruct (Z.eqb_spec j p) as [->|Hne].
    - apply getZ_setZ_eq. unfold inrange. rewrite length_move_right. lia.
    - rewrite getZ_setZ_ne, getZ_move_right by (unfold len; lia). by replace (p + n - Z.of_nat (Z.to_nat n)) with p by lia. }
  split.
  - intros i Hi. rewrite Hget by lia. destruct (Z.eqb_spec i p) as [->|Hne]; [by rewrite getZ_app_r, Z.sub_diag by lia|]. case_cond.
    + rewrite Hb by lia. rewrite !getZ_app_r by lia. rewrite getZ_cons. replace (i - Z.of_nat (length l) <=? 0) with false by lia. f_equal. lia.
    + rewrite Hb by lia. by rewrite !Keyboard.getZ_app_l by lia.
  - intros j Hj. rewrite Hget by lia. replace (j =? p) with false by lia. by replace ((p <? j) && _) with false by lia.
Qed.

(** *** Shifting *)

Lemma shift_down_lookup n k (l : list (list Z)) j :
  (k + n < length l)%nat -> shift_down n k l !! j = if decide (k <= j < k + n)%nat then l !! S j else l !! j.
Proof.
  revert k l. induction n as [|n IH]; intros k l Hn; cbn [shift_down]; [by rewrite decide_False by lia|].
  rewrite IH by (rewrite length_insert; lia). assert (E : exists x, l !! S k = Some x) by (apply lookup_lt_is_Some; lia). destruct E as [x E].
  destruct (decide (j = k)) as [->|Hne].
  - rewrite decide_False, decide_True by lia. by rewrite list_lookup_insert_eq, E by lia.
  - rewrite (list_lookup_insert_ne l k j) by done. destruct (decide (S k <= j < S k + n)%nat).
    + rewrite decide_True by lia. by rewrite list_lookup_insert_ne by lia.
    + by rewrite decide_False by lia.
Qed.

Lemma shift_down_length n k l : length (shift_down n k l) = length l.
Proof. revert k l. induction n as [|n IH]; intros k l; [done|]. cbn. by rewrite IH, length_insert. Qed.

(** Taking the entry [i] out of [l]. *)
Lemma shift_down_delete i l :
  (i < length l)%nat -> take (length l - 1) (shift_down (length l - 1 - i) i l) = take i l ++ drop (S i) l.
Proof.
  intros Hi. apply list_eq. intros j. destruct (decide (j < length l - 1)%nat) as [Hj|Hj].
  - rewrite lookup_take_lt, shift_down_lookup by lia. destruct (decide (j < i)%nat) as [Hlt|Hge].
    + rewrite decide_False by lia. rewrite lookup_app_l by (rewrite length_take; lia). by rewrite lookup_take_lt by lia.
    + rewrite decide_True by lia. rewrite lookup_app_r by (rewrite length_take; lia). rewrite lookup_drop, length_take. f_equal. lia.
  - rewrite !lookup_ge_None_2; [done| |]; rewrite ?length_app, ?length_take, ?length_drop, ?shift_down_length; lia.
Qed.

Definition lastn {A} (n : nat) (l : list A) : list A := drop (length l - n) l.

Lemma lastn_last {A} n (l : list A) : (0 < n)%nat -> list.last (lastn n l) = list.last l.
Proof.
  intros Hn. unfold lastn. destruct l as [|x l _] using rev_ind; [done|]. rewrite length_app, drop_app_le by (cbn; lia).
  by rewrite !list.last_snoc.
Qed.

Lemma from_app (l1 l2 : list Z) : from (len l1) (l1 ++ l2) = l2.
Proof. unfold from, len. rewrite Nat2Z.id. apply drop_app_length. Qed.

Lemma setZ_app l1 c l2 v : setZ (l1 ++ c :: l2) (len l1) v = l1 ++ v :: l2.
Proof. unfold setZ, len. rewrite Nat2Z.id. rewrite insert_app_r_alt by lia. by rewrite Nat.sub_diag. Qed.

Lemma getZ_mid l1 c l2 : getZ (l1 ++ c :: l2) (len l1) = c.
Proof. rewrite getZ_app_r by (unfold len; lia). unfold len. by rewrite Z.sub_diag. Qed.

End Lines.
