(* ===== verification/UserShell.v ===== *)
(** * The user shell: user/shell.c

    The program that the kernel starts in ring 3: its environment, its history,
    the expansion of variables, the splitting into words, the builtins and the
    line editor.  Texts are lists of [char] values without their NUL; the line
    buffer is the array itself, since the editor prints from its middle up to
    the next NUL, wherever that is.  What the shell asks of the kernel is the
    list of its system calls, oldest first; Syscall.v says what becomes of them.
    The unused [strncmp] and [strncpy] are left out. *)

From Stdlib Require Import ZifyBool String.
From S2P Require Import Prelude Cmem Vga Keyboard Serial Traps Dir Syscall Lines.
Local Open Scope Z_scope.

Module UserShell.
Import Lines.

Definition LINE_MAX : Z := 256.
Definition MAX_ARGS : Z := 32.
Definition MAX_ENV : Z := 32.
Definition ENV_VAL_MAX : Z := 128.
Definition HISTORY_SIZE : Z := 16.

(** The system calls of the shell. *)
Inductive event := Write (fd : Z) (s : list Z) | Clear | Exit (status : Z).

(** The entries of [env_vars] and [history] that are in use, as texts. *)
Record sh := mkSh { env_vars : list (list Z); last_exit_status : Z; history : list (list Z); out : list event }.

Definition set_env (e : list (list Z)) (s : sh) : sh := mkSh e (last_exit_status s) (history s) (out s).
Definition set_status (v : Z) (s : sh) : sh := mkSh (env_vars s) v (history s) (out s).
Definition set_history (h : list (list Z)) (s : sh) : sh := mkSh (env_vars s) (last_exit_status s) h (out s).
Definition call (e : event) (s : sh) : sh := mkSh (env_vars s) (last_exit_status s) (history s) (out s ++ [e]).

Definition sys_write_str (t : list Z) (s : sh) : sh := call (Write 0 t) s.
Definition say (t : string) (s : sh) : sh := sys_write_str (chars t) s.
Definition sys_clear (s : sh) : sh := call Clear s.
Definition backspace : list Z := [8].

(** The loop over the characters that agree, and the difference of the next two. *)
Fixpoint strcmp (a b : list Z) : Z :=
  let y := default 0 (head b) in
  match a with
  | [] => 0 - u8 y
  | x :: a' => if (x =? 0) || negb (x =? y) then u8 x - u8 y else strcmp a' (tail b)
  end.

(** *** The environment *)

(** The loop over one entry: the value behind [name] and its '='. *)
Fixpoint name_matches (entry name : list Z) : option (list Z) :=
  match name with
  | [] => match entry with e :: value => if e =? 61 then Some value else None | [] => None end
  | c :: name' =>
      match entry with
      | [] => None
      | e :: entry' => if (e =? 0) || (e =? 61) || negb (e =? c) then None else name_matches entry' name'
      end
  end.

Fixpoint env_lookup (name : list Z) (env : list (list Z)) : option (list Z) :=
  match env with
  | [] => None
  | entry :: env' => match name_matches entry name with Some value => Some value | None => env_lookup name env' end
  end.

(** The three digits of [?]. *)
Definition status_text (v : Z) : list Z :=
  let d n := char_val (u8 (48 + n)) in
  [d (Z.quot v 100); d (Z.quot (Z.rem v 100) 10); d (Z.rem (Z.rem v 100) 10)].

Definition env_get (name : list Z) (s : sh) : list Z :=
  match env_lookup name (env_vars s) with
  | Some value => value
  | None => if strcmp name [63] =? 0 then Vga.c_string (status_text (last_exit_status s)) else []
  end.

(** The first entry of that name, its value overwritten. *)
Fixpoint env_update (name value : list Z) (env : list (list Z)) : option (list (list Z)) :=
  match env with
  | [] => None
  | entry :: env' =>
      match name_matches entry name with
      | Some _ => Some ((take (length name + 1) entry ++ value) :: env')
      | None => option_map (cons entry) (env_update name value env')
      end
  end.

Definition env_set (name value : list Z) (s : sh) : sh :=
  if ENV_VAL_MAX <=? len name + 1 + len value then s
  else
    match env_update name value (env_vars s) with
    | Some env => set_env env s
    | None => if len (env_vars s) <? MAX_ENV then set_env (env_vars s ++ [name ++ [61] ++ value]) s else s
    end.

Definition env_list (s : sh) : sh :=
  foldl (fun s entry => sys_write_str [10] (sys_write_str entry s)) s (env_vars s).

(** *** The history *)

Definition history_add (line : list Z) (s : sh) : sh :=
  match line with
  | [] => s
  | _ =>
      let h := history s in
      if (0 <? len h) && (strcmp (default [] (h !! (length h - 1)%nat)) line =? 0) then s
      else if len h <? HISTORY_SIZE then set_history (h ++ [line]) s
      else set_history (<[Z.to_nat (HISTORY_SIZE - 1) := line]> (shift_down (Z.to_nat (HISTORY_SIZE - 1)) 0 h)) s
  end.

(** The number in front of an entry. *)
Fixpoint digit_count (fuel : nat) (t d : Z) : Z :=
  if 0 <? t then match fuel with O => d | S fuel' => digit_count fuel' (t / 10) (d + 1) end else d.

Fixpoint num_fill (n : nat) (j t : Z) (num : list Z) : list Z :=
  match n with
  | O => num
  | S n' => num_fill n' (j - 1) (t / 10) (setZ num j (48 + t mod 10))
  end.

Definition num_text (n : Z) : list Z :=
  let d := digit_count 8 n 0 in
  Vga.c_string (num_fill (Z.to_nat d) (d - 1) n (setZ (replicate 8 0) d 0)).

Fixpoint history_list_loop (l : list (list Z)) (i : Z) (s : sh) : sh :=
  match l with
  | [] => s
  | line :: l' =>
      let s := say "  " s in
      let s := sys_write_str (num_text (i + 1)) s in
      let s := say "  " s in
      let s := sys_write_str line s in
      history_list_loop l' (i + 1) (sys_write_str [10] s)
  end.

Definition history_list (s : sh) : sh := history_list_loop (history s) 0 s.

(** *** Variables in a line *)

(** [while (src[si] && src[si] != '}' && ni < 63) name[ni++] = src[si++];] with
    room for [n] characters; the rest of the array is [src]. *)
Fixpoint brace_name (n : nat) (src : list Z) : option (list Z * list Z) :=
  match src with
  | [] => None
  | c :: src' =>
      if (c =? 0) || (c =? 125) then Some ([], src)
      else match n with O => Some ([], src) | S n' => '(name, rest) ← brace_name n' src'; Some (c :: name, rest) end
  end.

Definition name_char (c : Z) : bool :=
  (97 <=? c) && (c <=? 122) || (65 <=? c) && (c <=? 90) || (48 <=? c) && (c <=? 57) || (c =? 95) || (c =? 63) || (c =? 36).

Fixpoint plain_name (n : nat) (src : list Z) : option (list Z * list Z) :=
  match src with
  | [] => None
  | c :: src' =>
      if negb (name_char c) then Some ([], src)
      else match n with O => Some ([], src) | S n' => '(name, rest) ← plain_name n' src'; Some (c :: name, rest) end
  end.

(** [for (v = 0; val[v] && di < max - 1; v++) dst[di++] = val[v];] *)
Definition put_value (dst value : list Z) (max : Z) : list Z := dst ++ take (Z.to_nat (max - 1 - len dst)) value.

(** The loop of [expand_vars]; [src] is the array from [si] on, [None] a read
    behind its end. *)
Fixpoint expand_loop (fuel : nat) (src dst : list Z) (max : Z) (s : sh) : option (list Z) :=
  match src with
  | [] => None
  | c :: src1 =>
      if (c =? 0) || negb (len dst <? max - 1) then Some dst
      else
        match fuel with
        | O => None
        | S fuel' =>
            if c =? 36 then
              match src1 with
              | [] => None
              | c1 :: src2 =>
                  if c1 =? 123 then
                    '(name, rest) ← brace_name 63 src2;
                    let rest := if default 0 (head rest) =? 125 then tail rest else rest in
                    expand_loop fuel' (tail rest) (put_value dst (env_get name s) max) max s
                  else
                    '(name, rest) ← plain_name 63 src1;
                    match name with
                    | [] => expand_loop fuel' src2 (dst ++ [36] ++ (if c1 =? 0 then [] else [c1])) max s
                    | _ => expand_loop fuel' rest (put_value dst (env_get name s) max) max s
                    end
              end
            else expand_loop fuel' src1 (dst ++ [c]) max s
        end
  end.

Definition expand_vars (src : list Z) (max : Z) (s : sh) : option (list Z) := expand_loop (length src) src [] max s.

(** *** Words *)

(** [while (input[i] == ' ' || input[i] == '\t') i++;], on the array from [i] on. *)
Fixpoint skip_blanks (input : list Z) (i : Z) : Z :=
  match input with
  | c :: input' => if (c =? 32) || (c =? 9) then skip_blanks input' (i + 1) else i
  | [] => i
  end.

(** The end of the word, in and out of quotes. *)
Fixpoint token_end (input : list Z) (i : Z) (in_sq in_dq : bool) : Z :=
  match input with
  | [] => i
  | c :: input' =>
      if negb (c =? 0) && (in_sq || in_dq || (negb (c =? 32) && negb (c =? 9))) then
        if in_sq then token_end input' (i + 1) (negb (c =? 39)) in_dq
        else if in_dq then token_end input' (i + 1) in_sq (negb (c =? 34))
        else if c =? 39 then token_end input' (i + 1) true in_dq
        else if c =? 34 then token_end input' (i + 1) in_sq true
        else if c =? 92 then
          match input' with
          | [] => i + 1
          | c' :: input'' => if c' =? 0 then i + 1 else token_end input'' (i + 2) in_sq in_dq
          end
        else token_end input' (i + 1) in_sq in_dq
      else i
  end.

(** The result is the array, NULs written into it, and where the words start. *)
Fixpoint tokenize_loop (fuel : nat) (input : list Z) (i : Z) (argv : list Z) (max_args : Z) : list Z * list Z :=
  match fuel with
  | O => (input, argv)
  | S fuel' =>
      if negb (getZ input i =? 0) && (len argv <? max_args - 1) then
        let start := skip_blanks (from i input) i in
        if getZ input start =? 0 then (input, argv)
        else
          let last := token_end (from start input) start false false in
          let input := if last <? max_args * 4 then setZ input last 0 else input in
          tokenize_loop fuel' input last (argv ++ [start]) max_args
      else (input, argv)
  end.

Definition tokenize (input : list Z) (max_args : Z) : list Z * list Z :=
  tokenize_loop (length input) input 0 [] max_args.

(** The string that starts at [i]. *)
Definition string_at (input : list Z) (i : Z) : list Z := Vga.c_string (from i input).

(** *** The builtins *)

Definition cmd_help (s : sh) : sh :=
  foldl (fun s t => sys_write_str (chars t ++ [10]) s) s
    ["Commands:"; "  help       Show this help"; "  clear      Clear screen"; "  echo [..]  Print args";
     "  exit [n]   Exit shell"; "  env        List env vars"; "  export n=v Set env var"; "  unset n    Unset env var";
     "  history    Show history"; "  true/false Return 0/1"]%string.

Fixpoint echo_loop (args : list Z) (first : bool) (input : list Z) (s : sh) : sh :=
  match args with
  | [] => s
  | a :: args' =>
      let s := if first then s else say " " s in
      echo_loop args' false input (sys_write_str (string_at input a) s)
  end.

(** An [int]: the wrap-around of the additions that overflow. *)
Definition s32 (z : Z) : Z := (z + 2 ^ 31) mod 2 ^ 32 - 2 ^ 31.

Fixpoint exit_status (t : list Z) (status : Z) : Z :=
  match t with
  | c :: t' => if (48 <=? c) && (c <=? 57) then exit_status t' (s32 (status * 10 + (c - 48))) else status
  | [] => status
  end.

(** The position of the first '=' of a string. *)
Fixpoint find_eq (t : list Z) (j : Z) : option Z :=
  match t with
  | c :: t' => if c =? 61 then Some j else find_eq t' (j + 1)
  | [] => None
  end.

Fixpoint export_loop (args : list Z) (input : list Z) (s : sh) : sh :=
  match args with
  | [] => s
  | a :: args' =>
      match find_eq (string_at input a) a with
      | Some p =>
          let input := setZ input p 0 in
          export_loop args' input (env_set (string_at input a) (string_at input (p + 1)) s)
      | None => export_loop args' input s
      end
  end.

(** The entry that [unset] removes: one that has an '=' and is the argument. *)
Fixpoint unset_index (env : list (list Z)) (i : nat) (arg : list Z) : option nat :=
  match env with
  | [] => None
  | entry :: env' =>
      match find_eq entry 0 with
      | Some _ => if strcmp entry arg =? 0 then Some i else unset_index env' (S i) arg
      | None => unset_index env' (S i) arg
      end
  end.

Definition unset (arg : list Z) (s : sh) : sh :=
  match unset_index (env_vars s) 0 arg with
  | Some i =>
      let n := length (env_vars s) in
      set_env (take (n - 1) (shift_down (n - 1 - i) i (env_vars s))) s
  | None => s
  end.

(** What [execute_builtin] returns; [Exits]: it does not. *)
Inductive verdict := Ret (v : Z) | Exits.

Definition execute_builtin (input argv : list Z) (s : sh) : verdict * sh :=
  match argv with
  | [] => (Ret 0, s)
  | a0 :: args =>
      let cmd := string_at input a0 in
      let called name := strcmp cmd (chars name) =? 0 in
      if called "help"%string then (Ret 0, cmd_help s)
      else if called "clear"%string then (Ret 0, sys_clear s)
      else if called "echo"%string then (Ret 0, sys_write_str [10] (echo_loop args true input s))
      else if called "exit"%string then
        let status := match args with a1 :: _ => exit_status (string_at input a1) 0 | [] => 0 end in
        (Exits, call (Exit status) s)
      else if called "env"%string then (Ret 0, env_list s)
      else if called "export"%string then (Ret 0, export_loop args input s)
      else if called "unset"%string then (Ret 0, match args with a1 :: _ => unset (string_at input a1) s | [] => s end)
      else if called "history"%string then (Ret 0, history_list s)
      else if called "true"%string then (Ret 0, s)
      else if called "false"%string then (Ret 1, s)
      else (Ret (-1), s)
  end.

(** [cmdline] is the line buffer; [None]: an array is left. *)
Definition execute_command (cmdline : list Z) (s : sh) : option (bool * sh) :=
  text ← expand_vars cmdline LINE_MAX s;
  if LINE_MAX <=? len text then None
  else
    let '(input, argv) := tokenize (text ++ [0]) MAX_ARGS in
    match argv with
    | [] => Some (false, s)
    | a0 :: _ =>
        let '(ret, s) := execute_builtin input argv s in
        match ret with
        | Exits => Some (true, s)
        | Ret v =>
            if v =? -1 then
              Some (false, set_status 127 (sys_write_str (chars ": command not found" ++ [10]) (sys_write_str (string_at input a0) s)))
            else Some (false, set_status v s)
        end
    end.

(** *** The line editor *)

Definition show_prompt (s : sh) : sh :=
  let ps1 := env_get (chars "PS1") s in
  match ps1 with [] => say "$ " s | _ => sys_write_str ps1 s end.

Fixpoint repeat_str (n : nat) (t : list Z) (s : sh) : sh :=
  match n with O => s | S n' => repeat_str n' t (sys_write_str t s) end.

Definition backspace_n (n : Z) (s : sh) : sh :=
  repeat_str (Z.to_nat n) backspace (repeat_str (Z.to_nat n) [32] (repeat_str (Z.to_nat n) backspace s)).

(** The local variables of [read_line]; [line_len] is its [len]. *)
Record editor := mkEditor { buf : list Z; pos : Z; line_len : Z; hist_idx : Z }.

(** The text from [i] to the next NUL; [None] when the array ends before. *)
Definition text_from (b : list Z) (i : Z) : option (list Z) :=
  if existsb (fun c => c =? 0) (from i b) then Some (string_at b i) else None.

Inductive reading :=
| More (e : editor) (s : sh)    (** the next key is read *)
| Line (b : list Z) (s : sh).   (** Enter: the buffer *)

(** An older or newer line of the history in the buffer. *)
Definition load_history (b : list Z) (i : Z) (s : sh) : editor * sh :=
  let b := strcpy b (default [] (history s !! Z.to_nat i)) in
  let n := len (Vga.c_string b) in
  (mkEditor b n n i, sys_write_str (Vga.c_string b) s).

(** One key. *)
Definition edit_key (max c : Z) (e : editor) (s : sh) : option reading :=
  let '(b, p, l, idx) := (buf e, pos e, line_len e, hist_idx e) in
  if c =? 0x1B then Some (More e s)
  else if c =? 0x11 then
    if 0 <? idx then let '(e, s) := load_history b (idx - 1) (backspace_n l s) in Some (More e s) else Some (More e s)
  else if c =? 0x12 then
    if idx <? len (history s) then
      let s := backspace_n l s in
      if idx + 1 =? len (history s) then Some (More (mkEditor (setZ b 0 0) 0 0 (idx + 1)) s)
      else let '(e, s) := load_history b (idx + 1) s in Some (More e s)
    else Some (More e s)
  else if c =? 0x13 then
    if 0 <? p then Some (More (mkEditor b (p - 1) l idx) (sys_write_str backspace s)) else Some (More e s)
  else if c =? 0x14 then
    if p <? l then
      t ← text_from b p;
      Some (More (mkEditor b l l idx) (repeat_str (Z.to_nat (l - p)) backspace (sys_write_str t s)))
    else Some (More e s)
  else if c =? 0x0C then
    t ← text_from b 0;
    Some (More e (repeat_str (Z.to_nat (l - p)) backspace (sys_write_str t (show_prompt (sys_clear s)))))
  else if c =? 10 then
    let b := setZ b l 0 in
    Some (Line b (history_add (Vga.c_string b) (sys_write_str [10] s)))
  else if c =? 8 then
    if 0 <? p then
      let p := p - 1 in
      let b := move_left (Z.to_nat (l - 1 - p)) p b in
      let l := l - 1 in
      t ← text_from b p;
      Some (More (mkEditor b p l idx)
              (repeat_str (Z.to_nat (l + 1 - p)) backspace (sys_write_str [32] (sys_write_str t (sys_write_str backspace s)))))
    else Some (More e s)
  else if l <? max - 1 then
    let b := setZ (move_right (Z.to_nat (l - p)) l b) p (char_val (u8 c)) in
    let p := p + 1 in
    let l := l + 1 in
    t ← text_from b (p - 1);
    Some (More (mkEditor b p l idx) (repeat_str (Z.to_nat (l - p)) backspace (sys_write_str t s)))
  else Some (More e s).

(** The keys in the order in which [sys_read_raw] returns them. *)
Inductive read_result :=
| Read (b : list Z) (rest : list Z) (s : sh)   (** a line, and the keys behind it *)
| Waiting (s : sh)                             (** the keys are used up *)
| Overrun.                                     (** an array is left *)

Fixpoint edit_loop (keys : list Z) (max : Z) (e : editor) (s : sh) : read_result :=
  match keys with
  | [] => Waiting s
  | c :: keys' =>
      match edit_key max c e s with
      | None => Overrun
      | Some (Line b s) => Read b keys' s
      | Some (More e s) => edit_loop keys' max e s
      end
  end.

Definition read_line (keys b : list Z) (s : sh) : read_result :=
  edit_loop keys LINE_MAX (mkEditor b 0 0 (len (history s))) s.

(** *** The main loop *)

Inductive session :=
| Asking (s : sh)      (** waiting for a key *)
| Left (s : sh)        (** [exit] *)
| Broken               (** an array was left *)
| Unfinished.          (** the fuel is used up *)

Fixpoint main_loop (fuel : nat) (keys line : list Z) (s : sh) : session :=
  match fuel with
  | O => Unfinished
  | S fuel' =>
      match read_line keys line (show_prompt s) with
      | Overrun => Broken
      | Waiting s => Asking s
      | Read line keys s =>
          if getZ line 0 =? 0 then main_loop fuel' keys line s
          else
            match execute_command line s with
            | None => Broken
            | Some (true, s) => Left s
            | Some (false, s) => main_loop fuel' keys line s
            end
      end
  end.

Definition boot_sh : sh := mkSh [] 0 [] [].

(** [_start]; [line] is what the stack holds. *)
Definition start (keys line : list Z) : session :=
  let s := env_set (chars "SHELL") (chars "antigravity-sh") boot_sh in
  let s := env_set (chars "USER") (chars "user") s in
  let s := env_set (chars "HOME") (chars "/") s in
  let s := env_set (chars "PS1") (chars "$ ") s in
  let s := sys_write_str (chars "Antigravity OS Shell" ++ [10]) s in
  let s := sys_write_str (chars "Type 'help' for commands." ++ [10; 10]) s in
  main_loop (S (length keys)) keys line s.

(** ** What the shell says

    [says s s']: from [s] to [s'] the shell made only calls that clear the
    screen, leave, or write to file 0.  [same_vars]: nothing else changed. *)

Definition quiet (e : event) : Prop := match e with Write fd _ => fd = 0 | _ => True end.
Definition says (s s' : sh) : Prop := exists l, out s' = out s ++ l /\ Forall quiet l.
Definition same_vars (s s' : sh) : Prop :=
  env_vars s' = env_vars s /\ last_exit_status s' = last_exit_status s /\ history s' = history s.

#[local] Instance says_pre : PreOrder says.
Proof.
  split.
  - intros s. exists []. by rewrite app_nil_r.
  - intros s1 s2 s3 (l1 & E1 & H1) (l2 & E2 & H2). exists (l1 ++ l2). rewrite E2, E1, app_assoc. split; [done|by apply Forall_app].
Qed.

#[local] Instance same_vars_pre : PreOrder same_vars.
Proof. split; unfold same_vars; [done|]. intros s1 s2 s3 (? & ? & ?) (? & ? & ?). split_and!; congruence. Qed.

(** Only talking. *)
Definition talks (s s' : sh) : Prop := says s s' /\ same_vars s s'.

#[local] Instance talks_pre : PreOrder talks.
Proof. split; [by intros s; split|]. intros s1 s2 s3 [? ?] [? ?]. split; by transitivity s2. Qed.

Lemma talks_call e s : quiet e -> talks s (call e s).
Proof. intros He. split; [|by split]. exists [e]. split; [done|by constructor]. Qed.

Lemma talks_write t s : talks s (sys_write_str t s).
Proof. by apply talks_call. Qed.

Lemma talks_then s s1 s2 : talks s s1 -> talks s1 s2 -> talks s s2.
Proof. apply transitivity. Qed.

Lemma talks_repeat n t s : talks s (repeat_str n t s).
Proof. revert s. induction n as [|n IH]; intros s; [done|]. eapply talks_then; [apply talks_write|apply IH]. Qed.

Lemma talks_foldl {A} (f : sh -> A -> sh) l s : (forall x s, talks s (f s x)) -> talks s (foldl f s l).
Proof. intros Hf. revert s. induction l as [|x l IH]; intros s; [done|]. eapply talks_then; [apply Hf|apply IH]. Qed.

Lemma talks_prompt s : talks s (show_prompt s).
Proof. unfold show_prompt. case_match; apply talks_write. Qed.

Lemma talks_backspace n s : talks s (backspace_n n s).
Proof. unfold backspace_n. repeat (eapply talks_then; [|apply talks_repeat]). done. Qed.

Create HintDb shell.
#[local] Hint Resolve talks_write talks_repeat talks_prompt talks_backspace : shell.

(** ** Strings *)

Lemma u8_char_inj x y : -128 <= x < 128 -> -128 <= y < 128 -> u8 x = u8 y -> x = y.
Proof. intros Hx Hy. unfold u8. change (2 ^ 8) with 256. intros E. mlia. Qed.

(** [strcmp] of two texts. *)
Lemma strcmp_texts a b : Forall char_ok a -> Forall char_ok b -> (strcmp a b =? 0) = bool_decide (a = b).
Proof.
  intros Ha. revert b. induction Ha as [|x a [Hx Hx0] Ha IH]; intros b Hb; cbn [strcmp].
  - destruct Hb as [|y b [Hy Hy0] Hb]; cbn [head default from_option id]; [done|]. rewrite bool_decide_eq_false_2 by done. apply Z.eqb_neq.
    intros E. apply Hy0. symmetry. apply u8_char_inj; [lia|done|]. rewrite Z.sub_0_l in E. change (u8 0) with 0. lia.
  - rewrite (proj2 (Z.eqb_neq x 0) Hx0). cbn [orb]. destruct Hb as [|y b [Hy Hy0] Hb]; cbn [head default from_option id tail].
    + rewrite (proj2 (Z.eqb_neq x 0) Hx0). cbn [negb]. rewrite bool_decide_eq_false_2 by done. apply Z.eqb_neq. intros E. apply Hx0.
      apply u8_char_inj; [done|lia|lia].
    + destruct (Z.eqb_spec x y) as [->|Hne]; cbn [negb].
      * rewrite IH by done. apply bool_decide_ext. split; [by intros ->|by intros [=]].
      * rewrite bool_decide_eq_false_2 by congruence. apply Z.eqb_neq. intros E. apply Hne, u8_char_inj; [done|done|lia].
Qed.

(** ** The line editor *)

(** The editor as a text with a cursor in it: what the keys mean. *)
Record zipper := mkZip { before : list Z; after : list Z; at_line : Z }.

Definition text (z : zipper) : list Z := before z ++ after z.

Definition spec_key (h : list (list Z)) (c : Z) (z : zipper) : zipper :=
  if c =? 0x1B then z
  else if c =? 0x11 then
    if 0 <? at_line z then mkZip (default [] (h !! Z.to_nat (at_line z - 1))) [] (at_line z - 1) else z
  else if c =? 0x12 then
    if at_line z <? len h then
      mkZip (if at_line z + 1 =? len h then [] else default [] (h !! Z.to_nat (at_line z + 1))) [] (at_line z + 1)
    else z
  else if c =? 0x13 then
    match list.last (before z) with Some x => mkZip (removelast (before z)) (x :: after z) (at_line z) | None => z end
  else if c =? 0x14 then mkZip (text z) [] (at_line z)
  else if c =? 0x0C then z
  else if c =? 8 then mkZip (removelast (before z)) (after z) (at_line z)
  else if len (text z) <? LINE_MAX - 1 then mkZip (before z ++ [char_val (u8 c)]) (after z) (at_line z)
  else z.

(** The line that the keys type, and the keys behind it. *)
Fixpoint spec_line (h : list (list Z)) (keys : list Z) (z : zipper) : option (list Z * list Z) :=
  match keys with
  | [] => None
  | c :: keys' => if c =? 10 then Some (text z, keys') else spec_line h keys' (spec_key h c z)
  end.

Definition history_ok (h : list (list Z)) : Prop := Forall (fun t => Forall char_ok t /\ len t < LINE_MAX) h.

(** A line buffer: its last byte stays NUL. *)
Definition line_ok (b : list Z) : Prop := len b = LINE_MAX /\ getZ b (LINE_MAX - 1) = 0.

Record edits (h : list (list Z)) (e : editor) (z : zipper) : Prop := {
  ed_line : line_ok (buf e);
  ed_text : holds_text (buf e) (text z);
  ed_pos : pos e = len (before z);
  ed_len : line_len e = len (text z);
  ed_max : len (text z) < LINE_MAX;
  ed_idx : hist_idx e = at_line z;
  ed_range : 0 <= at_line z <= len h;
  ed_chars : Forall char_ok (text z)
}.

Lemma text_from_some b i : line_ok b -> 0 <= i < LINE_MAX -> exists t, text_from b i = Some t.
Proof.
  intros [Hl H0] Hi. unfold text_from. replace (existsb _ _) with true; [by eexists|]. symmetry. apply existsb_exists. exists 0. split; [|done].
  unfold len in Hl. change LINE_MAX with 256 in *. change (256 - 1) with 255 in H0. unfold from. apply list_elem_of_In, list_elem_of_lookup.
  exists (Z.to_nat (255 - i)). rewrite lookup_drop. unfold getZ in H0. replace (Z.to_nat i + Z.to_nat (255 - i))%nat with (Z.to_nat 255) by lia.
  destruct (b !! Z.to_nat 255) as [x|] eqn:E; [by cbn in H0; subst x|]. apply lookup_ge_None in E. lia.
Qed.

Lemma setZ_line b i v : line_ok b -> 0 <= i < LINE_MAX - 1 -> line_ok (setZ b i v).
Proof. intros [Hl H0] Hi. split; [unfold len; by rewrite length_setZ|]. by rewrite getZ_setZ_ne by lia. Qed.

Lemma strcpy_line b t : line_ok b -> Forall char_ok t -> len t < LINE_MAX ->
  line_ok (strcpy b t) /\ holds_text (strcpy b t) t /\ Vga.c_string (strcpy b t) = t.
Proof.
  intros [Hl H0] Ht Hm. unfold strcpy, len in *. split; [split|split].
  - unfold len. rewrite !length_app, length_drop. cbn [length]. change LINE_MAX with 256 in *. lia.
  - change LINE_MAX with 256 in *. rewrite getZ_app_r by lia. cbn [app]. rewrite getZ_cons. case_cond; [done|].
    rewrite getZ_drop by lia. rewrite <- H0. f_equal. lia.
  - intros i Hi. unfold len in Hi. by apply Keyboard.getZ_app_l.
  - by apply c_string_text, text_nonzero.
Qed.

Lemma load_history_ok h b i s :
  history s = h -> history_ok h -> line_ok b -> 0 <= i < len h ->
  exists s', load_history b i s = (mkEditor (strcpy b (default [] (h !! Z.to_nat i))) (len (default [] (h !! Z.to_nat i)))
               (len (default [] (h !! Z.to_nat i))) i, s') /\ talks s s' /\
    edits h (load_history b i s).1 (mkZip (default [] (h !! Z.to_nat i)) [] i).
Proof.
  intros <- Hh Hb Hi. unfold load_history. set (t := default [] (history s !! Z.to_nat i)).
  assert (Ht : Forall char_ok t /\ len t < LINE_MAX).
  { subst t. destruct (history s !! Z.to_nat i) as [t|] eqn:E; cbn; [|by split].
    unfold history_ok in Hh. rewrite Forall_lookup in Hh. by apply (Hh _ _ E). }
  destruct Ht as [Hc Hm]. destruct (strcpy_line b t Hb Hc Hm) as (H1 & H2 & H3). rewrite H3.
  eexists. split; [done|]. split; [auto with shell|]. split; cbn [fst buf pos line_len hist_idx before after at_line text];
    unfold text; cbn [before after]; rewrite ?app_nil_r; try done.
  lia.
Qed.

(** Deleting the character in front of the cursor, and putting one there. *)
Lemma edits_delete h e z l x :
  edits h e z -> before z = l ++ [x] ->
  edits h (mkEditor (move_left (Z.to_nat (len (after z))) (len l) (buf e)) (len l) (len (text z) - 1) (at_line z))
    (mkZip l (after z) (at_line z)).
Proof.
  intros [[E1 E0] E2 E3 E4 E5 E6 E7 E8] Eb. unfold text in *. rewrite Eb, <- app_assoc in *. cbn [app] in *.
  destruct (delete_at (buf e) l x (after z) E2) as [Hh Hkeep]; [lia|]. rewrite !len_app in *. change (len (x :: after z)) with (len ([x] ++ after z)) in *.
  rewrite len_app in *. change (len [x]) with 1 in *. pose proof (len_nonneg l). pose proof (len_nonneg (after z)).
  split; cbn [buf pos line_len hist_idx before after at_line]; unfold text; cbn [before after]; rewrite ?len_app; try done; try lia.
  - split; [unfold len; by rewrite length_move_left|]. by rewrite Hkeep by lia.
  - apply Forall_app in E8 as [E8 Ea]. apply Forall_app. split; [done|]. by apply Forall_inv_tail in Ea.
Qed.

Lemma edits_insert h e z c :
  edits h e z -> len (text z) < LINE_MAX - 1 -> char_ok c ->
  edits h (mkEditor (setZ (move_right (Z.to_nat (len (after z))) (len (text z)) (buf e)) (len (before z)) c)
             (len (before z) + 1) (len (text z) + 1) (at_line z))
    (mkZip (before z ++ [c]) (after z) (at_line z)).
Proof.
  intros [[E1 E0] E2 E3 E4 E5 E6 E7 E8] Hl Hc. unfold text in *.
  destruct (insert_at (buf e) (before z) (after z) c E2) as [Hh Hkeep]; [lia|].
  split; cbn [buf pos line_len hist_idx before after at_line]; unfold text; cbn [before after]; rewrite <- ?app_assoc; cbn [app]; try done.
  - split; [unfold len; by rewrite length_setZ, length_move_right|]. by rewrite Hkeep by lia.
  - rewrite len_app. done.
  - rewrite !len_app. change (len (c :: after z)) with (len ([c] ++ after z)). rewrite len_app. change (len [c]) with 1. lia.
  - rewrite !len_app in *. change (len (c :: after z)) with (len ([c] ++ after z)). rewrite len_app. change (len [c]) with 1. lia.
  - apply Forall_app in E8 as [E8 Ea]. apply Forall_app. split; [done|]. by constructor.
Qed.

(** A key after which the editor goes on, with the text of the specification. *)
Definition key_goes_on (h : list (list Z)) (c : Z) (e : editor) (z : zipper) (s : sh) : Prop :=
  exists e' s', edit_key LINE_MAX c e s = Some (More e' s') /\ edits h e' (spec_key h c z) /\ talks s s'.

(** Opens a goal [key_goes_on], with the editor's variables read off the text. *)
Ltac open_key :=
  intros Hs Hh He; pose proof He as [E1 E2 E3 E4 E5 E6 E7 E8];
  unfold key_goes_on, edit_key, spec_key; rewrite E3, E4, E6; cbn [Z.eqb Pos.eqb];
  match type of He with edits _ _ ?z =>
    pose proof (len_nonneg (before z)) as Hb0; pose proof (len_nonneg (after z)) as Ha0;
    assert (Htl : len (text z) = len (before z) + len (after z)) by apply len_app
  end.

Lemma up_key_ok h e z s : history s = h -> history_ok h -> edits h e z -> key_goes_on h 0x11 e z s.
Proof.
  open_key.
  destruct (Z.ltb_spec 0 (at_line z)); [|by exists e, s].
  destruct (talks_backspace (len (text z)) s) as [Hsay (_ & _ & Hhist)].
  destruct (load_history_ok h (buf e) (at_line z - 1) (backspace_n (len (text z)) s)) as (s' & El & Ht & Hz); [congruence|done|done|lia|].
  rewrite El in Hz |- *. cbn [fst] in Hz. eexists _, s'. split; [done|]. split; [done|]. eapply talks_then; [apply talks_backspace|done].
Qed.

Lemma down_key_ok h e z s : history s = h -> history_ok h -> edits h e z -> key_goes_on h 0x12 e z s.
Proof.
  open_key.
  rewrite Hs. destruct (Z.ltb_spec (at_line z) (len h)); [|by exists e, s].
  destruct (talks_backspace (len (text z)) s) as [Hsay (_ & _ & Hhist)]. rewrite Hhist, Hs.
  destruct (Z.eqb_spec (at_line z + 1) (len h)).
  - eexists _, _. split; [done|]. split; [|apply talks_backspace].
    split; cbn [buf pos line_len hist_idx before after at_line]; unfold text; cbn [before after app]; try done; try lia.
    + apply setZ_line; [done|unfold LINE_MAX; lia].
    + intros i Hi. unfold len in Hi. cbn in Hi. lia.
  - destruct (load_history_ok h (buf e) (at_line z + 1) (backspace_n (len (text z)) s)) as (s' & El & Ht & Hz); [congruence|done|done|lia|].
    rewrite El in Hz |- *. cbn [fst] in Hz. eexists _, s'. split; [done|]. split; [done|]. eapply talks_then; [apply talks_backspace|done].
Qed.

Lemma left_key_ok h e z s : history s = h -> history_ok h -> edits h e z -> key_goes_on h 0x13 e z s.
Proof.
  open_key.
  destruct (before z) as [|x l _] eqn:Eb using rev_ind.
  - change (0 <? len (@nil Z)) with false. cbn iota. exists e, s. done.
  - rewrite list.last_snoc, removelast_last, len_app in *. change (len [x]) with 1 in *. pose proof (len_nonneg l).
    replace (0 <? len l + 1) with true by lia. eexists _, _. split; [done|]. split; [|apply talks_write].
    assert (Et : text (mkZip l (x :: after z) (at_line z)) = text z) by (unfold text; cbn [before after]; by rewrite Eb, <- app_assoc).
    split; rewrite ?Et; cbn [buf pos line_len hist_idx before after at_line]; try done. lia.
Qed.

Lemma end_key_ok h e z s : history s = h -> history_ok h -> edits h e z -> key_goes_on h 0x14 e z s.
Proof.
  open_key.
  assert (Hend : edits h (mkEditor (buf e) (len (text z)) (len (text z)) (at_line z)) (mkZip (text z) [] (at_line z))).
  { assert (Et : text (mkZip (text z) [] (at_line z)) = text z) by (unfold text; cbn [before after]; apply app_nil_r).
    split; rewrite ?Et; cbn [buf pos line_len hist_idx before after at_line]; done. }
  destruct (Z.ltb_spec (len (before z)) (len (text z))).
  - destruct (text_from_some (buf e) (len (before z)) E1) as [t Et]; [lia|]. rewrite (bind_some _ _ _ Et).
    eexists _, _. split; [done|]. split; [done|]. eapply talks_then; [apply talks_write|apply talks_repeat].
  - exists e, s. split; [done|]. split; [|done]. destruct e as [eb ep el ei]. cbn [buf pos line_len hist_idx] in *.
    replace ep with (len (text z)) by lia. by subst.
Qed.

Lemma backspace_key_ok h e z s : history s = h -> history_ok h -> edits h e z -> key_goes_on h 8 e z s.
Proof.
  open_key.
  destruct (before z) as [|x l _] eqn:Eb using rev_ind.
  - change (0 <? len (@nil Z)) with false. cbn iota. exists e, s. split; [done|]. split; [|done].
    destruct z as [zb za zi]. cbn in Eb |- *. by subst zb.
  - pose proof (edits_delete h e z l x He Eb) as Hd. rewrite removelast_last, len_app in *. change (len [x]) with 1 in *.
    pose proof (len_nonneg l). replace (0 <? len l + 1) with true by lia. replace (len l + 1 - 1) with (len l) by lia.
    replace (len (text z) - 1 - len l) with (len (after z)) by lia.
    destruct (text_from_some _ (len l) (ed_line _ _ _ Hd)) as [t Et]; [lia|]. cbn [buf] in Et. rewrite (bind_some _ _ _ Et).
    eexists _, _. split; [done|]. split; [done|]. eapply talks_then; [|apply talks_repeat].
    do 3 (eapply talks_then; [|apply talks_write]). done.
Qed.

(** One key other than Enter. *)
Lemma edit_key_ok h c e z s :
  history s = h -> history_ok h -> edits h e z -> 1 <= c <= 255 -> c <> 10 -> key_goes_on h c e z s.
Proof.
  intros Hs Hh He Hc Hc10.
  destruct (Z.eqb_spec c 0x11) as [->|N1]; [by apply up_key_ok|]. destruct (Z.eqb_spec c 0x12) as [->|N2]; [by apply down_key_ok|].
  destruct (Z.eqb_spec c 0x13) as [->|N3]; [by apply left_key_ok|]. destruct (Z.eqb_spec c 0x14) as [->|N4]; [by apply end_key_ok|].
  destruct (Z.eqb_spec c 8) as [->|N5]; [by apply backspace_key_ok|].
  revert Hs Hh He. open_key.
  apply Z.eqb_neq in N1, N2, N3, N4, N5, Hc10. rewrite N1, N2, N3, N4, N5, Hc10.
  destruct (c =? 0x1B); [by exists e, s|]. destruct (c =? 0x0C).
  { destruct (text_from_some (buf e) 0 E1) as [t Et]; [cbn; lia|]. rewrite (bind_some _ _ _ Et). eexists _, _. split; [done|]. split; [done|].
    eapply talks_then; [|apply talks_repeat]. eapply talks_then; [|apply talks_write]. eapply talks_then; [|apply talks_prompt]. by apply talks_call. }
  destruct (Z.ltb_spec (len (text z)) (LINE_MAX - 1)) as [Hlt|]; [|by exists e, s].
  assert (Hch : char_ok (char_val (u8 c))).
  { unfold char_ok. rewrite u8_small by lia. unfold char_val. case_cond; lia. }
  pose proof (edits_insert h e z (char_val (u8 c)) He Hlt Hch) as Hd.
  replace (len (text z) - len (before z)) with (len (after z)) by lia.
  destruct (text_from_some _ (len (before z) + 1 - 1) (ed_line _ _ _ Hd)) as [t Et]; [lia|]. cbn [buf] in Et. rewrite (bind_some _ _ _ Et).
  eexists _, _. split; [done|]. split; [done|]. eapply talks_then; [apply talks_write|apply talks_repeat].
Qed.

(** Enter. *)
Lemma enter_ok h e z s :
  history s = h -> edits h e z ->
  exists b s', edit_key LINE_MAX 10 e s = Some (Line b (history_add (text z) s')) /\ talks s s' /\
    Vga.c_string b = text z /\ line_ok b.
Proof.
  intros Hs [E1 E2 E3 E4 E5 E6 E7 E8]. unfold edit_key. cbn [Z.eqb Pos.eqb]. rewrite E4.
  assert (Hz : getZ (setZ (buf e) (len (text z)) 0) (len (text z)) = 0).
  { apply getZ_setZ_eq. destruct E1. unfold inrange, len in *. lia. }
  assert (Ec : Vga.c_string (setZ (buf e) (len (text z)) 0) = text z).
  { apply holds_text_string; [|by apply text_nonzero| |done].
    - intros i Hi. rewrite getZ_setZ_ne by lia. by apply E2.
    - destruct E1. unfold len in *. rewrite length_setZ. lia. }
  rewrite Ec. eexists _, _. split; [done|]. split; [apply talks_write|]. split; [done|]. destruct (decide (len (text z) = LINE_MAX - 1)) as [El|Hne].
  - destruct E1 as [E1 E0]. split; [unfold len; by rewrite length_setZ|]. by rewrite <- El.
  - apply setZ_line; [done|]. pose proof (len_nonneg (text z)). lia.
Qed.

Lemma edit_loop_ok h keys e z s :
  history s = h -> history_ok h -> edits h e z -> Forall (fun c => 1 <= c <= 255) keys ->
  match spec_line h keys z with
  | Some (t, rest) => exists b s', edit_loop keys LINE_MAX e s = Read b rest (history_add t s') /\ talks s s' /\ Vga.c_string b = t /\
      line_ok b /\ Forall char_ok t /\ len t < LINE_MAX
  | None => exists s', edit_loop keys LINE_MAX e s = Waiting s' /\ talks s s'
  end.
Proof.
  intros Hs Hh He Hk. revert e z s Hs He. induction keys as [|c keys IH]; intros e z s Hs He; cbn [spec_line edit_loop].
  - by exists s.
  - apply Forall_cons_1 in Hk as [Hc Hk]. destruct (Z.eqb_spec c 10) as [->|Hne].
    + destruct (enter_ok h e z s Hs He) as (b & s' & -> & Ht & Hb & Hl). exists b, s'. destruct He. done.
    + destruct (edit_key_ok h c e z s Hs Hh He Hc Hne) as (e' & s1 & -> & He' & Ht1).
      assert (Hs1 : history s1 = h) by (destruct Ht1 as [_ (_ & _ & ->)]; done). specialize (IH Hk e' (spec_key h c z) s1 Hs1 He').
      destruct (spec_line h keys (spec_key h c z)) as [[t rest]|].
      * destruct IH as (b & s' & E & Ht & Hrest). exists b, s'. split; [done|]. split; [by eapply talks_then|done].
      * destruct IH as (s' & E & Ht). exists s'. split; [done|by eapply talks_then].
Qed.

(** ** The history *)

(** What has been typed, without empty lines and repetitions. *)
Definition remember (kept : list (list Z)) (line : list Z) : list (list Z) :=
  if decide (line = []) then kept else if decide (list.last kept = Some line) then kept else kept ++ [line].

Lemma history_add_spec kept line s :
  Forall (Forall char_ok) kept -> Forall char_ok line -> history s = lastn 16 kept ->
  history (history_add line s) = lastn 16 (remember kept line) /\ Forall (Forall char_ok) (remember kept line).
Proof.
  intros Hk Hl Hs. unfold remember. assert (Hok : Forall (Forall char_ok) (kept ++ [line])) by (apply Forall_app; split; [done|by constructor]).
  unfold history_add. destruct line as [|x line]; [by rewrite decide_True|]. rewrite decide_False by done. set (t := x :: line) in *.
  assert (Elast : (0 <? len (history s)) && (strcmp (default [] (history s !! (length (history s) - 1)%nat)) t =? 0) = bool_decide (list.last kept = Some t)).
  { rewrite Hs. rewrite <- (lastn_last 16 kept) by lia. assert (Hh : Forall (Forall char_ok) (lastn 16 kept)) by (by apply Forall_drop).
    destruct (lastn 16 kept) as [|y h _] using rev_ind; [by rewrite bool_decide_eq_false_2|].
    rewrite list.last_snoc. unfold len. rewrite length_app. cbn [length]. replace (0 <? _) with true by lia. cbn [andb].
    replace (length h + 1 - 1)%nat with (length h) by lia. rewrite list_lookup_middle by done. cbn [default].
    apply Forall_app in Hh as [_ Hy]. apply Forall_cons_1 in Hy as [Hy _]. rewrite strcmp_texts by done. apply bool_decide_ext. naive_solver. }
  rewrite Elast. destruct (decide (list.last kept = Some t)) as [Ed|Ed]; [by rewrite bool_decide_eq_true_2|].
  rewrite bool_decide_eq_false_2 by done.
  split; [|done]. rewrite Hs. unfold lastn in *. change HISTORY_SIZE with 16. change (Z.to_nat (16 - 1)) with 15%nat.
  assert (Hlen : length (lastn 16 kept) = (length kept `min` 16)%nat) by (unfold lastn; rewrite length_drop; lia). unfold lastn in Hlen.
  unfold len. rewrite Hlen. destruct (Z.ltb_spec (Z.of_nat (length kept `min` 16)) 16) as [Hlt|Hge]; unfold set_history; cbn [history].
  - rewrite length_app. cbn [length]. replace (length kept + 1 - 16)%nat with 0%nat by lia. by replace (length kept - 16)%nat with 0%nat by lia.
  - rewrite length_app, drop_app_le by (cbn [length]; lia). cbn [length]. apply list_eq. intros j.
    destruct (decide (j = 15)%nat) as [->|Hne].
    + rewrite list_lookup_insert_eq by (rewrite shift_down_length; lia). rewrite lookup_app_r by (rewrite length_drop; lia).
      rewrite length_drop. by replace (15 - _)%nat with 0%nat by lia.
    + rewrite list_lookup_insert_ne, shift_down_lookup by lia. destruct (decide (j < 15)%nat).
      * rewrite decide_True by lia. rewrite lookup_app_l by (rewrite length_drop; lia). rewrite !lookup_drop. f_equal. lia.
      * rewrite decide_False by lia. rewrite !lookup_ge_None_2; [done| |]; rewrite ?length_app, ?length_drop; cbn [length]; lia.
Qed.

(** ** The environment *)

Definition name_ok (n : list Z) : Prop := n <> [] /\ Forall (fun c => char_ok c /\ c <> 61) n.

Lemma name_matches_spec entry name value :
  Forall (fun c => char_ok c /\ c <> 61) name -> name_matches entry name = Some value <-> entry = name ++ 61 :: value.
Proof.
  intros Hn. revert entry. induction Hn as [|c name [[_ Hc0] Hc] Hn IH]; intros entry; cbn [name_matches app].
  - destruct entry as [|e entry]; [done|]. cbn [name_matches]. destruct (Z.eqb_spec e 61); naive_solver.
  - destruct entry as [|e entry]; [done|]. cbn [name_matches]. destruct (decide (e = c)) as [->|Hne].
    + rewrite (proj2 (Z.eqb_neq c 0) Hc0), (proj2 (Z.eqb_neq c 61) Hc), Z.eqb_refl. cbn [orb negb]. rewrite IH. split; [by intros ->|by intros [=]].
    + rewrite (proj2 (Z.eqb_neq e c) Hne), orb_true_r. split; [done|by intros [= -> _]].
Qed.

Lemma name_matches_app name value : Forall (fun c => char_ok c /\ c <> 61) name -> name_matches (name ++ 61 :: value) name = Some value.
Proof. intros Hn. by apply name_matches_spec. Qed.

Lemma name_matches_other name other value :
  Forall (fun c => char_ok c /\ c <> 61) name -> Forall (fun c => char_ok c /\ c <> 61) other -> other <> name ->
  name_matches (name ++ 61 :: value) other = None.
Proof.
  intros Hn Ho Hne. destruct (name_matches _ other) as [v|] eqn:E; [|done]. exfalso. apply name_matches_spec in E; [|done].
  revert other Ho Hne E. induction Hn as [|c name [_ Hc] Hn IH]; intros other Ho Hne E; (destruct Ho as [|o other [_ Hoc] Ho]; cbn [app] in E; simplify_eq).
  apply (IH other Ho); [congruence|done].
Qed.

Lemma env_update_spec name value env :
  Forall (fun c => char_ok c /\ c <> 61) name ->
  match env_update name value env with
  | Some env' => env_lookup name env' = Some value /\ length env' = length env /\
      (forall other, Forall (fun c => char_ok c /\ c <> 61) other -> other <> name -> env_lookup other env' = env_lookup other env) /\
      exists pre old post, env = pre ++ (name ++ 61 :: old) :: post /\ env' = pre ++ (name ++ 61 :: value) :: post
  | None => env_lookup name env = None
  end.
Proof.
  intros Hn. induction env as [|entry env IH]; cbn [env_update env_lookup]; [done|].
  destruct (name_matches entry name) as [old|] eqn:E.
  - apply name_matches_spec in E as ->; [|done].
    assert (Et : take (length name + 1) (name ++ 61 :: old) ++ value = name ++ 61 :: value).
    { rewrite take_app_ge by lia. replace (length name + 1 - length name)%nat with 1%nat by lia. by rewrite <- app_assoc. }
    rewrite Et. cbn [env_lookup length]. rewrite name_matches_app by done. split; [done|]. split; [done|]. split.
    + intros other Ho Hne. by rewrite !name_matches_other.
    + by exists [], old, env.
  - destruct (env_update name value env) as [env'|]; cbn [option_map]; [|done].
    destruct IH as (H1 & H2 & H3 & pre & old & post & -> & ->). cbn [env_lookup length]. rewrite E. split; [done|]. split; [by rewrite H2|]. split.
    + intros other Ho Hne. by rewrite H3.
    + by exists (entry :: pre), old, post.
Qed.

Lemma env_lookup_app name env entry :
  env_lookup name (env ++ [entry]) = match env_lookup name env with Some v => Some v | None => name_matches entry name end.
Proof. induction env as [|e env IH]; cbn [app env_lookup]; [by destruct (name_matches entry name)|].
  destruct (name_matches e name); [done|]. apply IH. Qed.

(** Removing a variable. *)
Lemma find_eq_none t j : find_eq t j = None <-> 61 ∉ t.
Proof.
  revert j. induction t as [|c t IH]; intros j; cbn [find_eq]; [split; [intros _; apply not_elem_of_nil|done]|].
  rewrite not_elem_of_cons. destruct (Z.eqb_spec c 61) as [->|Hne]; [split; [done|by intros [? _]]|]. rewrite IH. split; [by intros|by intros [_ ?]].
Qed.

Lemma unset_index_none env i arg : Forall (Forall char_ok) env -> Forall char_ok arg -> 61 ∉ arg -> unset_index env i arg = None.
Proof.
  intros He Ha Hn. revert i. induction He as [|entry env Hentry He IH]; intros i; cbn [unset_index]; [done|].
  destruct (find_eq entry 0) as [p|] eqn:E; [|apply IH]. rewrite strcmp_texts by done. rewrite bool_decide_eq_false_2; [apply IH|].
  intros ->. apply (find_eq_none arg 0) in Hn. congruence.
Qed.

Lemma unset_index_some pre post i arg :
  Forall (Forall char_ok) pre -> Forall char_ok arg -> 61 ∈ arg -> arg ∉ pre ->
  unset_index (pre ++ arg :: post) i arg = Some (i + length pre)%nat.
Proof.
  intros Hp Ha Hin. revert i. induction Hp as [|entry pre Hentry Hp IH]; intros i Hnot; cbn [app unset_index length].
  - destruct (find_eq arg 0) as [p|] eqn:E; [|by apply find_eq_none in E]. rewrite strcmp_texts, bool_decide_eq_true_2 by done. f_equal. lia.
  - apply not_elem_of_cons in Hnot as [Hne Hnot]. rewrite strcmp_texts, bool_decide_eq_false_2 by done.
    rewrite IH by done. destruct (find_eq entry 0); f_equal; lia.
Qed.

(** ** Words *)

Definition blank (c : Z) : Prop := c = 32 \/ c = 9.
Definition plain (c : Z) : Prop := c <> 0 /\ c <> 32 /\ c <> 9 /\ c <> 39 /\ c <> 34 /\ c <> 92.

Lemma token_end_plain w c rest i :
  Forall plain w -> c = 0 \/ blank c -> token_end (w ++ c :: rest) i false false = i + len w.
Proof.
  intros Hw Hc. unfold len. revert i. induction Hw as [|x w Hx Hw IH]; intros i; cbn [app token_end length].
  - replace (negb (c =? 0) && (false || false || (negb (c =? 32) && negb (c =? 9)))) with false by (unfold blank in Hc; lia). lia.
  - unfold plain in Hx. replace (negb (x =? 0) && _) with true by lia. replace (x =? 39) with false by lia.
    replace (x =? 34) with false by lia. replace (x =? 92) with false by lia. rewrite IH. lia.
Qed.

Lemma skip_blanks_to bl c rest i : Forall blank bl -> c <> 32 -> c <> 9 -> skip_blanks (bl ++ c :: rest) i = i + len bl.
Proof.
  intros Hb H1 H2. unfold len. revert i. induction Hb as [|x bl Hx Hb IH]; intros i; cbn [app skip_blanks length].
  - replace ((c =? 32) || (c =? 9)) with false by lia. lia.
  - unfold blank in Hx. replace ((x =? 32) || (x =? 9)) with true by lia. rewrite IH. lia.
Qed.

(** Only the first word is found. *)
Lemma tokenize_first bl w c rest :
  Forall blank bl -> Forall plain w -> w <> [] -> c = 0 \/ blank c -> len bl + len w < 128 ->
  tokenize (bl ++ w ++ c :: rest) MAX_ARGS = (bl ++ w ++ 0 :: rest, [len bl]).
Proof.
  intros Hb Hw Hne Hc Hl. unfold tokenize. destruct w as [|x w]; [done|]. pose proof (Forall_inv Hw) as Hx. unfold plain in Hx.
  set (input := bl ++ (x :: w) ++ c :: rest). assert (Hlen : (2 <= length input)%nat).
  { unfold input. rewrite !length_app. cbn [length]. lia. }
  destruct (length input) as [|[|n]] eqn:En; [lia|lia|]. cbn [tokenize_loop].
  assert (H0 : getZ input 0 <> 0).
  { unfold input. destruct bl as [|y bl]; [change (x <> 0); tauto|]. change (y <> 0). pose proof (Forall_inv Hb) as Hy. unfold blank in Hy. lia. }
  change (len [] <? MAX_ARGS - 1) with true. rewrite (proj2 (Z.eqb_neq _ 0) H0). cbn [negb andb].
  assert (Es : skip_blanks (from 0 input) 0 = len bl) by exact (skip_blanks_to bl x (w ++ c :: rest) 0 Hb ltac:(tauto) ltac:(tauto)).
  rewrite Es. assert (Eg : getZ input (len bl) = x) by apply getZ_mid. rewrite Eg, (proj2 (Z.eqb_neq x 0)) by tauto.
  assert (Et : token_end (from (len bl) input) (len bl) false false = len bl + len (x :: w)) by (unfold input; by rewrite from_app, token_end_plain).
  rewrite Et. change (MAX_ARGS * 4) with 128.
  replace (len bl + len (x :: w) <? 128) with true by lia.
  assert (Ei : setZ input (len bl + len (x :: w)) 0 = bl ++ (x :: w) ++ 0 :: rest).
  { unfold input. rewrite (app_assoc bl (x :: w) (c :: rest)), <- len_app, setZ_app. by rewrite <- app_assoc. }
  rewrite Ei. assert (Ee : getZ (bl ++ (x :: w) ++ 0 :: rest) (len bl + len (x :: w)) = 0).
  { rewrite (app_assoc bl (x :: w) (0 :: rest)), <- len_app. apply getZ_mid. }
  destruct n; cbn [tokenize_loop]; by rewrite Ee.
Qed.

Lemma builtin_without_arguments input input' a a' s :
  string_at input a = string_at input' a' -> execute_builtin input [a] s = execute_builtin input' [a'] s.
Proof. intros E. unfold execute_builtin. by rewrite E. Qed.

(** ** Expansion *)

Lemma expand_plain fuel t st dst max s :
  Forall (fun c => c <> 0 /\ c <> 36) t -> (length t <= fuel)%nat -> len dst <= max - 1 ->
  expand_loop fuel (t ++ 0 :: st) dst max s = Some (dst ++ take (Z.to_nat (max - 1 - len dst)) t).
Proof.
  intros Ht. revert fuel dst. induction Ht as [|c t [Hc0 Hc] Ht IH]; intros fuel dst Hf Hd; cbn [app].
  - destruct fuel; cbn [expand_loop]; rewrite take_nil, app_nil_r; done.
  - destruct fuel as [|fuel]; [cbn [length] in Hf; lia|]. cbn [expand_loop length] in *. rewrite (proj2 (Z.eqb_neq c 0) Hc0).
    destruct (Z.ltb_spec (len dst) (max - 1)) as [Hlt|Hge]; cbn [negb orb].
    + rewrite (proj2 (Z.eqb_neq c 36) Hc). rewrite IH by (try lia; rewrite len_app; change (len [c]) with 1; lia).
      rewrite len_app, <- app_assoc. change (len [c]) with 1.
      replace (Z.to_nat (max - 1 - len dst)) with (S (Z.to_nat (max - 1 - (len dst + 1)))) by lia. done.
    + replace (Z.to_nat (max - 1 - len dst)) with 0%nat by lia. by rewrite app_nil_r.
Qed.

Lemma expand_line t st s : Forall (fun c => c <> 0 /\ c <> 36) t -> expand_vars (t ++ 0 :: st) LINE_MAX s = Some (take 255 t).
Proof.
  intros Ht. unfold expand_vars. rewrite expand_plain; [done|done|rewrite length_app; lia|]. unfold len, LINE_MAX. cbn. lia.
Qed.

Lemma put_value_len dst value max : len dst <= max - 1 -> len (put_value dst value max) <= max - 1.
Proof. intros Hd. unfold put_value. rewrite len_app. unfold len in *. rewrite length_take. lia. Qed.

Lemma expand_len fuel src dst max s t : expand_loop fuel src dst max s = Some t -> len dst <= max -> len t <= max.
Proof.
  revert src dst. induction fuel as [|fuel IH]; intros src dst; (destruct src as [|c src1]; cbn [expand_loop]; [done|]).
  - destruct (_ || _); [by intros [= <-]|done].
  - destruct (Z.ltb_spec (len dst) (max - 1)) as [Hlt|Hge]; [|rewrite orb_true_r; by intros [= <-]].
    destruct (c =? 0); cbn [negb orb]; [by intros [= <-]|]. destruct (c =? 36).
    + destruct src1 as [|c1 src2]; [done|]. destruct (c1 =? 123).
      * destruct (brace_name 63 src2) as [[name rest]|]; [|done]. cbn [mbind option_bind]. intros E _. apply IH in E; [done|].
        pose proof (put_value_len dst (env_get name s) max). lia.
      * destruct (plain_name 63 (c1 :: src2)) as [[name rest]|]; [|done]. cbn [mbind option_bind].
        destruct name as [|x name]; intros E _; apply IH in E; try done.
        -- rewrite !len_app. change (len [36]) with 1. destruct (c1 =? 0); unfold len; cbn [length]; unfold len in Hlt; lia.
        -- pose proof (put_value_len dst (env_get (x :: name) s) max). lia.
    + intros E _. apply IH in E; [done|]. rewrite len_app. change (len [c]) with 1. lia.
Qed.

Lemma brace_name_all n name rest :
  Forall (fun c => c <> 0 /\ c <> 125) name -> (length name <= n)%nat -> brace_name n (name ++ 125 :: rest) = Some (name, 125 :: rest).
Proof.
  intros Hn. revert n. induction Hn as [|c name [H0 H1] Hn IH]; intros n Hl; [by destruct n|].
  destruct n as [|n]; [cbn [length] in Hl; lia|]. cbn [app brace_name length] in *.
  rewrite (proj2 (Z.eqb_neq c 0) H0), (proj2 (Z.eqb_neq c 125) H1). cbn [orb]. by rewrite IH by lia.
Qed.

Lemma expand_brace_step fuel name c rest dst max s :
  Forall (fun x => x <> 0 /\ x <> 125) name -> (length name <= 63)%nat -> len dst < max - 1 ->
  expand_loop (S fuel) (36 :: 123 :: name ++ 125 :: c :: rest) dst max s = expand_loop fuel rest (put_value dst (env_get name s) max) max s.
Proof.
  intros Hn Hl Hd. cbn [expand_loop]. rewrite (proj2 (Z.ltb_lt _ _) Hd). cbn [Z.eqb Pos.eqb orb negb].
  by rewrite (bind_some _ _ _ (brace_name_all 63 name (c :: rest) Hn Hl)).
Qed.

(** ** Everything goes to file 0 *)

Lemma says_then s s1 s2 : says s s1 -> says s1 s2 -> says s s2.
Proof. apply transitivity. Qed.

Lemma talks_says s s' : talks s s' -> says s s'.
Proof. by intros []. Qed.

Lemma says_same_out s s' : out s' = out s -> says s s'.
Proof. intros E. exists []. by rewrite app_nil_r. Qed.

Lemma env_set_out name value s : out (env_set name value s) = out s.
Proof. unfold env_set. repeat case_match; done. Qed.

Lemma history_add_out line s : out (history_add line s) = out s.
Proof. unfold history_add. repeat case_match; done. Qed.

Lemma unset_out arg s : out (unset arg s) = out s.
Proof. unfold unset. by case_match. Qed.

Lemma export_out args input s : out (export_loop args input s) = out s.
Proof.
  revert input s. induction args as [|a args IH]; intros input s; cbn [export_loop]; [done|]. case_match; rewrite IH; [apply env_set_out|done].
Qed.

Lemma echo_talks args first input s : talks s (echo_loop args first input s).
Proof.
  revert first s. induction args as [|a args IH]; intros first s; cbn [echo_loop]; [done|]. eapply talks_then; [|apply IH].
  eapply talks_then; [|apply talks_write]. destruct first; [done|apply talks_write].
Qed.

Lemma history_list_talks l i s : talks s (history_list_loop l i s).
Proof.
  revert i s. induction l as [|t l IH]; intros i s; cbn [history_list_loop]; [done|]. eapply talks_then; [|apply IH].
  do 5 (eapply talks_then; [|apply talks_write]). done.
Qed.

Lemma builtin_says input argv s : says s (execute_builtin input argv s).2.
Proof.
  unfold execute_builtin. destruct argv as [|a0 args]; [done|].
  repeat (case_match; cbn [snd]; [first [by apply talks_call | apply talks_says; first
    [ unfold cmd_help; apply talks_foldl; intros; apply talks_write
    | by apply talks_call
    | eapply talks_then; [apply echo_talks|apply talks_write]
    | unfold env_list; apply talks_foldl; intros x t; eapply talks_then; apply talks_write
    | apply history_list_talks
    | done ]
    | apply says_same_out; first [apply export_out | by case_match; rewrite ?unset_out] | done ]|]). done.
Qed.

Lemma command_says line s b s' : execute_command line s = Some (b, s') -> says s s'.
Proof.
  unfold execute_command. destruct (expand_vars _ _ _) as [t|]; [|done]. cbn [mbind option_bind]. case_match; [done|].
  destruct (tokenize _ _) as [input argv]. destruct argv as [|a0 args]; [by intros [= _ <-]|].
  pose proof (builtin_says input (a0 :: args) s) as Hb. destruct (execute_builtin _ _ _) as [ret s1]. cbn [snd] in Hb.
  destruct ret as [v|]; [|by intros [= _ <-]]. case_match; intros [= _ <-]; (eapply says_then; [exact Hb|]).
  - set (t1 := sys_write_str (string_at input a0) s1). set (t2 := sys_write_str _ t1). apply (says_then _ t2); [|by apply says_same_out].
    apply talks_says, (talks_then _ t1); apply talks_write.
  - by apply says_same_out.
Qed.

Lemma load_history_talks b i s : talks s (load_history b i s).2.
Proof. apply talks_write. Qed.

Lemma edit_key_says max c e s r :
  edit_key max c e s = Some r -> says s (match r with More _ s' => s' | Line _ s' => s' end).
Proof.
  assert (Hload : forall b i n, says s (load_history b i (backspace_n n s)).2).
  { intros. apply talks_says. eapply talks_then; [apply talks_backspace|apply load_history_talks]. }
  unfold edit_key. cbv zeta. destruct (c =? 0x1B); [by intros [= <-]|]. destruct (c =? 0x11).
  { case_match; [|by intros [= <-]]. destruct (load_history _ _ _) as [e' s'] eqn:E. intros [= <-].
    pose proof (Hload (buf e) (hist_idx e - 1) (line_len e)) as Hl. by rewrite E in Hl. }
  destruct (c =? 0x12).
  { case_match; [|by intros [= <-]]. case_match; [intros [= <-]; apply talks_says, talks_backspace|].
    destruct (load_history _ _ _) as [e' s'] eqn:E. intros [= <-].
    pose proof (Hload (buf e) (hist_idx e + 1) (line_len e)) as Hl. by rewrite E in Hl. }
  destruct (c =? 0x13); [case_match; intros [= <-]; [apply talks_says, talks_write|done]|].
  destruct (c =? 0x14).
  { case_match; [|by intros [= <-]]. destruct (text_from _ _); [|done]. intros [= <-]. apply talks_says. eapply talks_then; [apply talks_write|apply talks_repeat]. }
  destruct (c =? 0x0C).
  { destruct (text_from _ _); [|done]. intros [= <-]. apply talks_says. eapply talks_then; [|apply talks_repeat]. eapply talks_then; [|apply talks_write].
    eapply talks_then; [|apply talks_prompt]. by apply talks_call. }
  destruct (c =? 10).
  { intros [= <-]. eapply says_then; [apply talks_says, (talks_write [10])|]. apply says_same_out, history_add_out. }
  destruct (c =? 8).
  { case_match; [|by intros [= <-]]. destruct (text_from _ _); [|done]. intros [= <-]. apply talks_says. eapply talks_then; [|apply talks_repeat].
    do 3 (eapply talks_then; [|apply talks_write]). done. }
  case_match; [|by intros [= <-]]. destruct (text_from _ _); [|done]. intros [= <-]. apply talks_says. eapply talks_then; [apply talks_write|apply talks_repeat].
Qed.

Lemma edit_loop_says keys max e s :
  match edit_loop keys max e s with Read _ _ s' => says s s' | Waiting s' => says s s' | Overrun => True end.
Proof.
  revert e s. induction keys as [|c keys IH]; intros e s; cbn [edit_loop]; [done|].
  destruct (edit_key max c e s) as [r|] eqn:E; [|done]. apply edit_key_says in E. destruct r as [e' s'|b s']; [|done].
  specialize (IH e' s'). destruct (edit_loop keys max e' s'); [by eapply says_then|by eapply says_then|done].
Qed.

Lemma main_loop_says fuel keys b s :
  match main_loop fuel keys b s with Asking s' => says s s' | Left s' => says s s' | _ => True end.
Proof.
  revert keys b s. induction fuel as [|fuel IH]; intros keys b s; cbn [main_loop]; [done|]. unfold read_line.
  pose proof (edit_loop_says keys LINE_MAX (mkEditor b 0 0 (len (history (show_prompt s)))) (show_prompt s)) as Hr.
  pose proof (talks_says _ _ (talks_prompt s)) as Hp.
  destruct (edit_loop _ _ _ _) as [b' keys' s1|s1|]; [|by eapply says_then|done].
  assert (Hs1 : says s s1) by (by eapply says_then). destruct (getZ b' 0 =? 0).
  - specialize (IH keys' b' s1). case_match; try done; by eapply says_then.
  - destruct (execute_command b' s1) as [[[] s2]|] eqn:E; [| |done]; apply command_says in E.
    + by eapply says_then.
    + specialize (IH keys' b' s2). assert (Hs2 : says s s2) by (by eapply says_then). case_match; try done; by eapply says_then.
Qed.

Lemma history_add_ok line s :
  history_ok (history s) -> Forall char_ok line -> len line < LINE_MAX -> history_ok (history (history_add line s)).
Proof.
  intros Hh Hl Hn. assert (Hline : Forall char_ok line /\ len line < LINE_MAX) by done. unfold history_add. destruct line as [|x line]; [done|].
  case_match; [done|]. case_match; unfold set_history; cbn [history]; [apply Forall_app; split; [done|by constructor]|].
  apply Forall_insert; [|done]. generalize 0%nat, (Z.to_nat (HISTORY_SIZE - 1)). intros k n. revert k Hh. generalize (history s).
  induction n as [|n IH]; intros h k Hh; cbn [shift_down]; [done|]. apply IH, Forall_insert; [done|].
  destruct (h !! S k) as [t|] eqn:E; [exact (Forall_lookup_1 _ _ _ _ Hh E)|]. by split.
Qed.

(** ** The properties *)

(** C10: the line editor is a text with a cursor.  On an array whose last byte is
    NUL, [read_line] delivers the line that the keys type, with insertion and
    deletion at the cursor, both arrows, and the two keys that fetch older and
    newer lines of the history; it stops at Enter, leaves the keys behind it,
    adds the line to the history and never leaves the array, which is fit for
    the next line.  Without Enter it waits. *)
Theorem read_line_edits (keys b : list Z) (s : sh) :
  line_ok b -> history_ok (history s) -> Forall (fun c => 1 <= c <= 255) keys ->
  match spec_line (history s) keys (mkZip [] [] (len (history s))) with
  | Some (t, rest) =>
      exists b' s', read_line keys b s = Read b' rest (history_add t s') /\ same_vars s s' /\
        Vga.c_string b' = t /\ line_ok b' /\ len t < LINE_MAX /\ history_ok (history (history_add t s'))
  | None => exists s', read_line keys b s = Waiting s' /\ same_vars s s'
  end.
Proof.
  intros Hb Hh Hk. unfold read_line.
  assert (He : edits (history s) (mkEditor b 0 0 (len (history s))) (mkZip [] [] (len (history s)))).
  { pose proof (len_nonneg (history s)). split; cbn; try done. intros i Hi. unfold len in Hi. cbn in Hi. lia. }
  pose proof (edit_loop_ok (history s) keys _ _ s eq_refl Hh He Hk) as Hr.
  destruct (spec_line _ _ _) as [[t rest]|].
  - destruct Hr as (b' & s' & E & [_ Hv] & Hc & Hl & Ht & Hm). exists b', s'. split_and!; try done.
    apply history_add_ok; [|done|done]. by destruct Hv as (_ & _ & ->).
  - destruct Hr as (s' & E & [_ Hv]). by exists s'.
Qed.

(** The history keeps the last sixteen lines, oldest first, of what was typed
    without its empty lines and without repetitions of the line before. *)
Theorem history_keeps_recent (lines : list (list Z)) :
  Forall (Forall char_ok) lines ->
  history (foldl (fun s line => history_add line s) boot_sh lines) = lastn 16 (foldl remember [] lines).
Proof.
  intros Hl. assert (H0 : history boot_sh = lastn 16 []) by done. revert H0. assert (Hk : Forall (Forall char_ok) []) by constructor.
  revert Hk. generalize (@nil (list Z)), boot_sh. induction Hl as [|line lines Hline Hl IH]; intros kept s Hk Hs; cbn [foldl]; [done|].
  destruct (history_add_spec kept line s Hk Hline Hs) as [E Hk']. by apply IH.
Qed.

(** C31: what [env_set] stores [env_get] gives back, and the other variables keep
    their values, when the entry fits into its 128 bytes and there is room;
    otherwise nothing is changed. *)
Theorem env_set_get (name value : list Z) (s : sh) :
  name_ok name -> Forall char_ok value ->
  let s' := env_set name value s in
  (len name + 1 + len value < ENV_VAL_MAX -> env_lookup name (env_vars s) <> None \/ len (env_vars s) < MAX_ENV ->
   env_get name s' = value /\ forall other, name_ok other -> other <> name -> env_get other s' = env_get other s) /\
  (ENV_VAL_MAX <= len name + 1 + len value \/ env_lookup name (env_vars s) = None /\ MAX_ENV <= len (env_vars s) -> s' = s).
Proof.
  intros [Hne Hn] Hv s'. subst s'. unfold env_set. pose proof (env_update_spec name value (env_vars s) Hn) as Hu. split.
  - intros Hlen Hroom. rewrite (proj2 (Z.leb_gt _ _)) by done. destruct (env_update name value (env_vars s)) as [env'|].
    + destruct Hu as (H1 & _ & H3 & _). unfold env_get. cbn [env_vars set_env]. rewrite H1. split; [done|].
      intros other [_ Ho] Hother. by rewrite H3.
    + destruct Hroom as [Hroom|Hroom]; [done|]. rewrite (proj2 (Z.ltb_lt _ _)) by done. unfold env_get. cbn [env_vars set_env app].
      rewrite env_lookup_app, Hu, name_matches_app by done. split; [done|]. intros other [_ Ho] Hother.
      rewrite env_lookup_app, name_matches_other by done. by destruct (env_lookup other (env_vars s)).
  - intros [Hlen|[Hnone Hfull]]; [rewrite (proj2 (Z.leb_le _ _) Hlen); done|]. destruct (ENV_VAL_MAX <=? _); [done|].
    destruct (env_update name value (env_vars s)) as [env'|].
    + destruct Hu as (_ & _ & _ & pre & old & post & E & _). exfalso. clear - Hn Hnone E. rewrite E in Hnone. clear E.
      induction pre as [|e pre IH]; cbn [app env_lookup] in Hnone; [by rewrite name_matches_app in Hnone|]. destruct (name_matches e name); [done|auto].
    + by rewrite (proj2 (Z.ltb_ge _ _)).
Qed.

(** [unset] compares the whole entry with its argument: a name alone removes
    nothing, only the entry "NAME=VALUE" itself does. *)
Theorem unset_takes_whole_entry (arg : list Z) (s : sh) (pre post : list (list Z)) :
  Forall (Forall char_ok) (env_vars s) -> Forall char_ok arg -> env_vars s = pre ++ arg :: post \/ 61 ∉ arg -> arg ∉ pre ->
  unset arg s = (if decide (61 ∈ arg) then set_env (pre ++ post) s else s).
Proof.
  intros He Ha Hcase Hpre. unfold unset. case_decide as Hin.
  - destruct Hcase as [E|]; [|done]. rewrite E in *. apply Forall_app in He as [Hp _]. rewrite unset_index_some by done. cbn [Nat.add]. f_equal.
    rewrite shift_down_delete by (rewrite length_app; cbn [length]; lia). rewrite take_app_length. f_equal. by rewrite drop_app_ge, Nat.sub_succ_l, Nat.sub_diag by lia.
  - by rewrite unset_index_none.
Qed.

(** C37: Arguments are lost: a command line whose first word [w] ends within 128
    characters does exactly what [w] alone does.  [tokenize] writes a NUL
    behind the word and then takes it for the end of the line. *)
Theorem arguments_are_lost (w args stale stale' : list Z) (b : Z) (s : sh) :
  Forall plain w -> Forall (fun c => c <> 36) w -> w <> [] -> len w < 128 -> blank b ->
  Forall (fun c => c <> 0 /\ c <> 36) args ->
  execute_command (w ++ b :: args ++ 0 :: stale) s = execute_command (w ++ 0 :: stale') s.
Proof.
  intros Hw Hd Hne Hl Hb Ha.
  assert (Hw0 : Forall (fun c => c <> 0 /\ c <> 36) w).
  { apply list.Forall_forall. intros c Hc. rewrite list.Forall_forall in Hw, Hd. split; [apply (Hw c Hc)|apply (Hd c Hc)]. }
  assert (Hwa : Forall (fun c => c <> 0 /\ c <> 36) (w ++ b :: args)).
  { apply Forall_app. split; [done|]. constructor; [unfold blank in Hb; lia|done]. }
  unfold execute_command. rewrite (app_assoc w (b :: args) (0 :: stale) : w ++ b :: args ++ 0 :: stale = _).
  rewrite !expand_line by done. cbn [mbind option_bind]. unfold len in Hl. rewrite (take_ge w) by lia. rewrite take_app_ge by lia.
  assert (Eb : exists rest, take (255 - length w) (b :: args) = b :: rest).
  { destruct (255 - length w)%nat eqn:E; [lia|]. by eexists. }
  destruct Eb as [rest Eb]. rewrite Eb. assert (Hrest : len (w ++ b :: rest) < LINE_MAX).
  { unfold len, LINE_MAX. rewrite <- Eb, length_app, length_take. lia. }
  rewrite !(proj2 (Z.leb_gt _ _)) by (done || (unfold len, LINE_MAX; lia)).
  rewrite <- app_assoc. cbn [app].
  assert (E1 : tokenize (w ++ b :: rest ++ [0]) MAX_ARGS = (w ++ 0 :: rest ++ [0], [0])).
  { apply (tokenize_first [] w b (rest ++ [0])); [constructor|done|done|by right|unfold len; cbn [length]; lia]. }
  assert (E2 : tokenize (w ++ [0]) MAX_ARGS = (w ++ [0], [0])).
  { apply (tokenize_first [] w 0 []); [constructor|done|done|by left|unfold len; cbn [length]; lia]. }
  rewrite E1, E2. assert (Hw1 : Forall (fun c => c <> 0) w) by (eapply list.Forall_impl; [exact Hw0|]; by intros c []).
  assert (Es : string_at (w ++ 0 :: rest ++ [0]) 0 = string_at (w ++ [0]) 0).
  { change (Vga.c_string (w ++ 0 :: rest ++ [0]) = Vga.c_string (w ++ [0])). by rewrite !c_string_text. }
  rewrite (builtin_without_arguments _ (w ++ [0]) 0 0 s Es), Es. done.
Qed.

(** The array that [expand_vars] fills may be too short by one: the text has at
    most [LINE_MAX] characters, the NUL comes on top of them, and there are
    lines for which it falls behind the end of the array. *)
Theorem expand_vars_off_by_one (src t : list Z) (s : sh) :
  expand_vars src LINE_MAX s = Some t ->
  len t <= LINE_MAX /\
  exists line env t', line_ok line /\ env = env_set (chars "SHELL") (chars "antigravity-sh") boot_sh /\
    expand_vars line LINE_MAX env = Some t' /\ len t' = LINE_MAX.
Proof.
  intros E. split; [apply (expand_len _ _ _ _ _ _ E); unfold len, LINE_MAX; cbn; lia|].
  exists (concat (replicate 16 (chars "$SHELL/")) ++ replicate 14 97 ++ [36; 45] ++ replicate 128 0). eexists _, _.
  split; [by split; vm_compute|]. split; [reflexivity|]. split; [vm_compute; reflexivity|]. vm_compute. reflexivity.
Qed.

(** Behind the brace of a variable one character is skipped: "${A}xy" is the
    value of A and "y".  When the variable ends the line it is the NUL that is
    skipped, and the rest of an older line comes into the text. *)
Theorem expand_brace_swallows (name t stale : list Z) (c : Z) (s : sh) :
  Forall (fun x => x <> 0 /\ x <> 125) name -> len name < 64 -> Forall (fun x => x <> 0 /\ x <> 36) t ->
  expand_vars ([36; 123] ++ name ++ [125; c] ++ t ++ 0 :: stale) LINE_MAX s = Some (take 255 (env_get name s ++ t)).
Proof.
  intros Hn Hl Ht. unfold expand_vars. cbn [app length]. unfold len in Hl.
  rewrite expand_brace_step by (done || lia || (unfold len, LINE_MAX; cbn; lia)).
  assert (Hd : len (put_value [] (env_get name s) LINE_MAX) <= LINE_MAX - 1) by (apply put_value_len; unfold len, LINE_MAX; cbn; lia).
  rewrite expand_plain; [|done|rewrite length_app; cbn [length]; rewrite length_app; lia|done].
  f_equal. unfold put_value. cbn [app]. change (Z.to_nat (LINE_MAX - 1 - len [])) with 255%nat. rewrite take_app. f_equal. f_equal.
  unfold len, LINE_MAX. rewrite length_take. lia.
Qed.

(** C38: Nobody sees what the shell writes: all of it goes to file 0, which the
    kernel refuses.  For whatever keys and whatever was on the stack, every
    write of the session returns -1 and leaves screen and serial line as they
    were. *)
Theorem shell_output_refused `{Dir.KString} (keys b : list Z) (s : sh) (fd : Z) (t : list Z)
    (kernel_end : Z) (lsr : nat -> Z) (if_flag : bool) (irq : nat -> Keyboard.ring -> Keyboard.ring) (fuel : nat)
    (r : Syscall.syscall_regs) (k : Syscall.kernel) :
  start keys b = Asking s \/ start keys b = Left s -> In (Write fd t) (out s) ->
  Syscall.eax r = Syscall.SYS_WRITE -> Syscall.ebx r = fd -> Syscall.ecx r <> 0 ->
  Syscall.c_syscall_handler kernel_end lsr if_flag irq fuel r k = Some (Syscall.Returned (Syscall.set_eax (2 ^ 32 - 1) r) k).
Proof.
  intros Hs Hin Ha Hb Hc. assert (Hfd : fd = 0).
  { assert (Hsay : says boot_sh s).
    { unfold start in Hs.
      match type of Hs with (main_loop ?f ?ks ?l ?s0 = _) \/ _ => pose proof (main_loop_says f ks l s0) as Hm; assert (H0 : says boot_sh s0) end.
      { set (e := env_set (chars "PS1") _ _). apply (says_then _ e).
        - apply says_same_out. unfold e. by rewrite !env_set_out.
        - apply talks_says. eapply talks_then; apply talks_write. }
      destruct Hs as [E|E]; rewrite E in Hm; by eapply says_then. }
    destruct Hsay as (l & El & Hq). rewrite El in Hin. cbn [boot_sh out app] in Hin. rewrite List.Forall_forall in Hq. apply (Hq _ Hin). }
  unfold Syscall.c_syscall_handler, Syscall.sys_write. rewrite Ha, Hb, Hfd. cbn [Z.eqb Syscall.SYS_WRITE Pos.eqb].
  rewrite (proj2 (Z.eqb_neq _ 0) Hc). done.
Qed.

(** ** Witnesses *)

#[local] Existing Instance Dir.c_strings.

Definition zero_line : list Z := replicate 256 0.

Lemma zero_line_ok : line_ok zero_line.
Proof. split; vm_compute; reflexivity. Qed.

(** Typing "ac", the cursor left, "b", Enter. *)
Lemma read_line_edits_witness :
  exists b' s', read_line [97; 99; 0x13; 98; 10; 120] zero_line boot_sh = Read b' [120] (history_add [97; 98; 99] s') /\
    Vga.c_string b' = [97; 98; 99].
Proof.
  assert (Hk : Forall (fun c => 1 <= c <= 255) [97; 99; 0x13; 98; 10; 120]) by (repeat constructor; lia).
  assert (Hh : history_ok (history boot_sh)) by constructor.
  pose proof (read_line_edits [97; 99; 0x13; 98; 10; 120] zero_line boot_sh zero_line_ok Hh Hk) as H.
  assert (E : spec_line (history boot_sh) [97; 99; 0x13; 98; 10; 120] (mkZip [] [] (len (history boot_sh))) = Some ([97; 98; 99], [120]))
    by (vm_compute; reflexivity).
  rewrite E in H. destruct H as (b' & s' & H1 & _ & H2 & _). exists b', s'. split; [exact H1|exact H2].
Defined.

Lemma history_keeps_recent_witness :
  history (foldl (fun s line => history_add line s) boot_sh [[97]; [97]; []; [98]]) = [[97]; [98]].
Proof.
  rewrite (history_keeps_recent [[97]; [97]; []; [98]]); [reflexivity|]. repeat constructor; unfold char_ok; lia.
Defined.

Lemma env_set_get_witness : env_get [65] (env_set [65] [49] boot_sh) = [49].
Proof.
  destruct (env_set_get [65] [49] boot_sh) as [H _].
  - split; [done|]. repeat constructor; unfold char_ok; lia.
  - repeat constructor; unfold char_ok; lia.
  - apply H; [vm_compute; reflexivity|right; vm_compute; reflexivity].
Defined.

Definition two_vars : sh := mkSh [[65; 61; 49]; [66; 61; 50]] 0 [] [].

Lemma unset_takes_whole_entry_witness : unset [65] two_vars = two_vars.
Proof.
  rewrite (unset_takes_whole_entry [65] two_vars [] []).
  - rewrite decide_False by (by rewrite list_elem_of_singleton). reflexivity.
  - repeat constructor; unfold char_ok; lia.
  - repeat constructor; unfold char_ok; lia.
  - right. by rewrite list_elem_of_singleton.
  - apply not_elem_of_nil.
Defined.

(** "false x" is "false". *)
Lemma arguments_are_lost_witness :
  execute_command (chars "false" ++ 32 :: [120] ++ 0 :: []) boot_sh = execute_command (chars "false" ++ 0 :: [1; 2]) boot_sh.
Proof.
  apply (arguments_are_lost (chars "false") [120] [] [1; 2] 32 boot_sh).
  - repeat constructor; discriminate.
  - repeat constructor; discriminate.
  - discriminate.
  - vm_compute. reflexivity.
  - by left.
  - repeat constructor; discriminate.
Defined.

Lemma expand_vars_off_by_one_witness : len [97] <= LINE_MAX.
Proof. apply (expand_vars_off_by_one [97; 0] [97] boot_sh). vm_compute. reflexivity. Defined.

Lemma expand_brace_swallows_witness :
  expand_vars ([36; 123] ++ [65] ++ [125; 0] ++ [111; 108; 100] ++ 0 :: []) LINE_MAX two_vars = Some [49; 111; 108; 100].
Proof.
  rewrite (expand_brace_swallows [65] [111; 108; 100] [] 0 two_vars); [reflexivity| | |].
  - repeat constructor; discriminate.
  - vm_compute. reflexivity.
  - repeat constructor; discriminate.
Defined.

Lemma shell_output_refused_witness :
  Syscall.c_syscall_handler 0x200000 Serial.lsr_sample false (fun _ r => r) 1 (Syscall.user_regs 1 0 0x1000100 2)
      (Syscall.user_kernel Keyboard.empty_ring)
    = Some (Syscall.Returned (Syscall.set_eax (2 ^ 32 - 1) (Syscall.user_regs 1 0 0x1000100 2)) (Syscall.user_kernel Keyboard.empty_ring)).
Proof.
  destruct (start [] zero_line) as [s|s| |] eqn:E; try discriminate.
  apply (shell_output_refused [] zero_line s 0 [36; 32]); try reflexivity.
  - left. exact E.
  - vm_compute in E. injection E as <-. right. right. left. reflexivity.
  - discriminate.
Defined.

End UserShell.
