(* ===== verification/KShell.v ===== *)
(** * The kernel's shell: src/kernel/main.c

    The command line of the kernel: the editor of [shell_loop], its history,
    and [handle_command] with what it starts, on the console of Vga.v and the
    directories of Dir.v and Files.v.  Starting a program ends in code that is
    not in the repository or is assembly; those parts are parameters.  Output
    that goes to the serial line only is left out. *)

From Stdlib Require Import ZifyBool String.
From S2P Require Import Prelude Cmem Vga Keyboard Alloc Block Ext2 Heap MemInit Dir Files Syscall Lines.
Local Open Scope Z_scope.

Module KShell.
Import Ext2 Dir Lines.

Definition SHELL_BUF_SIZE : Z := 256.
Definition MAX_HISTORY : Z := 30.
Definition COLOR_BLACK : Z := 0.
Definition COLOR_GREEN : Z := 2.
Definition COLOR_LIGHT_CYAN : Z := 11.
Definition COLOR_YELLOW : Z := 14.

(** The directory of [ls] without arguments: nothing ever assigns it. *)
Definition g_cwd_inode : Z := 2.

(** *** [parse_init_cmdline] *)

(** [for (i = 0; prefix[i]; i++) if (p[i] != prefix[i]) { match = 0; break; }] *)
Fixpoint has_prefix (m : mem) (p : Z) (prefix : list Z) : bool :=
  match prefix with
  | [] => true
  | c :: prefix' => (char_val (ld8 m p) =? c) && has_prefix m (p + 1) prefix'
  end.

(** [while (val[i] && val[i] != ' ' && i < 127)], with room for [n]. *)
Fixpoint init_value (n : nat) (m : mem) (val : Z) : list Z :=
  match n with
  | O => []
  | S n' =>
      let c := char_val (ld8 m val) in
      if (c =? 0) || (c =? 32) then [] else c :: init_value n' m (val + 1)
  end.

(** The loop over the command line; [None]: the fuel is used up. *)
Fixpoint find_init (fuel : nat) (m : mem) (p : Z) : option (option (list Z)) :=
  if ld8 m p =? 0 then Some None
  else if has_prefix m p (chars "init=") then Some (Some (init_value 127 m (p + 5)))
  else match fuel with O => None | S fuel' => find_init fuel' m (p + 1) end.

(** The text of [g_init_path] behind the call. *)
Definition parse_init_cmdline (fuel : nat) (mb : Z) (m : mem) (g_init_path : list Z) : option (list Z) :=
  let cmdline := ld32 m (mb + 16) in
  if (Z.land (ld32 m mb) (Z.shiftl 1 2) =? 0) || (cmdline =? 0) then Some g_init_path
  else r ← find_init fuel m cmdline; Some (default g_init_path r).

Section Commands.
Context {H : Type} `{HA : Allocator H} {D : Type} `{HB : BlockDevice D} `{HK : KString}.

(** What the commands work on; [cwd] is [g_cwd_node.internal_id]. *)
Record world := mkWorld { screen : Vga.vga; w_heap : H; w_disk : D; cwd : Z }.

Definition on_screen (f : Vga.vga -> Vga.vga) (w : world) : world := mkWorld (f (screen w)) (w_heap w) (w_disk w) (cwd w).
Definition puts (t : list Z) : world -> world := on_screen (Vga.vga_puts t).
Definition color (fg bg : Z) : world -> world := on_screen (Vga.vga_set_color fg bg).

(** The statics and locals of the functions that the commands call. *)
Record kenv := mkEnv {
  lookup_env : dir_env; path_env : dir_env; ls_env : dir_env; cat_env : dir_env; cd_env : dir_env;
  ls_inode : dir_env;      (** [inode_data] of the command ls *)
  file_inode : dir_env;    (** of [run_user_program_from_file] *)
  cat_indirect : Z; g_cwd_path : Z;
  user_program : Z; user_msg : Z; tss : Z; g_user_kernel_esp : Z; kernel_esp : Z
}.

Variable e : kenv.
Variable fuel : nat.                                             (** for the length of the path *)
Variable load_elf : Z -> world -> option (option Z * world).     (** [load_elf_program_from_inode] *)
Variable task_create : Z -> Z -> world -> option world.
Variable asm_switch_to_user : Z -> Z -> world -> option world.

Definition run_user_program_at (entry_point : Z) (w : world) : option world :=
  let m := st32 (heap_mem (w_heap w)) (tss e + 4) (kernel_esp e) in
  let m := st32 m (g_user_kernel_esp e) (kernel_esp e) in
  asm_switch_to_user entry_point MemInit.USER_STACK_TOP (mkWorld (screen w) (set_heap_mem (w_heap w) m) (w_disk w) (cwd w)).

(** A message in white on red, in up to three parts. *)
Definition complain (parts : list (list Z)) (w : world) : world :=
  on_screen Vga.vga_reset_color (foldl (fun w t => puts t w) (color Vga.COLOR_WHITE Vga.COLOR_RED w) parts).

Definition run_user_program_from_file (filepath : list Z) (w : world) : option (bool * world) :=
  '(inode_num, h, d) ← @resolve_path H _ D _ _ (path_env e) filepath (w_heap w) (w_disk w);
  let w := mkWorld (screen w) h d (cwd w) in
  if inode_num =? 0 then Some (false, complain [chars "Error: File not found - "; filepath; [10]] w)
  else
    '(h, d) ← get_inode (file_inode e) inode_num (w_heap w) (w_disk w);
    let w := mkWorld (screen w) h d (cwd w) in
    let file_type := Files.file_type (file_inode e) h in
    if file_type =? 0x4000 then
      Some (false, complain [chars "Error: "; filepath; chars " is a directory, not an executable" ++ [10]] w)
    else if negb (file_type =? 0x8000) then
      Some (false, complain [chars "Error: Invalid file type (mode=0x"; chars ")" ++ [10]] w)
    else if i_size (heap_mem h) (inode (file_inode e)) =? 0 then Some (false, complain [chars "Error: File is empty" ++ [10]] w)
    else
      '(entry_point, w) ← load_elf inode_num w;
      match entry_point with
      | None => Some (false, complain [chars "Error: Invalid or unsupported ELF" ++ [10]] w)
      | Some entry_point =>
          let w := on_screen Vga.vga_reset_color (color COLOR_GREEN COLOR_BLACK w) in
          w ← task_create entry_point MemInit.USER_STACK_TOP w;
          Some (true, on_screen Vga.vga_reset_color (color COLOR_YELLOW COLOR_BLACK w))
      end.

(** The machine code of the command test_ring3. *)
Definition ring3_code : list Z :=
  let imm v := [u8 v; u8 (v / 256); u8 (v / 65536); u8 (v / 16777216)] in
  [0xB8] ++ imm Syscall.SYS_WRITE ++ [0xBB] ++ imm 1 ++ [0xB9] ++ imm (user_msg e) ++ [0xBA] ++ imm 27 ++ [0xCD; 0x80] ++
  [0xB8] ++ imm Syscall.SYS_EXIT ++ [0xBB] ++ imm 0 ++ [0xCD; 0x80].

Definition help_text : list string :=
  [ "commands: help, ls, clear, cd, ./program"; "  - help            Show this help message";
    "  - ls [path]       List directory contents"; "  - cd <path>       Change directory"; "  - clear           Clear screen";
    "  - ./program       Execute program from current directory"; "  - /path/program   Execute program from absolute path" ]%string.

(** ls of the directory [num]. *)
Definition ls (num : Z) (w : world) : option world :=
  '(v, h, d) ← ext2_ls (ls_env e) (negb (fs_gdt (ls_env e) =? 0)) num (screen w) (w_heap w) (w_disk w);
  Some (mkWorld v h d (cwd w)).

Definition ls_path (path : list Z) (w : world) : option world :=
  '(target_inode, h, d) ← @resolve_path H _ D _ _ (path_env e) path (w_heap w) (w_disk w);
  let w := mkWorld (screen w) h d (cwd w) in
  if negb (target_inode =? 0) then
    '(h, d) ← get_inode (ls_inode e) target_inode (w_heap w) (w_disk w);
    let w := mkWorld (screen w) h d (cwd w) in
    if Files.file_type (ls_inode e) h =? 0x4000 then ls target_inode w
    else Some (puts (chars ": Not a directory" ++ [10]) (puts path (puts (chars "ls: ") w)))
  else Some (puts (chars "ls: No such file or directory" ++ [10]) w).

(** [cmd] is a text; [None]: the call does not return. *)
Definition handle_command (cmd : list Z) (w : world) : option world :=
  let called name := strcmp cmd (chars name) =? 0 in
  let starts n name := strncmp cmd (chars name) n =? 0 in
  if called "help"%string then Some (foldl (fun w t => puts (chars t ++ [10]) w) w help_text)
  else if called "test_ring3"%string then
    let w := puts (chars "Switching to Ring 3..." ++ [10]) w in
    let m := poke (user_program e) ring3_code (heap_mem (w_heap w)) in
    let w := mkWorld (screen w) (set_heap_mem (w_heap w) m) (w_disk w) (cwd w) in
    run_user_program_at (user_program e) (puts (chars "Launching program with syscall support..." ++ [10]) w)
  else if called "cat"%string then Some (puts (chars "cat: Missing filename." ++ [10]) w)
  else if called "cd"%string then Some w
  else if starts 3 "cd "%string then
    '(i, v, h, d) ← Files.ext2_cd (lookup_env e) (cd_env e) fuel (g_cwd_path e) (cwd w) (drop 3 cmd) (screen w) (w_heap w) (w_disk w);
    Some (mkWorld v h d i)
  else if starts 4 "cat "%string then
    '(v, h, d) ← Files.ext2_cat (lookup_env e) (cat_env e) (cat_indirect e) (cwd w) (drop 4 cmd) (screen w) (w_heap w) (w_disk w);
    Some (mkWorld v h d (cwd w))
  else if called "ls"%string then ls g_cwd_inode w
  else if starts 3 "ls "%string then ls_path (drop 3 cmd) w
  else if called "clear"%string then Some (on_screen Vga.clear_screen w)
  else
    match cmd with
    | [] => Some w
    | c :: _ =>
        if (c =? 47) || starts 2 "./"%string then '(_, w) ← run_user_program_from_file cmd w; Some w
        else Some (complain [chars "unknown command: "; cmd; [10]] w)
    end.

(** *** The command line *)

(** The static variables of [shell_loop] and the history; [slen] is its [len],
    [g_history] the lines in use. *)
Record kshell := mkShell {
  input_buffer : list Z; pos : Z; slen : Z; g_history : list (list Z); g_history_idx : Z
}.

Definition set_buffer (b : list Z) (p l : Z) (s : kshell) : kshell := mkShell b p l (g_history s) (g_history_idx s).

(** [for (i = 0; i < n; i++) vga_putc(c)] for each of the characters. *)
Fixpoint repeat_puts (n : nat) (t : list Z) (w : world) : world :=
  match n with O => w | S n' => repeat_puts n' t (on_screen (Syscall.put_all t) w) end.

(** [for (i = a; i < b; i++) vga_putc(input_buffer[i])] *)
Definition put_slice (buf : list Z) (a b : Z) : world -> world :=
  on_screen (Syscall.put_all (List.map (getZ buf) (seqZ a (b - a)))).

Definition prompt (w : world) : option world :=
  path ← Syscall.mem_string fuel (heap_mem (w_heap w)) (g_cwd_path e);
  let w := puts (chars "Kernel:") (color COLOR_GREEN COLOR_BLACK w) in
  let w := puts path (color COLOR_LIGHT_CYAN COLOR_BLACK w) in
  Some (puts (chars "> ") (color Vga.COLOR_WHITE COLOR_BLACK w)).

Definition zero_buffer : list Z := replicate 256 0.

(** Enter: the line into the history. *)
Definition add_history (line : list Z) (h : list (list Z)) : list (list Z) :=
  let last := default [] (h !! Z.to_nat ((len h - 1) mod MAX_HISTORY)) in
  if (len h =? 0) || negb (strcmp last line =? 0) then
    if len h <? MAX_HISTORY then h ++ [line]
    else <[Z.to_nat (MAX_HISTORY - 1) := line]> (shift_down (Z.to_nat (MAX_HISTORY - 1)) 0 h)
  else h.

Inductive kstep :=
| Next (s : kshell) (w : world)
| Overrun                        (** [input_buffer] is left *)
| Gone.                          (** the command does not return *)

Variable handle : list Z -> world -> option world.

Definition enter (s : kshell) (w : world) : kstep :=
  if negb (pos s <? SHELL_BUF_SIZE) then Overrun
  else
    let b := setZ (input_buffer s) (pos s) 0 in
    let w := puts [10] w in
    let line := Vga.c_string b in
    let h := if 0 <? pos s then add_history line (g_history s) else g_history s in
    match (w ← handle line w; prompt w) with
    | Some w => Next (mkShell zero_buffer 0 0 h (len h)) w
    | None => Gone
    end.

(** What is on the screen of the line is wiped, [n] characters. *)
Definition wipe (n : Z) (w : world) : world := repeat_puts (Z.to_nat n) [8; 32; 8] w.

Definition load_line (i : Z) (s : kshell) (w : world) : kstep :=
  let b := strcpy (input_buffer s) (default [] (g_history s !! Z.to_nat i)) in
  Next (mkShell b (len (Vga.c_string b)) (slen s) (g_history s) i) (puts (Vga.c_string b) (wipe (pos s) w)).

(** One character of the keyboard buffer. *)
Definition key (c : Z) (s : kshell) (w : world) : kstep :=
  let '(b, p, l) := (input_buffer s, pos s, slen s) in
  if c =? 10 then enter s w
  else if c =? 0x11 then
    if (0 <? len (g_history s)) && (0 <? g_history_idx s) then load_line (g_history_idx s - 1) s w else Next s w
  else if c =? 0x12 then
    if g_history_idx s <? len (g_history s) then
      let i := g_history_idx s + 1 in
      if i =? len (g_history s) then Next (mkShell (setZ b 0 0) 0 l (g_history s) i) (wipe p w)
      else load_line i s w
    else Next s w
  else if c =? 8 then
    if 0 <? p then
      let p := p - 1 in
      let b := move_left (Z.to_nat (l - 1 - p)) p b in
      let l := l - 1 in
      let w := on_screen (Vga.vga_putc 8) w in
      let w := on_screen (Vga.vga_putc 32) (put_slice b p l w) in
      Next (set_buffer b p l s) (repeat_puts (Z.to_nat (l + 1 - p)) [8] w)
    else Next s w
  else if c =? 0x13 then
    if 0 <? p then Next (set_buffer b (p - 1) l s) (on_screen (Vga.vga_putc 8) w) else Next s w
  else if c =? 0x14 then
    if p <? l then Next (set_buffer b (p + 1) l s) (on_screen (Vga.vga_putc (getZ b p)) w) else Next s w
  else if l <? SHELL_BUF_SIZE - 1 then
    if negb (p <? SHELL_BUF_SIZE) then Overrun
    else
      let b := setZ (move_right (Z.to_nat (l - p)) l b) p c in
      let l := l + 1 in
      let w := put_slice b p l w in
      Next (set_buffer b (p + 1) l s) (repeat_puts (Z.to_nat (l - (p + 1))) [8] w)
  else Next s w.

(** The loop, over the characters that the keyboard delivers; it waits when
    there are no more. *)
Inductive kresult := Waiting (s : kshell) (w : world) | Left_buffer | No_return.

Fixpoint shell_keys (keys : list Z) (s : kshell) (w : world) : kresult :=
  match keys with
  | [] => Waiting s w
  | c :: keys' =>
      match key c s w with
      | Next s w => shell_keys keys' s w
      | Overrun => Left_buffer
      | Gone => No_return
      end
  end.

(** [shell_loop]: after a program has ended the line starts anew. *)
Definition shell_loop (g_shell_needs_reset : bool) (keys : list Z) (s : kshell) (w : world) : kresult :=
  if g_shell_needs_reset then
    match prompt (puts [10] w) with
    | Some w => shell_keys keys (set_buffer zero_buffer 0 0 s) w
    | None => No_return
    end
  else shell_keys keys s w.

Definition kshell_boot : kshell := mkShell zero_buffer 0 0 [] (-1).

Definition run_shell (needs_reset : bool) (keys : list Z) (s : kshell) (w : world) : kresult :=
  let w := puts (chars "Welcome to Kernel Shell " ++ [10]) (color COLOR_YELLOW COLOR_BLACK w) in
  let w := puts (chars "Kernel:") (color COLOR_GREEN COLOR_BLACK w) in
  let w := puts (chars "/") (color COLOR_LIGHT_CYAN COLOR_BLACK w) in
  shell_loop needs_reset keys s (puts (chars "> ") (color Vga.COLOR_WHITE COLOR_BLACK w)).

End Commands.

(** ** The init parameter *)

Fixpoint starts (l prefix : list Z) {struct prefix} : bool :=
  match prefix with
  | [] => true
  | c :: prefix' => match l with [] => false | x :: l' => (x =? c) && starts l' prefix' end
  end.

(** The value: up to a blank, cut to what fits into 128 bytes. *)
Fixpoint word (n : nat) (l : list Z) : list Z :=
  match n, l with S n', c :: l' => if c =? 32 then [] else c :: word n' l' | _, _ => [] end.

Lemma text_at_nil m a : Files.text_at m a [] -> ld8 m a = 0.
Proof. intros (_ & H0 & _). by rewrite Z.add_0_r in H0. Qed.

Lemma char_val_u8 c : -128 <= c < 128 -> char_val (u8 c) = c.
Proof. intros Hc. unfold char_val, u8. change (2 ^ 8) with 256. case_cond; mlia. Qed.

Lemma text_at_cons m a c l :
  Files.text_at m a (c :: l) -> char_ok c -> ld8 m a <> 0 /\ char_val (ld8 m a) = c /\ Files.text_at m (a + 1) l.
Proof.
  intros (Hb & H0 & Hn) [Hc _]. pose proof (Hb 0 ltac:(cbn [length]; lia)) as E. rewrite Z.add_0_r in E.
  change (getZ (c :: l) 0) with c in E. apply Forall_cons_1 in Hn as [Hc0 Hn]. split; [by rewrite E|]. split; [rewrite E; by apply char_val_u8|].
  split; [|split; [|done]].
  - intros i Hi. replace (a + 1 + i) with (a + (i + 1)) by lia. rewrite Hb by (cbn [length]; lia). rewrite getZ_cons.
    replace (i + 1 <=? 0) with false by lia. by replace (i + 1 - 1) with i by lia.
  - cbn [length] in H0. by replace (a + 1 + Z.of_nat (length l)) with (a + Z.of_nat (S (length l))) by lia.
Qed.

Lemma has_prefix_text m a l prefix :
  Files.text_at m a l -> Forall char_ok l -> Forall (fun c => c <> 0) prefix -> has_prefix m a prefix = starts l prefix.
Proof.
  intros Ht Hl Hp. revert a l Ht Hl. induction Hp as [|c prefix Hc Hp IH]; intros a l Ht Hl; cbn [has_prefix starts]; [done|].
  destruct Hl as [|x l Hx Hl]; [rewrite (text_at_nil m a Ht); change (char_val 0) with 0; by rewrite (proj2 (Z.eqb_neq 0 c))|].
  destruct (text_at_cons m a x l Ht Hx) as (_ & -> & Ht'). by rewrite (IH (a + 1) l).
Qed.

Lemma init_value_text n m a l : Files.text_at m a l -> Forall char_ok l -> init_value n m a = word n l.
Proof.
  intros Ht Hl. revert a l Ht Hl. induction n as [|n IH]; intros a l Ht Hl; cbn [init_value word]; [done|].
  destruct Hl as [|x l Hx Hl]; [by rewrite (text_at_nil m a Ht)|]. destruct (text_at_cons m a x l Ht Hx) as (_ & -> & Ht').
  destruct Hx as [_ Hx]. rewrite (proj2 (Z.eqb_neq x 0) Hx). cbn [orb]. destruct (x =? 32); [done|]. f_equal. by apply IH.
Qed.

(** The first "init=" of the text. *)
Fixpoint init_of (l : list Z) : option (list Z) :=
  match l with
  | [] => None
  | _ :: l' => if starts l (chars "init=") then Some (word 127 (drop 5 l)) else init_of l'
  end.

Lemma text_at_drop m a l n : Files.text_at m a l -> Forall char_ok l -> (n <= length l)%nat -> Files.text_at m (a + Z.of_nat n) (drop n l).
Proof.
  revert a l. induction n as [|n IH]; intros a l Ht Hl Hn; [by rewrite Z.add_0_r|]. destruct Hl as [|x l Hx Hl]; [cbn in Hn; lia|].
  destruct (text_at_cons m a x l Ht Hx) as (_ & _ & Ht'). replace (a + Z.of_nat (S n)) with (a + 1 + Z.of_nat n) by lia. cbn [drop].
  apply IH; [done|done|cbn in Hn; lia].
Qed.

Lemma starts_length l prefix : starts l prefix = true -> (length prefix <= length l)%nat.
Proof.
  revert l. induction prefix as [|c prefix IH]; intros l Hs; cbn [length]; [lia|]. destruct l as [|x l]; [done|]. cbn [starts] in Hs.
  apply andb_true_iff in Hs as [_ Hs]. apply IH in Hs. cbn [length]. lia.
Qed.

Lemma find_init_text fuel m a l :
  Files.text_at m a l -> Forall char_ok l -> (length l <= fuel)%nat -> find_init fuel m a = Some (init_of l).
Proof.
  intros Ht Hl. revert a fuel Ht. induction Hl as [|x l Hx Hl IH]; intros a fuel Ht Hf.
  - destruct fuel; cbn [find_init]; by rewrite (text_at_nil m a Ht).
  - destruct (text_at_cons m a x l Ht Hx) as (H0 & _ & Ht'). destruct fuel as [|fuel]; [cbn in Hf; lia|]. cbn [find_init init_of].
    rewrite (proj2 (Z.eqb_neq _ 0) H0). assert (Hp : Forall (fun c => c <> 0) (chars "init=")) by (change (Forall (fun c => c <> 0) [105; 110; 105; 116; 61]); repeat constructor; discriminate).
    rewrite (has_prefix_text m a (x :: l)) by (done || by constructor).
    destruct (starts (x :: l) (chars "init=")) eqn:Es; [|apply IH; [done|cbn in Hf; lia]].
    pose proof (starts_length _ _ Es) as Hlen. change (length (chars "init=")) with 5%nat in Hlen.
    do 2 f_equal. apply init_value_text; [|apply Forall_drop; by constructor].
    apply (text_at_drop m a (x :: l) 5); [done|by constructor|done].
Qed.

(** ** The command line *)

(** The line as a text with a cursor: what the keys mean.  The keys that fetch
    lines of the history are not among them. *)
Record zipper := mkZip { before : list Z; after : list Z }.
Definition text (z : zipper) : list Z := before z ++ after z.

Definition spec_key (c : Z) (z : zipper) : zipper :=
  if c =? 8 then mkZip (removelast (before z)) (after z)
  else if c =? 0x13 then
    match list.last (before z) with Some x => mkZip (removelast (before z)) (x :: after z) | None => z end
  else if c =? 0x14 then
    match after z with x :: a => mkZip (before z ++ [x]) a | [] => z end
  else if len (text z) <? SHELL_BUF_SIZE - 1 then mkZip (before z ++ [c]) (after z)
  else z.

(** The command that Enter runs, and the keys behind it: what is right of the
    cursor is lost. *)
Fixpoint spec_line (keys : list Z) (z : zipper) : option (list Z * list Z) :=
  match keys with
  | [] => None
  | c :: keys' => if c =? 10 then Some (before z, keys') else spec_line keys' (spec_key c z)
  end.

Record edits (s : kshell) (z : zipper) : Prop := {
  ed_size : len (input_buffer s) = SHELL_BUF_SIZE;
  ed_text : holds_text (input_buffer s) (text z);
  ed_pos : pos s = len (before z);
  ed_len : slen s = len (text z);
  ed_max : len (text z) < SHELL_BUF_SIZE;
  ed_chars : Forall char_ok (text z)
}.

Section Line.
Context {H : Type} `{HA : Allocator H} {D : Type} `{HB : BlockDevice D} `{HK : KString}.
Abbreviation world := (@world H D).

(** Only the screen is different. *)
Definition same_world (w w' : world) : Prop := w_heap w' = w_heap w /\ w_disk w' = w_disk w /\ cwd w' = cwd w.

#[local] Instance same_world_pre : PreOrder same_world.
Proof. split; unfold same_world; [done|]. intros w1 w2 w3 (? & ? & ?) (? & ? & ?). split_and!; congruence. Qed.

Lemma same_world_screen f (w : world) : same_world w (on_screen f w).
Proof. by split. Qed.

Lemma same_world_repeat n t (w : world) : same_world w (repeat_puts n t w).
Proof. revert w. induction n as [|n IH]; intros w; [done|]. etransitivity; [apply same_world_screen|apply IH]. Qed.

Variable e : kenv.
Variable fuel : nat.
Variable handle : list Z -> world -> option world.

Lemma key_ok c s z (w : world) :
  edits s z -> char_ok c -> c <> 10 -> c <> 0x11 -> c <> 0x12 ->
  exists s' w', key e fuel handle c s w = Next s' w' /\ edits s' (spec_key c z) /\ same_world w w' /\
    g_history s' = g_history s /\ g_history_idx s' = g_history_idx s.
Proof.
  intros Hs Hc H10 H11 H12. pose proof Hs as [E1 E2 E3 E4 E5 E6]. unfold key, spec_key.
  rewrite (proj2 (Z.eqb_neq c 10) H10), (proj2 (Z.eqb_neq c 0x11) H11), (proj2 (Z.eqb_neq c 0x12) H12), E3, E4.
  pose proof (len_nonneg (before z)) as Hb0. pose proof (len_nonneg (after z)) as Ha0.
  assert (Htl : len (text z) = len (before z) + len (after z)) by apply len_app.
  destruct (c =? 8).
  { destruct (before z) as [|x l _] eqn:Eb using rev_ind.
    - change (0 <? len (@nil Z)) with false. cbn iota. exists s, w. split; [done|]. split; [|done].
      destruct z as [zb za]. cbn in Eb |- *. by subst zb.
    - unfold text in *. rewrite Eb, <- app_assoc in *. cbn [app] in *. destruct (delete_at (input_buffer s) l x (after z) E2) as [Hh _]; [lia|].
      rewrite removelast_last. rewrite !len_snoc in *. rewrite len_app, len_cons in *. pose proof (len_nonneg l).
      replace (0 <? len l + 1) with true by lia. replace (len l + 1 - 1) with (len l) by lia.
      replace (len l + (1 + len (after z)) - 1 - len l) with (len (after z)) by lia. eexists _, _. split; [done|]. split.
      + split; cbn [set_buffer input_buffer pos slen before after]; unfold text; cbn [before after]; try done.
        * unfold len. by rewrite length_move_left.
        * rewrite len_app. lia.
        * rewrite len_app. lia.
        * apply Forall_app in E6 as [E6 Ea]. apply Forall_app. split; [done|]. by apply Forall_inv_tail in Ea.
      + split; [|done]. etransitivity; [|apply same_world_repeat]. do 3 (etransitivity; [|apply same_world_screen]). done. }
  destruct (c =? 0x13).
  { destruct (before z) as [|x l _] eqn:Eb using rev_ind; [by exists s, w|].
    rewrite list.last_snoc, removelast_last, len_snoc in *. pose proof (len_nonneg l).
    replace (0 <? len l + 1) with true by lia. eexists _, _. split; [done|]. split; [|split; [apply same_world_screen|done]].
    assert (Et : text (mkZip l (x :: after z)) = text z) by (unfold text; cbn [before after]; by rewrite Eb, <- app_assoc).
    split; rewrite ?Et; cbn [set_buffer input_buffer pos slen before after]; try done. lia. }
  destruct (c =? 0x14).
  { destruct (after z) as [|x a] eqn:Ea.
    - replace (len (before z) <? len (text z)) with false by (change (len (@nil Z)) with 0 in Htl; lia). by exists s, w.
    - rewrite len_cons in *. pose proof (len_nonneg a).
      replace (len (before z) <? len (text z)) with true by lia. eexists _, _. split; [done|]. split; [|split; [apply same_world_screen|done]].
      assert (Et : text (mkZip (before z ++ [x]) a) = text z) by (unfold text; cbn [before after]; by rewrite Ea, <- app_assoc).
      split; rewrite ?Et; cbn [set_buffer input_buffer pos slen before after]; try done. by rewrite len_snoc. }
  destruct (Z.ltb_spec (len (text z)) (SHELL_BUF_SIZE - 1)) as [Hlt|]; [|by exists s, w].
  replace (len (before z) <? SHELL_BUF_SIZE) with true by lia. cbn [negb].
  replace (len (text z) - len (before z)) with (len (after z)) by lia. unfold text in *.
  destruct (insert_at (input_buffer s) (before z) (after z) c E2) as [Hh _]; [lia|]. eexists _, _. split; [done|]. split.
  - split; cbn [set_buffer input_buffer pos slen before after]; unfold text; cbn [before after]; rewrite <- ?app_assoc; cbn [app]; try done.
    + unfold len. by rewrite length_setZ, length_move_right.
    + by rewrite len_snoc.
    + rewrite !len_app, len_cons. lia.
    + rewrite !len_app, len_cons in *. lia.
    + apply Forall_app in E6 as [E6 Ea]. apply Forall_app. split; [done|]. by constructor.
  - split; [|done]. etransitivity; [|apply same_world_repeat]. apply same_world_screen.
Qed.

(** The history behind a line. *)
Definition next_history (line : list Z) (h : list (list Z)) : list (list Z) :=
  match line with [] => h | _ => add_history line h end.

Lemma run_line_ok s z (w : world) :
  edits s z ->
  enter e fuel handle s w =
  match (w ← handle (before z) (puts [10] w); prompt e fuel w) with
  | Some w' => Next (mkShell zero_buffer 0 0 (next_history (before z) (g_history s)) (len (next_history (before z) (g_history s)))) w'
  | None => Gone
  end.
Proof.
  intros [E1 E2 E3 E4 E5 E6]. unfold enter. rewrite E3. pose proof (len_nonneg (after z)) as Ha0.
  assert (Htl : len (text z) = len (before z) + len (after z)) by apply len_app.
  replace (len (before z) <? SHELL_BUF_SIZE) with true by lia. cbn [negb].
  assert (Ec : Vga.c_string (setZ (input_buffer s) (len (before z)) 0) = before z).
  { apply Forall_app in E6 as [E6 _]. pose proof (len_nonneg (before z)). apply holds_text_string; [|by apply text_nonzero| |].
    - intros i Hi. rewrite getZ_setZ_ne by lia. rewrite E2 by lia. apply Keyboard.getZ_app_l. unfold len in Hi. lia.
    - unfold len in *. rewrite length_setZ. lia.
    - apply getZ_setZ_eq. unfold inrange, len in *. lia. }
  rewrite Ec. unfold next_history. by destruct (before z).
Qed.

Lemma shell_keys_ok keys s z (w : world) :
  edits s z -> Forall (fun c => char_ok c /\ c <> 0x11 /\ c <> 0x12) keys ->
  match spec_line keys z with
  | Some (line, rest) => exists w1, same_world w w1 /\
      shell_keys e fuel handle keys s w =
      match (w ← handle line w1; prompt e fuel w) with
      | Some w' => shell_keys e fuel handle rest
                     (mkShell zero_buffer 0 0 (next_history line (g_history s)) (len (next_history line (g_history s)))) w'
      | None => No_return
      end
  | None => exists s' w', shell_keys e fuel handle keys s w = Waiting s' w' /\ same_world w w'
  end.
Proof.
  intros Hs Hk. revert s z w Hs. induction Hk as [|c keys (Hc & H11 & H12) Hk IH]; intros s z w Hs; cbn [spec_line shell_keys].
  - by exists s, w.
  - destruct (Z.eqb_spec c 10) as [->|H10].
    + exists (puts [10] w). split; [apply same_world_screen|]. unfold key. cbn [Z.eqb Pos.eqb]. rewrite (run_line_ok s z w Hs). by destruct (handle (before z) (puts [10] w) ≫= _).
    + destruct (key_ok c s z w Hs Hc H10 H11 H12) as (s' & w' & -> & Hs' & Hw & Hh & _). specialize (IH s' (spec_key c z) w' Hs').
      rewrite Hh in IH. destruct (spec_line keys (spec_key c z)) as [[line rest]|].
      * destruct IH as (w1 & Hw1 & E). exists w1. split; [by etransitivity|done].
      * destruct IH as (s2 & w2 & E & Hw2). exists s2, w2. split; [done|by etransitivity].
Qed.

(** Typing behind a line of the history. *)
Lemma typing_leaves_buffer c k s (w : world) :
  char_ok c -> 32 <= c -> pos s <= SHELL_BUF_SIZE -> SHELL_BUF_SIZE < pos s + Z.of_nat k -> slen s + Z.of_nat k < SHELL_BUF_SIZE ->
  shell_keys e fuel handle (replicate k c) s w = Left_buffer.
Proof.
  intros Hc Hp. revert s w. induction k as [|k IH]; intros s w H1 H2 H3; [lia|]. cbn [replicate shell_keys]. unfold key.
  replace (c =? 10) with false by lia. replace (c =? 0x11) with false by lia. replace (c =? 0x12) with false by lia.
  replace (c =? 8) with false by lia. replace (c =? 0x13) with false by lia. replace (c =? 0x14) with false by lia.
  replace (slen s <? SHELL_BUF_SIZE - 1) with true by lia. destruct (Z.ltb_spec (pos s) SHELL_BUF_SIZE); cbn [negb]; [|done].
  apply IH; cbn [set_buffer pos slen]; lia.
Qed.

End Line.

(** ** The commands *)

Section Dispatch.
Context `{HK : KString} `{!KStringLaws}.

Lemma called_spec cmd name :
  Forall (fun c => c <> 0) cmd -> Forall (fun c => c <> 0) name -> (strcmp cmd name =? 0) = bool_decide (cmd = name).
Proof. apply Files.strcmp_name. Qed.

Lemma starts_spec cmd name n :
  Forall (fun c => c <> 0) cmd -> Forall (fun c => c <> 0) name -> 0 <= n ->
  (strncmp cmd name n =? 0) = bool_decide (take (Z.to_nat n) (cmd ++ [0]) = take (Z.to_nat n) (name ++ [0])).
Proof.
  intros Hc Hn H0. pose proof (strncmp_eq cmd name n H0) as E. rewrite !c_string_id in E by done.
  case_bool_decide; [by apply Z.eqb_eq, E|]. apply Z.eqb_neq. by rewrite E.
Qed.

End Dispatch.

(** Decides whether a command of known first characters is the given one. *)
Ltac not_called :=
  rewrite ?called_spec, ?starts_spec by (done || lia || (repeat constructor; discriminate) || (constructor; [discriminate|done]));
  repeat match goal with
  | |- context [bool_decide ?P] =>
      first [ rewrite (bool_decide_eq_false_2 P) by discriminate | rewrite (bool_decide_eq_true_2 P) by reflexivity ]
  end.

Section Programs.
Context {H : Type} `{HA : Allocator H} `{!AllocatorLaws H} {D : Type} `{HB : BlockDevice D} `{!BlockDeviceLaws D}
  `{HK : KString} `{!KStringLaws}.
Abbreviation world := (@world H D).
Variable e : kenv.
Variable fuel : nat.
Variable load_elf : Z -> world -> option (option Z * world).
Variable task_create : Z -> Z -> world -> option world.
Variable asm_switch_to_user : Z -> Z -> world -> option world.
Variable disk : Z -> Z.
Variables inodes table : Z.
Abbreviation command := (handle_command e fuel load_elf task_create asm_switch_to_user).

(** A path that the shell takes for a program: absolute, or starting with "./". *)
Definition program_path (comps : list (list Z)) (cmd : list Z) : Prop :=
  cmd = 47 :: join comps \/ exists cs, comps = [46] :: cs /\ cs <> [] /\ cmd = join comps.

Lemma program_path_starts comps cmd :
  program_path comps cmd -> Forall component comps -> comps <> [] ->
  Forall (fun c => c <> 0) cmd /\ ((exists l, cmd = 47 :: l) \/ exists l, cmd = 46 :: 47 :: l).
Proof.
  intros Hp Hc Hne. pose proof (join_chars comps Hc) as Hj. destruct Hp as [-> | (cs & -> & Hcs & ->)].
  - split; [by constructor|]. left. by eexists.
  - split; [done|]. right. destruct cs as [|c cs]; [done|]. by eexists.
Qed.

Lemma program_command comps cmd (w : world) :
  program_path comps cmd -> Forall component comps -> comps <> [] ->
  command cmd w = '(_, w) ← run_user_program_from_file e load_elf task_create cmd w; Some w.
Proof.
  intros Hp Hc Hne. destruct (program_path_starts comps cmd Hp Hc Hne) as [Hn Hstart]. unfold handle_command.
  destruct Hstart as [[l ->]|[l ->]].
  - not_called. done.
  - not_called. done.
Qed.

(** The path of a program, taken apart. *)
Lemma program_pieces comps cmd :
  program_path comps cmd -> Forall component comps -> comps <> [] ->
  Forall (fun c => c <> 0) cmd /\ cmd <> [] /\ pieces cmd = comps.
Proof.
  intros Hp Hc Hne. pose proof (join_chars _ Hc) as Hj. destruct (pieces_join comps Hc) as [Habs Hrel].
  destruct Hp as [-> | (cs & _ & _ & ->)]; [split; [by constructor|done]|]. split; [done|]. split; [|done].
  destruct comps as [|c comps]; [done|]. destruct (join_nonempty c comps) as (x & l & -> & _); [by inversion Hc|done].
Qed.

(** ** The properties *)

(** C17: Starting a program.  The path is looked up from the root, also for "./" and
    wherever the shell is; only a regular file that is not empty and that the
    loader accepts becomes a task, and it starts at the entry point that the
    loader gave with the stack of the user program.  In every other case the
    message that fits is shown in white on red, and the colour is reset. *)
Theorem program_start_checks (comps : list (list Z)) (cmd : list Z) (w : world) (owned : list (Z * Z)) (ino buf : Z) :
  file_inode e = sub_env (path_env e) ino buf -> dir_layout (path_env e) -> dir_layout (file_inode e) ->
  Forall component comps -> comps <> [] -> program_path comps cmd ->
  let room := has_room (g_block_size (fs (path_env e))) (w_heap w) in
  way_ok (path_env e) disk inodes table room 2 comps -> ready (path_env e) disk inodes table (w_heap w) (w_disk w) owned ->
  let r := walk_tree (path_env e) disk table room 2 comps in
  let kind := Files.kind_of (path_env e) disk table r in
  (r <> 0 -> valid_inode (path_env e) inodes table r) ->
  exists h' d', ready (path_env e) disk inodes table h' d' owned /\
    let w' := mkWorld (screen w) h' d' (cwd w) in
    command cmd w =
    (if r =? 0 then Some (complain [chars "Error: File not found - "; cmd; [10]] w')
     else if kind =? 0x4000 then Some (complain [chars "Error: "; cmd; chars " is a directory, not an executable" ++ [10]] w')
     else if negb (kind =? 0x8000) then Some (complain [chars "Error: Invalid file type (mode=0x"; chars ")" ++ [10]] w')
     else if file_size (fs (path_env e)) disk (inode_pos (fs (path_env e)) table r) =? 0 then
       Some (complain [chars "Error: File is empty" ++ [10]] w')
     else
       '(entry, w1) ← load_elf r w';
       match entry with
       | None => Some (complain [chars "Error: Invalid or unsupported ELF" ++ [10]] w1)
       | Some entry_point =>
           w2 ← task_create entry_point MemInit.USER_STACK_TOP (on_screen Vga.vga_reset_color (color COLOR_GREEN COLOR_BLACK w1));
           Some (on_screen Vga.vga_reset_color (color COLOR_YELLOW COLOR_BLACK w2))
       end).
Proof.
  intros He L Lf Hc Hne Hp room Hway R r kind Hv. rewrite (program_command comps cmd w Hp Hc Hne).
  assert (Hres : exists h1 d1, resolve_path (path_env e) cmd (w_heap w) (w_disk w) = Some (r, h1, d1) /\
                   ready (path_env e) disk inodes table h1 d1 owned).
  { assert (Hcmd : Forall (fun c => c <> 0) cmd /\ cmd <> [] /\ pieces cmd = comps) by by apply program_pieces.
    destruct Hcmd as (Hnz & Hcne & Hpieces). rewrite <- Hpieces in Hway.
    destruct (resolve_path_ok (path_env e) disk inodes table L cmd (w_heap w) (w_disk w) owned Hnz Hway R) as (h1 & d1 & E1 & R1 & _).
    exists h1, d1. split; [|done]. by rewrite E1, decide_False, Hpieces. }
  destruct Hres as (h1 & d1 & E1 & R1). unfold run_user_program_from_file. rewrite (bind_some _ _ _ E1). cbv beta iota zeta.
  destruct (Z.eqb_spec r 0) as [E0|E0]; [by exists h1, d1|]. cbn [w_heap w_disk screen cwd].
  rewrite He in Lf. destruct (Files.fetch_named (path_env e) ino buf disk inodes table Lf r h1 d1 owned R1 (Hv E0)) as (h2 & d2 & E2 & R2 & Hi & Ek & _).
  exists h2, d2. split; [by apply Files.ready_own in R2|]. rewrite He, (bind_some _ _ _ E2). cbv beta iota zeta. rewrite Ek. fold kind.
  destruct (kind =? 0x4000); [done|]. destruct (kind =? 0x8000); cbn [negb]; [|done].
  cbn [sub_env inode].
  destruct (inode_fields (fs (path_env e)) disk (dl_fs _ L) ino (inode_pos (fs (path_env e)) table r) (heap_mem h2) Hi) as (-> & _).
  destruct (_ =? 0); [done|]. destruct (load_elf r _) as [[[ep|] w1]|]; [|done|done]. cbn [mbind option_bind].
  by destruct (task_create _ _ _).
Qed.

(** [ls] without a path shows the root directory, wherever [cd] has gone: the
    variable that it uses is not the one that [cd] sets. *)
Theorem ls_shows_root (w : world) (owned : list (Z * Z)) :
  dir_layout (ls_env e) -> fs_gdt (ls_env e) <> 0 -> node_ok (ls_env e) disk inodes table 2 ->
  is_dir (ls_env e) disk table 2 = true -> ready (ls_env e) disk inodes table (w_heap w) (w_disk w) owned ->
  exists w', command (chars "ls") w = Some w' /\ cwd w' = cwd w /\
    ready (ls_env e) disk inodes table (w_heap w') (w_disk w') owned /\
    screen w' = foldl (fun v x => Vga.vga_puts (ls_line x) v) (screen w) (listing (ls_env e) disk table 2 0
      (reach (ls_env e) disk table (has_room (g_block_size (fs (ls_env e))) (w_heap w)) 2)).
Proof.
  intros L Hg Hn Hd R. assert (Ec : command (chars "ls") w = ls e g_cwd_inode w).
  { unfold handle_command. change (chars "ls") with [108; 115]. not_called. done. }
  rewrite Ec. unfold ls. rewrite (proj2 (Z.eqb_neq _ 0) Hg). cbn [negb].
  destruct (ext2_ls_ok (ls_env e) disk inodes table L g_cwd_inode (screen w) (w_heap w) (w_disk w) owned Hn R) as (v' & h' & d' & E & R' & Hv).
  change g_cwd_inode with 2 in Hv. rewrite Hd in Hv. rewrite (bind_some _ _ _ E). by eexists _.
Qed.

(** C16: a file on the screen.  Typing "cat", a blank and a name, and Enter, runs
    [ext2_cat] on exactly this name in the working directory: of the regular
    file that the name leads to, what ext2_cat can see is printed (C19), which
    is the whole file when it has no holes and is not larger than the direct
    blocks and the indirect one; and the shell goes on to its prompt with an
    empty line and the command in its history. *)
Theorem typed_cat_shows_file (name : list Z) (s : kshell) (w : world) (owned : list (Z * Z)) (ino buf r : Z) :
  cat_env e = sub_env (lookup_env e) ino buf -> dir_layout (lookup_env e) -> dir_layout (cat_env e) ->
  dir_layout (Files.indirect_env (cat_env e) (cat_indirect e)) ->
  cat_indirect e + g_block_size (fs (lookup_env e)) <= buf \/ buf + g_block_size (fs (lookup_env e)) <= cat_indirect e ->
  edits s (mkZip [] []) -> name <> [] -> Forall (fun c => 32 <= c < 127) name -> len name <= 250 ->
  node_ok (lookup_env e) disk inodes table (cwd w) -> ready (lookup_env e) disk inodes table (w_heap w) (w_disk w) owned ->
  child (lookup_env e) disk table (has_room (g_block_size (fs (lookup_env e))) (w_heap w)) (cwd w) name = r -> r <> 0 ->
  Files.kind_of (lookup_env e) disk table r = 0x8000 -> Files.file_ok (cat_env e) disk inodes table r ->
  0 < file_size (fs (lookup_env e)) disk (inode_pos (fs (lookup_env e)) table r) ->
  exists w1 w2, same_world w w1 /\
    ready (lookup_env e) disk inodes table (w_heap w2) (w_disk w2) owned /\
    screen w2 = Vga.vga_putc 10 (Files.put_chars (screen w1) (Files.cat_text (cat_env e) disk table r)) /\
    (Files.complete (cat_env e) disk table r ->
     screen w2 = Vga.vga_putc 10 (Files.put_chars (screen w1) (Files.file_text (cat_env e) disk table r))) /\
    shell_keys e fuel command (chars "cat " ++ name ++ [10]) s w =
    match prompt e fuel w2 with
    | Some w3 => Waiting (mkShell zero_buffer 0 0 (add_history (chars "cat " ++ name) (g_history s))
                            (len (add_history (chars "cat " ++ name) (g_history s)))) w3
    | None => No_return
    end.
Proof.
  intros He L Lc Li Hap Hs Hne Hname Hlen Hnode R Hr Hr0 Hkind Hfile Hsize.
  set (cmd := chars "cat " ++ name). assert (Hcmd : Forall (fun c => 32 <= c < 127) cmd).
  { apply Forall_app. split; [change (Forall (fun c => 32 <= c < 127) [99; 97; 116; 32]); repeat constructor; lia|done]. }
  assert (Hspec : forall t z, Forall (fun c => 32 <= c < 127) t -> after z = [] -> len (before z) + len t < SHELL_BUF_SIZE ->
            spec_line (t ++ [10]) z = Some (before z ++ t, [])).
  { clear. intros t z Ht. revert z. induction Ht as [|c t Hc Ht IH]; intros z Ha Hl; cbn [app spec_line]; [by rewrite app_nil_r|].
    rewrite len_cons in Hl. pose proof (len_nonneg t). replace (c =? 10) with false by lia.
    assert (Ek : spec_key c z = mkZip (before z ++ [c]) (after z)).
    { unfold spec_key. replace (c =? 8) with false by lia. replace (c =? 0x13) with false by lia. replace (c =? 0x14) with false by lia.
      unfold text. rewrite Ha, app_nil_r. by replace (len (before z) <? SHELL_BUF_SIZE - 1) with true by lia. }
    rewrite Ek, IH; cbn [before after]; [by rewrite <- app_assoc|done|rewrite len_snoc; lia]. }
  pose proof (shell_keys_ok e fuel command (cmd ++ [10]) s (mkZip [] []) w Hs) as Hrun.
  rewrite (Hspec cmd (mkZip [] []) Hcmd eq_refl) in Hrun.
  2: { unfold cmd. rewrite len_app. change (len (before (mkZip [] []))) with 0. change (len (chars "cat ")) with 4. unfold SHELL_BUF_SIZE. lia. }
  cbn [before app] in Hrun. destruct Hrun as (w1 & Hw1 & Hrun).
  { apply Forall_app. split; [|repeat constructor; unfold char_ok; lia].
    eapply list.Forall_impl; [exact Hcmd|]. intros c [? ?]. unfold char_ok. lia. }
  pose proof Hw1 as (Eh & Ed & Ecwd). assert (Hn0 : Forall (fun c => c <> 0) name).
  { eapply list.Forall_impl; [exact Hname|]. intros c [? ?]. lia. }
  rewrite He in Lc, Li, Hfile.
  destruct (Files.ext2_cat_ok (lookup_env e) ino buf disk inodes table L Lc (cat_indirect e) (cwd w) name (screen w1) (w_heap w) (w_disk w) owned
    Li Hap Hne Hn0 Hnode R) as (v' & h' & d' & E & R' & Hv').
  { intros _. rewrite Hr. apply Hfile. }
  { intros _. by rewrite Hr. }
  rewrite Hr, Hkind, (proj2 (Z.eqb_neq r 0) Hr0) in Hv'.
  change (0x8000 =? 0x4000) with false in Hv'. change (0x8000 =? 0x8000) with true in Hv'. cbn [negb] in Hv'.
  rewrite (proj2 (Z.eqb_neq _ 0)) in Hv' by lia.
  assert (Ec : command cmd w1 = Some (mkWorld v' h' d' (cwd w))).
  { unfold handle_command, cmd. change (chars "cat ") with [99; 97; 116; 32]. cbn [app].
    assert (Hnz : Forall (fun c => c <> 0) ([99; 97; 116; 32] ++ name)) by (repeat (constructor; [discriminate|]); done). cbn [app] in Hnz.
    destruct name as [|n0 name']; [done|]. not_called. cbn [drop]. rewrite Eh, Ed, Ecwd, He. rewrite (bind_some _ _ _ E). done. }
  exists w1, (mkWorld v' h' d' (cwd w)). split; [done|]. split; [done|]. split; [by rewrite He|].
  split; [intros Hco; rewrite He in Hco |- *; by rewrite <- Files.cat_text_complete|]. fold cmd. rewrite Ec in Hrun. cbn [mbind option_bind] in Hrun. unfold cmd in Hrun at 1. rewrite <- app_assoc in Hrun.
  rewrite Hrun. unfold next_history, cmd. cbn [chars]. done.
Qed.

End Programs.

(** C11: the command line is a text with a cursor: typing inserts at the cursor,
    backspace deletes in front of it, the arrows move it by one.  Enter runs
    what is left of the cursor, the rest of the line is lost; the line that is
    run comes into the history, and the buffer is empty again. *)
Theorem command_line_edits {H : Type} `{HA : Allocator H} {D : Type} `{HB : BlockDevice D} `{HK : KString}
    (e : kenv) (fuel : nat) (handle : list Z -> @world H D -> option (@world H D)) (keys : list Z) (s : kshell) (z : zipper) (w : world) :
  edits s z -> Forall (fun c => char_ok c /\ c <> 0x11 /\ c <> 0x12) keys ->
  match spec_line keys z with
  | Some (line, rest) => exists w1, same_world w w1 /\
      shell_keys e fuel handle keys s w =
      match (w ← handle line w1; prompt e fuel w) with
      | Some w' => shell_keys e fuel handle rest
                     (mkShell zero_buffer 0 0 (next_history line (g_history s)) (len (next_history line (g_history s)))) w'
      | None => No_return
      end
  | None => exists s' w', shell_keys e fuel handle keys s w = Waiting s' w' /\ same_world w w'
  end.
Proof. apply shell_keys_ok. Qed.

(** C39: typing behind a line of the history leaves the buffer: fetching the line
    sets the cursor but not the length, so that the test of the length comes
    too late.  With any line of at least two characters fetched into the empty
    command line, as many further characters as fit into the rest of the 256
    bytes and one more write behind them. *)
Theorem history_overflows_buffer {H : Type} `{HA : Allocator H} {D : Type} `{HB : BlockDevice D} `{HK : KString}
    (e : kenv) (fuel : nat) (handle : list Z -> @world H D -> option (@world H D)) (h : list (list Z)) (line : list Z) (c : Z)
    (k : nat) (w : world) :
  Forall char_ok line -> 2 <= len line < SHELL_BUF_SIZE -> char_ok c -> 32 <= c -> len line + Z.of_nat k = SHELL_BUF_SIZE + 1 ->
  shell_keys e fuel handle (0x11 :: replicate k c) (mkShell zero_buffer 0 0 (h ++ [line]) (len (h ++ [line]))) w = Left_buffer.
Proof.
  intros Hl Hn Hc Hc32 Hk. cbn [shell_keys]. unfold key. cbn [Z.eqb Pos.eqb g_history g_history_idx input_buffer pos slen].
  rewrite len_snoc. pose proof (len_nonneg h). replace (0 <? len h + 1) with true by lia. cbn [andb]. unfold load_line.
  cbn [g_history g_history_idx input_buffer pos slen]. replace (Z.to_nat (len h + 1 - 1)) with (length h) by (unfold len; lia).
  rewrite list_lookup_middle by done. cbn [default from_option id]. unfold strcpy. cbn [app].
  rewrite c_string_text by (by apply text_nonzero). apply typing_leaves_buffer; cbn [pos slen]; try done; lia.
Qed.

(** The call on a command line [l]. *)
Lemma parse_init_text (fuel : nat) (mb : Z) (m : mem) (path l : list Z) :
  Z.testbit (ld32 m mb) 2 = true -> ld32 m (mb + 16) <> 0 -> Files.text_at m (ld32 m (mb + 16)) l -> Forall char_ok l ->
  (length l <= fuel)%nat -> parse_init_cmdline fuel mb m path = Some (default path (init_of l)).
Proof.
  intros Hbit Hp Ht Hl Hf. unfold parse_init_cmdline.
  replace (Z.land (ld32 m mb) (Z.shiftl 1 2) =? 0) with false.
  - rewrite (proj2 (Z.eqb_neq _ 0) Hp). cbn [orb]. by rewrite (bind_some _ _ _ (find_init_text fuel m _ l Ht Hl Hf)).
  - symmetry. apply Z.eqb_neq. intros E0.
    assert (E1 : Z.testbit (Z.land (ld32 m mb) (Z.shiftl 1 2)) 2 = true) by (by rewrite Z.land_spec, Hbit).
    rewrite E0 in E1. done.
Qed.

(** The init parameter of the boot command line: the path of the first program
    is the first "init=" value, up to a blank and cut to the 127 characters
    that the array has room for; without it the path stays. *)
Theorem parse_init_finds (fuel : nat) (mb : Z) (m : mem) (path l : list Z) :
  Z.testbit (ld32 m mb) 2 = true -> ld32 m (mb + 16) <> 0 -> Files.text_at m (ld32 m (mb + 16)) l -> Forall char_ok l ->
  (length l <= fuel)%nat ->
  (forall pre v rest, l = pre ++ chars "init=" ++ v ++ rest -> 32 ∉ v -> rest = [] \/ head rest = Some 32 ->
     (forall i, (i < length pre)%nat -> starts (drop i l) (chars "init=") = false) ->
     parse_init_cmdline fuel mb m path = Some (take 127 v)) /\
  ((forall i, (i < length l)%nat -> starts (drop i l) (chars "init=") = false) -> parse_init_cmdline fuel mb m path = Some path).
Proof.
  intros Hbit Hp Ht Hl Hf. rewrite (parse_init_text fuel mb m path l) by done. split.
  - intros pre v rest El Hv Hrest Hpre. assert (Hi : init_of l = Some (word 127 (v ++ rest))).
    { clear - El Hpre. revert l El Hpre. induction pre as [|x pre IH]; intros l El Hpre.
      - cbn [app] in El. subst l. reflexivity.
      - destruct l as [|y l]; [done|]. cbn [app] in El. injection El as -> El. cbn [init_of].
        pose proof (Hpre 0%nat ltac:(cbn [length]; lia)) as H0. cbn [drop] in H0. rewrite H0. apply (IH l El).
        intros i Hi. apply (Hpre (S i)). cbn [length]. lia. }
    rewrite Hi. cbn [default from_option id]. f_equal. clear - Hv Hrest. generalize 127%nat. intros n. revert v Hv.
    induction n as [|n IH]; intros v Hv; [done|]. destruct v as [|c v]; cbn [app word take].
    + destruct rest as [|x rest]; [done|]. destruct Hrest as [|Hx]; [done|]. injection Hx as ->. done.
    + apply not_elem_of_cons in Hv as [Hc Hv]. replace (c =? 32) with false by lia. f_equal. by apply IH.
  - intros Hno. assert (Hi : init_of l = None).
    { clear - Hno. induction l as [|x l IH]; [done|]. cbn [init_of]. pose proof (Hno 0%nat ltac:(cbn [length]; lia)) as H0. cbn [drop] in H0. rewrite H0.
      apply IH. intros i Hi. apply (Hno (S i)). cbn [length]. lia. }
    by rewrite Hi.
Qed.

(** ** Witnesses: the root directory of Dir.v *)

#[local] Existing Instances c_strings c_strings_laws dir_heap dir_heap_laws ram_device ram_device_laws.

Definition demo_env : kenv :=
  mkEnv root_env root_env root_env (sub_env root_env 0x51000 0x62000) (sub_env root_env 0x52000 0x63000)
    (sub_env root_env 0x53000 0x65000) (sub_env root_env 0x54000 0x66000) 0x64000 0x70000
    0x71000 0x72000 0x73000 0x74000 0x90000.

Definition root_world : @world Heap.heap mem := mkWorld Vga.screen0 root_heap dir_image 2.

Definition no_elf (_ : Z) (w : @world Heap.heap mem) : option (option Z * @world Heap.heap mem) := Some (None, w).
Definition no_task (_ _ : Z) (_ : @world Heap.heap mem) : option (@world Heap.heap mem) := None.

(** "hi" is a file but no program. *)
Lemma program_start_checks_witness :
  exists h' d', handle_command demo_env 128 no_elf no_task no_task [47; 104; 105] root_world
    = Some (complain [chars "Error: Invalid or unsupported ELF" ++ [10]] (mkWorld Vga.screen0 h' d' 2)).
Proof.
  destruct (program_start_checks demo_env 128 no_elf no_task no_task dir_disk 16 5 [[104; 105]] [47; 104; 105] root_world []
    0x54000 0x66000 eq_refl root_layout (apart_layout 0x54000 0x66000 ltac:(lia) ltac:(lia))) as (h' & d' & _ & E).
  - repeat constructor; done || (cbn; lia).
  - done.
  - by left.
  - split; [exact root_node|]. intros _. exact I.
  - exact root_ready.
  - intros _. cbn [walk_tree]. rewrite root_child. vm_compute. repeat split; congruence.
  - exists h', d'. cbv zeta in E. change (path_env demo_env) with root_env in E. cbn [walk_tree] in E. rewrite root_child in E.
    change (first_named _ _) with 12 in E. change (12 =? 0) with false in E. cbv iota in E.
    assert (Ek : Files.kind_of root_env dir_disk 5 12 = 0x8000) by (vm_compute; reflexivity).
    assert (Es : file_size small_fs dir_disk (inode_pos small_fs 5 12) = 1030) by (vm_compute; reflexivity).
    rewrite Ek in E. change (fs root_env) with small_fs in E. rewrite Es in E.
    rewrite E. reflexivity.
Defined.

Lemma ls_shows_root_witness :
  exists w', handle_command demo_env 128 no_elf no_task no_task (chars "ls") root_world = Some w' /\ cwd w' = 2.
Proof.
  destruct (ls_shows_root demo_env 128 no_elf no_task no_task dir_disk 16 5 root_world [] root_layout) as (w' & E & Ec & _).
  - discriminate.
  - exact root_node.
  - vm_compute. reflexivity.
  - exact root_ready.
  - exists w'. split; [exact E|exact Ec].
Defined.

Lemma start_edits h i : edits (mkShell zero_buffer 0 0 h i) (mkZip [] []).
Proof.
  split; cbn [input_buffer pos slen before after]; unfold text; cbn [before after app]; try reflexivity; try constructor.
  intros j Hj. unfold len in Hj. cbn in Hj. lia.
Qed.

Lemma typed_cat_shows_file_witness :
  exists w1 w2 : @world Heap.heap mem, same_world root_world w1 /\
    screen w2 = Vga.vga_putc 10 (Files.put_chars (screen w1) (Files.cat_text (cat_env demo_env) dir_disk 5 12)).
Proof.
  destruct (typed_cat_shows_file demo_env 128 no_elf no_task no_task dir_disk 16 5 [104; 105] kshell_boot root_world [] 0x51000 0x62000 12)
    as (w1 & w2 & Hw & _ & Hv & _).
  - reflexivity.
  - exact root_layout.
  - apply (apart_layout 0x51000 0x62000); lia.
  - apply (apart_layout 0x51000 0x64000); lia.
  - right. vm_compute. congruence.
  - apply start_edits.
  - discriminate.
  - repeat constructor; lia.
  - vm_compute. congruence.
  - exact root_node.
  - exact root_ready.
  - by rewrite root_child.
  - discriminate.
  - vm_compute. reflexivity.
  - split.
    + vm_compute. repeat split; congruence.
    + intros b Hb. change (loadable _ _ _) with (loadable small_fs dir_disk (inode_pos small_fs 5 12)) in Hb.
      assert (E : loadable small_fs dir_disk (inode_pos small_fs 5 12) = 2) by (vm_compute; reflexivity). rewrite E in Hb.
      assert (Hc : b = 0 \/ b = 1) by lia. destruct Hc as [-> | ->]; vm_compute; congruence.
    + vm_compute. congruence.
  - vm_compute. reflexivity.
  - exists w1, w2. split; [exact Hw|exact Hv].
Defined.

(** "ab", the cursor left, Enter: the command is "a". *)
Lemma command_line_edits_witness :
  exists w1, same_world root_world w1 /\
    shell_keys demo_env 128 (fun _ _ => None) [97; 98; 0x13; 10] kshell_boot root_world = No_return.
Proof.
  pose proof (command_line_edits demo_env 128 (fun _ _ => None) [97; 98; 0x13; 10] kshell_boot (mkZip [] []) root_world
    (start_edits [] (-1))) as H.
  assert (E : spec_line [97; 98; 0x13; 10] (mkZip [] []) = Some ([97], [])) by (vm_compute; reflexivity). rewrite E in H.
  destruct H as (w1 & Hw & Hr); [repeat constructor; unfold char_ok; lia|]. exists w1. split; [exact Hw|exact Hr].
Defined.

Lemma history_overflows_buffer_witness :
  shell_keys demo_env 128 (fun _ w => Some w) (0x11 :: replicate 255 97) (mkShell zero_buffer 0 0 [[108; 115]] 1) root_world = Left_buffer.
Proof.
  apply (history_overflows_buffer demo_env 128 (fun _ w => Some w) [] [108; 115] 97 255 root_world).
  - repeat constructor; unfold char_ok; lia.
  - vm_compute. split; congruence.
  - unfold char_ok. lia.
  - lia.
  - vm_compute. reflexivity.
Defined.

(** "a init=/b c" at 0x9000. *)
Definition boot_text : list Z := [97; 32; 105; 110; 105; 116; 61; 47; 98; 32; 99].
Definition boot_info : mem := poke 0x9000 (boot_text ++ [0]) (st32 (st32 ∅ 0x8000 4) 0x8010 0x9000).

Lemma parse_init_finds_witness : parse_init_cmdline 16 0x8000 boot_info [46] = Some [47; 98].
Proof.
  destruct (parse_init_finds 16 0x8000 boot_info [46] boot_text) as [H _].
  - vm_compute. reflexivity.
  - vm_compute. congruence.
  - assert (Ea : ld32 boot_info (0x8000 + 16) = 0x9000) by (vm_compute; reflexivity). rewrite Ea. split; [|split].
    + intros i Hi. apply Z.eqb_eq. apply (check_range (fun i => ld8 boot_info (0x9000 + i) =? u8 (getZ boot_text i)) 0 11); [|exact Hi].
      vm_compute. reflexivity.
    + vm_compute. reflexivity.
    + repeat constructor; discriminate.
  - repeat constructor; unfold char_ok; lia.
  - cbn. lia.
  - apply (H [97; 32] [47; 98] [32; 99] eq_refl).
    + intros Hin. apply list_elem_of_In in Hin. cbn in Hin. lia.
    + by right.
    + intros i Hi. destruct i as [|[|i]]; [reflexivity|reflexivity|cbn in Hi; lia].
Defined.

End KShell.
