(* ===== verification/Boot.v ===== *)
(** * Bringing up the kernel: [kmain] of src/kernel/main.c

    The composition of the components: [kmain] calls them in the order of the
    code, on one machine state.  It ends in a panic, or hands over to
    [vfs_init] and [auto_enter_user_mode], which are not in the repository
    ([vfs_init] is a parameter).  Output that goes to the serial line only is
    left out. *)

From Stdlib Require Import ZifyBool String.
From S2P Require Import Prelude Cmem Pmm Paging Alloc Heap Block Disk Ext2 MemInit Vga Serial Traps Files Lines KShell.
Local Open Scope Z_scope.

Module Boot.

(** What the components of the kernel keep; [interrupts] is the flag IF. *)
Record machine {D : Type} := mkMachine {
  memory : MemInit.mm;                     (** frames, heap with the memory, paging registers *)
  console : Vga.vga;
  line : Serial.serial;
  gdt : list Traps.gdt_entry;
  traps : Traps.platform;                  (** IDT, interrupt controllers, table registers *)
  drive : D;
  runtime : Ext2.fs_runtime;
  fs_gdt : Z;
  g_sb : Z;
  g_mb_info_addr : Z;
  g_init_path : list Z;
  interrupts : bool
}.
Arguments machine : clear implicits.
Arguments mkMachine {D}.

Definition ram {D} (k : machine D) : mem := Heap.h_mem (MemInit.mm_heap (memory k)).
Definition with_ram (m : mem) (k : MemInit.mm) : MemInit.mm :=
  MemInit.mkMm (MemInit.mm_pmm k) (Heap.with_mem (MemInit.mm_heap k) m) (MemInit.g_paging_ready k)
    (MemInit.cr0 k) (MemInit.cr3 k).

Definition sti {D} (k : machine D) : machine D :=
  mkMachine (memory k) (console k) (line k) (gdt k) (traps k) (drive k) (runtime k) (fs_gdt k) (g_sb k)
    (g_mb_info_addr k) (g_init_path k) true.

(** Where the linker puts the arrays, and the entry points of boot.s. *)
Record image := mkImage {
  g_page_directory : Z; g_page_tables : Z; g_heap : Z; kernel_end : Z;
  gdt_addr : Z; tss : Z; idt_addr : Z;
  entry_points : Traps.stubs;
  buffers : Ext2.mount_buffers
}.

(** How [kmain] goes on: the message of a panic, or user mode. *)
Inductive boot_end {D : Type} :=
| Panics (msg : string) (k : machine D)
| EntersUserMode (k : machine D).
Arguments boot_end : clear implicits.
Arguments Panics {D}.
Arguments EntersUserMode {D}.

Section Kmain.
Context {D : Type} `{AtaPort D} `{BlockDevice D}.
Variable a : image.
Variable fuel : nat.                                     (** for the length of the command line *)
Variable vfs_init : machine D -> option (machine D).

(** The calls before the file system: [gdt_init], [idt_init], [memory_init]. *)
Definition init_cpu (k : machine D) : machine D :=
  let '(m, t, c) := Traps.gdt_init (gdt_addr a) (tss a) (ram k, gdt k, Traps.the_cpu (traps k)) in
  let p := Traps.mkPlatform (Traps.idt (traps k)) (Traps.pic_writes (traps k)) c in
  mkMachine (with_ram m (memory k)) (console k) (line k) t (Traps.idt_init (idt_addr a) (entry_points a) p)
    (drive k) (runtime k) (fs_gdt k) (g_sb k) (g_mb_info_addr k) (g_init_path k) (interrupts k).

Definition init_memory (mb_magic mb_info_addr : Z) (k : machine D) : option (machine D) :=
  mm ← MemInit.memory_init (g_page_directory a) (g_page_tables a) (g_heap a) (kernel_end a) mb_magic mb_info_addr (memory k);
  Some (mkMachine mm (console k) (line k) (gdt k) (traps k) (drive k) (runtime k) (fs_gdt k) (g_sb k)
          (g_mb_info_addr k) (g_init_path k) (interrupts k)).

(** The file system, and what follows: [fs_gdt] and [g_sb] are set when the
    magic number is right. *)
Definition init_fs (k : machine D) : option (boot_end D) :=
  '(r, g, m, d) ← Ext2.mount (buffers a) (runtime k) (ram k) (drive k);
  let mounted := mkMachine (with_ram m (memory k)) (console k) (line k) (gdt k) (traps k) d g
    (Ext2.gdt_buffer (buffers a)) (Ext2.sb_buffer (buffers a)) (g_mb_info_addr k) (g_init_path k) (interrupts k) in
  match r with
  | Ext2.Mounted =>
      k ← vfs_init mounted;
      Some (EntersUserMode (sti k))
  | Ext2.NotDirectory => Some (Panics "Filesystem Error" mounted)
  | Ext2.NotExt2 =>
      Some (Panics "Error: Not an Ext2 filesystem (Magic mismatch)."
              (mkMachine (with_ram m (memory k)) (console k) (line k) (gdt k) (traps k) d g
                 (fs_gdt k) (g_sb k) (g_mb_info_addr k) (g_init_path k) (interrupts k)))
  end.

Definition kmain (mb_magic mb_info_addr : Z) (k : machine D) : option (boot_end D) :=
  let v := Vga.set_cell 0 0x4F41 (console k) in
  let '(found, d) := Disk.ata_init (drive k) in
  let k := mkMachine (memory k) v (line k) (gdt k) (traps k) d (runtime k) (fs_gdt k) (g_sb k)
             (g_mb_info_addr k) (g_init_path k) (interrupts k) in
  if negb found then Some (Panics "ATA subsystem failed to initialize." k)
  else
    path ← KShell.parse_init_cmdline fuel mb_info_addr (ram k) (g_init_path k);
    let k := mkMachine (memory k) (Vga.clear_screen (console k)) (Serial.serial_init (line k)) (gdt k) (traps k) (drive k)
               (runtime k) (fs_gdt k) (g_sb k) mb_info_addr path (interrupts k) in
    k ← init_memory mb_magic mb_info_addr (init_cpu k);
    init_fs k.

End Kmain.

(** ** Specification *)

Definition tss_area (a : image) (x : Z) : Prop := tss a <= x < tss a + Traps.sizeof_tss.

(** The command line at the multiboot information, as text, if there is one. *)
Definition command_line (fuel : nat) (m : mem) (mb : Z) (cmd : option (list Z)) : Prop :=
  match cmd with
  | None => Z.testbit (ld32 m mb) 2 = false \/ ld32 m (mb + 16) = 0
  | Some l => Z.testbit (ld32 m mb) 2 = true /\ ld32 m (mb + 16) <> 0 /\
      Files.text_at m (ld32 m (mb + 16)) l /\ Forall Lines.char_ok l /\ (length l <= fuel)%nat
  end.

Definition init_path (cmd : option (list Z)) (path : list Z) : list Z := default path (l ← cmd; KShell.init_of l).

#[local] Existing Instance Disk.ata_device.

Section Spec.
Context {D : Type} `{P : AtaPort D} {n : nat} `{!Disk.AtaDrive D n}.
Variable a : image.
Variable fuel : nat.
Variables (disk : Z -> Z) (av : Z -> bool) (cmd : option (list Z)).

Abbreviation outside := (fun x => ~ Paging.table_area (g_page_directory a) (g_page_tables a) x /\ ~ tss_area a x).

(** The state in which boot.s calls [kmain]: the image of the kernel, the
    information of the boot loader, and a drive that holds [disk]. *)
Record boots_on (mb_magic mb : Z) (k : machine D) : Prop := {
  bt_layout : MemInit.init_layout (g_page_directory a) (g_page_tables a) (g_heap a) (kernel_end a);
  bt_apart x : tss_area a x \/ Ext2.mount_area (buffers a) x ->
    ~ MemInit.init_area (g_page_directory a) (g_page_tables a) (g_heap a) x;
  bt_tss x : tss_area a x -> ~ Ext2.mount_area (buffers a) x;
  bt_tss_u32 : is_u32 (tss a);
  bt_buffers : Ext2.buffers_ok (buffers a);
  bt_stubs : Traps.stubs_u32 (entry_points a);
  bt_cold : MemInit.g_paging_ready (memory k) = false /\ Heap.fresh (MemInit.mm_heap (memory k));
  bt_mb x : mb <= x < mb + 52 -> outside x;
  bt_info : MemInit.boot_info outside (ram k) mb_magic mb av;
  bt_cmd : command_line fuel (ram k) mb cmd;
  bt_gdt : length (gdt k) = 6%nat;
  bt_idt : length (Traps.idt (traps k)) = 256%nat;
  bt_screen : Vga.wf (console k);
  bt_runtime : runtime k = Ext2.fs_boot;
  bt_disk x : disk x = getZ (Disk.sectors (Disk.view (drive k)) (x / 512)) (x mod 512);
  bt_start : 0 <= Ext2.disk_start disk /\ Ext2.disk_start disk + 4 <= 2 ^ 28
}.

(** The flat segments, the kernel stack for interrupts in ring 3, and the gates. *)
Definition segments_ok (t : list Traps.gdt_entry) : Prop :=
  forall sel, sel ∈ [Traps.GDT_KERNEL_CODE; Traps.GDT_KERNEL_DATA; Traps.GDT_USER_CODE; Traps.GDT_USER_DATA] ->
    let d := Traps.descriptor t sel in
    Traps.seg_present d = true /\ Traps.seg_base d = 0 /\ Traps.seg_last d = 2 ^ 32 - 1 /\ Traps.seg_dpl d = sel mod 4.

Definition stack_ok (m : mem) : Prop := Traps.tss_ss0 m (tss a) = Traps.GDT_KERNEL_DATA /\ Traps.tss_esp0 m (tss a) = 0x90000.

Definition gates_ok (p : Traps.platform) : Prop :=
  forall j base user, (j < 256)%nat -> Traps.handler_of (entry_points a) j = Some (base, user) ->
    exists g, Traps.idt p !! j = Some g /\ Traps.gate_present g = true /\ Traps.gate_offset g = base /\
      Traps.gate_dpl g = (if decide (j = 0x80%nat) then 3 else 0).

(** What [kmain] has set up when it gets to the file system. *)
Record booted (mb : Z) (k k' : machine D) : Prop := {
  bd_memory : MemInit.ready (g_page_directory a) (g_page_tables a) (g_heap a) (kernel_end a) av (memory k');
  bd_segments : segments_ok (gdt k');
  bd_stack : stack_ok (ram k');
  bd_gates : gates_ok (traps k');
  bd_screen : Vga.wf (console k') /\ Vga.cursor_x (console k') = 0 /\ Vga.cursor_y (console k') = 0 /\
    forall j, 0 <= j < Vga.VGA_HEIGHT * Vga.VGA_WIDTH ->
      getZ (Vga.video_mem (console k')) j = Vga.g_current_color (console k) * 256 + 32;
  bd_disk : holds disk (drive k');
  bd_path : g_init_path k' = init_path cmd (g_init_path k);
  bd_rest : g_mb_info_addr k' = mb /\ interrupts k' = interrupts k
}.

Definition mounted (k' : machine D) : Prop :=
  runtime k' = Ext2.disk_fs disk /\
  Ext2.s_inodes_count (ram k') (g_sb k') = Ext2.disk_inodes disk /\
  Ext2.bg_inode_table (ram k') (fs_gdt k') = Ext2.disk_inode_table disk.

(** ** The steps *)

Variables (mb_magic mb : Z).

Lemma command_ok m cmd' path :
  command_line fuel m mb cmd' -> KShell.parse_init_cmdline fuel mb m path = Some (init_path cmd' path).
Proof.
  destruct cmd' as [l|]; cbn [command_line]; unfold init_path; cbn [mbind option_bind].
  - intros (H1 & H2 & H3 & H4 & H5). by apply KShell.parse_init_text.
  - intros Hn. unfold KShell.parse_init_cmdline. replace (_ || _) with true; [done|]. symmetry. apply orb_true_iff.
    destruct Hn as [Hn|Hn]; [left|right; by apply Z.eqb_eq]. apply Z.eqb_eq.
    apply Z.bits_inj'. intros i Hi. rewrite Z.land_spec, Z.bits_0. change (Z.shiftl 1 2) with (2 ^ 2).
    rewrite Z.pow2_bits_eqb by lia. destruct (Z.eqb_spec 2 i) as [<-|]; [by rewrite Hn|apply andb_false_r].
Qed.

Lemma init_cpu_ok (k : machine D) :
  length (gdt k) = 6%nat -> length (Traps.idt (traps k)) = 256%nat -> is_u32 (tss a) -> Traps.stubs_u32 (entry_points a) ->
  mem_wf (ram k) ->
  exists m t p, init_cpu a k = mkMachine (with_ram m (memory k)) (console k) (line k) t p (drive k) (runtime k) (fs_gdt k)
      (g_sb k) (g_mb_info_addr k) (g_init_path k) (interrupts k) /\
    mem_wf m /\ same_outside (tss_area a) (ram k) m /\
    segments_ok t /\ stack_ok m /\ gates_ok p.
Proof.
  intros Hg Hi Ht Hs Hm. unfold init_cpu.
  pose proof (Traps.gdt_init_protects (gdt_addr a) (tss a) (ram k) (gdt k) (Traps.the_cpu (traps k)) Hg Ht) as HG.
  assert (Hw : mem_wf (Traps.gdt_init (gdt_addr a) (tss a) (ram k, gdt k, Traps.the_cpu (traps k))).1.1)
    by (by apply Traps.tss_init_wf).
  destruct (Traps.gdt_init _ _ _) as [[m t] c]. cbn [fst] in Hw. destruct HG as (H1 & _ & _ & H2 & H3 & _ & _ & H4).
  eexists m, t, _. split; [reflexivity|]. split; [done|]. split; [done|]. split; [|split; [done|]].
  - intros sel Hsel. destruct (H1 sel Hsel) as (E1 & _ & E2 & E3 & E4 & _). done.
  - intros j base user Hj Hh.
    destruct (Traps.idt_init_gates (idt_addr a) (entry_points a)
      (Traps.mkPlatform (Traps.idt (traps k)) (Traps.pic_writes (traps k)) c) j) as (g & E & Hd); try done.
    rewrite Hh in Hd. destruct Hd as (E1 & E2 & _ & _ & E3). by exists g.
Qed.

(** The kernel up to the file system. *)
Definition up_to_fs (k : machine D) : option (machine D) :=
  path ← KShell.parse_init_cmdline fuel mb (ram k) (g_init_path k);
  init_memory a mb_magic mb (init_cpu a (mkMachine (memory k) (Vga.clear_screen (console k)) (Serial.serial_init (line k))
    (gdt k) (traps k) (drive k) (runtime k) (fs_gdt k) (g_sb k) mb path (interrupts k))).

Lemma up_to_fs_ok (k0 k : machine D) d :
  boots_on mb_magic mb k0 -> holds disk d ->
  k = mkMachine (memory k0) (Vga.set_cell 0 0x4F41 (console k0)) (line k0) (gdt k0) (traps k0) d (runtime k0) (fs_gdt k0) (g_sb k0)
        (g_mb_info_addr k0) (g_init_path k0) (interrupts k0) ->
  exists k', up_to_fs k = Some k' /\ booted mb k0 k' /\ mem_wf (ram k') /\ runtime k' = Ext2.fs_boot.
Proof.
  intros B Hd ->. destruct B as [L Hap Htm Ht Hb Hs [Hc Hf] Hmb Hinfo Hcmd Hg Hi Hv Hr Hdisk _].
  unfold up_to_fs. change (ram (mkMachine (memory k0) _ _ _ _ _ _ _ _ _ _ _)) with (ram k0).
  cbn [g_init_path gdt traps console memory line drive runtime fs_gdt g_sb interrupts].
  rewrite (bind_some _ _ _ (command_ok (ram k0) cmd (g_init_path k0) Hcmd)).
  set (k1 := mkMachine _ (Vga.clear_screen _) _ _ _ _ _ _ _ _ _ _).
  destruct (init_cpu_ok k1) as (m & t & p & -> & Hm & Hsm & Hseg & Hst & Hga); try done; [apply Hf|].
  cbn [k1 memory console line drive runtime fs_gdt g_sb g_mb_info_addr g_init_path interrupts].
  unfold init_memory. cbn [memory console line gdt traps drive runtime fs_gdt g_sb g_mb_info_addr g_init_path interrupts].
  set (mm := with_ram m (memory k0)).
  destruct (MemInit.memory_init_ready' (g_page_directory a) (g_page_tables a) (g_heap a) (kernel_end a) mb_magic mb av mm L)
    as (mm' & E & R & _ & Hsm').
  { exact Hc. }
  { split; [apply Hf|exact Hm]. }
  { intros x Hx. by apply Hmb. }
  { apply (MemInit.boot_info_mono (fun x => ~ Paging.table_area (g_page_directory a) (g_page_tables a) x /\ ~ tss_area a x)); [tauto|].
    apply (MemInit.boot_info_same _ (ram k0)); [done| |done]. intros x [_ Hx]. by apply Hsm. }
  rewrite (bind_some _ _ _ E). eexists. split; [reflexivity|].
  assert (Hw : mem_wf (Heap.h_mem (MemInit.mm_heap mm'))) by (apply (Heap.inv_mem_wf (g_heap a) _ []), R).
  split; [|by rewrite Hr].
  destruct (Vga.clear_screen_spec (Vga.set_cell 0 0x4F41 (console k0))) as (V1 & V2 & V3 & _ & _ & V4); [by apply Vga.set_cell_wf; [vm_compute; intuition congruence|]|].
  split; cbn [memory console line gdt traps drive runtime fs_gdt g_sb g_mb_info_addr g_init_path interrupts]; try done.
  destruct Hst as [Hst1 Hst2].
  assert (Hin : forall i, tss a <= i < tss a + 12 -> ld8 (Heap.h_mem (MemInit.mm_heap mm')) i = ld8 m i).
  { intros i Hx. apply Hsm'. apply Hap. left. unfold tss_area, Traps.sizeof_tss. lia. }
  unfold stack_ok, ram. cbn [memory]. split; [rewrite <- Hst1; apply ld32_same|rewrite <- Hst2; apply ld32_same]; intros i Hx; apply Hin; lia.
Qed.

(** Mounting keeps what is set up before. *)
Lemma mounted_booted (k0 k : machine D) m d g fg sb :
  boots_on mb_magic mb k0 -> booted mb k0 k -> mem_wf m -> holds disk d ->
  same_outside (Ext2.mount_area (buffers a)) (ram k) m ->
  booted mb k0 (mkMachine (with_ram m (memory k)) (console k) (line k) (gdt k) (traps k) d g fg sb
                  (g_mb_info_addr k) (g_init_path k) (interrupts k)).
Proof.
  intros B [H1 H2 [H3 H4] H5 H6 H7 H8 H9] Hm Hd Hs. destruct B as [L Hap Htm _ _ _ _ _ _ _ _ _ _ _ _ _].
  split; cbn [memory console line gdt traps drive g_mb_info_addr g_init_path interrupts]; try done.
  - apply MemInit.ready_writes; try done. intros x Hx. apply Hs. intros Hx'. by apply (Hap x); [right|].
  - assert (Hin : forall i, tss a <= i < tss a + 12 -> ld8 m i = ld8 (ram k) i).
    { intros i Hx. apply Hs. apply Htm. unfold tss_area, Traps.sizeof_tss. lia. }
    split; [rewrite <- H3|rewrite <- H4]; apply ld32_same; intros i Hx; apply Hin; lia.
Qed.

Lemma init_fs_ok (vfs_init : machine D -> option (machine D)) (k0 k : machine D) :
  Z.of_nat n < 999999 -> boots_on mb_magic mb k0 -> booted mb k0 k -> mem_wf (ram k) -> runtime k = Ext2.fs_boot ->
  (Ext2.mountable disk ->
   exists k', booted mb k0 k' /\ mounted k' /\
     init_fs a vfs_init k =
       if Z.land (Ext2.root_mode disk) 0xF000 =? 0x4000
       then k'' ← vfs_init k'; Some (EntersUserMode (sti k'')) else Some (Panics "Filesystem Error" k')) /\
  (Ext2.disk_magic disk <> 0xEF53 ->
   exists k', booted mb k0 k' /\ init_fs a vfs_init k = Some (Panics "Error: Not an Ext2 filesystem (Magic mismatch)." k')).
Proof.
  intros Hn B K Hm Hr. pose proof (Disk.ata_device_laws (D := D) Hn) as HL.
  pose proof (bt_buffers _ _ _ B) as Hb. pose proof (bt_start _ _ _ B) as [S0 S1]. pose proof (bd_disk _ _ _ K) as Hd.
  unfold init_fs. rewrite Hr. split.
  - intros Hmt. destruct (Ext2.mount_ok disk (buffers a) (ram k) (drive k) Hd Hm Hb Hmt)
      as (m & d & E & Hd' & Hm' & Ei & Et & Hs).
    rewrite (bind_some _ _ _ E). cbv zeta.
    eexists. split; [by eapply (mounted_booted k0 k m d)|]. split; [|by case_match].
    split_and!; done.
  - intros Hmg. destruct (Ext2.mount_not_ext2 disk (buffers a) (ram k) (drive k) Hd Hm Hb S0 S1 Hmg)
      as (g & m & d & E & Hd' & Hm' & Hs).
    rewrite (bind_some _ _ _ E). cbv zeta. eexists. split; [|reflexivity]. by apply (mounted_booted k0 k m d).
Qed.

End Spec.

(** ** Properties *)

(** C6: booting composes.  Called by boot.s on a machine whose drive answers in
    time and holds a supported file system, [kmain] gets to the end with every
    component in the state that its users need, all at once: paging and frames
    and heap ready, flat segments, the kernel stack for ring 3 in the TSS and
    a handler behind every gate (later steps overwrite none of it), an empty
    screen, the path of the first program from the boot command line, and the
    file system of the disk.  It enters user mode, with interrupts on, exactly
    when the root inode is a directory; otherwise, and without the ext2 magic
    number, it panics with the message for this. *)
Theorem kmain_boots {D : Type} `{P : AtaPort D} {n : nat} `{!Disk.AtaDrive D n}
    (a : image) (fuel : nat) (disk : Z -> Z) (av : Z -> bool) (cmd : option (list Z))
    (vfs_init : machine D -> option (machine D)) (mb_magic mb : Z) (k : machine D) :
  Z.of_nat n < 100000 -> boots_on a fuel disk av cmd mb_magic mb k ->
  (Ext2.mountable disk ->
   exists k', booted a disk av cmd mb k k' /\ mounted disk k' /\
     kmain a fuel vfs_init mb_magic mb k =
       if Z.land (Ext2.root_mode disk) 0xF000 =? 0x4000
       then k'' ← vfs_init k'; Some (EntersUserMode (sti k'')) else Some (Panics "Filesystem Error" k')) /\
  (Ext2.disk_magic disk <> 0xEF53 ->
   exists k', booted a disk av cmd mb k k' /\
     kmain a fuel vfs_init mb_magic mb k = Some (Panics "Error: Not an Ext2 filesystem (Magic mismatch)." k')).
Proof.
  intros Hn B. destruct (Disk.ata_init_finds_drive (drive k) Hn) as (d & E & Hsec & Hpend).
  assert (Hd : holds disk d) by (split; [done|]; intros x; rewrite Hsec; apply B).
  destruct (up_to_fs_ok a fuel disk av cmd mb_magic mb k _ d B Hd eq_refl) as (k1 & E1 & K & Hm & Hr).
  assert (Ek : kmain a fuel vfs_init mb_magic mb k = init_fs a vfs_init k1).
  { unfold kmain. rewrite E. cbn [negb]. unfold up_to_fs in E1.
    apply bind_Some in E1 as (path & Ep & E2). rewrite (bind_some _ _ _ Ep). by rewrite (bind_some _ _ _ E2). }
  rewrite Ek. apply (init_fs_ok a fuel disk av cmd mb_magic mb vfs_init k k1); try done. lia.
Qed.

(** Without a drive, when every status read gives 0xFF, the kernel panics
    before anything else is set up. *)
Theorem kmain_without_drive `{BlockDevice nat} (a : image) (fuel : nat) (vfs_init : machine nat -> option (machine nat))
    (status : nat -> Z) (mb_magic mb : Z) (k : machine nat) :
  (forall i, status i = 0xFF) ->
  exists k', @kmain nat (Disk.polled status) _ a fuel vfs_init mb_magic mb k
             = Some (Panics "ATA subsystem failed to initialize." k') /\ memory k' = memory k /\ traps k' = traps k.
Proof.
  intros Hs. unfold kmain.
  assert (E : exists j, @Disk.ata_init nat (Disk.polled status) (drive k) = (false, j)).
  { change (Disk.polled status) with (Disk.status_port status). unfold Disk.ata_init.
    cbn [outb Disk.status_port Disk.polled].
    rewrite (Disk.reset_wait_busy status Disk.ata_timeout) by (intros; by rewrite Hs). cbn [Z.eqb].
    destruct Disk.ata_timeout; cbn [Disk.drdy_wait inb Disk.status_port Disk.polled]; rewrite Hs; by eexists. }
  destruct E as [j ->]. cbn [negb]. by eexists.
Qed.

(** ** A boot: the PC of MemInit.v, the disk of Ext2.v behind the drive of Disk.v *)

#[local] Instance pc_port : AtaPort Disk.drive_view := Disk.sim_port 3.
#[local] Instance pc_ata : Disk.AtaDrive Disk.drive_view 3 := Disk.sim_drive 3.

Definition pc_drive : Disk.drive_view :=
  Disk.mkView (fun lba => List.map (fun i => Ext2.small_disk (512 * lba + i)) (seqZ 0 512)) (fun _ => 0) [] 0.

Lemma pc_drive_disk x : Ext2.small_disk x = getZ (Disk.sectors (Disk.view pc_drive) (x / 512)) (x mod 512).
Proof.
  assert (Hx : 0 <= x mod 512 < 512) by (apply Z.mod_pos_bound; lia).
  cbn [Disk.view pc_ata Disk.sim_drive Disk.sim_cap Disk.sectors pc_drive].
  rewrite resize_all_alt by (by rewrite length_map, length_seqZ). unfold getZ.
  rewrite List.map_map, list_lookup_fmap, lookup_seqZ_lt by lia.
  cbn [fmap option_fmap option_map default from_option id]. rewrite Z2Nat.id, Z.add_0_l by lia.
  rewrite <- (Z.div_mod x 512) by lia. rewrite u8_small; [done|]. apply (proj1 Ext2.small_holds).
Qed.

(** With the command line "a init=/b c". *)
Definition pc_ram : mem :=
  poke 0x9200 (KShell.boot_text ++ [0])
    (MemInit.put32 [ (0x9000, 0x45); (0x9010, 0x9200); (0x902C, 48); (0x9030, 0x9100);
                     (0x9100, 20); (0x9104, 0); (0x910C, 0x9FC00); (0x9114, 1);
                     (0x9118, 20); (0x911C, 0x100000); (0x9124, 0x7F00000); (0x912C, 1) ] ∅).

Definition pc : machine Disk.drive_view :=
  mkMachine (MemInit.mkMm (Pmm.mkPmm 0 0 []) (Heap.mkHeap pc_ram 0 false) false 0x11 0) Vga.screen0 (Serial.mkSerial 0 [])
    (replicate 6 Traps.null_gdt_entry) Traps.boot_platform pc_drive Ext2.fs_boot 0 0 0 (chars "./shell.elf") false.

Definition pc_image : image :=
  mkImage 0x300000 0x301000 Heap.heap_at 0x400000 0x180000 0x180100 0x180200 Traps.boot_stubs Ext2.kernel_buffers.

Ltac area := unfold Paging.table_area, MemInit.init_area, tss_area, Ext2.mount_area, Paging.table_area;
  change (4096 * Paging.IDENTITY_TABLES) with 0x20000; change Heap.HEAP_SIZE with 0x80000; change Traps.sizeof_tss with 104;
  cbn [pc_image g_page_directory g_page_tables g_heap tss buffers Ext2.kernel_buffers Ext2.mbr_buffer Ext2.sb_buffer
       Ext2.gdt_buffer Ext2.safe_inode_buf Ext2.root_inode]; change Heap.heap_at with 0x200000; lia.

Lemma pc_boots :
  boots_on pc_image 16 Ext2.small_disk (MemInit.available MemInit.pc_map) (Some KShell.boot_text) MemInit.MULTIBOOT_MAGIC 0x9000 pc.
Proof.
  split.
  - apply MemInit.pc_layout.
  - intros x. area.
  - intros x. area.
  - unfold is_u32. cbn. lia.
  - apply Ext2.kernel_buffers_ok.
  - apply Traps.boot_stubs_u32.
  - split; [done|]. split; [done|]. change (mem_wf pc_ram). apply poke_wf, MemInit.put32_wf, mem_wf_empty.
  - intros x Hx. split; revert Hx; area.
  - apply MemInit.bi_map; [done|lia|vm_compute; reflexivity| |repeat constructor; vm_compute; congruence].
    cbn [MemInit.mmap_rep MemInit.pc_map MemInit.en_size].
    split; [vm_compute; reflexivity|]. split; [vm_compute; reflexivity|].
    split; [change (u32 _) with 0x9100; intros x Hx; split; revert Hx; area|]. split; [lia|].
    split; [vm_compute; reflexivity|]. split; [vm_compute; reflexivity|].
    split; [change (u32 _) with 0x9118; intros x Hx; split; revert Hx; area|]. split; [lia|vm_compute; discriminate].
  - split; [vm_compute; reflexivity|]. split; [vm_compute; congruence|].
    assert (Ea : ld32 (ram pc) (0x9000 + 16) = 0x9200) by (vm_compute; reflexivity). rewrite Ea.
    split; [split; [|split]|split; [|cbn; lia]].
    + intros i Hi. apply Z.eqb_eq.
      apply (check_range (fun i => ld8 (ram pc) (0x9200 + i) =? u8 (getZ KShell.boot_text i)) 0 11); [|exact Hi].
      vm_compute. reflexivity.
    + vm_compute. reflexivity.
    + repeat constructor; discriminate.
    + repeat constructor; unfold Lines.char_ok; lia.
  - done.
  - done.
  - apply Vga.screen0_wf.
  - done.
  - apply pc_drive_disk.
  - split; vm_compute; congruence.
Qed.

Lemma kmain_boots_witness :
  exists k', kmain pc_image 16 Some MemInit.MULTIBOOT_MAGIC 0x9000 pc = Some (EntersUserMode (sti k')) /\
    g_init_path k' = [47; 98] /\ runtime k' = Ext2.mkFs 1024 128 8 0 /\ interrupts (sti k') = true.
Proof.
  destruct (kmain_boots pc_image 16 Ext2.small_disk (MemInit.available MemInit.pc_map) (Some KShell.boot_text) Some
              MemInit.MULTIBOOT_MAGIC 0x9000 pc) as [H _]; [lia|exact pc_boots|].
  destruct (H Ext2.small_mountable) as (k' & K & (Hr & _) & E).
  assert (Er : (Z.land (Ext2.root_mode Ext2.small_disk) 0xF000 =? 0x4000) = true) by (vm_compute; reflexivity).
  assert (Eg : Ext2.disk_fs Ext2.small_disk = Ext2.mkFs 1024 128 8 0) by (vm_compute; reflexivity).
  rewrite Er in E. rewrite Eg in Hr. exists k'. split; [exact E|]. split; [exact (bd_path _ _ _ _ _ _ _ K)|].
  split; [exact Hr|reflexivity].
Defined.

End Boot.
